(** * Hybrid product search: a shallow embedding of [product_search.py]

    The development follows the class [SearchSimilarProduct]:
    [_load_embeddings], [_correct_input] and [search_similar_products].

    Conventions.
    - A Python [str] is a [string]; an [ascii] stands for the code point of
      the same number (code points below 256).
    - A Python or NumPy float is the rational it denotes ([Q]); NaN and the
      infinities are not represented.  Comparisons and sorting are exact;
      an arithmetic operation gives the binary64 number nearest to the
      exact result (module [F64]), so [self.vectors - consult_emb],
      [1 / (1 + dist)], [* 100] and the two kinds of [round] give the
      numbers that the interpreter gives.
    - Library calls whose result is fixed by the library's documentation are
      written out ([str.strip], [str.split], slicing, [list.sort], [max],
      [round], [difflib], NumPy broadcasting, [np.frombuffer], [np.array],
      [round] on a [numpy.float64]).
      The calls whose result is not fixed by their documentation are fields
      of the class [Libs]: the row norm as NumPy computes it in floating
      point, the tie order of [np.argsort] (its default kind is not stable)
      and the scorer of [rapidfuzz].  Their documented contracts are
      separate propositions, and appear as hypotheses where they are used.
      For the examples, [NpSort] and [RefLibs] write the three calls out
      as the sources of the libraries compute them. *)

From Stdlib Require Import ZArith QArith Qround Qpower List String Ascii.
From Stdlib Require Strings.Byte OrderedTypeEx.
From Stdlib Require Import Bool Lia Lqa Permutation Sorted Arith FinFun.
Import ListNotations.

Set Implicit Arguments.

(* ================================================================== *)
(** ** Python strings *)

Module PyStr.

(** [str.isspace] on one code point below 256: TAB..CR, FS..US, SPACE,
    NEL (0x85) and NBSP (0xA0). *)
Definition isspace (c : ascii) : bool :=
  let n := N_of_ascii c in
  (((9 <=? n) && (n <=? 13)) || ((28 <=? n) && (n <=? 32))
   || (n =? 133) || (n =? 160))%N.

Fixpoint lstrip_chars (l : list ascii) : list ascii :=
  match l with
  | [] => []
  | c :: r => if isspace c then lstrip_chars r else l
  end.

Definition rstrip_chars (l : list ascii) : list ascii :=
  rev (lstrip_chars (rev l)).

Definition strip_chars (l : list ascii) : list ascii :=
  rstrip_chars (lstrip_chars l).

(** [s.strip()] *)
Definition strip (s : string) : string :=
  string_of_list_ascii (strip_chars (list_ascii_of_string s)).

(** [s.split()]: the maximal runs of non-whitespace, in order.  [cur] is the
    run being read, reversed. *)
Fixpoint split_chars (cur : list ascii) (l : list ascii) : list (list ascii) :=
  match l with
  | [] => match cur with [] => [] | _ => [rev cur] end
  | c :: r =>
      if isspace c
      then match cur with
           | [] => split_chars [] r
           | _ => rev cur :: split_chars [] r
           end
      else split_chars (c :: cur) r
  end.

Definition split (s : string) : list string :=
  map string_of_list_ascii (split_chars [] (list_ascii_of_string s)).

(** [sep.join(parts)] *)
Fixpoint join (sep : string) (parts : list string) : string :=
  match parts with
  | [] => EmptyString
  | [p] => p
  | p :: r => (p ++ sep ++ join sep r)%string
  end.

(** [s[:n]] for [n >= 0] *)
Definition prefix (n : nat) (s : string) : string := substring 0 n s.

End PyStr.

(* ================================================================== *)
(** ** Python sequences: slicing, stable sort, [heapq.nlargest] *)

Module PySeq.

Section Seq.
Variable A : Type.

(** [l[:k]] for a list or a one-dimensional array and a Python [int] [k]:
    a negative [k] counts from the end. *)
Definition slice_to (l : list A) (k : Z) : list A :=
  if (0 <=? k)%Z
  then firstn (Z.to_nat k) l
  else firstn (List.length l - Z.to_nat (- k)) l.

(** [l.sort(key=..., reverse=True)]: stable, descending.  [gtb x y] says
    that the key of [x] is strictly greater than the key of [y].  The result
    of a stable sort does not depend on the algorithm, so insertion stands
    for CPython's. *)
Variable gtb : A -> A -> bool.

Fixpoint insert_desc (x : A) (l : list A) : list A :=
  match l with
  | [] => [x]
  | y :: r => if gtb y x then y :: insert_desc x r else x :: l
  end.

Fixpoint sort_desc (l : list A) : list A :=
  match l with
  | [] => []
  | x :: r => insert_desc x (sort_desc r)
  end.

(** [heapq.nlargest(n, l)], documented as [sorted(l, reverse=True)[:n]]
    (for [n = 1] CPython takes [max], the first of the greatest items, which
    is the head of the stable descending sort). *)
Definition nlargest (n : nat) (l : list A) : list A :=
  firstn n (sort_desc l).

End Seq.

End PySeq.

(* ================================================================== *)
(** ** Floats

    IEEE 754 binary64, rounding to nearest with ties to the even
    significand.  The exponent has no upper limit here: an operation that
    overflows in the interpreter is outside of what is modelled. *)

Module F64.

(** Round to the nearest integer, halves to the even one ([rint]). *)
Definition rint (x : Q) : Z :=
  let f := Qfloor x in
  let r := (x - inject_Z f)%Q in
  match Qcompare r (1 # 2) with
  | Lt => f
  | Gt => (f + 1)%Z
  | Eq => if Z.even f then f else (f + 1)%Z
  end.

(** [floor (log2 x)] of a positive [x] *)
Definition exponent (x : Q) : Z :=
  let e := (Z.log2 (Qnum x) - Z.log2 (Zpos (Qden x)))%Z in
  if Qle_bool (2 ^ e) x then e else (e - 1)%Z.

(** The exponent of the unit in the last place of a positive [x]: 53
    significant bits, and no unit below [2^-1074]. *)
Definition ulp_exponent (x : Q) : Z := Z.max (exponent x - 52) (-1074).

(** The nearest multiple of the unit in the last place, for [0 <= x]. *)
Definition nearest_abs (x : Q) : Q :=
  let u := (2 ^ ulp_exponent x)%Q in
  (inject_Z (rint (x / u)) * u)%Q.

(** The binary64 number nearest to [x], ties to the even significand. *)
Definition nearest (x : Q) : Q :=
  Qred (if Qle_bool 0 x then nearest_abs x else - nearest_abs (- x))%Q.

Definition add (x y : Q) : Q := nearest (x + y).
Definition sub (x y : Q) : Q := nearest (x - y).
Definition mul (x y : Q) : Q := nearest (x * y).
Definition div (x y : Q) : Q := nearest (x / y).

(** The binary64 number nearest to the square root of [x], for [0 <= x]:
    with the unit [2^s], [sqrt x / 2^s] lies between [r] and [r + 1] for
    [r] the integer square root of [x / 4^s], and is compared with
    [r + 1/2] by its square. *)
Definition sqrt (x : Q) : Q :=
  let s := Z.max (exponent x / 2 - 52) (-1074) in
  let t := (x / 2 ^ (2 * s))%Q in
  let r := Z.sqrt (Qfloor t) in
  let m := match Qcompare t (inject_Z (r * r + r) + (1 # 4)) with
           | Lt => r
           | Gt => (r + 1)%Z
           | Eq => if Z.even r then r else (r + 1)%Z
           end in
  Qred (inject_Z m * 2 ^ s).

End F64.

Module PyFloat.

Definition ltb (x y : Q) : bool := negb (Qle_bool y x).
Definition geb (x y : Q) : bool := Qle_bool y x.
Definition gtb (x y : Q) : bool := negb (Qle_bool x y).

(** [round(x, ndigits)] on a Python [float]: the decimal of [ndigits]
    places nearest to [x], halves to the even one, and of that decimal the
    nearest float. *)
Definition round (x : Q) (ndigits : nat) : Q :=
  let s := inject_Z (10 ^ Z.of_nat ndigits) in
  F64.nearest (inject_Z (F64.rint (x * s)%Q) / s)%Q.

End PyFloat.

(* ================================================================== *)
(** ** Exceptions and the monad of a [try] block *)

(** The subclasses of [Exception] that the search path can meet. *)
Inductive exn : Type :=
| ValueError (msg : string)
| AxisError (msg : string)
| IndexError (msg : string)
| OtherError (cls msg : string).

Inductive result (A : Type) : Type :=
| Ok (a : A)
| Raise (e : exn).
Arguments Ok {A} a.
Arguments Raise {A} e.

(** A computation over a mutable state [S] that may raise: the state it
    leaves behind is kept when it raises, as Python keeps the objects a
    [try] block has already mutated. *)
Definition Py (S A : Type) : Type := S -> result A * S.

Definition ret {S A} (a : A) : Py S A := fun s => (Ok a, s).

Definition bind {S A B} (m : Py S A) (k : A -> Py S B) : Py S B :=
  fun s => match m s with
           | (Ok a, s') => k a s'
           | (Raise e, s') => (Raise e, s')
           end.

Definition lift {S A} (r : result A) : Py S A := fun s => (r, s).

Definition modify {S} (f : S -> S) : Py S unit := fun s => (Ok tt, f s).

Definition get {S} : Py S S := fun s => (Ok s, s).

Declare Scope py_scope.
Delimit Scope py_scope with py.
Notation "x <- m ;; k" := (bind m (fun x => k))
  (at level 100, m at next level, right associativity) : py_scope.
Notation "m ;;; k" := (bind m (fun _ => k))
  (at level 100, right associativity) : py_scope.

(** [for x in l: body x] *)
Fixpoint for_each {S A} (l : list A) (body : A -> Py S unit) : Py S unit :=
  match l with
  | [] => ret tt
  | x :: r => bind (body x) (fun _ => for_each r body)
  end.

(** [l[i]] on a Python list *)
Definition list_index {A} (l : list A) (i : nat) : result A :=
  match nth_error l i with
  | Some x => Ok x
  | None => Raise (IndexError "list index out of range")
  end.

(* ================================================================== *)
(** ** Library calls left to the libraries *)

Class Libs : Type := {
  (** [np.linalg.norm] of one row, as NumPy computes it *)
  linalg_norm : list Q -> Q;
  (** [np.argsort] with its default kind *)
  argsort : list Q -> list nat;
  (** [rapidfuzz.fuzz.token_sort_ratio] *)
  token_sort_ratio : string -> string -> Q
}.

(** The indices in [l] are in non-decreasing order of their values in [d]. *)
Definition sorted_by (d : list Q) (l : list nat) : Prop :=
  StronglySorted (fun i j => (nth i d 0 <= nth j d 0)%Q) l.

(** NumPy: "Returns the indices that would sort an array." *)
Definition argsort_contract `{Libs} : Prop :=
  forall d, Permutation (argsort d) (seq 0 (List.length d))
            /\ sorted_by d (argsort d).

(** A sort that keeps equal values in their original order. *)
Definition argsort_stable `{Libs} : Prop :=
  forall d l1 i l2 j l3,
    argsort d = l1 ++ i :: l2 ++ j :: l3 ->
    (nth i d 0 == nth j d 0)%Q -> (i < j)%nat.

(** A norm is not negative. *)
Definition norm_contract `{Libs} : Prop :=
  forall v, (0 <= linalg_norm v)%Q.


(* ================================================================== *)
(** ** NumPy: buffers, arrays, broadcasting *)

Module Np.

(** The arrays of this program: [Array1 data] has shape [(len data,)];
    [Array2 cols rows] has shape [(len rows, cols)], every row of length
    [cols]. *)
Inductive ndarray : Type :=
| Array1 (data : list Q)
| Array2 (cols : nat) (rows : list (list Q)).

(** The value of an IEEE 754 binary32 bit pattern (exponent field below
    255): [(-1)^s * significand * 2^(e - 150)]. *)
Definition f32_value (bits : N) : Q :=
  let m := Z.of_N (N.land bits 8388607) in
  let e := Z.of_N (N.land (N.shiftr bits 23) 255) in
  let s := N.testbit bits 31 in
  let signif := if (e =? 0)%Z then m else (8388608 + m)%Z in
  let e' := Z.max e 1 in
  let v := Qred (Qmake (signif * 2 ^ e') (2 ^ 150)) in
  if s then Qopp v else v.

(** Four bytes, little-endian. *)
Definition word_le (b0 b1 b2 b3 : Byte.byte) : N :=
  (Byte.to_N b0 + 256 * Byte.to_N b1 + 65536 * Byte.to_N b2
   + 16777216 * Byte.to_N b3)%N.

Fixpoint decode_f32 (fuel : nat) (buf : list Byte.byte) : list Q :=
  match fuel, buf with
  | S f, b0 :: b1 :: b2 :: b3 :: r => f32_value (word_le b0 b1 b2 b3) :: decode_f32 f r
  | _, _ => []
  end.

(** [np.frombuffer(buf, dtype=np.float32)] *)
Definition frombuffer (buf : list Byte.byte) : result (list Q) :=
  if (List.length buf mod 4 =? 0)%nat
  then Ok (decode_f32 (List.length buf) buf)
  else Raise (ValueError "buffer size must be a multiple of element size").

(** [np.array(vs)] on a Python list of one-dimensional arrays (NumPy 1.24
    and later): an empty list gives shape [(0,)], rows of one length a
    matrix, anything else is refused. *)
Definition array (vs : list (list Q)) : result ndarray :=
  match vs with
  | [] => Ok (Array1 [])
  | v :: _ =>
      if forallb (fun w => (List.length w =? List.length v)%nat) vs
      then Ok (Array2 (List.length v) vs)
      else Raise (ValueError "inhomogeneous shape")
  end.

(** Broadcasting of two trailing dimensions. *)
Definition broadcast_dim (n m : nat) : option nat :=
  if (n =? m)%nat then Some n
  else if (n =? 1)%nat then Some m
  else if (m =? 1)%nat then Some n
  else None.

(** Element [i] of a one-dimensional operand stretched by broadcasting. *)
Definition bget (l : list Q) (i : nat) : Q :=
  nth (if (List.length l =? 1)%nat then 0%nat else i) l 0.

Definition sub_row (k : nat) (row q : list Q) : list Q :=
  map (fun i => F64.sub (bget row i) (bget q i)) (seq 0 k).

(** [m - q] for a one-dimensional [q] *)
Definition subtract (m : ndarray) (q : list Q) : result ndarray :=
  match m with
  | Array1 data =>
      match broadcast_dim (List.length data) (List.length q) with
      | Some k => Ok (Array1 (sub_row k data q))
      | None => Raise (ValueError "operands could not be broadcast together")
      end
  | Array2 cols rows =>
      match broadcast_dim cols (List.length q) with
      | Some k => Ok (Array2 k (map (fun row => sub_row k row q) rows))
      | None => Raise (ValueError "operands could not be broadcast together")
      end
  end.

(** [np.linalg.norm(m, axis=1)] *)
Definition linalg_norm_axis1 `{Libs} (m : ndarray) : result (list Q) :=
  match m with
  | Array1 _ => Raise (AxisError "axis 1 is out of bounds for array of dimension 1")
  | Array2 _ rows => Ok (map linalg_norm rows)
  end.

(** [d[i]] on a one-dimensional array *)
Definition index (d : list Q) (i : nat) : result Q :=
  match nth_error d i with
  | Some x => Ok x
  | None => Raise (IndexError "index is out of bounds for axis 0")
  end.

(** [round(x, decimals)] on a [numpy.float64], for [decimals] from 1 to
    8: [__round__] goes to [ndarray.round], which multiplies by
    [10 ** decimals], takes [np.rint] and divides, each in binary64. *)
Definition around (x : Q) (decimals : nat) : Q :=
  let f := inject_Z (10 ^ Z.of_nat decimals) in
  F64.div (inject_Z (F64.rint (F64.mul x f))) f.

End Np.

(* ================================================================== *)
(** ** difflib: [SequenceMatcher] and [get_close_matches] *)

Module Difflib.

Definition count (c : ascii) (l : list ascii) : nat :=
  count_occ ascii_dec l c.

Section Matcher.

(** [SequenceMatcher(None, a, b)], with [autojunk] on. *)
Variables a b : list ascii.

Definition elt (l : list ascii) (i : nat) : ascii := nth i l zero.

(** [__chain_b]: with at least 200 elements in [b], an element that occurs
    more than [len(b) // 100 + 1] times is popular and leaves [b2j]. *)
Definition popular (c : ascii) : bool :=
  ((200 <=? List.length b) && (List.length b / 100 + 1 <? count c b))%nat.

(** [b2j.get(c, [])]: the indices of [c] in [b], ascending. *)
Definition b2j (c : ascii) : list nat :=
  if popular c then []
  else filter (fun j => Ascii.eqb (elt b j) c) (seq 0 (List.length b)).

(** [j2len.get(j - 1, 0)] *)
Definition get_prev (j2len : nat -> nat) (j : nat) : nat :=
  match j with
  | O => O
  | S j' => j2len j'
  end.

(** The state of the double loop of [find_longest_match]: [newj2len] and
    [(besti, bestj, bestsize)]. *)
Definition best : Type := (nat * nat * nat)%type.

Definition inner_step (blo bhi i : nat) (j2len : nat -> nat)
    (st : (nat -> nat) * best) (j : nat) : (nat -> nat) * best :=
  let '(newj2len, (besti, bestj, bestsize)) := st in
  if (j <? blo)%nat then st                (* continue *)
  else if (bhi <=? j)%nat then st          (* break: the indices ascend *)
  else
    let k := S (get_prev j2len j) in
    (fun j' => if (j' =? j)%nat then k else newj2len j',
     if (bestsize <? k)%nat then (i + 1 - k, j + 1 - k, k)%nat
     else (besti, bestj, bestsize)).

Definition outer_step (blo bhi : nat) (st : (nat -> nat) * best) (i : nat)
    : (nat -> nat) * best :=
  let '(j2len, bst) := st in
  fold_left (inner_step blo bhi i j2len) (b2j (elt a i)) (fun _ => O, bst).

(** The first [while]: extend the block to the left over equal elements. *)
Fixpoint extend_left (fuel alo blo : nat) (bst : best) : best :=
  let '(besti, bestj, bestsize) := bst in
  match fuel with
  | O => bst
  | S f =>
      if ((alo <? besti) && (blo <? bestj)
          && Ascii.eqb (elt a (besti - 1)) (elt b (bestj - 1)))%nat
      then extend_left f alo blo (besti - 1, bestj - 1, S bestsize)%nat
      else bst
  end.

(** The second [while]: extend it to the right. *)
Fixpoint extend_right (fuel ahi bhi : nat) (bst : best) : best :=
  let '(besti, bestj, bestsize) := bst in
  match fuel with
  | O => bst
  | S f =>
      if ((besti + bestsize <? ahi) && (bestj + bestsize <? bhi)
          && Ascii.eqb (elt a (besti + bestsize)) (elt b (bestj + bestsize)))%nat
      then extend_right f ahi bhi (besti, bestj, S bestsize)
      else bst
  end.

(** [find_longest_match(alo, ahi, blo, bhi)].  With [isjunk=None] the set
    [bjunk] is empty, so the two last loops of the source, which extend the
    block over junk, never run. *)
Definition find_longest_match (alo ahi blo bhi : nat) : best :=
  let '(_, bst) :=
    fold_left (outer_step blo bhi) (seq alo (ahi - alo))
              (fun _ => O, (alo, blo, O)) in
  let bst1 := extend_left (List.length a) alo blo bst in
  extend_right (List.length a) ahi bhi bst1.

(** [get_matching_blocks()] before adjacent blocks are merged and the
    sentinel is added: the source takes windows from a queue and sorts the
    blocks at the end; here the window to the left is expanded first. *)
Fixpoint matching_blocks (fuel alo ahi blo bhi : nat) : list best :=
  match fuel with
  | O => []
  | S f =>
      let '(i, j, k) := find_longest_match alo ahi blo bhi in
      if (k =? 0)%nat then []
      else
        (if ((alo <? i) && (blo <? j))%nat
         then matching_blocks f alo i blo j else [])
        ++ (i, j, k)
        :: (if ((i + k <? ahi) && (j + k <? bhi))%nat
            then matching_blocks f (i + k) ahi (j + k) bhi else [])
  end.

(** [_calculate_ratio(matches, length)] *)
Definition calculate_ratio (matches length : nat) : Q :=
  match length with
  | O => 1
  | S _ => Qmake (2 * Z.of_nat matches) (Pos.of_nat length)
  end.

(** [ratio()] *)
Definition ratio : Q :=
  let blocks :=
    matching_blocks (S (List.length a)) 0 (List.length a) 0 (List.length b) in
  calculate_ratio (list_sum (map (fun t : best => snd t) blocks))
                  (List.length a + List.length b).

(** [quick_ratio()]: [avail] starts as [fullbcount]. *)
Definition quick_step (st : (ascii -> Z) * nat) (c : ascii) : (ascii -> Z) * nat :=
  let '(avail, matches) := st in
  let numb := avail c in
  (fun c' => if Ascii.eqb c' c then (numb - 1)%Z else avail c',
   if (0 <? numb)%Z then S matches else matches).

Definition quick_ratio : Q :=
  let '(_, matches) :=
    fold_left quick_step a (fun c => Z.of_nat (count c b), O) in
  calculate_ratio matches (List.length a + List.length b).

(** [real_quick_ratio()] *)
Definition real_quick_ratio : Q :=
  calculate_ratio (Nat.min (List.length a) (List.length b))
                  (List.length a + List.length b).

End Matcher.

(** Python's [>] on the pairs [(score, x)]. *)
Definition pair_gtb (p1 p2 : Q * string) : bool :=
  PyFloat.gtb (fst p1) (fst p2)
  || (Qeq_bool (fst p1) (fst p2) && String.ltb (snd p2) (snd p1)).

(** [get_close_matches(word, possibilities, n, cutoff)] for [n > 0] and
    [0 <= cutoff <= 1]; [word] is sequence 2 and each possibility is
    sequence 1. *)
Definition close_enough (cutoff : Q) (word x : string) : bool :=
  let sa := list_ascii_of_string x in
  let sb := list_ascii_of_string word in
  PyFloat.geb (real_quick_ratio sa sb) cutoff
  && PyFloat.geb (quick_ratio sa sb) cutoff
  && PyFloat.geb (ratio sa sb) cutoff.

Definition scored (word x : string) : Q * string :=
  (ratio (list_ascii_of_string x) (list_ascii_of_string word), x).

Definition get_close_matches (word : string) (possibilities : list string)
    (n : nat) (cutoff : Q) : list string :=
  let result :=
    map (scored word) (filter (close_enough cutoff word) possibilities) in
  map snd (PySeq.nlargest pair_gtb n result).

End Difflib.

(* ================================================================== *)
(** ** Reference implementations of the library fields *)

Module RapidFuzz.

(** One row of the longest-common-subsequence table: [prev] is the row
    above without its first column, [diag] the entry above-left and [left]
    the entry to the left. *)
Fixpoint lcs_row (x : ascii) (bs : list ascii) (prev : list nat)
    (diag left : nat) : list nat :=
  match bs, prev with
  | c :: bs', p :: prev' =>
      let v := if Ascii.eqb x c then S diag else Nat.max p left in
      v :: lcs_row x bs' prev' p v
  | _, _ => []
  end.

Definition lcs_length (s1 s2 : list ascii) : nat :=
  last (fold_left (fun row x => lcs_row x s2 row 0 0) s1 (repeat O (List.length s2))) O.

(** [fuzz.ratio]: the normalized Indel similarity, times 100. *)
Definition ratio (s1 s2 : string) : Q :=
  let l1 := list_ascii_of_string s1 in
  let l2 := list_ascii_of_string s2 in
  match (List.length l1 + List.length l2)%nat with
  | O => 100
  | S _ as n => Qmake (200 * Z.of_nat (lcs_length l1 l2)) (Pos.of_nat n)
  end.

(** [sorted(tokens)] *)
Definition sorted_tokens (tokens : list string) : list string :=
  PySeq.sort_desc (fun x y => String.ltb x y) tokens.

(** [fuzz.token_sort_ratio(s1, s2)] with no processor (rapidfuzz 3) *)
Definition token_sort_ratio (s1 s2 : string) : Q :=
  ratio (PyStr.join " " (sorted_tokens (PyStr.split s1)))
        (PyStr.join " " (sorted_tokens (PyStr.split s2))).

End RapidFuzz.

(* ================================================================== *)
(** ** NumPy: [np.argsort] with its default kind

    [npy_aquicksort] of [npysort/quicksort.cpp] as it sorts the indices
    when no vectorised kernel is dispatched: a quicksort on the median of
    three with an insertion sort for the partitions of at most 17 indices,
    and a heap sort for a partition that comes too deep.  [tosort] is the
    array of indices, [pl], [pr], [pi], [pj] and [pk] are positions in
    it. *)

Module NpSort.

Section Sort.
(** The values to sort, [v]. *)
Variable v : list Q.

(** [Tag::less(v[i], v[j])] *)
Definition less (i j : nat) : bool := PyFloat.ltb (nth i v 0) (nth j v 0).

Definition at_ (tosort : list nat) (p : nat) : nat := nth p tosort 0%nat.

Fixpoint put (tosort : list nat) (p : nat) (x : nat) : list nat :=
  match tosort, p with
  | [], _ => []
  | _ :: r, O => x :: r
  | y :: r, S p' => y :: put r p' x
  end.

(** [INTP_SWAP] of the entries at [p] and [q] *)
Definition swap (tosort : list nat) (p q : nat) : list nat :=
  put (put tosort p (at_ tosort q)) q (at_ tosort p).

(** [INTP_SWAP] of the two entries if the value of the first is less *)
Definition swap_if_less (tosort : list nat) (p q : nat) : list nat :=
  if less (at_ tosort p) (at_ tosort q) then swap tosort p q else tosort.

(** [do ++pi; while (Tag::less(v[*pi], vp))], for the pivot index [ip] *)
Fixpoint scan_up (fuel : nat) (tosort : list nat) (ip pi : nat) : nat :=
  match fuel with
  | O => pi
  | S f => if less (at_ tosort (S pi)) ip
           then scan_up f tosort ip (S pi) else S pi
  end.

(** [do --pj; while (Tag::less(vp, v[*pj]))] *)
Fixpoint scan_down (fuel : nat) (tosort : list nat) (ip pj : nat) : nat :=
  match fuel with
  | O => pj
  | S f => if less ip (at_ tosort (pj - 1))
           then scan_down f tosort ip (pj - 1) else (pj - 1)%nat
  end.

(** The [for (;;)] of the partition; gives the array and [pi]. *)
Fixpoint partition_loop (fuel : nat) (tosort : list nat) (ip pi pj : nat)
    : list nat * nat :=
  match fuel with
  | O => (tosort, pi)
  | S f =>
      let pi := scan_up (List.length tosort) tosort ip pi in
      let pj := scan_down (List.length tosort) tosort ip pj in
      if (pj <=? pi)%nat then (tosort, pi)
      else partition_loop f (swap tosort pi pj) ip pi pj
  end.

(** One partition of the positions [pl..pr]. *)
Definition partition (tosort : list nat) (pl pr : nat) : list nat * nat :=
  let pm := (pl + (pr - pl) / 2)%nat in
  let tosort := swap_if_less tosort pm pl in
  let tosort := swap_if_less tosort pr pm in
  let tosort := swap_if_less tosort pm pl in
  let ip := at_ tosort pm in
  let tosort := swap tosort pm (pr - 1) in
  let '(tosort, pi) :=
    partition_loop (List.length tosort) tosort ip pl (pr - 1) in
  (swap tosort pi (pr - 1), pi).

(** The [while] of the insertion sort: the entries greater than [vi] move
    one position up, and [vi] goes to the position that is left. *)
Fixpoint shift (fuel : nat) (tosort : list nat) (pl pj vi : nat) : list nat :=
  match fuel with
  | O => put tosort pj vi
  | S f =>
      if (pl <? pj)%nat && less vi (at_ tosort (pj - 1))
      then shift f (put tosort pj (at_ tosort (pj - 1))) pl (pj - 1) vi
      else put tosort pj vi
  end.

Fixpoint insertion (fuel : nat) (tosort : list nat) (pl pi pr : nat)
    : list nat :=
  match fuel with
  | O => tosort
  | S f =>
      if (pi <=? pr)%nat
      then insertion f (shift (List.length tosort) tosort pl pi (at_ tosort pi))
                     pl (S pi) pr
      else tosort
  end.

(** [aheapsort_] on the [n] positions from [pl]; [a[k]] is the position
    [pl + k - 1]. *)
Definition heap_at (tosort : list nat) (pl k : nat) : nat :=
  at_ tosort (pl + k - 1).

Definition heap_put (tosort : list nat) (pl k x : nat) : list nat :=
  put tosort (pl + k - 1) x.

(** The inner [for (i, j; j <= n;)] of both loops, then [a[i] = tmp]. *)
Fixpoint sift (fuel : nat) (tosort : list nat) (pl n tmp i j : nat)
    : list nat :=
  match fuel with
  | O => heap_put tosort pl i tmp
  | S f =>
      if (j <=? n)%nat then
        let j := if (j <? n)%nat
                      && less (heap_at tosort pl j) (heap_at tosort pl (j + 1))
                 then (j + 1)%nat else j in
        if less tmp (heap_at tosort pl j)
        then sift f (heap_put tosort pl i (heap_at tosort pl j)) pl n tmp j (j + j)
        else heap_put tosort pl i tmp
      else heap_put tosort pl i tmp
  end.

(** [for (l = n >> 1; l > 0; --l)] *)
Fixpoint heapify (l : nat) (tosort : list nat) (pl n : nat) : list nat :=
  match l with
  | O => tosort
  | S l' =>
      heapify l' (sift n tosort pl n (heap_at tosort pl l) l (l + l)) pl n
  end.

(** [for (; n > 1;)] *)
Fixpoint drain (fuel : nat) (tosort : list nat) (pl n : nat) : list nat :=
  match fuel with
  | O => tosort
  | S f =>
      if (1 <? n)%nat then
        let tmp := heap_at tosort pl n in
        let tosort := heap_put tosort pl n (heap_at tosort pl 1) in
        drain f (sift n tosort pl (n - 1) tmp 1 2) pl (n - 1)
      else tosort
  end.

Definition aheapsort (tosort : list nat) (pl n : nat) : list nat :=
  drain n (heapify (n / 2) tosort pl n) pl n.

(** [SMALL_QUICKSORT] *)
Definition SMALL_QUICKSORT : nat := 16.

(** The inner [while ((pr - pl) > SMALL_QUICKSORT)] with the insertion
    sort that follows it ([inner = true]), and a partition taken from the
    stack, which is first tested for its depth ([inner = false]).  The
    larger part of a partition goes on the stack with the depth of that
    moment, the loop goes on with the smaller one. *)
Fixpoint sort_part (fuel : nat) (inner : bool) (tosort : list nat)
    (pl pr : nat) (cdepth : Z) : list nat :=
  match fuel with
  | O => tosort
  | S f =>
      if negb inner && (cdepth <? 0)%Z
      then aheapsort tosort pl (pr - pl + 1)
      else if (SMALL_QUICKSORT <? pr - pl)%nat then
        let '(tosort, pi) := partition tosort pl pr in
        let cdepth := (cdepth - 1)%Z in
        if (pi - pl <? pr - pi)%nat
        then sort_part f false (sort_part f true tosort pl (pi - 1) cdepth)
                       (pi + 1) pr cdepth
        else sort_part f false (sort_part f true tosort (pi + 1) pr cdepth)
                       pl (pi - 1) cdepth
      else insertion (List.length tosort) tosort pl (pl + 1) pr
  end.

End Sort.

(** [np.argsort(v)] *)
Definition argsort (v : list Q) : list nat :=
  let num := List.length v in
  sort_part v (S num) false (seq 0 num) 0 (num - 1)
            (2 * Z.log2 (Z.of_nat num)).

End NpSort.

Module RefLibs.

(** [add.reduce] over a row of [float64]: the pairwise sum of NumPy's
    [pairwise_sum].  Fewer than 8 numbers are added in order; up to 128
    are added into 8 partial sums, which are then added two by two, and
    the numbers left over are added last; more are cut in two, the first
    part of a length that is a multiple of 8. *)
Fixpoint add_blocks (fuel : nat) (r a : list Q) : list Q * list Q :=
  match fuel with
  | O => (r, a)
  | S f =>
      if (8 <=? List.length a)%nat
      then add_blocks f (map (fun p => F64.add (fst p) (snd p))
                             (combine r (firstn 8 a)))
                      (skipn 8 a)
      else (r, a)
  end.

Definition unrolled_sum (a : list Q) : Q :=
  let '(r, rest) := add_blocks (List.length a) (firstn 8 a) (skipn 8 a) in
  let r_ := fun j => nth j r 0 in
  let res :=
    F64.add (F64.add (F64.add (r_ 0%nat) (r_ 1%nat))
                     (F64.add (r_ 2%nat) (r_ 3%nat)))
            (F64.add (F64.add (r_ 4%nat) (r_ 5%nat))
                     (F64.add (r_ 6%nat) (r_ 7%nat))) in
  fold_left F64.add rest res.

Fixpoint pairwise_sum (fuel : nat) (a : list Q) : Q :=
  let n := List.length a in
  if (n <? 8)%nat then fold_left F64.add a 0
  else if (n <=? 128)%nat then unrolled_sum a
  else
    match fuel with
    | O => unrolled_sum a
    | S f =>
        let n2 := (n / 2 - (n / 2) mod 8)%nat in
        F64.add (pairwise_sum f (firstn n2 a)) (pairwise_sum f (skipn n2 a))
    end.

(** [np.linalg.norm] of one row: [sqrt(add.reduce(x * x))]. *)
Definition norm (v : list Q) : Q :=
  F64.sqrt (F64.add 0 (pairwise_sum (List.length v)
                                    (map (fun x => F64.mul x x) v))).

(** A stable argsort: the indices sorted by their values, equal values in
    their original order. *)
Definition argsort_stable_impl (d : list Q) : list nat :=
  PySeq.sort_desc (fun i j => PyFloat.ltb (nth i d 0) (nth j d 0))
                  (seq 0 (List.length d)).

(** The libraries with a stable [np.argsort]. *)
Definition stable : Libs := {|
  linalg_norm := norm;
  argsort := argsort_stable_impl;
  token_sort_ratio := RapidFuzz.token_sort_ratio |}.

(** The libraries with the [np.argsort] of [NpSort]. *)
Definition numpy : Libs := {|
  linalg_norm := norm;
  argsort := NpSort.argsort;
  token_sort_ratio := RapidFuzz.token_sort_ratio |}.

End RefLibs.

(* ================================================================== *)
(** ** The log *)

Inductive LogMsg : Type :=
| MsgSearching (head : string)
| MsgCorrected (original corrected : string)
| MsgFoundSemantic (n : nat)
| MsgFallback
| MsgFoundFuzzy (n : nat)
| MsgSearchError (e : exn)
| MsgLoaded (n : nat)
| MsgLoadFailed (e : exn).

Inductive LogRecord : Type :=
| Info (m : LogMsg)
| Error (m : LogMsg).

(** What [logger] has written so far. *)
Definition World : Type := list LogRecord.

(** [try: body  except Exception as e: handler e] *)
Definition try_except {S A} (body : Py S A) (handler : exn -> Py S A) : Py S A :=
  fun s => match body s with
           | (Ok a, s') => (Ok a, s')
           | (Raise e, s') => handler e s'
           end.

Definition raise {S A} (e : exn) : Py S A := fun s => (Raise e, s).

(* ================================================================== *)
(** ** The class [SearchSimilarProduct] *)

(** An entry of [self.products]. *)
Record Product : Type := {
  id : Z;
  code : string;
  description : string
}.

(** A row of [embeddings_products]: id, code, description and the bytes
    that [blob.read()] gives. *)
Record Row : Type := {
  row_id : Z;
  row_code : string;
  row_description : string;
  row_blob : list Byte.byte
}.

(** [self.conn], through the only statement the class runs on it: what
    [cursor()], [execute] and [fetchall] give. *)
Record Connection : Type := {
  select_embeddings : result (list Row)
}.

(** [self.embedding]: a deterministic provider. *)
Record Embeddings : Type := {
  embed_query : string -> result (list Q)
}.

Record SearchSimilarProduct : Type := {
  conn : Connection;
  top_k : Z;
  minimal_distance : Q;
  embedding : Embeddings;
  vectors : Np.ndarray;
  products : list Product
}.

(** An item of [results["semantics"]]. *)
Record SemanticMatch : Type := {
  sem_id : Z;
  sem_code : string;
  sem_description : string;
  similarity : Q;
  distance : Q
}.

(** An item of [results["fallback_fuzzy"]]. *)
Record FuzzyMatch : Type := {
  fuzzy_id : Z;
  fuzzy_code : string;
  fuzzy_description : string;
  score_fuzzy : Q
}.

(** The dict [results]. *)
Record Results : Type := {
  consult_original : string;
  consult_used : string;
  semantics : list SemanticMatch;
  fallback_fuzzy : list FuzzyMatch
}.

Definition log_to (r : LogRecord) : Py World unit :=
  modify (fun w => w ++ [r]).

(** The loop of [_load_embeddings] over the fetched rows: the two lists
    grow together. *)
Fixpoint load_rows (rows : list Row) (vs : list (list Q)) (ps : list Product)
    : result (list (list Q) * list Product) :=
  match rows with
  | [] => Ok (vs, ps)
  | r :: rest =>
      match Np.frombuffer (row_blob r) with
      | Ok vector =>
          load_rows rest (vs ++ [vector])
            (ps ++ [{| id := row_id r; code := row_code r;
                       description := row_description r |}])
      | Raise e => Raise e
      end
  end.

(** [_load_embeddings]: gives [self.vectors] and [self.products], or
    raises again what it caught. *)
Definition _load_embeddings (c : Connection)
    : Py World (Np.ndarray * list Product) :=
  try_except
    (rows <- lift (select_embeddings c) ;;
     vp <- lift (load_rows rows [] []) ;;
     arr <- lift (Np.array (fst vp)) ;;
     log_to (Info (MsgLoaded (List.length (snd vp)))) ;;;
     ret (arr, snd vp))%py
    (fun e => log_to (Error (MsgLoadFailed e)) ;;; raise e)%py.

(** [__init__], from the connection and the embeddings client it has
    built: the object exists only if [_load_embeddings] returns. *)
Definition init (k : Z) (min_dist : Q) (c : Connection) (emb : Embeddings)
    : Py World SearchSimilarProduct :=
  (vp <- _load_embeddings c ;;
   ret {| conn := c; top_k := k; minimal_distance := min_dist;
          embedding := emb; vectors := fst vp; products := snd vp |})%py.

(** [_correct_input] *)
Definition _correct_input (self : SearchSimilarProduct) (input_user : string)
    : string :=
  let descriptions := map description (products self) in
  let suggestions :=
    Difflib.get_close_matches input_user descriptions 1 (6 # 10) in
  match suggestions with
  | s :: _ => s
  | [] => input_user
  end.

(** The state of the [try] block of [search_similar_products]: the dict
    [results], which the block mutates, and the log. *)
Record Frame : Type := {
  results : Results;
  log : World
}.

Definition log_info (m : LogMsg) : Py Frame unit :=
  modify (fun f => {| results := results f; log := log f ++ [Info m] |}).

Definition log_error (m : LogMsg) : Py Frame unit :=
  modify (fun f => {| results := results f; log := log f ++ [Error m] |}).

(** [results["semantics"].append(m)] *)
Definition append_semantics (m : SemanticMatch) : Py Frame unit :=
  modify (fun f =>
    {| results :=
         {| consult_original := consult_original (results f);
            consult_used := consult_used (results f);
            semantics := semantics (results f) ++ [m];
            fallback_fuzzy := fallback_fuzzy (results f) |};
       log := log f |}).

(** [results["fallback_fuzzy"].append(m)] *)
Definition append_fuzzy (m : FuzzyMatch) : Py Frame unit :=
  modify (fun f =>
    {| results :=
         {| consult_original := consult_original (results f);
            consult_used := consult_used (results f);
            semantics := semantics (results f);
            fallback_fuzzy := fallback_fuzzy (results f) ++ [m] |};
       log := log f |}).

Section Search.
Context `{L : Libs}.

(** Lines 157-164: the dict appended for the product [match_] at distance
    [dist]. *)
Definition semantic_item (match_ : Product) (dist : Q) : SemanticMatch :=
  let similarity := F64.div 1 (F64.add 1 dist) in
  {| sem_id := id match_;
     sem_code := code match_;
     sem_description := description match_;
     similarity := Np.around (F64.mul similarity 100) 2;
     distance := Np.around dist 4 |}.

(** Lines 153-164: one turn of the loop over [top_indices]. *)
Definition semantic_step (self : SearchSimilarProduct) (dists : list Q)
    (idx : nat) : Py Frame unit :=
  (dist <- lift (Np.index dists idx) ;;
   if PyFloat.ltb dist (minimal_distance self) then
     match_ <- lift (list_index (products self) idx) ;;
     append_semantics (semantic_item match_ dist)
   else ret tt)%py.

(** Lines 170-174: the scored products, sorted by score, greatest first. *)
Definition better_fuzz (self : SearchSimilarProduct)
    (description_corrected : string) : list (Product * Q) :=
  PySeq.sort_desc (fun x y => PyFloat.gtb (snd x) (snd y))
    (map (fun product =>
            (product, token_sort_ratio description_corrected (description product)))
         (products self)).

(** Lines 177-182: the dict appended for [product] with [score]. *)
Definition fuzzy_item (ps : Product * Q) : FuzzyMatch :=
  let '(product, score) := ps in
  {| fuzzy_id := id product;
     fuzzy_code := code product;
     fuzzy_description := description product;
     score_fuzzy := PyFloat.round score 2 |}.

(** Lines 176-182: one turn of the loop over [better_fuzz[:self.top_k]]. *)
Definition fuzzy_step (ps : Product * Q) : Py Frame unit :=
  append_fuzzy (fuzzy_item ps).

(** Lines 146-184: the body of the [try]. *)
Definition search_body (self : SearchSimilarProduct)
    (description_corrected : string) : Py Frame unit :=
  (consult_emb <- lift (embed_query (embedding self) description_corrected) ;;
   diff <- lift (Np.subtract (vectors self) consult_emb) ;;
   dists <- lift (Np.linalg_norm_axis1 diff) ;;
   let top_indices := PySeq.slice_to (argsort dists) (top_k self) in
   for_each top_indices (semantic_step self dists) ;;;
   f <- get ;;
   log_info (MsgFoundSemantic (List.length (semantics (results f)))) ;;;
   match semantics (results f) with
   | [] =>
       log_info MsgFallback ;;;
       for_each (PySeq.slice_to (better_fuzz self description_corrected) (top_k self))
                fuzzy_step ;;;
       f' <- get ;;
       log_info (MsgFoundFuzzy (List.length (fallback_fuzzy (results f'))))
   | _ :: _ => ret tt
   end)%py.

(** [search_similar_products] *)
Definition search_similar_products (self : SearchSimilarProduct)
    (description_input : string) : Py World Results :=
  fun w =>
    let w1 := w ++ [Info (MsgSearching (PyStr.prefix 50 description_input))] in
    let description_input := PyStr.strip description_input in
    let description_corrected := _correct_input self description_input in
    let w2 :=
      if String.eqb description_corrected description_input then w1
      else w1 ++ [Info (MsgCorrected description_input description_corrected)] in
    let results0 :=
      {| consult_original := description_input;
         consult_used := description_corrected;
         semantics := [];
         fallback_fuzzy := [] |} in
    let '(_, f) :=
      try_except (search_body self description_corrected)
                 (fun e => log_error (MsgSearchError e))
                 {| results := results0; log := w2 |} in
    (Ok (results f), log f).

End Search.

(* ================================================================== *)
(** ** The object and the embeddings client as state

    [search_similar_products] once more, line by line, on a state that
    holds what a call could change: the attributes of [self], what the
    embeddings client keeps from one call to the next, and the log.  An
    attribute is read from the state where the source reads it. *)

Module OnHeap.

Section Object.
Context `{L : Libs}.

(** What the embeddings client keeps between two calls. *)
Variable Memory : Type.

(** [self.embedding.embed_query(text)]: what it gives or raises, and the
    client after the call. *)
Variable embed : string -> Memory -> result (list Q) * Memory.

Record Heap : Type := {
  self_conn : Connection;
  self_top_k : Z;
  self_minimal_distance : Q;
  self_vectors : Np.ndarray;
  self_products : list Product;
  client : Memory;
  logger : World
}.

(** The attributes of [self] that hold the store and its settings. *)
Definition store (h : Heap)
    : Connection * Z * Q * Np.ndarray * list Product :=
  (self_conn h, self_top_k h, self_minimal_distance h, self_vectors h,
   self_products h).

Definition logging (h : Heap) (r : LogRecord) : Heap :=
  {| self_conn := self_conn h; self_top_k := self_top_k h;
     self_minimal_distance := self_minimal_distance h;
     self_vectors := self_vectors h; self_products := self_products h;
     client := client h; logger := logger h ++ [r] |}.

Definition with_client (h : Heap) (memory : Memory) : Heap :=
  {| self_conn := self_conn h; self_top_k := self_top_k h;
     self_minimal_distance := self_minimal_distance h;
     self_vectors := self_vectors h; self_products := self_products h;
     client := memory; logger := logger h |}.

(** The state within the [try] block: the heap and the dict [results]. *)
Record Call : Type := {
  heap : Heap;
  dict : Results
}.

(** [self.f] *)
Definition attribute {A : Type} (f : Heap -> A) : Py Call A :=
  fun c => (Ok (f (heap c)), c).

Definition emit (r : LogRecord) : Py Call unit :=
  modify (fun c => {| heap := logging (heap c) r; dict := dict c |}).

Definition ask (text : string) : Py Call (list Q) :=
  fun c =>
    let '(answer, memory) := embed text (client (heap c)) in
    (answer, {| heap := with_client (heap c) memory; dict := dict c |}).

(** [results["semantics"].append(m)] *)
Definition append_semantics_on (m : SemanticMatch) : Py Call unit :=
  modify (fun c =>
    {| heap := heap c;
       dict :=
         {| consult_original := consult_original (dict c);
            consult_used := consult_used (dict c);
            semantics := semantics (dict c) ++ [m];
            fallback_fuzzy := fallback_fuzzy (dict c) |} |}).

(** [results["fallback_fuzzy"].append(m)] *)
Definition append_fuzzy_on (m : FuzzyMatch) : Py Call unit :=
  modify (fun c =>
    {| heap := heap c;
       dict :=
         {| consult_original := consult_original (dict c);
            consult_used := consult_used (dict c);
            semantics := semantics (dict c);
            fallback_fuzzy := fallback_fuzzy (dict c) ++ [m] |} |}).

(** [_correct_input], on the products it reads from [self]. *)
Definition _correct_input_on (products : list Product) (input_user : string)
    : string :=
  let descriptions := map description products in
  let suggestions :=
    Difflib.get_close_matches input_user descriptions 1 (6 # 10) in
  match suggestions with
  | s :: _ => s
  | [] => input_user
  end.

(** Lines 153-164. *)
Definition semantic_step_on (dists : list Q) (idx : nat) : Py Call unit :=
  (dist <- lift (Np.index dists idx) ;;
   minimal_distance <- attribute self_minimal_distance ;;
   if PyFloat.ltb dist minimal_distance then
     products <- attribute self_products ;;
     match_ <- lift (list_index products idx) ;;
     append_semantics_on (semantic_item match_ dist)
   else ret tt)%py.

(** Lines 170-174. *)
Definition better_fuzz_on (description_corrected : string)
    : Py Call (list (Product * Q)) :=
  (products <- attribute self_products ;;
   ret (PySeq.sort_desc (fun x y => PyFloat.gtb (snd x) (snd y))
          (map (fun product =>
                  (product,
                   token_sort_ratio description_corrected (description product)))
               products)))%py.

(** Lines 176-182. *)
Definition fuzzy_step_on (ps : Product * Q) : Py Call unit :=
  append_fuzzy_on (fuzzy_item ps).

(** Lines 146-184: the body of the [try]. *)
Definition search_body_on (description_corrected : string) : Py Call unit :=
  (consult_emb <- ask description_corrected ;;
   vectors <- attribute self_vectors ;;
   diff <- lift (Np.subtract vectors consult_emb) ;;
   dists <- lift (Np.linalg_norm_axis1 diff) ;;
   top_k <- attribute self_top_k ;;
   let top_indices := PySeq.slice_to (argsort dists) top_k in
   for_each top_indices (semantic_step_on dists) ;;;
   c <- get ;;
   emit (Info (MsgFoundSemantic (List.length (semantics (dict c))))) ;;;
   match semantics (dict c) with
   | [] =>
       emit (Info MsgFallback) ;;;
       better_fuzz <- better_fuzz_on description_corrected ;;
       top_k <- attribute self_top_k ;;
       for_each (PySeq.slice_to better_fuzz top_k) fuzzy_step_on ;;;
       c' <- get ;;
       emit (Info (MsgFoundFuzzy (List.length (fallback_fuzzy (dict c')))))
   | _ :: _ => ret tt
   end)%py.

(** [search_similar_products] *)
Definition search_similar_products_on (description_input : string)
    : Py Heap Results :=
  fun h =>
    let h1 :=
      logging h (Info (MsgSearching (PyStr.prefix 50 description_input))) in
    let description_input := PyStr.strip description_input in
    let description_corrected :=
      _correct_input_on (self_products h1) description_input in
    let h2 :=
      if String.eqb description_corrected description_input then h1
      else logging h1 (Info (MsgCorrected description_input
                                          description_corrected)) in
    let results0 :=
      {| consult_original := description_input;
         consult_used := description_corrected;
         semantics := [];
         fallback_fuzzy := [] |} in
    let '(_, c) :=
      try_except (search_body_on description_corrected)
                 (fun e => emit (Error (MsgSearchError e)))
                 {| heap := h2; dict := results0 |} in
    (Ok (dict c), heap c).

(** The object that the heap holds, for a client that answers as [e]. *)
Definition object (h : Heap) (e : Embeddings) : SearchSimilarProduct :=
  {| conn := self_conn h;
     top_k := self_top_k h;
     minimal_distance := self_minimal_distance h;
     embedding := e;
     vectors := self_vectors h;
     products := self_products h |}.

(** What the client answers in the state it is in. *)
Definition answers_now (h : Heap) : Embeddings :=
  {| embed_query := fun text => fst (embed text (client h)) |}.

(** The part of the state that the [try] block of [search_body] has. *)
Definition frame_of (c : Call) : Frame :=
  {| results := dict c; log := logger (heap c) |}.

(** The state [c] with the dict and the log of [f]. *)
Definition merge (c : Call) (f : Frame) : Call :=
  {| heap :=
       {| self_conn := self_conn (heap c); self_top_k := self_top_k (heap c);
          self_minimal_distance := self_minimal_distance (heap c);
          self_vectors := self_vectors (heap c);
          self_products := self_products (heap c);
          client := client (heap c); logger := log f |};
     dict := results f |}.

(** A client does not remember: its answer to a text is the same in every
    state. *)
Definition deterministic : Prop :=
  forall text m1 m2, fst (embed text m1) = fst (embed text m2).

End Object.

End OnHeap.

(* ================================================================== *)
(** ** Vocabulary of the statements *)

Section Readings.
Context `{L : Libs}.

(** Lines 146-150 as one value: the distance of every stored vector to the
    embedding of [text], or the exception the three calls raise. *)
Definition distances (self : SearchSimilarProduct) (text : string)
    : result (list Q) :=
  match embed_query (embedding self) text with
  | Raise e => Raise e
  | Ok consult_emb =>
      match Np.subtract (vectors self) consult_emb with
      | Raise e => Raise e
      | Ok diff => Np.linalg_norm_axis1 diff
      end
  end.

(** The test of line 155 at store index [i]. *)
Definition within (self : SearchSimilarProduct) (dists : list Q) (i : nat)
    : bool :=
  match nth_error dists i with
  | Some dist => PyFloat.ltb dist (minimal_distance self)
  | None => false
  end.

(** [m] is the semantic match built from the product and the distance at
    store index [i]. *)
Definition semantic_at (self : SearchSimilarProduct) (dists : list Q)
    (i : nat) (m : SemanticMatch) : Prop :=
  exists p dist,
    nth_error (products self) i = Some p
    /\ nth_error dists i = Some dist
    /\ m = semantic_item p dist.

(** The score of line 172 for the product at store index [i]. *)
Definition fuzzy_score (self : SearchSimilarProduct) (text : string)
    (i : nat) : Q :=
  match nth_error (products self) i with
  | Some p => token_sort_ratio text (description p)
  | None => 0
  end.

(** [m] is the fuzzy match built from the product at store index [i]. *)
Definition fuzzy_at (self : SearchSimilarProduct) (text : string)
    (i : nat) (m : FuzzyMatch) : Prop :=
  exists p,
    nth_error (products self) i = Some p
    /\ m = fuzzy_item (p, token_sort_ratio text (description p)).

(** A store as [_load_embeddings] builds it: one product per row. *)
Definition store_wf (self : SearchSimilarProduct) : Prop :=
  match vectors self with
  | Np.Array1 _ => products self = []
  | Np.Array2 cols rows =>
      List.length rows = List.length (products self)
      /\ Forall (fun row => List.length row = cols) rows
  end.

(** The order of a ranking by descending [score]: the greater score first,
    and of two equal scores the one with the smaller [idx]. *)
Definition higher_first (A : Type) (idx : A -> nat) (score : A -> Q)
    (x y : A) : Prop :=
  (score y < score x)%Q \/ ((score x == score y)%Q /\ (idx x < idx y)%nat).

(** The order of a ranking by ascending distance: the store index with the
    smaller distance first, and of two equal distances the smaller index. *)
Definition nearer_first (dists : list Q) (i j : nat) : Prop :=
  (nth i dists 0 < nth j dists 0)%Q
  \/ ((nth i dists 0 == nth j dists 0)%Q /\ (i < j)%nat).

(** The frame after [items] were appended to [results["semantics"]]. *)
Definition add_sem (f : Frame) (items : list SemanticMatch) : Frame :=
  {| results :=
       {| consult_original := consult_original (results f);
          consult_used := consult_used (results f);
          semantics := semantics (results f) ++ items;
          fallback_fuzzy := fallback_fuzzy (results f) |};
     log := log f |}.

Definition add_fuzzy (f : Frame) (items : list FuzzyMatch) : Frame :=
  {| results :=
       {| consult_original := consult_original (results f);
          consult_used := consult_used (results f);
          semantics := semantics (results f);
          fallback_fuzzy := fallback_fuzzy (results f) ++ items |};
     log := log f |}.

Definition add_log (f : Frame) (recs : list LogRecord) : Frame :=
  {| results := results f; log := log f ++ recs |}.

(** The store indices that reach [results["semantics"]] when the loop has
    read the first [n] of [idxs]. *)
Definition kept (self : SearchSimilarProduct) (dists : list Q) (n : nat)
    (idxs : list nat) : list nat :=
  filter (within self dists) (firstn n idxs).

(** [i] is an index of [dists] and of [self.products]. *)
Definition valid (self : SearchSimilarProduct) (dists : list Q) (i : nat)
    : Prop :=
  (i < List.length dists)%nat /\ (i < List.length (products self))%nat.

(** The fuzzy matches of lines 170-182. *)
Definition fuzzy_items (self : SearchSimilarProduct) (text : string)
    : list FuzzyMatch :=
  map fuzzy_item (PySeq.slice_to (better_fuzz self text) (top_k self)).

(** Lines 151-184, once [dists] is there. *)
Definition search_tail (self : SearchSimilarProduct) (text : string)
    (dists : list Q) : Py Frame unit :=
  (for_each (PySeq.slice_to (argsort dists) (top_k self))
            (semantic_step self dists) ;;;
   f <- get ;;
   log_info (MsgFoundSemantic (List.length (semantics (results f)))) ;;;
   match semantics (results f) with
   | [] =>
       log_info MsgFallback ;;;
       for_each (PySeq.slice_to (better_fuzz self text) (top_k self))
                fuzzy_step ;;;
       f' <- get ;;
       log_info (MsgFoundFuzzy (List.length (fallback_fuzzy (results f'))))
   | _ :: _ => ret tt
   end)%py.

(** The frame in which the [try] block starts (lines 131-143). *)
Definition frame0 (self : SearchSimilarProduct) (description_input : string)
    (w : World) : Frame :=
  let stripped := PyStr.strip description_input in
  let corrected := _correct_input self stripped in
  let w1 := w ++ [Info (MsgSearching (PyStr.prefix 50 description_input))] in
  {| results :=
       {| consult_original := stripped;
          consult_used := corrected;
          semantics := [];
          fallback_fuzzy := [] |};
     log :=
       if String.eqb corrected stripped then w1
       else w1 ++ [Info (MsgCorrected stripped corrected)] |}.

(** The similarity of a vocabulary entry [x] to [word], as
    [get_close_matches] takes it: [x] is sequence 1 and [word] sequence 2. *)
Definition similarity_to (word x : string) : Q :=
  Difflib.ratio (list_ascii_of_string x) (list_ascii_of_string word).

(** The product that [_load_embeddings] makes of a row. *)
Definition product_of (r : Row) : Product :=
  {| id := row_id r; code := row_code r; description := row_description r |}.

(** A product with its store index, as line 173 scores it. *)
Definition scored_entry (text : string) (ip : nat * Product) : Product * Q :=
  (snd ip, token_sort_ratio text (description (snd ip))).

Definition entry_score (text : string) (ip : nat * Product) : Q :=
  token_sort_ratio text (description (snd ip)).

(** The pair is a store index with the product stored there. *)
Definition in_store (self : SearchSimilarProduct) (ip : nat * Product) : Prop :=
  nth_error (products self) (fst ip) = Some (snd ip).

(** Nothing to strip on the left. *)
Definition clean_head (l : list ascii) : Prop :=
  match l with
  | [] => True
  | c :: _ => PyStr.isspace c = false
  end.



(** [l[lo : hi]] on the elements of a string. *)
Definition slice (l : list ascii) (lo hi : nat) : list ascii :=
  firstn (hi - lo) (skipn lo l).

(** Every code point below 256, once. *)
Definition all_ascii : list ascii := map ascii_of_nat (seq 0 256).

(** The number of elements that two sequences have in common, counted with
    multiplicity. *)
Definition common (x y : list ascii) : nat :=
  list_sum (map (fun c => Nat.min (Difflib.count c x) (Difflib.count c y))
                all_ascii).

(** [a[i : i + k]] and [b[j : j + k]] are the same run, inside the windows
    [a[alo : ahi]] and [b[blo : bhi]]. *)
Definition block_in (a b : list ascii) (alo ahi blo bhi : nat)
    (bst : Difflib.best) : Prop :=
  let '(i, j, k) := bst in
  (alo <= i)%nat /\ (i + k <= ahi)%nat /\ (blo <= j)%nat /\ (j + k <= bhi)%nat
  /\ forall t, (t < k)%nat -> Difflib.elt a (i + t) = Difflib.elt b (j + t).

(** The row [j2len] after the elements of [a] before [i]: an entry [k] at
    [j] is a common run of length [k] that ends at [a[i - 1]] and [b[j]],
    inside the windows. *)
Definition row_ok (a b : list ascii) (alo blo bhi i : nat)
    (j2len : nat -> nat) : Prop :=
  forall j, j2len j <> O ->
    (j2len j <= i - alo)%nat /\ (j2len j <= j + 1 - blo)%nat /\ (j < bhi)%nat
    /\ forall t, (t < j2len j)%nat ->
         Difflib.elt a (i - 1 - t) = Difflib.elt b (j - t).

(** The test of the first [while] of [find_longest_match]. *)
Definition can_extend_left (a b : list ascii) (alo blo : nat)
    (bst : Difflib.best) : bool :=
  let '(besti, bestj, _) := bst in
  ((alo <? besti) && (blo <? bestj)
   && Ascii.eqb (Difflib.elt a (besti - 1)) (Difflib.elt b (bestj - 1)))%nat.

(** The test of the second. *)
Definition can_extend_right (a b : list ascii) (ahi bhi : nat)
    (bst : Difflib.best) : bool :=
  let '(besti, bestj, bestsize) := bst in
  ((besti + bestsize <? ahi) && (bestj + bestsize <? bhi)
   && Ascii.eqb (Difflib.elt a (besti + bestsize))
                (Difflib.elt b (bestj + bestsize)))%nat.

End Readings.

(* ================================================================== *)
(** ** A small catalogue *)

Module Examples.
Local Open Scope string_scope.

Definition f32_zero : list Byte.byte := [Byte.x00; Byte.x00; Byte.x00; Byte.x00].
Definition f32_quarter : list Byte.byte := [Byte.x00; Byte.x00; Byte.x80; Byte.x3e].
Definition f32_three : list Byte.byte := [Byte.x00; Byte.x00; Byte.x40; Byte.x40].
Definition f32_four : list Byte.byte := [Byte.x00; Byte.x00; Byte.x80; Byte.x40].

(** Three rows of [embeddings_products], with vectors (0, 0), (0.25, 0) and
    (3, 4) in the persisted format. *)
Definition catalogue : list Row :=
  [ {| row_id := 1; row_code := "EAN1"; row_description := "Harry Potter book";
       row_blob := f32_zero ++ f32_zero |};
    {| row_id := 2; row_code := "EAN2"; row_description := "red large shirt";
       row_blob := f32_quarter ++ f32_zero |};
    {| row_id := 3; row_code := "EAN3"; row_description := "desk lamp";
       row_blob := f32_three ++ f32_four |} ].

Definition database : Connection := {| select_embeddings := Ok catalogue |}.

(** A provider that embeds every text as [v]. *)
Definition constant (v : list Q) : Embeddings :=
  {| embed_query := fun _ => Ok v |}.

(** The object that [__init__] builds on [database], with [top_k = k] and a
    provider that answers [query_vector]. *)
Definition shop (k : Z) (query_vector : list Q) : SearchSimilarProduct :=
  {| conn := database;
     top_k := k;
     minimal_distance := 1;
     embedding := constant query_vector;
     vectors := Np.Array2 2 [[0; 0]; [1 # 4; 0]; [3; 4]];
     products :=
       [ {| id := 1; code := "EAN1"; description := "Harry Potter book" |};
         {| id := 2; code := "EAN2"; description := "red large shirt" |};
         {| id := 3; code := "EAN3"; description := "desk lamp" |} ] |}.

(** Two entries at the same place, whose descriptions are equally close to
    "abcd". *)
Definition twin_rows : list Row :=
  [ {| row_id := 1; row_code := "X"; row_description := "abcx";
       row_blob := f32_zero ++ f32_zero |};
    {| row_id := 2; row_code := "Y"; row_description := "abcy";
       row_blob := f32_zero ++ f32_zero |} ].

Definition twins : SearchSimilarProduct :=
  {| conn := {| select_embeddings := Ok twin_rows |};
     top_k := 5;
     minimal_distance := 1;
     embedding := constant [0; 0];
     vectors := Np.Array2 2 [[0; 0]; [0; 0]];
     products :=
       [ {| id := 1; code := "X"; description := "abcx" |};
         {| id := 2; code := "Y"; description := "abcy" |} ] |}.

(** Twenty entries at the same place. *)
Definition shelf_rows : list Row :=
  map (fun i => {| row_id := Z.of_nat (S i); row_code := "EAN";
                   row_description := "copy";
                   row_blob := f32_zero ++ f32_zero |})
      (seq 0 20).

Definition shelf : SearchSimilarProduct :=
  {| conn := {| select_embeddings := Ok shelf_rows |};
     top_k := 20;
     minimal_distance := 1;
     embedding := constant [0; 0];
     vectors := Np.Array2 2 (repeat [0; 0] 20);
     products := map product_of shelf_rows |}.

(** The object built on a table without rows. *)
Definition empty_shop : SearchSimilarProduct :=
  {| conn := {| select_embeddings := Ok [] |};
     top_k := 5;
     minimal_distance := 1;
     embedding := constant [0; 0];
     vectors := Np.Array1 [];
     products := [] |}.

(** A store with the single entry of scenarios A and B of the
    specification, its vector at the origin. *)
Definition single (query_vector : list Q) : SearchSimilarProduct :=
  {| conn :=
       {| select_embeddings :=
            Ok [ {| row_id := 1; row_code := "EAN1";
                    row_description := "Harry Potter book";
                    row_blob := f32_zero |} ] |};
     top_k := 5;
     minimal_distance := 1;
     embedding := constant query_vector;
     vectors := Np.Array2 1 [[0]];
     products :=
       [ {| id := 1; code := "EAN1"; description := "Harry Potter book" |} ] |}.

(** A client that embeds every text as [v] and counts its calls. *)
Definition counting (v : list Q) (text : string) (calls : nat)
    : result (list Q) * nat :=
  (Ok v, S calls).

(** A client that remembers: it answers [v1] to one call and [v2] to the
    next. *)
Definition alternating (v1 v2 : list Q) (text : string) (first : bool)
    : result (list Q) * bool :=
  (Ok (if first then v1 else v2), negb first).

(** The heap with the attributes of [shop k v], a client in the state
    [memory] and an empty log. *)
Definition shop_heap (Memory : Type) (k : Z) (memory : Memory)
    : OnHeap.Heap Memory :=
  {| OnHeap.self_conn := database;
     OnHeap.self_top_k := k;
     OnHeap.self_minimal_distance := 1;
     OnHeap.self_vectors := vectors (shop k []);
     OnHeap.self_products := products (shop k []);
     OnHeap.client := memory;
     OnHeap.logger := [] |}.

(** A search with the reference libraries, on an empty log. *)
Definition run (self : SearchSimilarProduct) (q : string)
    : result Results * World :=
  @search_similar_products RefLibs.stable self q [].

(** The dict that a search returns, for a run that returned. *)
Definition returned (run : result Results * World) : Results :=
  match fst run with
  | Ok r => r
  | Raise _ =>
      {| consult_original := ""; consult_used := "";
         semantics := []; fallback_fuzzy := [] |}
  end.

End Examples.

(* ================================================================== *)
(** * Around the search: configuration, constructor, server and script

    The modules below follow [config_loader.py], the whole of
    [SearchSimilarProduct.__init__], the start and the tools of
    [server_invoice_items.py], the rows that [process_vector_products.py]
    writes, and the chat of [gradio_app.py] with the block that [main.py]
    prints.

    Conventions.
    - The process is a [Host]: the files it can read, its environment, the
      records and printed lines of the loggers other than those of
      [World], and [World] itself.
    - What the file system, [pathlib], [oracledb] and the embeddings client
      answer is given by the classes [Machine], [Services] and [Oracle].
    - A text file is the [string] of its decoded content.
    - What the agent process, the clock and the queue answer to the web
      page is given call by call, by an [Agent]; the loops that wait on
      them take a number of turns, and end by themselves when the clock
      goes on. *)

(* ================================================================== *)
(** * The configuration loader: [config_loader.py] *)

(** ** More of Python's strings and dicts *)

Module PyText.

Definition LF : ascii := "010"%char.
Definition CR : ascii := "013"%char.
Definition NUL : ascii := "000"%char.
Definition dquote : ascii := "034"%char.
Definition squote : ascii := "039"%char.

(** The one-character string of [c]. *)
Definition chr (c : ascii) : string := String c EmptyString.

(** [s.startswith(p)] *)
Definition startswith (p s : string) : bool := String.prefix p s.

(** [s.endswith(p)] *)
Definition endswith (p s : string) : bool :=
  String.prefix (string_of_list_ascii (rev (list_ascii_of_string p)))
                (string_of_list_ascii (rev (list_ascii_of_string s))).

(** [c in s] for one character *)
Definition contains (c : ascii) (s : string) : bool :=
  existsb (Ascii.eqb c) (list_ascii_of_string s).

(** [s.split(c, 1)] when [c in s]: what stands before the first [c] and
    what stands after it. *)
Fixpoint split_once_chars (c : ascii) (l : list ascii)
    : option (list ascii * list ascii) :=
  match l with
  | [] => None
  | x :: r =>
      if Ascii.eqb x c then Some ([], r)
      else match split_once_chars c r with
           | Some (h, t) => Some (x :: h, t)
           | None => None
           end
  end.

Definition split_once (c : ascii) (s : string) : option (string * string) :=
  match split_once_chars c (list_ascii_of_string s) with
  | Some (h, t) => Some (string_of_list_ascii h, string_of_list_ascii t)
  | None => None
  end.

(** [s[1:-1]] *)
Definition inner_slice (s : string) : string :=
  string_of_list_ascii (removelast (tl (list_ascii_of_string s))).

(** The lines that iterating a file opened in text mode gives: a line ends
    after "\n", "\r" or "\r\n", each read as "\n"; the last line may have
    no end.  [cur] is the line being read, reversed. *)
Fixpoint readlines_chars (cur : list ascii) (l : list ascii)
    : list (list ascii) :=
  match l with
  | [] => match cur with [] => [] | _ => [rev cur] end
  | c :: r =>
      if Ascii.eqb c LF then rev (LF :: cur) :: readlines_chars [] r
      else if Ascii.eqb c CR then
        match r with
        | c' :: r' =>
            if Ascii.eqb c' LF then rev (LF :: cur) :: readlines_chars [] r'
            else rev (LF :: cur) :: readlines_chars [] r
        | [] => rev (LF :: cur) :: readlines_chars [] r
        end
      else readlines_chars (c :: cur) r
  end.

Definition readlines (text : string) : list string :=
  map string_of_list_ascii (readlines_chars [] (list_ascii_of_string text)).

End PyText.

(** A [dict] from [str] to [str], in insertion order. *)
Module PyDict.

Definition t : Type := list (string * string).

(** [d.get(k)] *)
Fixpoint get (d : t) (k : string) : option string :=
  match d with
  | [] => None
  | (k', v) :: r => if String.eqb k' k then Some v else get r k
  end.

(** [d[k] = v]: a key that is there keeps its place. *)
Fixpoint set (d : t) (k v : string) : t :=
  match d with
  | [] => [(k, v)]
  | (k', v') :: r =>
      if String.eqb k' k then (k', v) :: r else (k', v') :: set r k v
  end.

(** [d.get(k, default)] *)
Definition get_or (d : t) (k default : string) : string :=
  match get d k with
  | Some v => v
  | None => default
  end.

(** The value of [d.get(k)] when it is true in a test: there and not
    empty. *)
Definition truthy (o : option string) : option string :=
  match o with
  | Some v => if String.eqb v "" then None else Some v
  | None => None
  end.

(** [x or y] on two results of [get] *)
Definition or_else (x y : option string) : option string :=
  match truthy x with
  | Some v => Some v
  | None => y
  end.

End PyDict.

(** ** [re.search(r"generativeai\.(.*?)\.oci\.oraclecloud\.com", s)] *)

Module Re.

Fixpoint starts_with (p l : list ascii) : bool :=
  match p, l with
  | [], _ => true
  | c :: p', x :: l' => Ascii.eqb c x && starts_with p' l'
  | _ :: _, [] => false
  end.

(** The group [(.*?)] followed by [suffix], from the head of [l]: the
    shortest run without "\n" after which [suffix] stands. *)
Fixpoint lazy_until (suffix : list ascii) (l : list ascii)
    : option (list ascii) :=
  if starts_with suffix l then Some []
  else match l with
       | [] => None
       | c :: r =>
           if Ascii.eqb c PyText.LF then None
           else match lazy_until suffix r with
                | Some g => Some (c :: g)
                | None => None
                end
       end.

(** The search from the left for [prefix], the group and [suffix]: group 1
    of the first match. *)
Fixpoint search_group (prefix suffix : list ascii) (l : list ascii)
    : option (list ascii) :=
  match (if starts_with prefix l
         then lazy_until suffix (skipn (List.length prefix) l)
         else None) with
  | Some g => Some g
  | None => match l with
            | [] => None
            | _ :: r => search_group prefix suffix r
            end
  end.

Definition region_prefix : string := "generativeai.".
Definition region_suffix : string := ".oci.oraclecloud.com".

(** [m.group(1)] of the search in [endpoint], or [None]. *)
Definition search_region (endpoint : string) : option string :=
  option_map string_of_list_ascii
    (search_group (list_ascii_of_string region_prefix)
                  (list_ascii_of_string region_suffix)
                  (list_ascii_of_string endpoint)).

End Re.

(* ================================================================== *)
(** ** The process around the program: files, environment, output *)

(** A value of a column of a fetched row, as the driver gives it. *)
Inductive Cell : Type :=
| DbNull
| DbStr (s : string)
| DbNumber (q : Q)
| DbDate (text : string)
| DbBytes (b : list Byte.byte).

(** A value bound to a statement: [None], a [str] or a [float]. *)
Inductive Bind : Type :=
| BindNone
| BindStr (s : string)
| BindFloat (q : Q).

(** What the program says besides the records of [World]: the records of
    the loggers of [config_loader] and of the server, the other records of
    [product_search], and what is printed. *)
Inductive Note : Type :=
| PropertiesNotFound (path : string)
| MissingCredentials
| ConfigWritten (path region : string)
| TnsAdminSet (path : string)
| Initializing
| DbConnected
| DbConnectFailed (e : exn)
| EmbeddingsReady (model_id : string)
| EmbeddingsFailed (e : exn)
| LoadingVectors
| ServerInitializing
| SearcherInitialized
| ToolCalled (head : string)
| ToolReturned (n : nat)
| QueryFailed (e : exn)
| EanSearchFailed (e : exn)
| ResolveCalled (head : string)
| ResolveFound (code : Cell)
| ResolveNotFound
| InvoicesCalled (customer state ean : option string) (price : option Q)
| InvoicesFound (n : nat).

Inductive Entry : Type :=
| LogInfo (n : Note)
| LogWarning (n : Note)
| LogError (n : Note)
| Printed (n : Note).

(** A path of the file system, to [open] it for reading. *)
Inductive File : Type :=
| Missing
| Unreadable (e : exn)
| Text (content : string).

Record Host : Type := {
  files : string -> File;
  environ : string -> option string;
  journal : list Entry;
  world : World
}.

(** What [pathlib] and the file system answer on this host; the working
    directory does not change. *)
Class Machine : Type := {
  (** [str(Path(os.getcwd()) / 'config.properties')] *)
  config_properties : string;
  (** [str((Path(os.getcwd()) / p).resolve())] *)
  resolve : string -> result string;
  (** [(Path(os.getcwd()) / '.oci').mkdir(exist_ok=True)] *)
  mkdir_oci : result unit;
  (** [str(Path(os.getcwd()) / '.oci' / 'config')] *)
  oci_config : string;
  (** whether [write_text] on that path goes through *)
  write_oci_config : result unit
}.

Definition note (e : Entry) : Py Host unit :=
  modify (fun h => {| files := files h; environ := environ h;
                      journal := journal h ++ [e]; world := world h |}).

(** [os.environ[k] = v] for a name [k] of the program: a value with a NUL
    character is refused. *)
Definition setenv (k v : string) : Py Host unit :=
  if PyText.contains PyText.NUL v
  then raise (ValueError "embedded null byte")
  else modify (fun h =>
         {| files := files h;
            environ := fun k' => if String.eqb k' k then Some v else environ h k';
            journal := journal h; world := world h |}).

(** [path.write_text(content)] on the path [oci_config] *)
Definition write_text `{Machine} (content : string) : Py Host unit :=
  (lift write_oci_config ;;;
   modify (fun h =>
     {| files := fun p => if String.eqb p oci_config then Text content
                          else files h p;
        environ := environ h; journal := journal h; world := world h |}))%py.

(** A computation on the records of [World], run inside the host. *)
Definition in_world {A} (m : Py World A) : Py Host A :=
  fun h =>
    let '(r, w) := m (world h) in
    (r, {| files := files h; environ := environ h; journal := journal h;
           world := w |}).

(* ================================================================== *)
(** ** [config_loader.py] *)

Module ConfigLoader.
Import PyText.

(** Line 28: the value stands between two quotes of one kind. *)
Definition quoted (v : string) : bool :=
  (startswith (chr dquote) v && endswith (chr dquote) v)
  || (startswith (chr squote) v && endswith (chr squote) v).

(** Lines 22-30: the key and the value that one line of the file assigns,
    if it assigns one. *)
Definition assignment (line : string) : option (string * string) :=
  let line := PyStr.strip line in
  if String.eqb line "" || startswith "#" line then None
  else
    match split_once "=" line with
    | Some (k, v) =>
        let k := PyStr.strip k in
        let v := PyStr.strip v in
        let v := if quoted v then inner_slice v else v in
        Some (k, v)
    | None => None
    end.

Definition read_line (cfg : PyDict.t) (line : string) : PyDict.t :=
  match assignment line with
  | Some (k, v) => PyDict.set cfg k v
  | None => cfg
  end.

(** Lines 20-32: the loop over the lines of the file. *)
Definition parse_properties (text : string) : PyDict.t :=
  fold_left read_line (readlines text) [].

Section OnMachine.
Context `{M : Machine}.

(** [load_properties(file_path)] *)
Definition load_properties (file_path : option string) : Py Host PyDict.t :=
  let file_path :=
    match PyDict.truthy file_path with
    | Some p => p
    | None => config_properties
    end in
  (h <- get ;;
   match files h file_path with
   | Missing =>
       note (LogWarning (PropertiesNotFound file_path)) ;;; ret []
   | Unreadable e => raise e
   | Text content => ret (parse_properties content)
   end)%py.

(** [os.getenv(k, default)] *)
Definition getenv_or (k default : string) : Py Host string :=
  (h <- get ;;
   ret (match environ h k with Some v => v | None => default end))%py.

(** [ensure_oci_config(props)] *)
Definition ensure_oci_config (props : PyDict.t) : Py Host unit :=
  let user := PyDict.get props "OCI_USER" in
  let fingerprint := PyDict.get props "OCI_FINGERPRINT" in
  let key_file := PyDict.get props "OCI_KEY_FILE" in
  let tenancy := PyDict.or_else (PyDict.get props "OCI_TENANCY_OCID")
                                (PyDict.get props "OCI_COMPARTMENT_OCID") in
  let endpoint := PyDict.get_or props "OCI_GENAI_ENDPOINT" "" in
  match PyDict.truthy user, PyDict.truthy fingerprint,
        PyDict.truthy key_file, PyDict.truthy tenancy with
  | Some user, Some fingerprint, Some key_file, Some tenancy =>
      (region <- match Re.search_region endpoint with
                 | Some g => ret g
                 | None => getenv_or "OCI_REGION" "us-chicago-1"
                 end ;;
       key_path <- lift (resolve key_file) ;;
       lift mkdir_oci ;;;
       let content :=
         ("[DEFAULT]" ++ chr LF
          ++ "user=" ++ user ++ chr LF
          ++ "fingerprint=" ++ fingerprint ++ chr LF
          ++ "key_file=" ++ key_path ++ chr LF
          ++ "tenancy=" ++ tenancy ++ chr LF
          ++ "region=" ++ region ++ chr LF)%string in
       write_text content ;;;
       setenv "OCI_CONFIG_FILE" oci_config ;;;
       setenv "OCI_CLI_PROFILE" "DEFAULT" ;;;
       note (LogInfo (ConfigWritten oci_config region)))%py
  | _, _, _, _ => note (LogWarning MissingCredentials)
  end.

(** [apply_db_env(props)] *)
Definition apply_db_env (props : PyDict.t) : Py Host unit :=
  ((match PyDict.truthy (PyDict.get props "WALLET_PATH") with
    | Some wallet =>
        wallet_path <- lift (resolve wallet) ;;
        setenv "TNS_ADMIN" wallet_path ;;;
        note (LogInfo (TnsAdminSet wallet_path))
    | None => ret tt
    end) ;;;
   (match PyDict.truthy (PyDict.get props "USERNAME") with
    | Some v => setenv "DB_USERNAME" v
    | None => ret tt
    end) ;;;
   (match PyDict.truthy (PyDict.get props "PASSWORD") with
    | Some v => setenv "DB_PASSWORD" v
    | None => ret tt
    end) ;;;
   (match PyDict.truthy (PyDict.get props "DB_ALIAS") with
    | Some v => setenv "DB_ALIAS" v
    | None => ret tt
    end))%py.

End OnMachine.

(** The dict that [get_oci_llm_params] returns. *)
Record LlmParams : Type := {
  llm_model_id : string;
  llm_service_endpoint : string;
  llm_compartment_id : option string
}.

(** [get_oci_llm_params(props)] *)
Definition get_oci_llm_params (props : PyDict.t) : LlmParams :=
  {| llm_model_id :=
       PyDict.get_or props "OCI_GENAI_MODEL_ID" "cohere.embed-multilingual-v3.0";
     llm_service_endpoint :=
       PyDict.get_or props "OCI_GENAI_ENDPOINT"
         "https://inference.generativeai.us-chicago-1.oci.oraclecloud.com";
     llm_compartment_id := PyDict.get props "OCI_COMPARTMENT_OCID" |}.

End ConfigLoader.

(* ================================================================== *)
(** ** The constructor of [SearchSimilarProduct] *)

(** The keyword arguments of [oracledb.connect]. *)
Record ConnectArgs : Type := {
  c_user : string;
  c_password : string;
  c_dsn : string;
  c_config_dir : string;
  c_wallet_location : string;
  c_wallet_password : string
}.

(** The keyword arguments of [OCIGenAIEmbeddings]. *)
Record EmbeddingArgs : Type := {
  e_model_id : string;
  e_service_endpoint : string;
  e_compartment_id : option string;
  e_auth_profile : string
}.

(** The two services that the constructor reaches: each answers from its
    arguments and from the files and the environment of the host. *)
Class Services : Type := {
  connect : ConnectArgs -> Host -> result Connection;
  OCIGenAIEmbeddings : EmbeddingArgs -> Host -> result Embeddings
}.

(** The arguments of [__init__]; [None] is the default of the last
    eight but [auth_profile]. *)
Record InitArgs : Type := {
  a_top_k : Z;
  a_minimal_distance : Q;
  a_model_id : option string;
  a_service_endpoint : option string;
  a_compartment_id : option string;
  a_auth_profile : string;
  a_wallet_path : option string;
  a_db_alias : option string;
  a_username : option string;
  a_password : option string
}.

(** [SearchSimilarProduct()] *)
Definition default_args : InitArgs :=
  {| a_top_k := 5; a_minimal_distance := 1;
     a_model_id := None; a_service_endpoint := None; a_compartment_id := None;
     a_auth_profile := "DEFAULT";
     a_wallet_path := None; a_db_alias := None;
     a_username := None; a_password := None |}.

Section Constructor.
Context `{M : Machine} `{Sv : Services}.
Import ConfigLoader.

(** Lines 83-88: the three settings of the embeddings client. *)
Definition embedding_settings (a : InitArgs) (PROPS : PyDict.t)
    : string * string * option string :=
  match a_model_id a, a_service_endpoint a, a_compartment_id a with
  | Some model_id, Some service_endpoint, Some compartment_id =>
      (model_id, service_endpoint, Some compartment_id)
  | _, _, _ =>
      let llm := get_oci_llm_params PROPS in
      (PyDict.get_or PROPS "OCI_GENAI_EMBEDDING_MODEL_ID"
                     "cohere.embed-multilingual-v3.0",
       llm_service_endpoint llm, llm_compartment_id llm)
  end.

(** [__init__] *)
Definition __init__ (a : InitArgs) : Py Host SearchSimilarProduct :=
  (note (LogInfo Initializing) ;;;
   PROPS <- load_properties (Some config_properties) ;;
   ensure_oci_config PROPS ;;;
   apply_db_env PROPS ;;;
   wallet_path <-
     match a_wallet_path a with
     | Some p => ret p
     | None =>
         lift (resolve (PyDict.get_or PROPS "WALLET_PATH"
                                      "Wallet_ItsmyATPVectorDBs"))
     end ;;
   let db_alias :=
     match a_db_alias a with
     | Some x => x
     | None => PyDict.get_or PROPS "DB_ALIAS" "itsmyatpvectordb_high"
     end in
   let username :=
     match a_username a with
     | Some x => x
     | None => PyDict.get_or PROPS "USERNAME" "ADMIN"
     end in
   let password :=
     match a_password a with
     | Some x => x
     | None => PyDict.get_or PROPS "PASSWORD" ""
     end in
   setenv "TNS_ADMIN" wallet_path ;;;
   conn <-
     try_except
       (h <- get ;;
        c <- lift (connect {| c_user := username; c_password := password;
                              c_dsn := db_alias; c_config_dir := wallet_path;
                              c_wallet_location := wallet_path;
                              c_wallet_password := password |} h) ;;
        note (LogInfo DbConnected) ;;;
        ret c)
       (fun e => note (LogError (DbConnectFailed e)) ;;; raise e) ;;
   emb <-
     try_except
       (let '(model_id, service_endpoint, compartment_id) :=
          embedding_settings a PROPS in
        h <- get ;;
        e <- lift (OCIGenAIEmbeddings
                     {| e_model_id := model_id;
                        e_service_endpoint := service_endpoint;
                        e_compartment_id := compartment_id;
                        e_auth_profile := a_auth_profile a |} h) ;;
        note (LogInfo (EmbeddingsReady model_id)) ;;;
        ret e)
       (fun e => note (LogError (EmbeddingsFailed e)) ;;; raise e) ;;
   note (LogInfo LoadingVectors) ;;;
   note (Printed LoadingVectors) ;;;
   vp <- in_world (_load_embeddings conn) ;;
   ret {| conn := conn; top_k := a_top_k a;
          minimal_distance := a_minimal_distance a;
          embedding := emb; vectors := fst vp; products := snd vp |})%py.

End Constructor.

(* ================================================================== *)
(** ** The settings of the database that the server and the script keep *)

Record Settings : Type := {
  WALLET_PATH : string;
  DB_ALIAS : string;
  USERNAME : string;
  PASSWORD : string
}.

(** [os.environ.get(name) or PROPS.get(key, default)] *)
Definition env_or_property (h : Host) (PROPS : PyDict.t)
    (name key default : string) : string :=
  match PyDict.truthy (environ h name) with
  | Some v => v
  | None => PyDict.get_or PROPS key default
  end.

(** Lines 35-40 of [server_invoice_items.py], lines 30-35 of
    [process_vector_products.py]. *)
Definition db_settings (PROPS : PyDict.t) : Py Host Settings :=
  (h <- get ;;
   let s :=
     {| WALLET_PATH := env_or_property h PROPS "TNS_ADMIN" "WALLET_PATH"
                                       "Wallet_ItsmyATPVectorDBs";
        DB_ALIAS := env_or_property h PROPS "DB_ALIAS" "DB_ALIAS"
                                    "itsmyatpvectordb_high";
        USERNAME := env_or_property h PROPS "DB_USERNAME" "USERNAME" "ADMIN";
        PASSWORD := env_or_property h PROPS "DB_PASSWORD" "PASSWORD" "" |} in
   (if String.eqb (WALLET_PATH s) "" then ret tt
    else setenv "TNS_ADMIN" (WALLET_PATH s)) ;;;
   ret s)%py.

(** The arguments of every [oracledb.connect] made with the settings. *)
Definition connect_args (s : Settings) : ConnectArgs :=
  {| c_user := USERNAME s; c_password := PASSWORD s; c_dsn := DB_ALIAS s;
     c_config_dir := WALLET_PATH s; c_wallet_location := WALLET_PATH s;
     c_wallet_password := PASSWORD s |}.

(** The database behind the tools of the server. *)
Class Oracle : Type := {
  (** [connect], [cursor], [execute(query, params)], [fetchall] and the two
      [close]: the rows, or the exception of the first call that raises *)
  fetchall : ConnectArgs -> string -> list (string * Bind) -> Host
             -> result (list (list Cell));
  (** [connect], [cursor] and [execute(query, binds)]: the rows that
      iterating the cursor gives, and how the iteration and the two [close]
      end *)
  cursor_rows : ConnectArgs -> string -> list Bind -> Host
                -> result (list (list Cell) * result unit)
}.

(** [str(e)] *)
Definition str_of (e : exn) : string :=
  match e with
  | ValueError msg | AxisError msg | IndexError msg | OtherError _ msg => msg
  end.

(* ================================================================== *)
(** ** The server: [server_invoice_items.py] *)

Module Server.
Import PyText.

(** A dict of [execute_ean_search]. *)
Record EanRow : Type := {
  ean_code : Cell;
  ean_description : Cell;
  ean_similarity : Cell
}.

(** What [execute_ean_search] returns: the list, or the pair of a dict
    with the key "error" and a status. *)
Inductive EanSearch : Type :=
| EanRows (results : list EanRow)
| EanFailure (error : string) (status : Z).

(** The dict that [resolve_ean] returns. *)
Inductive EanReply : Type :=
| EanFound (code description similarity : Cell)
| EanError (error : string).

(** Lines 88-92: the dict of one row of the cursor. *)
Definition ean_row (row : list Cell) : result EanRow :=
  match row with
  | c :: d :: s :: _ =>
      Ok {| ean_code := c; ean_description := d; ean_similarity := s |}
  | _ => Raise (IndexError "tuple index out of range")
  end.

(** Lines 87-92: the loop over the cursor. *)
Fixpoint ean_rows (rows : list (list Cell)) : result (list EanRow) :=
  match rows with
  | [] => Ok []
  | row :: rest =>
      match ean_row row with
      | Ok d => match ean_rows rest with
                | Ok ds => Ok (d :: ds)
                | Raise e => Raise e
                end
      | Raise e => Raise e
      end
  end.

(** Lines 81-84. *)
Definition ean_query : string :=
  chr LF ++ "                SELECT * FROM TABLE(fn_advanced_search(:1))"
  ++ chr LF ++ "                ORDER BY similarity DESC                 ".

(** Lines 141-147. *)
Definition invoice_query : string :=
  chr LF ++ "            SELECT nf.no_invoice, nf.name_customer, nf.state, nf.date_print,"
  ++ chr LF ++ "                   inf.no_item, inf.code_ean, inf.description_product, inf.value_unitary"
  ++ chr LF ++ "            FROM invoice nf"
  ++ chr LF ++ "                     JOIN item_invoice inf ON nf.no_invoice = inf.no_invoice"
  ++ chr LF ++ "            WHERE 1=1 "
  ++ chr LF ++ "            ".

Definition invoice_columns : list string :=
  [ "no_invoice"; "name_customer"; "state"; "date_print"; "no_item";
    "code_ean"; "description_product"; "value_unitary" ]%string.

(** [f"{x}"] for a [str] or [None] *)
Definition format_opt (x : option string) : string :=
  match x with
  | Some s => s
  | None => "None"
  end.

Definition bind_opt (x : option string) : Bind :=
  match x with
  | Some s => BindStr s
  | None => BindNone
  end.

(** Lines 141-163: the statement and its binds. *)
Definition invoice_statement (customer state : option string)
    (price : option Q) (ean : option string) (margin : Q)
    : string * list (string * Bind) :=
  let query :=
    (invoice_query
     ++ " AND LOWER(nf.name_customer) LIKE LOWER(:customer)"
     ++ " AND LOWER(nf.state) = LOWER(:state)"
     ++ " AND inf.code_ean = :ean")%string in
  let params :=
    [ ("customer", BindStr ("%" ++ format_opt customer ++ "%"));
      ("state", bind_opt state);
      ("ean", bind_opt ean) ]%string in
  match price with
  | Some price =>
      ((query ++ " AND inf.value_unitary BETWEEN :price_min AND :price_max")%string,
       params ++ [ ("price_min"%string, BindFloat (price * (1 - margin)));
                   ("price_max"%string, BindFloat (price * (1 + margin))) ])
  | None => (query, params)
  end.

Section OnMachine.
Context `{M : Machine} `{Sv : Services} `{L : Libs} `{O : Oracle}.
Import ConfigLoader.

(** Lines 24-31: the module reads the configuration and builds
    [sercher]. *)
Definition start : Py Host (PyDict.t * SearchSimilarProduct) :=
  (note (LogInfo ServerInitializing) ;;;
   PROPS <- load_properties (Some config_properties) ;;
   apply_db_env PROPS ;;;
   sercher <- __init__ default_args ;;
   note (LogInfo SearcherInitialized) ;;;
   ret (PROPS, sercher))%py.

(** Lines 24-40: the module up to its settings of the database. *)
Definition boot : Py Host (PyDict.t * SearchSimilarProduct * Settings) :=
  (ps <- start ;;
   s <- db_settings (fst ps) ;;
   ret (fst ps, snd ps, s))%py.

(** [execute_query(query, params)] *)
Definition execute_query (g : Settings) (query : string)
    (params : list (string * Bind)) : Py Host (list (list Cell)) :=
  try_except
    (h <- get ;; lift (fetchall (connect_args g) query params h))%py
    (fun e => note (LogError (QueryFailed e)) ;;;
              note (Printed (QueryFailed e)) ;;;
              ret [])%py.

(** [execute_ean_search(search_terms)] *)
Definition execute_ean_search (g : Settings) (search_terms : string)
    : Py Host EanSearch :=
  try_except
    (h <- get ;;
     cur <- lift (cursor_rows (connect_args g) ean_query
                              [BindStr search_terms] h) ;;
     results <- lift (ean_rows (fst cur)) ;;
     lift (snd cur) ;;;
     ret (EanRows results))%py
    (fun e => note (LogError (EanSearchFailed e)) ;;;
              ret (EanFailure (str_of e) 500))%py.

(** The tool [search_vectorized_product] on the object [sercher]. *)
Definition search_vectorized_product (sercher : SearchSimilarProduct)
    (description : string) : Py Host Results :=
  (note (LogInfo (ToolCalled (PyStr.prefix 50 description))) ;;;
   result <- in_world (search_similar_products sercher description) ;;
   note (LogInfo (ToolReturned (List.length (semantics result)))) ;;;
   ret result)%py.

(** The tool [resolve_ean] *)
Definition resolve_ean (g : Settings) (description : string)
    : Py Host EanReply :=
  (note (LogInfo (ResolveCalled (PyStr.prefix 50 description))) ;;;
   result <- execute_ean_search g description ;;
   match result with
   | EanRows (first :: _) =>
       note (LogInfo (ResolveFound (ean_code first))) ;;;
       ret (EanFound (ean_code first) (ean_description first)
                     (ean_similarity first))
   | _ =>
       note (LogWarning ResolveNotFound) ;;;
       ret (EanError "Search not found by EAN.")
   end)%py.

(** The tool [search_invoices_by_criteria] *)
Definition search_invoices_by_criteria (g : Settings)
    (customer state : option string) (price : option Q)
    (ean : option string) (margin : Q)
    : Py Host (list (list (string * Cell))) :=
  (note (LogInfo (InvoicesCalled customer state ean price)) ;;;
   let '(query, params) := invoice_statement customer state price ean margin in
   result <- execute_query g query params ;;
   note (LogInfo (InvoicesFound (List.length result))) ;;;
   ret (map (fun row => combine invoice_columns row) result))%py.

End OnMachine.
End Server.

(* ================================================================== *)
(** ** The vectors that [process_vector_products.py] stores *)

Module Writer.

(** A [float32] is its 32 bits. *)
Definition byte_of (n : N) : Byte.byte :=
  match Byte.of_N (n mod 256) with
  | Some b => b
  | None => Byte.x00
  end.

(** The four bytes of one [float32], little-endian. *)
Definition f32_bytes (bits : N) : list Byte.byte :=
  [ byte_of bits; byte_of (bits / 256); byte_of (bits / 65536);
    byte_of (bits / 16777216) ].

(** [vector.astype(np.float32).tobytes()] on a [float32] vector, as the
    encoder of the script gives them. *)
Definition tobytes (vector : list N) : list Byte.byte :=
  flat_map f32_bytes vector.

(** A row of [products]: id, code and description. *)
Definition ProductRow : Type := (Z * string * string)%type.

(** Lines 103-119: the row that the [MERGE] statement writes for one pair
    of [zip(ids, embeddings)]. *)
Definition row_of (pv : ProductRow * list N) : Row :=
  let '((id_, code, description), vector) := pv in
  {| row_id := id_; row_code := code; row_description := description;
     row_blob := tobytes vector |}.

(** Lines 60-66 and 102-119: the rows that the script writes. *)
Definition merged (ids : list ProductRow) (embeddings : list (list N))
    : list Row :=
  map row_of (combine ids embeddings).

(** The entry of [self.products] for a row of [products]. *)
Definition product_for (p : ProductRow) : Product :=
  let '(id_, code, description) := p in
  {| id := id_; code := code; description := description |}.

(** The bits of a [float32]. *)
Definition is_f32 (bits : N) : Prop := (bits < 4294967296)%N.

(** The rows of a matrix. *)
Definition rows_of (arr : Np.ndarray) : list (list Q) :=
  match arr with
  | Np.Array1 _ => []
  | Np.Array2 _ rows => rows
  end.

(** Lines 28-35: the script reads the configuration and keeps its settings
    of the database. *)
Definition settings `{M : Machine} : Py Host (PyDict.t * Settings) :=
  (PROPS <- ConfigLoader.load_properties (Some config_properties) ;;
   ConfigLoader.apply_db_env PROPS ;;;
   s <- db_settings PROPS ;;
   ret (PROPS, s))%py.

End Writer.

(* ================================================================== *)
(** ** Vocabulary of the statements on the configuration *)

Module ConfigReadings.
Import PyText ConfigLoader.

(** The pairs that the lines of [text] assign, in the order of the lines. *)
Definition assigned (text : string) : list (string * string) :=
  flat_map (fun line => match assignment line with
                        | Some kv => [kv]
                        | None => []
                        end)
           (readlines text).

(** The value of the last pair of [kvs] whose key is [k]. *)
Definition last_value (k : string) (kvs : list (string * string))
    : option string :=
  fold_left (fun acc kv => if String.eqb (fst kv) k then Some (snd kv) else acc)
            kvs None.

(** No line break in [s]. *)
Definition one_line (s : string) : Prop :=
  contains LF s = false /\ contains CR s = false.

(** [text] is empty, or its last character ends a line. *)
Definition whole_lines (text : string) : Prop :=
  text = ""%string \/ endswith (chr LF) text = true
  \/ endswith (chr CR) text = true.

(** The ways to write the value [v] after the "=": as it is, when it has
    nothing to strip and does not stand in quotes, or between two quotes of
    one kind. *)
Inductive written_as : string -> string -> Prop :=
| Plain (v : string) :
    PyStr.strip v = v -> quoted v = false -> written_as v v
| InQuotes (q : ascii) (v : string) :
    q = dquote \/ q = squote -> written_as (chr q ++ v ++ chr q) v.

(** [s.find(p)]: where [p] first stands in [s]. *)
Fixpoint find_chars (p l : list ascii) : option nat :=
  if Re.starts_with p l then Some O
  else match l with
       | [] => None
       | _ :: r => option_map S (find_chars p r)
       end.

Definition find (p s : string) : option nat :=
  find_chars (list_ascii_of_string p) (list_ascii_of_string s).

(** The property that feeds a variable of the environment in
    [apply_db_env]. *)
Definition db_property (name : string) : option string :=
  if String.eqb name "TNS_ADMIN" then Some "WALLET_PATH"%string
  else if String.eqb name "DB_USERNAME" then Some "USERNAME"%string
  else if String.eqb name "DB_PASSWORD" then Some "PASSWORD"%string
  else if String.eqb name "DB_ALIAS" then Some "DB_ALIAS"%string
  else None.

(** Nothing to strip on either side. *)
Definition clean (l : list ascii) : Prop := clean_head l /\ clean_head (rev l).

(** No line break among the characters. *)
Definition no_break (l : list ascii) : Prop := ~ In LF l /\ ~ In CR l.

(** The last character of [text] ends a line, whatever [rest] follows. *)
Definition ends_a_line (text rest : list ascii) : Prop :=
  exists body c, text = body ++ [c]
    /\ (c = LF \/ (c = CR /\ match rest with x :: _ => x <> LF | [] => True end)).

(** A line as the file gives it: free of breaks, but for the "\n" that
    may end it. *)
Definition line_shape (line : list ascii) : Prop :=
  exists body, no_break body /\ (line = body ++ [LF] \/ line = body).

(** A step that leaves the files and the records of [World], and of the
    environment changes at most the variable [k]: not at all when [o] is
    [None], and to the value that [val] makes of [v] when [o] is [Some v]
    and the step returns. *)
Definition feeds (k : string) (o : option string) (val : string -> result string)
    (h : Host) (res : result unit) (h' : Host) : Prop :=
  files h' = files h /\ world h' = world h
  /\ (forall name, name <> k -> environ h' name = environ h name)
  /\ match o with
     | None => environ h' k = environ h k /\ res = Ok tt
     | Some v =>
         res = Ok tt -> exists value, val v = Ok value /\ environ h' k = Some value
     end.

(** A computation that leaves the records of [World] as they are. *)
Definition keeps_world (A : Type) (m : Py Host A) : Prop :=
  forall h res h', m h = (res, h') -> world h' = world h.

(** A computation that leaves the variable [name] of the environment as
    it is. *)
Definition keeps_variable (name : string) (A : Type) (m : Py Host A) : Prop :=
  forall h res h', m h = (res, h') -> environ h' name = environ h name.

(** The arguments [a] without the three settings of the embeddings
    client. *)
Definition without_embedding_settings (a : InitArgs) : InitArgs :=
  {| a_top_k := a_top_k a; a_minimal_distance := a_minimal_distance a;
     a_model_id := None; a_service_endpoint := None; a_compartment_id := None;
     a_auth_profile := a_auth_profile a;
     a_wallet_path := a_wallet_path a; a_db_alias := a_db_alias a;
     a_username := a_username a; a_password := a_password a |}.

(** What a setting of the database is once the file was read and
    applied, in an environment whose variable held [before]: the value of
    the file when it is not empty, else the one of the environment when it
    is not empty, else what [PROPS.get(key, default)] gives. *)
Definition file_then_environment (PROPS : PyDict.t) (before : option string)
    (key default : string) : string :=
  match PyDict.truthy (PyDict.get PROPS key) with
  | Some v => v
  | None =>
      match PyDict.truthy before with
      | Some v => v
      | None => PyDict.get_or PROPS key default
      end
  end.

End ConfigReadings.

(* ================================================================== *)
(** ** Vocabulary of the statements on the tools of the server *)

Module SqlReadings.


Definition emit (name : list ascii) : list string :=
  match name with
  | [] => []
  | _ :: _ => [string_of_list_ascii (rev name)]
  end.



(** Every row has the three columns that [execute_ean_search] reads. *)
Definition three_columns (rows : list (list Cell)) : Prop :=
  Forall (fun row => (3 <= List.length row)%nat) rows.

End SqlReadings.

(* ================================================================== *)
(** ** Vocabulary of the statements on a sequence matched with itself *)

Module SelfMatch.

(** The length of the run of elements of [b] that are not popular and that
    ends at index [t], counted from index [lo] on. *)
Fixpoint plain_run (b : list ascii) (lo t : nat) : nat :=
  if (t <? lo)%nat || Difflib.popular b (Difflib.elt b t) then O
  else S (match t with
          | O => O
          | S t' => plain_run b lo t'
          end).

(** What the row above row [i] can hold at column [j]. *)
Definition prev_run (b : list ascii) (lo i j : nat) : nat :=
  match i with
  | O => O
  | S i' => plain_run b lo (Nat.min i' j)
  end.

(** The state of the double loop of [find_longest_match] before row [i],
    when both sequences are [b] and both windows start at [lo]: the best
    block lies on the diagonal and is as long as every run on the diagonal
    above. *)
Definition before_row (b : list ascii) (lo i : nat)
    (st : (nat -> nat) * Difflib.best) : Prop :=
  let '(j2len, (bi, bj, bs)) := st in
  bi = bj
  /\ (forall t, (t < i)%nat -> (plain_run b lo t <= bs)%nat)
  /\ (forall j, (j2len j <= prev_run b lo i j)%nat)
  /\ match i with
     | O => True
     | S i' => j2len i' = plain_run b lo i'
     end.

(** The state inside row [i]; [seen] says whether column [i] is done. *)
Definition inside_row (b : list ascii) (lo i : nat) (seen : bool)
    (st : (nat -> nat) * Difflib.best) : Prop :=
  let '(newj2len, (bi, bj, bs)) := st in
  bi = bj
  /\ (forall t, (t < i)%nat -> (plain_run b lo t <= bs)%nat)
  /\ (forall j, (newj2len j <= plain_run b lo (Nat.min i j))%nat)
  /\ if seen
     then newj2len i = plain_run b lo i /\ (plain_run b lo i <= bs)%nat
     else newj2len i = O.

End SelfMatch.

(* ================================================================== *)
(** ** The chat of the web page: [gradio_app.py] and [main.py] *)

Module Gradio.
Import PyText.

(** An entry of the history: a dict with [role] and [content]. *)
Record Message : Type := {
  role : string;
  content : string
}.

Definition user (text : string) : Message :=
  {| role := "user"; content := text |}.

Definition assistant (text : string) : Message :=
  {| role := "assistant"; content := text |}.

(** What the process and its reader thread answer to [send_message], call
    by call. *)
Record Agent : Type := {
  (** the n-th call of [get_status] *)
  status_at : nat -> string;
  (** [proc and proc.stdin], and what [write] and [flush] do with the
      text *)
  stdin : option (string -> result unit);
  (** the n-th call of [time.time] *)
  time_at : nat -> Q;
  (** the n-th call of [stdout_queue.get]: a line, or [queue.Empty] *)
  queue_at : nat -> option string
}.

(** What [send_message] returns, with what it has done to the agent. *)
Record Reply : Type := {
  updated : list Message;
  textbox : string;
  (** the text given to [write], when it was called *)
  sent : option string;
  (** the number of calls of [stdout_queue.get] *)
  taken : nat
}.

(** [p in s] *)
Fixpoint has_chars (p l : list ascii) : bool :=
  Re.starts_with p l
  || match l with
     | [] => false
     | _ :: r => has_chars p r
     end.

Definition has (p s : string) : bool :=
  has_chars (list_ascii_of_string p) (list_ascii_of_string s).

(** [line.partition(":")[2]] *)
Definition after_colon (line : string) : string :=
  match split_once ":" line with
  | Some (_, t) => t
  | None => ""
  end.

(** [l[-n:]] for [n > 0] *)
Definition last_n (A : Type) (n : nat) (l : list A) : list A :=
  skipn (List.length l - n) l.

(** Line 160: the test on a line that follows the legacy line. *)
Definition kept_extra (nxt : string) : bool :=
  negb (String.eqb (PyStr.strip nxt) "")
  && negb (startswith "You:" nxt)
  && negb (endswith "READY" (PyStr.strip nxt)).

(** The variables of the loop of lines 126-168. *)
Record Loop : Type := {
  buffer_lines : list string;
  collecting_block : bool;
  block_lines : list string
}.

Definition loop0 : Loop :=
  {| buffer_lines := []; collecting_block := false; block_lines := [] |}.

Section OnAgent.
Variable agent : Agent.

(** Lines 157-163: the loop that gathers the lines after the legacy line,
    from call [t] of the clock and call [g] of the queue on; it gives
    [extra] and the number of calls of the queue. *)
Fixpoint grace (fuel : nat) (grace_start : Q) (t g : nat)
    (extra : list string) : option (list string * nat) :=
  match fuel with
  | O => None
  | S fuel' =>
      if PyFloat.ltb (time_at agent t - grace_start) (75 # 100)
      then match queue_at agent g with
           | Some nxt =>
               grace fuel' grace_start (S t) (S g)
                     (if kept_extra nxt then extra ++ [nxt] else extra)
           | None => Some (extra, S g)
           end
      else Some (extra, g)
  end.

(** Lines 126-168: the loop that waits for the response, from call [t] of
    the clock and call [g] of the queue on; it gives [response],
    [buffer_lines] and the number of calls of the queue. *)
Fixpoint wait (fuel : nat) (start : Q) (t g : nat) (st : Loop)
    : option (option string * list string * nat) :=
  match fuel with
  | O => None
  | S fuel' =>
      if PyFloat.ltb (time_at agent t - start) 120
      then
        match queue_at agent g with
        | None => wait fuel' start (S t) (S g) st
        | Some line =>
            (* line 135 binds a name of the function: the status of the
               module stays as it is *)
            if has "READY" line then wait fuel' start (S t) (S g) st
            else if String.eqb (PyStr.strip line) "ASSIST_BEGIN" then
              wait fuel' start (S t) (S g)
                   {| buffer_lines := buffer_lines st;
                      collecting_block := true; block_lines := [] |}
            else if collecting_block st then
              if String.eqb (PyStr.strip line) "ASSIST_END" then
                Some (Some (PyStr.strip (PyStr.join (chr LF) (block_lines st))),
                      buffer_lines st, S g)
              else
                wait fuel' start (S t) (S g)
                     {| buffer_lines := buffer_lines st;
                        collecting_block := true;
                        block_lines := block_lines st ++ [line] |}
            else if startswith "Assist:" line then
              let response := PyStr.strip (after_colon line) in
              match grace fuel' (time_at agent (S t)) (S (S t)) (S g) [] with
              | None => None
              | Some (extra, g') =>
                  Some (Some (match extra with
                              | [] => response
                              | _ :: _ =>
                                  PyStr.strip (response ++ chr LF
                                               ++ PyStr.join (chr LF) extra)
                              end),
                        buffer_lines st, g')
              end
            else
              wait fuel' start (S t) (S g)
                   {| buffer_lines := buffer_lines st ++ [line];
                      collecting_block := false;
                      block_lines := block_lines st |}
        end
      else Some (None, buffer_lines st, g)
  end.

(** [send_message(message, history)]; [None] when [fuel] turns of the
    loops do not reach the end. *)
Definition send_message (fuel : nat) (message : string)
    (history : list Message) : option Reply :=
  if String.eqb message "" || String.eqb (PyStr.strip message) "" then
    Some {| updated := history; textbox := ""; sent := None; taken := 0 |}
  else
    let history := history ++ [user message] in
    if negb (String.eqb (status_at agent 0) "Active") then
      Some {| updated :=
                history ++ [assistant ("Agent not ready. Status: "
                                       ++ status_at agent 1)];
              textbox := ""; sent := None; taken := 0 |}
    else
      match stdin agent with
      | None =>
          Some {| updated := history ++ [assistant "Agent process not available"];
                  textbox := ""; sent := None; taken := 0 |}
      | Some write =>
          match write (message ++ chr LF)%string with
          | Raise e =>
              Some {| updated :=
                        history ++ [assistant ("Failed to send to agent: "
                                               ++ str_of e)];
                      textbox := ""; sent := Some (message ++ chr LF)%string;
                      taken := 0 |}
          | Ok _ =>
              match wait fuel (time_at agent 0) 1 0 loop0 with
              | None => None
              | Some (None, buffer, g) =>
                  let fallback :=
                    match buffer with
                    | [] => "No response captured."%string
                    | _ :: _ => PyStr.join (chr LF) (last_n 5 buffer)
                    end in
                  Some {| updated :=
                            history ++ [assistant ("(No Assist line)" ++ chr LF
                                                   ++ fallback)];
                          textbox := ""; sent := Some (message ++ chr LF)%string;
                          taken := g |}
              | Some (Some response, _, g) =>
                  Some {| updated := history ++ [assistant response];
                          textbox := ""; sent := Some (message ++ chr LF)%string;
                          taken := g |}
              end
          end
      end.

End OnAgent.

(** [main.py], lines 205-207: what the three [print] write. *)
Definition emitted (response_text : string) : string :=
  ("ASSIST_BEGIN" ++ chr LF ++ response_text ++ chr LF
   ++ "ASSIST_END" ++ chr LF)%string.

(** [s.rstrip("\n\r")] *)
Fixpoint lstrip_breaks (l : list ascii) : list ascii :=
  match l with
  | [] => []
  | c :: r => if Ascii.eqb c LF || Ascii.eqb c CR then lstrip_breaks r else l
  end.

Definition rstrip_breaks (l : list ascii) : list ascii :=
  rev (lstrip_breaks (rev l)).

(** What [stream.readline] gives, call by call, on a stream that holds
    [l] and is then closed: each line with its "\n", the last one without
    when the stream does not end with one.  [cur] is the line being read,
    reversed. *)
Fixpoint readline_chars (cur : list ascii) (l : list ascii)
    : list (list ascii) :=
  match l with
  | [] => match cur with [] => [] | _ :: _ => [rev cur] end
  | c :: r =>
      if Ascii.eqb c LF then rev (c :: cur) :: readline_chars [] r
      else readline_chars (c :: cur) r
  end.

(** [_reader_thread]: the lines that it puts on the queue.  The stream is
    taken as its decoded text: decoding gives back what [print] has
    encoded. *)
Definition reader_lines (stream : string) : list string :=
  map (fun raw => string_of_list_ascii (rstrip_breaks raw))
      (readline_chars [] (list_ascii_of_string stream)).

(** The status that [_reader_thread] leaves when the stream is closed. *)
Definition reader_status : string := "InActive".

End Gradio.

(** Vocabulary of the statements on the chat. *)
Module ChatReadings.
Import PyText Gradio.

(** The queue answers [events] to the calls from number [g] on. *)
Definition answers (agent : Agent) (g : nat) (events : list (option string))
    : Prop :=
  forall i e, nth_error events i = Some e -> queue_at agent (g + i) = e.

(** The [n] calls of the clock from number [t] on are within the timeout
    of 120 seconds after the first call. *)
Definition in_time (agent : Agent) (t n : nat) : Prop :=
  forall i, (i < n)%nat ->
    (time_at agent (t + i) - time_at agent 0 < 120)%Q.

(** The lines among the answers of the queue that pass the test of line
    133: those without "READY". *)
Definition heard (events : list (option string)) : list string :=
  flat_map (fun e => match e with
                     | Some line => if has "READY" line then [] else [line]
                     | None => []
                     end)
           events.

(** The lines that the queue gives, in order. *)
Definition given (events : list (option string)) : list string :=
  flat_map (fun e => match e with
                     | Some line => [line]
                     | None => []
                     end)
           events.

(** The test of line 133 on a line. *)
Definition without_ready (line : string) : bool := negb (has "READY" line).

(** A line that the loop puts aside before the block begins. *)
Definition aside (line : string) : Prop :=
  PyStr.strip line <> "ASSIST_BEGIN"%string
  /\ startswith "Assist:" line = false.

(** A line that the loop takes into the block. *)
Definition inside (line : string) : Prop :=
  PyStr.strip line <> "ASSIST_BEGIN"%string
  /\ PyStr.strip line <> "ASSIST_END"%string.

(** [s.split("\n")] *)
Fixpoint split_lf_chars (cur : list ascii) (l : list ascii)
    : list (list ascii) :=
  match l with
  | [] => [rev cur]
  | c :: r =>
      if Ascii.eqb c LF then rev cur :: split_lf_chars [] r
      else split_lf_chars (c :: cur) r
  end.

Definition split_lf (s : string) : list string :=
  map string_of_list_ascii (split_lf_chars [] (list_ascii_of_string s)).

(** What a line that does not end the loop does to its variables. *)
Definition step (st : Loop) (line : string) : Loop :=
  if String.eqb (PyStr.strip line) "ASSIST_BEGIN" then
    {| buffer_lines := buffer_lines st; collecting_block := true;
       block_lines := [] |}
  else if collecting_block st then
    {| buffer_lines := buffer_lines st; collecting_block := true;
       block_lines := block_lines st ++ [line] |}
  else
    {| buffer_lines := buffer_lines st ++ [line]; collecting_block := false;
       block_lines := block_lines st |}.

(** The line does not end the loop in the state [st]: it begins a block,
    or stands in one without ending it, or is put aside. *)
Definition passes (st : Loop) (line : string) : Prop :=
  PyStr.strip line = "ASSIST_BEGIN"%string
  \/ (if collecting_block st
      then PyStr.strip line <> "ASSIST_END"%string
      else startswith "Assist:" line = false).

(** None of [lines] ends the loop, read from the state [st] on. *)
Fixpoint quiet (st : Loop) (lines : list string) : Prop :=
  match lines with
  | [] => True
  | line :: rest => passes st line /\ quiet (step st line) rest
  end.

(** The clock goes on: after every call, some later call is at least [d]
    seconds later. *)
Definition clock_goes_on (agent : Agent) : Prop :=
  forall t (d : Q), exists n, (t <= n)%nat
                              /\ (d <= time_at agent n - time_at agent t)%Q.

(** The message is sent: it is not blank, the agent is active, and the
    write goes through. *)
Definition delivered (agent : Agent) (message : string) : Prop :=
  PyStr.strip message <> ""%string
  /\ status_at agent 0 = "Active"%string
  /\ exists write, stdin agent = Some write
                   /\ write (message ++ chr LF)%string = Ok tt.

End ChatReadings.

(* ================================================================== *)
(** ** A small installation *)

Module Setting.
Import PyText.

(** The program runs in [/app]; the paths of the file are relative,
    without "..", and no link stands in their way. *)
Definition machine : Machine :=
  {| config_properties := "/app/config.properties";
     resolve := fun p =>
       if contains NUL p then Raise (ValueError "embedded null byte")
       else Ok ("/app/" ++ p)%string;
     mkdir_oci := Ok tt;
     oci_config := "/app/.oci/config";
     write_oci_config := Ok tt |}.

(** The database of [Examples], and a provider that embeds every text at
    the origin. *)
Definition services : Services :=
  {| connect := fun _ _ => Ok Examples.database;
     OCIGenAIEmbeddings := fun _ _ => Ok (Examples.constant [0; 0]%Q) |}.

Definition endpoint : string :=
  "https://inference.generativeai.us-chicago-1.oci.oraclecloud.com".

Definition config_text : string :=
  ("# database" ++ chr LF
   ++ "USERNAME = ADMIN" ++ chr LF
   ++ "PASSWORD='se cret '" ++ chr LF
   ++ "DB_ALIAS=shop_high" ++ chr LF
   ++ "WALLET_PATH=Wallet" ++ chr LF
   ++ chr LF
   ++ "OCI_USER=ocid1.user" ++ chr LF
   ++ "OCI_FINGERPRINT=aa:bb" ++ chr LF
   ++ "OCI_KEY_FILE=key.pem" ++ chr LF
   ++ "OCI_COMPARTMENT_OCID=ocid1.compartment" ++ chr LF
   ++ "OCI_GENAI_ENDPOINT=" ++ endpoint ++ chr LF
   ++ "DB_ALIAS=shop_low" ++ chr LF)%string.

(** A host with [text] in its [config.properties], an empty environment
    and nothing written yet. *)
Definition host_of (text : string) : Host :=
  {| files := fun p => if String.eqb p "/app/config.properties"
                       then Text text else Missing;
     environ := fun _ => None;
     journal := [];
     world := [] |}.

Definition host : Host := host_of config_text.

(** The dict that [config_text] loads into. *)
Definition PROPS : PyDict.t :=
  [ ("USERNAME", "ADMIN"); ("PASSWORD", "se cret "); ("DB_ALIAS", "shop_low");
    ("WALLET_PATH", "Wallet"); ("OCI_USER", "ocid1.user");
    ("OCI_FINGERPRINT", "aa:bb"); ("OCI_KEY_FILE", "key.pem");
    ("OCI_COMPARTMENT_OCID", "ocid1.compartment");
    ("OCI_GENAI_ENDPOINT", endpoint) ]%string.

(** The settings that the server and the script keep on [host]. *)
Definition kept : Settings :=
  {| WALLET_PATH := "/app/Wallet"; DB_ALIAS := "shop_low";
     USERNAME := "ADMIN"; PASSWORD := "se cret " |}.

(** [SearchSimilarProduct(model_id="cohere.embed-english-v3.0")] *)
Definition model_only : InitArgs :=
  {| a_top_k := 5; a_minimal_distance := 1;
     a_model_id := Some "cohere.embed-english-v3.0"%string;
     a_service_endpoint := None; a_compartment_id := None;
     a_auth_profile := "DEFAULT";
     a_wallet_path := None; a_db_alias := None;
     a_username := None; a_password := None |}.

(** Two products and their [float32] vectors (0, 0) and (0.25, 0), as the
    script has them. *)
Definition ids : list Writer.ProductRow :=
  [ (1%Z, "EAN1", "Harry Potter book"); (2%Z, "EAN2", "red large shirt") ]%string.

Definition embeddings : list (list N) := [ [0; 0]; [1048576000; 0] ]%N.

(** A database that cannot be reached. *)
Definition offline : Services :=
  {| connect := fun _ _ => Raise (OtherError "DatabaseError" "DPY-6005");
     OCIGenAIEmbeddings := fun _ _ => Ok (Examples.constant [0; 0]%Q) |}.

(** An agent that is active and takes what is written to it; every call
    of the clock comes [tick] seconds after the one before, and the queue
    gives [lines], then nothing. *)
Definition agent (tick : Q) (lines : list (option string)) : Gradio.Agent :=
  {| Gradio.status_at := fun _ => "Active"%string;
     Gradio.stdin := Some (fun _ => Ok tt);
     Gradio.time_at := fun n => (inject_Z (Z.of_nat n) * tick)%Q;
     Gradio.queue_at := fun n => nth n lines None |}.

(** The output of an agent that answers in a block of two lines. *)
Definition response_text : string :=
  ("Invoice 12" ++ chr LF ++ "EAN 789")%string.

(** A response of three lines, of which the second has "READY". *)
Definition long_response : string :=
  ("Invoice 12" ++ chr LF ++ "ALREADY PAID" ++ chr LF ++ "EAN 789")%string.

Definition output : list (option string) :=
  [ Some "INFO Processing user query"; None; Some "agent READY";
    Some " ASSIST_BEGIN"; Some "Invoice 12"; Some "EAN 789" ]%string.

End Setting.

(* ================================================================== *)
(** * Facts about the Python and NumPy primitives *)

Unset Implicit Arguments.

Module PyFloatFacts.
Import PyFloat.

Lemma ltb_lt x y : ltb x y = true <-> (x < y)%Q.
Proof.
  unfold ltb. rewrite negb_true_iff.
  destruct (Qle_bool y x) eqn:E.
  - apply Qle_bool_iff in E. split; [discriminate | lra].
  - split; [intros _ | reflexivity].
    destruct (Qlt_le_dec x y) as [Hlt | Hle]; [exact Hlt |].
    apply Qle_bool_iff in Hle. congruence.
Qed.

Lemma gtb_gt x y : gtb x y = true <-> (y < x)%Q.
Proof. unfold gtb. apply (ltb_lt y x). Qed.

Lemma gtb_false x y : gtb x y = false <-> (x <= y)%Q.
Proof.
  unfold gtb. rewrite negb_false_iff. apply Qle_bool_iff.
Qed.

Lemma geb_ge x y : geb x y = true <-> (y <= x)%Q.
Proof. unfold geb. apply Qle_bool_iff. Qed.

End PyFloatFacts.

Module PySeqFacts.
Import PySeq.

Section Generic.
Variable A : Type.

Lemma slice_to_firstn (l : list A) (k : Z) :
  exists n, slice_to l k = firstn n l.
Proof.
  unfold slice_to. destruct (0 <=? k)%Z; eexists; reflexivity.
Qed.

Lemma slice_to_length (l : list A) (k : Z) :
  (0 <= k)%Z -> (Z.of_nat (List.length (slice_to l k)) <= k)%Z.
Proof.
  intros Hk. unfold slice_to.
  destruct (0 <=? k)%Z eqn:E; [| apply Z.leb_gt in E; lia].
  rewrite length_firstn. lia.
Qed.

Lemma slice_to_all (l : list A) (k : Z) :
  (Z.of_nat (List.length l) <= k)%Z -> slice_to l k = l.
Proof.
  intros Hk. unfold slice_to.
  destruct (0 <=? k)%Z eqn:E; [| apply Z.leb_gt in E; lia].
  apply firstn_all2. lia.
Qed.

Lemma In_firstn (l : list A) (n : nat) (x : A) :
  In x (firstn n l) -> In x l.
Proof.
  revert n. induction l as [| y r IH]; intros [| n]; simpl; try tauto.
  intros [H | H]; [left; exact H | right; eapply IH; exact H].
Qed.

Lemma StronglySorted_firstn (R : A -> A -> Prop) (l : list A) (n : nat) :
  StronglySorted R l -> StronglySorted R (firstn n l).
Proof.
  intros Hs. revert n.
  induction Hs as [| x l Hs IH Hx]; intros [| n]; simpl; try constructor.
  - apply IH.
  - rewrite Forall_forall in *. intros y Hy.
    apply Hx. eapply In_firstn; eassumption.
Qed.

Lemma StronglySorted_filter (R : A -> A -> Prop) (p : A -> bool) (l : list A) :
  StronglySorted R l -> StronglySorted R (filter p l).
Proof.
  induction 1 as [| x l Hs IH Hx]; simpl; [constructor |].
  destruct (p x); [| exact IH].
  constructor; [exact IH |].
  rewrite Forall_forall in *. intros y Hy.
  apply filter_In in Hy. apply Hx, Hy.
Qed.

Lemma StronglySorted_weaken (R R' : A -> A -> Prop) (l : list A) :
  (forall x y, R x y -> R' x y) ->
  StronglySorted R l -> StronglySorted R' l.
Proof.
  intros HR. induction 1 as [| x l Hs IH Hx]; constructor; [exact IH |].
  eapply Forall_impl; [| exact Hx]. intros y. apply HR.
Qed.

Variable gtb : A -> A -> bool.

Lemma insert_desc_perm (x : A) (l : list A) :
  Permutation (insert_desc gtb x l) (x :: l).
Proof.
  induction l as [| y r IH]; simpl; [reflexivity |].
  destruct (gtb y x); [| reflexivity].
  rewrite IH. apply perm_swap.
Qed.

Lemma sort_desc_perm (l : list A) : Permutation (sort_desc gtb l) l.
Proof.
  induction l as [| x r IH]; simpl; [reflexivity |].
  rewrite insert_desc_perm. constructor. exact IH.
Qed.

Lemma sort_desc_length (l : list A) :
  List.length (sort_desc gtb l) = List.length l.
Proof. apply Permutation_length, sort_desc_perm. Qed.

End Generic.

(** Sorting the images is sorting the arguments by their images. *)
Lemma insert_desc_map (A B : Type) (g : A -> B) (gtb : B -> B -> bool)
    (x : A) (l : list A) :
  insert_desc gtb (g x) (map g l)
  = map g (insert_desc (fun u v => gtb (g u) (g v)) x l).
Proof.
  induction l as [| y r IH]; simpl; [reflexivity |].
  destruct (gtb (g y) (g x)); simpl; [rewrite IH |]; reflexivity.
Qed.

Lemma sort_desc_map (A B : Type) (g : A -> B) (gtb : B -> B -> bool)
    (l : list A) :
  sort_desc gtb (map g l)
  = map g (sort_desc (fun u v => gtb (g u) (g v)) l).
Proof.
  induction l as [| x r IH]; simpl; [reflexivity |].
  rewrite IH. apply insert_desc_map.
Qed.

(** The stable descending sort of items given in ascending order of
    [idx]: a greater score comes first, and of two equal scores the smaller
    [idx]. *)
Section Stable.
Variable A : Type.
Variable idx : A -> nat.
Variable score : A -> Q.
Variable gtb : A -> A -> bool.
Hypothesis gtb_spec : forall x y, gtb x y = true <-> (score y < score x)%Q.

Lemma higher_first_score (x y : A) :
  higher_first idx score x y -> (score y <= score x)%Q.
Proof. intros [H | [H _]]; lra. Qed.

Lemma insert_desc_higher_first (x : A) (l : list A) :
  StronglySorted (higher_first idx score) l ->
  Forall (fun y => (idx x < idx y)%nat) l ->
  StronglySorted (higher_first idx score) (insert_desc gtb x l).
Proof.
  intros Hs. induction Hs as [| y r Hs IH Hy]; intros Hx; simpl.
  - repeat constructor.
  - apply Forall_cons_iff in Hx. destruct Hx as [Hxy Hxr].
    destruct (gtb y x) eqn:E.
    + apply gtb_spec in E.
      constructor; [apply IH, Hxr |].
      eapply Permutation_Forall;
        [apply Permutation_sym, insert_desc_perm |].
      constructor; [left; exact E | exact Hy].
    + assert (Hle : (score y <= score x)%Q).
      { destruct (Qlt_le_dec (score x) (score y)) as [H | H]; [| exact H].
        apply gtb_spec in H. congruence. }
      constructor; [constructor; assumption |].
      assert (Hbx : forall z, (score z <= score y)%Q -> (idx x < idx z)%nat ->
                              higher_first idx score x z).
      { intros z Hz Hlt. destruct (Qlt_le_dec (score z) (score x)) as [H | H].
        - left; exact H.
        - right. split; [lra | exact Hlt]. }
      constructor; [apply Hbx; [lra | exact Hxy] |].
      rewrite Forall_forall in *. intros z Hz.
      apply Hbx; [apply higher_first_score, Hy, Hz | apply Hxr, Hz].
Qed.

Lemma sort_desc_higher_first (l : list A) :
  StronglySorted (fun x y => (idx x < idx y)%nat) l ->
  StronglySorted (higher_first idx score) (sort_desc gtb l).
Proof.
  induction 1 as [| x r Hs IH Hx]; simpl; [constructor |].
  apply insert_desc_higher_first; [exact IH |].
  eapply Permutation_Forall; [apply Permutation_sym, sort_desc_perm | exact Hx].
Qed.

End Stable.

Lemma seq_sorted (start len : nat) : StronglySorted lt (seq start len).
Proof.
  revert start. induction len as [| n IH]; intros start; simpl; constructor.
  - apply IH.
  - rewrite Forall_forall. intros y Hy. apply in_seq in Hy. lia.
Qed.

End PySeqFacts.

Module F64Facts.
Import F64.

Lemma rint_bounds (x : Q) :
  (Qfloor x <= rint x <= Qfloor x + 1)%Z.
Proof.
  unfold rint. destruct (Qcompare _ _); [destruct (Z.even _) | |]; lia.
Qed.

Lemma rint_mono (x y : Q) : (x <= y)%Q -> (rint x <= rint y)%Z.
Proof.
  intros Hxy.
  pose proof (Qfloor_resp_le x y Hxy) as Hf.
  destruct (Z.eq_dec (Qfloor x) (Qfloor y)) as [E | N].
  - unfold rint. rewrite <- E.
    destruct (Qcompare_spec (x - inject_Z (Qfloor x)) (1 # 2)) as [Hx | Hx | Hx];
    destruct (Qcompare_spec (y - inject_Z (Qfloor x)) (1 # 2)) as [Hy | Hy | Hy];
      try (destruct (Z.even (Qfloor x))); try lia; lra.
  - pose proof (rint_bounds x). pose proof (rint_bounds y). lia.
Qed.

Lemma rint_inject_Z (z : Z) : rint (inject_Z z) = z.
Proof.
  unfold rint. rewrite Qfloor_Z.
  destruct (Qcompare_spec (inject_Z z - inject_Z z) (1 # 2)) as [H | H | H];
    try reflexivity; lra.
Qed.

Lemma rint_comp (x y : Q) : (x == y)%Q -> rint x = rint y.
Proof.
  intros E. apply Z.le_antisymm; apply rint_mono; lra.
Qed.

Lemma two_neq_0 : ~ (2 == 0)%Q.
Proof. intros H. discriminate H. Qed.

Lemma pow2_pos (e : Z) : (0 < 2 ^ e)%Q.
Proof. apply Qpower_0_lt. reflexivity. Qed.

Lemma pow2_inject (n : Z) : (0 <= n)%Z -> (inject_Z (2 ^ n) == 2 ^ n)%Q.
Proof. intros H. apply (Zpower_Qpower 2 n H). Qed.

Lemma pow2_le (n m : Z) : (n <= m)%Z -> (2 ^ n <= 2 ^ m)%Q.
Proof. intros H. apply Qpower_le_compat_l; [exact H | discriminate]. Qed.

Lemma pow2_lt_inv (n m : Z) : (2 ^ n < 2 ^ m)%Q -> (n < m)%Z.
Proof. intros H. apply (Qpower_lt_compat_l_inv 2); [exact H | reflexivity]. Qed.

(** [exponent x] is the integer part of the binary logarithm. *)
Lemma exponent_spec (x : Q) :
  (0 < x)%Q -> (2 ^ exponent x <= x < 2 ^ (exponent x + 1))%Q.
Proof.
  intros Hx. destruct x as [n d].
  assert (Hn : (0 < n)%Z).
  { unfold Qlt in Hx. simpl in Hx. lia. }
  unfold exponent. cbn [Qnum Qden].
  set (a := Z.log2 n). set (b := Z.log2 (Z.pos d)).
  assert (Ha0 : (0 <= a)%Z) by apply Z.log2_nonneg.
  assert (Hb0 : (0 <= b)%Z) by apply Z.log2_nonneg.
  destruct (Z.log2_spec n Hn) as [Ha1 Ha2]. fold a in Ha1, Ha2.
  destruct (Z.log2_spec (Z.pos d) (Pos2Z.is_pos d)) as [Hb1 Hb2].
  fold b in Hb1, Hb2.
  assert (Hd : (0 < inject_Z (Z.pos d))%Q) by (unfold Qlt; simpl; lia).
  assert (Ex : (n # d == inject_Z n / inject_Z (Z.pos d))%Q)
    by apply Qmake_Qdiv.
  rewrite Zle_Qle, pow2_inject in Ha1, Hb1 by assumption.
  replace (Z.succ a) with (a + 1)%Z in Ha2 by lia.
  replace (Z.succ b) with (b + 1)%Z in Hb2 by lia.
  rewrite Zlt_Qlt, pow2_inject in Ha2, Hb2 by lia.
  set (N := inject_Z n) in *. set (D := inject_Z (Z.pos d)) in *.
  assert (Hxd : ((n # d) * D == N)%Q) by (rewrite Ex; field; lra).
  pose proof (pow2_pos (a - b)) as Hp. pose proof (pow2_pos b) as Hpb.
  destruct (Qle_bool (2 ^ (a - b)) (n # d)) eqn:E.
  - apply Qle_bool_iff in E. split; [exact E |].
    assert (E1 : (2 ^ (a - b + 1) * 2 ^ b == 2 ^ (a + 1))%Q).
    { rewrite <- Qpower_plus by apply two_neq_0. f_equiv. lia. }
    pose proof (pow2_pos (a - b + 1)) as Hp1.
    apply Qnot_le_lt. intros Hc.
    assert ((2 ^ (a - b + 1) * D <= (n # d) * D)%Q)
      by (apply Qmult_le_compat_r; lra).
    assert ((2 ^ (a - b + 1) * 2 ^ b <= 2 ^ (a - b + 1) * D)%Q)
      by (apply Qmult_le_l; lra).
    lra.
  - assert (Hlt : (n # d < 2 ^ (a - b))%Q).
    { apply Qnot_le_lt. intros Hc. apply Qle_bool_iff in Hc. congruence. }
    split.
    + assert (E1 : (2 ^ (a - b - 1) * 2 ^ (b + 1) == 2 ^ a)%Q).
      { rewrite <- Qpower_plus by apply two_neq_0. f_equiv. lia. }
      pose proof (pow2_pos (a - b - 1)) as Hp1.
      apply Qnot_lt_le. intros Hc.
      assert (((n # d) * D < 2 ^ (a - b - 1) * D)%Q)
        by (apply Qmult_lt_compat_r; lra).
      assert ((2 ^ (a - b - 1) * D <= 2 ^ (a - b - 1) * 2 ^ (b + 1))%Q)
        by (apply Qmult_le_l; lra).
      lra.
    + replace (a - b - 1 + 1)%Z with (a - b)%Z by lia. exact Hlt.
Qed.

Lemma exponent_mono (x y : Q) :
  (0 < x)%Q -> (x <= y)%Q -> (exponent x <= exponent y)%Z.
Proof.
  intros Hx Hxy.
  destruct (exponent_spec x Hx) as [H1 _].
  destruct (exponent_spec y) as [_ H2]; [lra |].
  assert (H : (2 ^ exponent x < 2 ^ (exponent y + 1))%Q) by lra.
  apply pow2_lt_inv in H. lia.
Qed.

Lemma ulp_pos (x : Q) : (0 < 2 ^ ulp_exponent x)%Q.
Proof. apply pow2_pos. Qed.

Lemma nearest_abs_nonneg (x : Q) : (0 <= x)%Q -> (0 <= nearest_abs x)%Q.
Proof.
  intros Hx. unfold nearest_abs. pose proof (ulp_pos x) as Hu.
  set (u := (2 ^ ulp_exponent x)%Q) in *.
  apply Qmult_le_0_compat; [| lra].
  change 0%Q with (inject_Z 0). rewrite <- Zle_Qle.
  rewrite <- (rint_inject_Z 0). apply rint_mono.
  change (inject_Z 0) with 0%Q. apply Qle_shift_div_l; lra.
Qed.

(** A multiple of the unit is where it is. *)
Lemma nearest_abs_multiple (x : Q) (k : Z) :
  (x == inject_Z k * 2 ^ ulp_exponent x)%Q -> (nearest_abs x == x)%Q.
Proof.
  intros E. unfold nearest_abs. pose proof (ulp_pos x) as Hu.
  set (u := (2 ^ ulp_exponent x)%Q) in *.
  rewrite (rint_comp (x / u) (inject_Z k)).
  - rewrite rint_inject_Z. symmetry. exact E.
  - rewrite E. field. lra.
Qed.

Lemma nearest_abs_below (x : Q) (e : Z) :
  (0 <= x)%Q -> (x <= 2 ^ e)%Q -> (ulp_exponent x <= e)%Z ->
  (nearest_abs x <= 2 ^ e)%Q.
Proof.
  intros Hx Hle Hu. unfold nearest_abs. pose proof (ulp_pos x) as Hp.
  set (s := ulp_exponent x) in *. set (u := (2 ^ s)%Q) in *.
  assert (E : (2 ^ e == inject_Z (2 ^ (e - s)) * u)%Q).
  { rewrite pow2_inject by lia. unfold u.
    rewrite <- Qpower_plus by apply two_neq_0. f_equiv. lia. }
  rewrite E. apply Qmult_le_compat_r; [| lra].
  rewrite <- Zle_Qle. rewrite <- (rint_inject_Z (2 ^ (e - s))) at 1.
  apply rint_mono. apply Qle_shift_div_r; [lra |]. rewrite <- E. exact Hle.
Qed.

Lemma nearest_abs_above (x : Q) (e : Z) :
  (2 ^ e <= x)%Q -> (ulp_exponent x <= e)%Z ->
  (2 ^ e <= nearest_abs x)%Q.
Proof.
  intros Hle Hu. unfold nearest_abs. pose proof (ulp_pos x) as Hp.
  set (s := ulp_exponent x) in *. set (u := (2 ^ s)%Q) in *.
  assert (E : (2 ^ e == inject_Z (2 ^ (e - s)) * u)%Q).
  { rewrite pow2_inject by lia. unfold u.
    rewrite <- Qpower_plus by apply two_neq_0. f_equiv. lia. }
  rewrite E. apply Qmult_le_compat_r; [| lra].
  rewrite <- Zle_Qle. rewrite <- (rint_inject_Z (2 ^ (e - s))) at 1.
  apply rint_mono. apply Qle_shift_div_l; [lra |]. rewrite <- E. exact Hle.
Qed.

Lemma nearest_abs_mono (x y : Q) :
  (0 <= x)%Q -> (x <= y)%Q -> (nearest_abs x <= nearest_abs y)%Q.
Proof.
  intros Hx Hxy.
  destruct (Qlt_le_dec 0 x) as [Hpos | Hzero].
  2:{ assert (E : (x == 0)%Q) by lra.
      assert (E0 : (nearest_abs x == 0)%Q).
      { unfold nearest_abs. generalize (2 ^ ulp_exponent x)%Q. intros u.
        rewrite (rint_comp _ (inject_Z 0)).
        - rewrite rint_inject_Z. change (inject_Z 0) with 0%Q. lra.
        - rewrite E. unfold Qdiv. change (inject_Z 0) with 0%Q. lra. }
      rewrite E0. apply nearest_abs_nonneg. lra. }
  pose proof (exponent_mono x y Hpos Hxy) as He.
  destruct (exponent_spec x Hpos) as [Hx1 Hx2].
  destruct (exponent_spec y) as [Hy1 Hy2]; [lra |].
  destruct (Z.eq_dec (ulp_exponent x) (ulp_exponent y)) as [Eu | Nu].
  - unfold nearest_abs. rewrite Eu. pose proof (ulp_pos y) as Hu.
    set (u := (2 ^ ulp_exponent y)%Q) in *.
    apply Qmult_le_compat_r; [| lra].
    rewrite <- Zle_Qle. apply rint_mono.
    apply Qmult_le_compat_r; [exact Hxy |].
    apply Qlt_le_weak, Qinv_lt_0_compat, Hu.
  - assert (Hlt : (exponent x < exponent y)%Z)
      by (unfold ulp_exponent in Nu; lia).
    assert (Hg : (2 ^ (exponent x + 1) <= 2 ^ exponent y)%Q)
      by (apply pow2_le; lia).
    apply Qle_trans with (2 ^ exponent y)%Q.
    + apply nearest_abs_below;
        [apply Qlt_le_weak, Hpos
        | apply Qle_trans with (2 ^ (exponent x + 1))%Q;
          [apply Qlt_le_weak, Hx2 | exact Hg] |].
      unfold ulp_exponent in *. lia.
    + apply nearest_abs_above; [exact Hy1 |]. unfold ulp_exponent in *. lia.
Qed.

Lemma nearest_abs_comp (x y : Q) :
  (0 <= x)%Q -> (x == y)%Q -> (nearest_abs x == nearest_abs y)%Q.
Proof.
  intros Hx E. apply Qle_antisym; apply nearest_abs_mono; lra.
Qed.

(** Rounding keeps the order. *)
Lemma nearest_mono (x y : Q) : (x <= y)%Q -> (nearest x <= nearest y)%Q.
Proof.
  intros Hxy. unfold nearest. rewrite !Qred_correct.
  destruct (Qle_bool 0 x) eqn:Ex; destruct (Qle_bool 0 y) eqn:Ey.
  - apply Qle_bool_iff in Ex. apply nearest_abs_mono; assumption.
  - apply Qle_bool_iff in Ex.
    assert (Hy : ~ (0 <= y)%Q) by (rewrite <- Qle_bool_iff; congruence).
    lra.
  - apply Qle_bool_iff in Ey.
    assert (Hx : ~ (0 <= x)%Q) by (rewrite <- Qle_bool_iff; congruence).
    pose proof (nearest_abs_nonneg y Ey).
    pose proof (nearest_abs_nonneg (- x)) as H1.
    assert (0 <= - x)%Q by lra. specialize (H1 H0). lra.
  - assert (Hx : ~ (0 <= x)%Q) by (rewrite <- Qle_bool_iff; congruence).
    assert (Hy : ~ (0 <= y)%Q) by (rewrite <- Qle_bool_iff; congruence).
    assert (H : (nearest_abs (- y) <= nearest_abs (- x))%Q)
      by (apply nearest_abs_mono; lra).
    lra.
Qed.

Lemma nearest_comp (x y : Q) : (x == y)%Q -> (nearest x == nearest y)%Q.
Proof. intros E. apply Qle_antisym; apply nearest_mono; lra. Qed.

(** A number with an integer significand below [2^53] and an exponent that
    binary64 has is a binary64 number. *)
Lemma nearest_exact (m s : Z) :
  (Z.abs m < 2 ^ 53)%Z -> (-1074 <= s)%Z ->
  (nearest (inject_Z m * 2 ^ s) == inject_Z m * 2 ^ s)%Q.
Proof.
  assert (Habs : forall k x, (0 < k)%Z -> (k < 2 ^ 53)%Z -> (-1074 <= s)%Z ->
            (x == inject_Z k * 2 ^ s)%Q -> (nearest_abs x == x)%Q).
  { intros k x Hk0 Hk Hs E. pose proof (pow2_pos s) as Hps.
    assert (Hx : (0 < x)%Q).
    { rewrite E. apply Qmult_lt_0_compat; [| exact Hps].
      change 0%Q with (inject_Z 0). rewrite <- Zlt_Qlt. exact Hk0. }
    destruct (exponent_spec x Hx) as [H1 _].
    assert (Hu : (ulp_exponent x <= s)%Z).
    { unfold ulp_exponent.
      assert (Hlt : (2 ^ exponent x < 2 ^ (s + 53))%Q).
      { apply Qle_lt_trans with x; [exact H1 |]. rewrite E.
        rewrite (Qpower_plus 2 s 53) by apply two_neq_0.
        rewrite (Qmult_comm (2 ^ s)).
        apply Qmult_lt_compat_r; [exact Hps |].
        rewrite <- pow2_inject by lia. rewrite <- Zlt_Qlt.
        exact Hk. }
      apply pow2_lt_inv in Hlt. lia. }
    apply (nearest_abs_multiple x (k * 2 ^ (s - ulp_exponent x))).
    apply Qeq_trans with (inject_Z k * 2 ^ s)%Q; [exact E |].
    rewrite inject_Z_mult, pow2_inject by lia.
    rewrite <- Qmult_assoc, <- Qpower_plus by apply two_neq_0.
    apply Qmult_comp; [reflexivity |]. f_equiv. lia. }
  intros Hm Hs. unfold nearest. rewrite Qred_correct.
  pose proof (pow2_pos s) as Hps.
  destruct (Z.lt_trichotomy m 0) as [Hneg | [-> | Hpos]].
  - assert (Hlt : (inject_Z m * 2 ^ s < 0)%Q).
    { assert (inject_Z m < 0)%Q
        by (change 0%Q with (inject_Z 0); rewrite <- Zlt_Qlt; exact Hneg).
      setoid_replace 0%Q with (0 * 2 ^ s)%Q by ring.
      apply Qmult_lt_compat_r; assumption. }
    destruct (Qle_bool 0 (inject_Z m * 2 ^ s)) eqn:E.
    + apply Qle_bool_iff in E. lra.
    + rewrite (Habs (- m)%Z); [ring | lia | lia | exact Hs |].
      rewrite inject_Z_opp. ring.
  - change (inject_Z 0) with 0%Q.
    destruct (Qle_bool 0 (0 * 2 ^ s)) eqn:E.
    + unfold nearest_abs. rewrite (rint_comp _ (inject_Z 0)).
      * rewrite rint_inject_Z. change (inject_Z 0) with 0%Q. ring.
      * change (inject_Z 0) with 0%Q. unfold Qdiv. ring.
    + assert (~ (0 <= 0 * 2 ^ s)%Q) by (rewrite <- Qle_bool_iff; congruence).
      lra.
  - assert (Hgt : (0 < inject_Z m * 2 ^ s)%Q).
    { apply Qmult_lt_0_compat; [| exact Hps].
      change 0%Q with (inject_Z 0). rewrite <- Zlt_Qlt. exact Hpos. }
    destruct (Qle_bool 0 (inject_Z m * 2 ^ s)) eqn:E.
    + apply (Habs m); [lia | lia | exact Hs | reflexivity].
    + assert (~ (0 <= inject_Z m * 2 ^ s)%Q)
        by (rewrite <- Qle_bool_iff; congruence).
      lra.
Qed.

Lemma nearest_inject_Z (z : Z) :
  (Z.abs z < 2 ^ 53)%Z -> (nearest (inject_Z z) == inject_Z z)%Q.
Proof.
  intros Hz.
  assert (E : (inject_Z z == inject_Z z * 2 ^ 0)%Q)
    by (change (2 ^ 0)%Q with 1%Q; ring).
  rewrite (nearest_comp _ _ E), nearest_exact by (assumption || lia).
  symmetry. exact E.
Qed.

Lemma nearest_range (x : Q) (lo hi : Z) :
  (Z.abs lo < 2 ^ 53)%Z -> (Z.abs hi < 2 ^ 53)%Z ->
  (inject_Z lo <= x <= inject_Z hi)%Q ->
  (inject_Z lo <= nearest x <= inject_Z hi)%Q.
Proof.
  intros Hl Hh [H1 H2]. split.
  - rewrite <- (nearest_inject_Z lo Hl). apply nearest_mono, H1.
  - rewrite <- (nearest_inject_Z hi Hh). apply nearest_mono, H2.
Qed.

End F64Facts.

Module RoundFacts.
Import PyFloat.

Lemma scale_pos (n : nat) : (0 < inject_Z (10 ^ Z.of_nat n))%Q.
Proof.
  change 0%Q with (inject_Z 0). rewrite <- Zlt_Qlt.
  apply Z.pow_pos_nonneg; lia.
Qed.




(** [round] on a [numpy.float64] keeps the order. *)
Lemma around_mono (x y : Q) (n : nat) :
  (x <= y)%Q -> (Np.around x n <= Np.around y n)%Q.
Proof.
  intros Hxy. unfold Np.around, F64.div, F64.mul.
  pose proof (scale_pos n) as Hs.
  set (s := inject_Z (10 ^ Z.of_nat n)) in *.
  apply F64Facts.nearest_mono.
  apply Qmult_le_compat_r; [| apply Qlt_le_weak, Qinv_lt_0_compat, Hs].
  rewrite <- Zle_Qle. apply F64Facts.rint_mono, F64Facts.nearest_mono.
  apply Qmult_le_compat_r; [exact Hxy | lra].
Qed.

(** It leaves an integer where it is, if the integer times [10 ** n] is
    still a float. *)
Lemma around_inject_Z (z : Z) (n : nat) :
  (Z.abs (z * 10 ^ Z.of_nat n) < 2 ^ 53)%Z ->
  (Np.around (inject_Z z) n == inject_Z z)%Q.
Proof.
  intros Hzs. unfold Np.around, F64.div, F64.mul.
  pose proof (scale_pos n) as Hs.
  assert (Hp : (0 < 10 ^ Z.of_nat n)%Z) by (apply Z.pow_pos_nonneg; lia).
  set (s := (10 ^ Z.of_nat n)%Z) in *.
  assert (Hz : (Z.abs z < 2 ^ 53)%Z).
  { rewrite Z.abs_mul, (Z.abs_eq s) in Hzs by lia.
    assert (Z.abs z <= Z.abs z * s)%Z by nia. lia. }
  rewrite (F64Facts.rint_comp _ (inject_Z (z * s))).
  - rewrite F64Facts.rint_inject_Z.
    apply Qeq_trans with (F64.nearest (inject_Z z));
      [| apply F64Facts.nearest_inject_Z, Hz].
    apply F64Facts.nearest_comp. rewrite inject_Z_mult. field. lra.
  - apply Qeq_trans with (F64.nearest (inject_Z (z * s)));
      [| apply F64Facts.nearest_inject_Z, Hzs].
    apply F64Facts.nearest_comp. rewrite inject_Z_mult. reflexivity.
Qed.

Lemma around_range (x : Q) (n : nat) (lo hi : Z) :
  (Z.abs (lo * 10 ^ Z.of_nat n) < 2 ^ 53)%Z ->
  (Z.abs (hi * 10 ^ Z.of_nat n) < 2 ^ 53)%Z ->
  (inject_Z lo <= x <= inject_Z hi)%Q ->
  (inject_Z lo <= Np.around x n <= inject_Z hi)%Q.
Proof.
  intros Hl Hh [Hlo Hhi]. split.
  - rewrite <- (around_inject_Z lo n Hl). apply around_mono, Hlo.
  - rewrite <- (around_inject_Z hi n Hh). apply around_mono, Hhi.
Qed.

(** The similarity of line 162 as a function of the distance. *)
Lemma similarity_antitone (p q : Product) (x y : Q) :
  (0 <= x)%Q -> (x <= y)%Q ->
  (similarity (semantic_item q y) <= similarity (semantic_item p x))%Q.
Proof.
  intros Hx Hxy. cbn [similarity semantic_item].
  apply around_mono. unfold F64.mul. apply F64Facts.nearest_mono.
  apply Qmult_le_compat_r; [| discriminate].
  unfold F64.div. apply F64Facts.nearest_mono.
  assert (H1 : (inject_Z 1 <= F64.add 1 x)%Q).
  { rewrite <- (F64Facts.nearest_inject_Z 1) by reflexivity.
    apply F64Facts.nearest_mono. change (inject_Z 1) with 1%Q. lra. }
  assert (H2 : (F64.add 1 x <= F64.add 1 y)%Q)
    by (apply F64Facts.nearest_mono; lra).
  change (inject_Z 1) with 1%Q in H1.
  set (a := F64.add 1 x) in *. set (b := F64.add 1 y) in *.
  apply Qle_shift_div_l; [lra |].
  setoid_replace (1 / b * a)%Q with (a / b)%Q by (field; lra).
  apply Qle_shift_div_r; lra.
Qed.

(** [1 / (1 + dist)] as the interpreter takes it. *)
Lemma unit_fraction_range (dist : Q) :
  (0 <= dist)%Q -> (0 <= F64.div 1 (F64.add 1 dist) <= 1)%Q.
Proof.
  intros H0.
  assert (H1 : (inject_Z 1 <= F64.add 1 dist)%Q).
  { rewrite <- (F64Facts.nearest_inject_Z 1) by reflexivity.
    apply F64Facts.nearest_mono. change (inject_Z 1) with 1%Q. lra. }
  change (inject_Z 1) with 1%Q in H1.
  unfold F64.div.
  apply (F64Facts.nearest_range _ 0 1); [reflexivity | reflexivity |].
  change (inject_Z 0) with 0%Q. change (inject_Z 1) with 1%Q.
  set (a := F64.add 1 dist) in *. split.
  - apply Qle_shift_div_l; lra.
  - apply Qle_shift_div_r; lra.
Qed.

(** The two numbers of a match at a distance that is not negative. *)
Lemma semantic_item_range (p : Product) (dist : Q) :
  (0 <= dist)%Q ->
  (0 <= similarity (semantic_item p dist) <= 100)%Q
  /\ (0 <= distance (semantic_item p dist))%Q.
Proof.
  intros H0. cbn [similarity distance semantic_item]. split.
  - apply (around_range _ 2 0 100); [reflexivity | reflexivity |].
    change (inject_Z 0) with 0%Q. change (inject_Z 100) with 100%Q.
    unfold F64.mul.
    apply (F64Facts.nearest_range _ 0 100); [reflexivity | reflexivity |].
    change (inject_Z 0) with 0%Q. change (inject_Z 100) with 100%Q.
    pose proof (unit_fraction_range dist H0) as Hd.
    set (d := F64.div 1 (F64.add 1 dist)) in *. lra.
  - change 0%Q with (inject_Z 0).
    rewrite <- (around_inject_Z 0 4) by reflexivity.
    apply around_mono, H0.
Qed.

End RoundFacts.

Module BlockFacts.
Import Difflib.

Section Blocks.
Variables a b : list ascii.

Lemma b2j_spec (c : ascii) (j : nat) :
  In j (b2j b c) -> elt b j = c /\ (j < List.length b)%nat.
Proof.
  unfold b2j. destruct (popular b c); [intros [] |].
  intros H. apply filter_In in H. destruct H as [Hj He].
  apply in_seq in Hj. apply Ascii.eqb_eq in He. split; [exact He | lia].
Qed.

Lemma inner_step_ok (alo ahi blo bhi i : nat) (j2len : nat -> nat)
    (st : (nat -> nat) * best) (j : nat) :
  (alo <= i)%nat -> (i < ahi)%nat ->
  row_ok a b alo blo bhi i j2len ->
  elt b j = elt a i ->
  row_ok a b alo blo bhi (S i) (fst st) -> block_in a b alo ahi blo bhi (snd st) ->
  row_ok a b alo blo bhi (S i) (fst (inner_step blo bhi i j2len st j))
  /\ block_in a b alo ahi blo bhi (snd (inner_step blo bhi i j2len st j)).
Proof.
  intros Hai Hi Hrow Hj Hnew Hbest.
  destruct st as [new [[bi bj] bs]]. unfold inner_step.
  destruct (j <? blo)%nat eqn:E1; [split; assumption |].
  destruct (bhi <=? j)%nat eqn:E2; [split; assumption |].
  apply Nat.ltb_ge in E1. apply Nat.leb_gt in E2.
  set (k := S (get_prev j2len j)).
  assert (Hk : (k <= S i - alo)%nat /\ (k <= j + 1 - blo)%nat
               /\ forall t, (t < k)%nat -> elt a (S i - 1 - t) = elt b (j - t)).
  { unfold k, get_prev. destruct j as [| j'].
    - split; [lia | split; [lia |]]. intros t Ht.
      replace t with 0%nat by lia. rewrite !Nat.sub_0_r.
      replace (S i - 1)%nat with i by lia. symmetry. exact Hj.
    - destruct (j2len j') as [| p] eqn:Ep.
      + split; [lia | split; [lia |]]. intros t Ht.
        replace t with 0%nat by lia. rewrite !Nat.sub_0_r.
        replace (S i - 1)%nat with i by lia. symmetry. exact Hj.
      + destruct (Hrow j') as (H1 & H2 & H3 & H4); [congruence |].
        rewrite Ep in H1, H2, H4.
        split; [lia | split; [lia |]]. intros [| t] Ht.
        * rewrite !Nat.sub_0_r. replace (S i - 1)%nat with i by lia.
          symmetry. exact Hj.
        * replace (S i - 1 - S t)%nat with (i - 1 - t)%nat by lia.
          replace (S j' - S t)%nat with (j' - t)%nat by lia.
          apply H4. lia. }
  destruct Hk as (Hk1 & Hk2 & Hk3).
  cbn [fst snd]. split.
  - intros j0 Hne. destruct (j0 =? j)%nat eqn:Ej.
    + apply Nat.eqb_eq in Ej. subst j0. repeat split; try assumption.
    + apply Hnew. exact Hne.
  - destruct (bs <? k)%nat; [| exact Hbest].
    unfold block_in. repeat split; try lia.
    intros t Ht. specialize (Hk3 (k - 1 - t)%nat ltac:(lia)).
    replace (S i - 1 - (k - 1 - t))%nat with (i + 1 - k + t)%nat in Hk3 by lia.
    replace (j - (k - 1 - t))%nat with (j + 1 - k + t)%nat in Hk3 by lia.
    exact Hk3.
Qed.

Lemma inner_fold_ok (alo ahi blo bhi i : nat) (j2len : nat -> nat)
    (js : list nat) :
  (alo <= i)%nat -> (i < ahi)%nat ->
  row_ok a b alo blo bhi i j2len ->
  Forall (fun j => elt b j = elt a i) js ->
  forall st,
    row_ok a b alo blo bhi (S i) (fst st) -> block_in a b alo ahi blo bhi (snd st) ->
    row_ok a b alo blo bhi (S i) (fst (fold_left (inner_step blo bhi i j2len) js st))
    /\ block_in a b alo ahi blo bhi
         (snd (fold_left (inner_step blo bhi i j2len) js st)).
Proof.
  intros Hai Hi Hrow Hjs. induction Hjs as [| j js Hj Hjs IH]; intros st H1 H2.
  - split; assumption.
  - simpl. destruct (inner_step_ok alo ahi blo bhi i j2len st j) as [H1' H2'];
      try assumption.
    apply IH; assumption.
Qed.

Lemma outer_step_ok (alo ahi blo bhi i : nat) (st : (nat -> nat) * best) :
  (alo <= i)%nat -> (i < ahi)%nat ->
  row_ok a b alo blo bhi i (fst st) -> block_in a b alo ahi blo bhi (snd st) ->
  row_ok a b alo blo bhi (S i) (fst (outer_step a b blo bhi st i))
  /\ block_in a b alo ahi blo bhi (snd (outer_step a b blo bhi st i)).
Proof.
  intros Hai Hi Hrow Hbest. destruct st as [j2len bst]. unfold outer_step.
  apply (inner_fold_ok alo ahi blo bhi i j2len); try assumption.
  - rewrite Forall_forall. intros j Hj. apply b2j_spec in Hj. apply Hj.
  - intros j Hne. cbn [fst] in Hne. congruence.
Qed.

Lemma outer_fold_ok (alo ahi blo bhi : nat) (n : nat) :
  forall i st,
    (alo <= i)%nat -> (i + n <= ahi)%nat ->
    row_ok a b alo blo bhi i (fst st) -> block_in a b alo ahi blo bhi (snd st) ->
    block_in a b alo ahi blo bhi
      (snd (fold_left (outer_step a b blo bhi) (seq i n) st)).
Proof.
  induction n as [| n IH]; intros i st Hai Hn Hrow Hbest; simpl.
  - exact Hbest.
  - destruct (outer_step_ok alo ahi blo bhi i st) as [H1 H2];
      try assumption; try lia.
    apply IH; try assumption; lia.
Qed.

Lemma extend_left_ok (alo ahi blo bhi : nat) (fuel : nat) :
  forall bst, block_in a b alo ahi blo bhi bst ->
              block_in a b alo ahi blo bhi (extend_left a b fuel alo blo bst).
Proof.
  induction fuel as [| f IH]; intros [[bi bj] bs] H; simpl; [exact H |].
  destruct ((alo <? bi)%nat && (blo <? bj)%nat
            && Ascii.eqb (elt a (bi - 1)) (elt b (bj - 1))) eqn:E; [| exact H].
  apply andb_true_iff in E. destruct E as [E E3].
  apply andb_true_iff in E. destruct E as [E1 E2].
  apply Nat.ltb_lt in E1, E2. apply Ascii.eqb_eq in E3.
  apply IH. destruct H as (H1 & H2 & H3 & H4 & H5).
  unfold block_in. repeat split; try lia.
  intros [| t] Ht.
  - rewrite !Nat.add_0_r. exact E3.
  - replace (bi - 1 + S t)%nat with (bi + t)%nat by lia.
    replace (bj - 1 + S t)%nat with (bj + t)%nat by lia.
    apply H5. lia.
Qed.

Lemma extend_right_ok (alo ahi blo bhi : nat) (fuel : nat) :
  forall bst, block_in a b alo ahi blo bhi bst ->
              block_in a b alo ahi blo bhi (extend_right a b fuel ahi bhi bst).
Proof.
  induction fuel as [| f IH]; intros [[bi bj] bs] H; simpl; [exact H |].
  destruct ((bi + bs <? ahi)%nat && (bj + bs <? bhi)%nat
            && Ascii.eqb (elt a (bi + bs)) (elt b (bj + bs))) eqn:E; [| exact H].
  apply andb_true_iff in E. destruct E as [E E3].
  apply andb_true_iff in E. destruct E as [E1 E2].
  apply Nat.ltb_lt in E1, E2. apply Ascii.eqb_eq in E3.
  apply IH. destruct H as (H1 & H2 & H3 & H4 & H5).
  unfold block_in. repeat split; try lia.
  intros t Ht. destruct (Nat.eq_dec t bs) as [-> | Hne]; [exact E3 |].
  apply H5. lia.
Qed.

(** [find_longest_match] returns a common run inside the two windows. *)
Lemma find_longest_match_ok (alo ahi blo bhi : nat) :
  (alo <= ahi)%nat -> (blo <= bhi)%nat ->
  block_in a b alo ahi blo bhi (find_longest_match a b alo ahi blo bhi).
Proof.
  intros Ha Hb. unfold find_longest_match.
  pose proof (outer_fold_ok alo ahi blo bhi (ahi - alo) alo
                (fun _ => O, (alo, blo, O))) as H.
  destruct (fold_left _ _ _) as [j2len bst]. cbn [snd] in H.
  apply extend_right_ok, extend_left_ok, H; try lia.
  - intros j Hne. cbn [fst] in Hne. congruence.
  - unfold block_in. cbn [snd]. repeat split; lia.
Qed.

End Blocks.

End BlockFacts.

Module CountFacts.
Import Difflib.


Lemma firstn_plus (A : Type) (n m : nat) (l : list A) :
  firstn (n + m) l = firstn n l ++ firstn m (skipn n l).
Proof.
  revert l. induction n as [| n IH]; intros [| x l]; simpl;
    try reflexivity.
  - rewrite firstn_nil. reflexivity.
  - rewrite IH. reflexivity.
Qed.

Lemma slice_split (l : list ascii) (lo mid hi : nat) :
  (lo <= mid)%nat -> (mid <= hi)%nat ->
  slice l lo hi = slice l lo mid ++ slice l mid hi.
Proof.
  intros H1 H2. unfold slice.
  replace (hi - lo)%nat with ((mid - lo) + (hi - mid))%nat by lia.
  rewrite firstn_plus, skipn_skipn.
  replace (mid - lo + lo)%nat with mid by lia. reflexivity.
Qed.

Lemma slice_length (l : list ascii) (lo hi : nat) :
  (hi <= List.length l)%nat -> List.length (slice l lo hi) = (hi - lo)%nat.
Proof.
  intros H. unfold slice. rewrite length_firstn, length_skipn. lia.
Qed.

Lemma slice_nth (l : list ascii) (lo hi t : nat) :
  (t < hi - lo)%nat -> nth t (slice l lo hi) zero = elt l (lo + t).
Proof.
  intros H. unfold slice, elt.
  rewrite nth_firstn. destruct (t <? hi - lo)%nat eqn:E.
  - apply nth_skipn.
  - apply Nat.ltb_ge in E. lia.
Qed.

Lemma slice_all (l : list ascii) : slice l 0 (List.length l) = l.
Proof.
  unfold slice. rewrite Nat.sub_0_r, skipn_0. apply firstn_all.
Qed.

(** A common run is the same slice of both sequences. *)
Lemma block_slices (a b : list ascii) (i j k : nat) :
  (i + k <= List.length a)%nat -> (j + k <= List.length b)%nat ->
  (forall t, (t < k)%nat -> elt a (i + t) = elt b (j + t)) ->
  slice a i (i + k) = slice b j (j + k).
Proof.
  intros Ha Hb Heq. apply (nth_ext _ _ zero zero).
  - rewrite !slice_length by assumption. lia.
  - intros t Ht. rewrite slice_length in Ht by assumption.
    rewrite !slice_nth by lia. apply Heq. lia.
Qed.

Lemma all_ascii_In (c : ascii) : In c all_ascii.
Proof.
  unfold all_ascii. apply in_map_iff. exists (nat_of_ascii c).
  split; [apply ascii_nat_embedding |].
  apply in_seq. pose proof (nat_ascii_bounded c). lia.
Qed.

Lemma all_ascii_NoDup : NoDup all_ascii.
Proof.
  unfold all_ascii. apply Finite.Injective_map_NoDup_in; [| apply seq_NoDup].
  intros x y Hx Hy E. apply in_seq in Hx, Hy.
  rewrite <- (nat_ascii_embedding x), <- (nat_ascii_embedding y) by lia.
  rewrite E. reflexivity.
Qed.

Section Sums.
Variable L : list ascii.

Lemma sum_plus (f g : ascii -> nat) :
  list_sum (map (fun c => (f c + g c)%nat) L)
  = (list_sum (map f L) + list_sum (map g L))%nat.
Proof.
  induction L as [| c r IH]; simpl; [reflexivity | rewrite IH; lia].
Qed.

Lemma sum_le (f g : ascii -> nat) :
  (forall c, (f c <= g c)%nat) ->
  (list_sum (map f L) <= list_sum (map g L))%nat.
Proof.
  intros H. induction L as [| c r IH]; simpl; [lia |].
  specialize (H c). lia.
Qed.

Lemma sum_ext (f g : ascii -> nat) :
  (forall c, f c = g c) -> list_sum (map f L) = list_sum (map g L).
Proof.
  intros H. induction L as [| c r IH]; simpl; [reflexivity |].
  rewrite H, IH. reflexivity.
Qed.

End Sums.

(** The sum over a duplicate-free list of a function that is [d] at [c0]
    and zero elsewhere. *)
Lemma sum_indicator (L : list ascii) (c0 : ascii) (d : nat) :
  NoDup L -> In c0 L ->
  list_sum (map (fun c => if Ascii.eqb c c0 then d else O) L) = d.
Proof.
  induction 1 as [| c r Hnotin Hnd IH]; intros Hin; [contradiction |].
  simpl. destruct (Ascii.eqb c c0) eqn:E.
  - apply Ascii.eqb_eq in E. subst c.
    assert (Hz : list_sum (map (fun c => if Ascii.eqb c c0 then d else O) r) = O).
    { clear IH Hin Hnd. induction r as [| x r IH]; simpl; [reflexivity |].
      destruct (Ascii.eqb x c0) eqn:Ex.
      - apply Ascii.eqb_eq in Ex. subst x. exfalso. apply Hnotin. left. reflexivity.
      - apply IH. intros H. apply Hnotin. right. exact H. }
    lia.
  - destruct Hin as [-> | Hin]; [rewrite Ascii.eqb_refl in E; discriminate |].
    apply IH, Hin.
Qed.

Lemma count_cons (c x : ascii) (l : list ascii) :
  count c (x :: l) = ((if Ascii.eqb x c then 1 else 0) + count c l)%nat.
Proof.
  unfold count. simpl. destruct (ascii_dec x c) as [-> | Hne].
  - rewrite Ascii.eqb_refl. reflexivity.
  - apply Ascii.eqb_neq in Hne. rewrite Hne. reflexivity.
Qed.

Lemma count_app (c : ascii) (x y : list ascii) :
  count c (x ++ y) = (count c x + count c y)%nat.
Proof. apply count_occ_app. Qed.

Lemma sum_count (x : list ascii) :
  list_sum (map (fun c => count c x) all_ascii) = List.length x.
Proof.
  induction x as [| y x IH]; cbn [List.length].
  - generalize all_ascii. intros L.
    induction L as [| c r IHr]; simpl; [reflexivity | exact IHr].
  - rewrite (sum_ext all_ascii _
               (fun c => ((if Ascii.eqb c y then 1 else 0) + count c x)%nat)).
    + rewrite sum_plus, IH.
      rewrite (sum_indicator all_ascii y 1 all_ascii_NoDup (all_ascii_In y)).
      reflexivity.
    + intros c. rewrite count_cons, (Ascii.eqb_sym y c). reflexivity.
Qed.

Lemma common_le_l (x y : list ascii) : (common x y <= List.length x)%nat.
Proof.
  unfold common. rewrite <- (sum_count x). apply sum_le. intros c. lia.
Qed.

Lemma common_le_r (x y : list ascii) : (common x y <= List.length y)%nat.
Proof.
  unfold common. rewrite <- (sum_count y). apply sum_le. intros c. lia.
Qed.

(** What lies around a shared run adds to what the run itself shares. *)
Lemma common_around (x1 m x2 y1 y2 : list ascii) :
  (common x1 y1 + List.length m + common x2 y2
   <= common (x1 ++ m ++ x2) (y1 ++ m ++ y2))%nat.
Proof.
  unfold common. rewrite <- (sum_count m) at 1.
  rewrite <- !sum_plus. apply sum_le. intros c.
  rewrite !count_app. lia.
Qed.

Lemma common_snoc (p y : list ascii) (c0 : ascii) :
  common (p ++ [c0]) y
  = (common p y + if (count c0 p <? count c0 y)%nat then 1 else 0)%nat.
Proof.
  unfold common.
  rewrite <- (sum_indicator all_ascii c0
                (if (count c0 p <? count c0 y)%nat then 1%nat else 0%nat)
                all_ascii_NoDup (all_ascii_In c0)).
  rewrite <- sum_plus. apply sum_ext. intros c.
  rewrite count_app, count_cons. cbn [count count_occ]. rewrite Nat.add_0_r.
  rewrite (Ascii.eqb_sym c0 c).
  destruct (Ascii.eqb c c0) eqn:E.
  - apply Ascii.eqb_eq in E. subst c.
    destruct (count c0 p <? count c0 y)%nat eqn:El.
    + apply Nat.ltb_lt in El. lia.
    + apply Nat.ltb_ge in El. lia.
  - lia.
Qed.

End CountFacts.


Module RatioFacts.
Import Difflib.
Import CountFacts.
Import BlockFacts.

Section Matcher.
Variables a b : list ascii.

(** [quick_ratio] counts the common elements. *)
Lemma quick_fold (x : list ascii) :
  forall p avail m,
    (forall c, avail c = (Z.of_nat (count c b) - Z.of_nat (count c p))%Z) ->
    m = common p b ->
    snd (fold_left quick_step x (avail, m)) = common (p ++ x) b.
Proof.
  induction x as [| c0 x IH]; intros p avail m Hav Hm.
  - simpl. rewrite app_nil_r. exact Hm.
  - cbn [fold_left]. unfold quick_step at 2.
    replace (p ++ c0 :: x) with ((p ++ [c0]) ++ x)
      by (rewrite <- app_assoc; reflexivity).
    apply IH.
    + intros c. rewrite count_app, count_cons. cbn [count count_occ].
      rewrite (Ascii.eqb_sym c0 c).
      destruct (Ascii.eqb c c0) eqn:E.
      * apply Ascii.eqb_eq in E. subst c. rewrite Hav. lia.
      * rewrite Hav. lia.
    + rewrite common_snoc, Hm, Hav.
      destruct (Z.ltb_spec 0 (Z.of_nat (count c0 b) - Z.of_nat (count c0 p)));
        destruct (Nat.ltb_spec (count c0 p) (count c0 b)); lia.
Qed.

Lemma quick_ratio_common :
  quick_ratio a b
  = calculate_ratio (common a b) (List.length a + List.length b).
Proof.
  unfold quick_ratio.
  pose proof (quick_fold a [] (fun c => Z.of_nat (count c b)) O) as H.
  destruct (fold_left quick_step a _) as [avail m]. cbn [snd] in H.
  rewrite H; [reflexivity | |].
  - intros c. cbn [count count_occ]. lia.
  - unfold common. generalize all_ascii. intros L.
    induction L as [| c r IHr]; simpl; [reflexivity | exact IHr].
Qed.

(** The sizes of the matching blocks add up to no more than the windows
    have in common. *)
Lemma matching_blocks_common (fuel : nat) :
  forall alo ahi blo bhi,
    (alo <= ahi)%nat -> (ahi <= List.length a)%nat ->
    (blo <= bhi)%nat -> (bhi <= List.length b)%nat ->
    (list_sum (map (fun t : best => snd t)
                   (matching_blocks a b fuel alo ahi blo bhi))
     <= common (slice a alo ahi) (slice b blo bhi))%nat.
Proof.
  induction fuel as [| f IH]; intros alo ahi blo bhi Ha1 Ha2 Hb1 Hb2;
    [simpl; lia |].
  cbn [matching_blocks].
  pose proof (find_longest_match_ok a b alo ahi blo bhi Ha1 Hb1) as Hok.
  destruct (find_longest_match a b alo ahi blo bhi) as [[i j] k].
  destruct Hok as (H1 & H2 & H3 & H4 & H5).
  destruct (k =? 0)%nat; [simpl; lia |].
  rewrite map_app, list_sum_app, map_cons.
  match goal with
  | |- context [(list_sum (map _ ?l) + list_sum (_ :: map _ ?r))%nat] =>
      set (left := l); set (right := r)
  end.
  change (list_sum (snd (i, j, k) :: map (fun t : best => snd t) right))
    with (k + list_sum (map (fun t : best => snd t) right))%nat.
  assert (Hl : (list_sum (map (fun t : best => snd t) left)
                <= common (slice a alo i) (slice b blo j))%nat).
  { unfold left. destruct ((alo <? i) && (blo <? j))%nat;
      [apply IH; lia | simpl; lia]. }
  assert (Hr : (list_sum (map (fun t : best => snd t) right)
                <= common (slice a (i + k) ahi) (slice b (j + k) bhi))%nat).
  { unfold right. destruct ((i + k <? ahi) && (j + k <? bhi))%nat;
      [apply IH; lia | simpl; lia]. }
  rewrite (slice_split a alo i ahi), (slice_split a i (i + k) ahi) by lia.
  rewrite (slice_split b blo j bhi), (slice_split b j (j + k) bhi) by lia.
  rewrite (block_slices a b i j k) by (try lia; exact H5).
  pose proof (common_around (slice a alo i) (slice b j (j + k))
                (slice a (i + k) ahi) (slice b blo j) (slice b (j + k) bhi)) as Hc.
  rewrite (slice_length b j (j + k)) in Hc by lia.
  lia.
Qed.

(** More fuel than the window of [a] is long changes nothing. *)
Lemma matching_blocks_fuel (fuel : nat) :
  forall fuel' alo ahi blo bhi,
    (alo <= ahi)%nat -> (blo <= bhi)%nat ->
    (ahi - alo < fuel)%nat -> (ahi - alo < fuel')%nat ->
    matching_blocks a b fuel alo ahi blo bhi
    = matching_blocks a b fuel' alo ahi blo bhi.
Proof.
  induction fuel as [| f IH]; intros fuel' alo ahi blo bhi Ha Hb Hf Hf'; [lia |].
  destruct fuel' as [| f']; [lia |].
  cbn [matching_blocks].
  pose proof (find_longest_match_ok a b alo ahi blo bhi Ha Hb) as Hok.
  destruct (find_longest_match a b alo ahi blo bhi) as [[i j] k].
  destruct Hok as (H1 & H2 & H3 & H4 & H5).
  destruct (k =? 0)%nat eqn:Ek; [reflexivity |].
  apply Nat.eqb_neq in Ek.
  f_equal; [| f_equal].
  - destruct ((alo <? i) && (blo <? j))%nat; [| reflexivity].
    apply IH; lia.
  - destruct ((i + k <? ahi) && (j + k <? bhi))%nat; [| reflexivity].
    apply IH; lia.
Qed.

Lemma calculate_ratio_mono (m1 m2 len : nat) :
  (m1 <= m2)%nat -> (calculate_ratio m1 len <= calculate_ratio m2 len)%Q.
Proof.
  intros H. unfold calculate_ratio. destruct len; [apply Qle_refl |].
  unfold Qle. cbn [Qnum Qden]. apply Z.mul_le_mono_nonneg_r; lia.
Qed.

(** The two quick ratios are upper bounds of [ratio]. *)
Lemma ratio_le_quick : (ratio a b <= quick_ratio a b)%Q.
Proof.
  rewrite quick_ratio_common. unfold ratio. apply calculate_ratio_mono.
  pose proof (matching_blocks_common (S (List.length a)) 0 (List.length a)
                0 (List.length b)) as H.
  rewrite !slice_all in H. apply H; lia.
Qed.

Lemma quick_le_real_quick : (quick_ratio a b <= real_quick_ratio a b)%Q.
Proof.
  rewrite quick_ratio_common. unfold real_quick_ratio.
  apply calculate_ratio_mono.
  pose proof (common_le_l a b). pose proof (common_le_r a b). lia.
Qed.

End Matcher.

(** The test of [get_close_matches] is the test of [ratio] alone. *)
Lemma close_enough_ratio (cutoff : Q) (word x : string) :
  close_enough cutoff word x = true <-> (cutoff <= similarity_to word x)%Q.
Proof.
  unfold close_enough, similarity_to.
  set (sa := list_ascii_of_string x). set (sb := list_ascii_of_string word).
  rewrite !andb_true_iff, !PyFloatFacts.geb_ge.
  pose proof (ratio_le_quick sa sb). pose proof (quick_le_real_quick sa sb).
  split; [intros [[_ _] H1]; exact H1 | intros H1; repeat split; lra].
Qed.

End RatioFacts.


Module LoopFacts.
Import Difflib.
Import BlockFacts.

Section Loops.
Variables a b : list ascii.

Lemma extend_left_stops (alo blo : nat) (fuel : nat) :
  forall bst,
    (fst (fst bst) - alo <= fuel)%nat ->
    can_extend_left a b alo blo (extend_left a b fuel alo blo bst) = false.
Proof.
  induction fuel as [| f IH]; intros [[bi bj] bs] Hf; cbn [fst] in Hf.
  - cbn [extend_left can_extend_left].
    replace (alo <? bi)%nat with false
      by (symmetry; apply Nat.ltb_ge; lia). reflexivity.
  - cbn [extend_left].
    destruct ((alo <? bi)%nat && (blo <? bj)%nat
              && Ascii.eqb (elt a (bi - 1)) (elt b (bj - 1))) eqn:E.
    + apply IH. cbn [fst]. lia.
    + exact E.
Qed.

Lemma extend_right_stops (ahi bhi : nat) (fuel : nat) :
  forall bst,
    (ahi - (fst (fst bst) + snd bst) <= fuel)%nat ->
    can_extend_right a b ahi bhi (extend_right a b fuel ahi bhi bst) = false.
Proof.
  induction fuel as [| f IH]; intros [[bi bj] bs] Hf; cbn [fst snd] in Hf.
  - cbn [extend_right can_extend_right].
    replace (bi + bs <? ahi)%nat with false
      by (symmetry; apply Nat.ltb_ge; lia). reflexivity.
  - cbn [extend_right].
    destruct ((bi + bs <? ahi)%nat && (bj + bs <? bhi)%nat
              && Ascii.eqb (elt a (bi + bs)) (elt b (bj + bs))) eqn:E.
    + apply IH. cbn [fst snd]. lia.
    + exact E.
Qed.

Lemma extend_right_start (ahi bhi : nat) (fuel : nat) :
  forall bst,
    fst (extend_right a b fuel ahi bhi bst) = fst bst.
Proof.
  induction fuel as [| f IH]; intros [[bi bj] bs]; cbn [extend_right];
    [reflexivity |].
  destruct (_ && _ && _); [rewrite IH |]; reflexivity.
Qed.

(** With [len(a)] turns each, the two loops of [find_longest_match] run to
    their end: the block it returns can be extended on neither side. *)
Lemma find_longest_match_loops_end (alo ahi blo bhi : nat) :
  (alo <= ahi)%nat -> (ahi <= List.length a)%nat -> (blo <= bhi)%nat ->
  can_extend_left a b alo blo (find_longest_match a b alo ahi blo bhi) = false
  /\ can_extend_right a b ahi bhi (find_longest_match a b alo ahi blo bhi) = false.
Proof.
  intros Ha Hl Hb. unfold find_longest_match.
  pose proof (outer_fold_ok a b alo ahi blo bhi (ahi - alo) alo
                (fun _ => O, (alo, blo, O))) as H.
  destruct (fold_left _ _ _) as [j2len bst]. cbn [snd] in H.
  assert (Hb0 : block_in a b alo ahi blo bhi bst).
  { apply H; try lia.
    - intros j Hne. cbn [fst] in Hne. congruence.
    - unfold block_in. cbn [snd]. repeat split; lia. }
  pose proof (extend_left_ok a b alo ahi blo bhi (List.length a) bst Hb0) as Hb1.
  assert (Hstop : can_extend_left a b alo blo
                    (extend_left a b (List.length a) alo blo bst) = false).
  { apply extend_left_stops. destruct bst as [[bi bj] bs].
    destruct Hb0 as (H1 & H2 & _). cbn [fst]. lia. }
  set (bst1 := extend_left a b (List.length a) alo blo bst) in *.
  split.
  - pose proof (extend_right_start ahi bhi (List.length a) bst1) as Hs.
    destruct (extend_right a b (List.length a) ahi bhi bst1) as [[i j] k].
    destruct bst1 as [[i1 j1] k1]. cbn [fst] in Hs. injection Hs as -> ->.
    exact Hstop.
  - apply extend_right_stops. destruct bst1 as [[bi bj] bs].
    cbn [fst snd]. lia.
Qed.

End Loops.

End LoopFacts.

Module StrOrder.
Import OrderedTypeEx.

Lemma string_ltb_lt (s1 s2 : string) : String.ltb s1 s2 = true <-> String_as_OT.lt s1 s2.
Proof.
  unfold String.ltb. rewrite <- String_as_OT.cmp_lt. unfold String_as_OT.cmp.
  destruct (String.compare s1 s2); split; congruence.
Qed.

Lemma ltb_irrefl (s : string) : String.ltb s s = false.
Proof.
  destruct (String.ltb s s) eqn:E; [| reflexivity].
  apply string_ltb_lt in E. apply String_as_OT.lt_not_eq in E. exfalso. apply E. reflexivity.
Qed.

Lemma ltb_trans (s1 s2 s3 : string) :
  String.ltb s1 s2 = true -> String.ltb s2 s3 = true -> String.ltb s1 s3 = true.
Proof.
  rewrite !string_ltb_lt. apply String_as_OT.lt_trans.
Qed.

Lemma ltb_asym (s1 s2 : string) :
  String.ltb s1 s2 = true -> String.ltb s2 s1 = false.
Proof.
  intros H. destruct (String.ltb s2 s1) eqn:E; [| reflexivity].
  pose proof (ltb_trans _ _ _ H E) as Hc. rewrite ltb_irrefl in Hc. discriminate.
Qed.

Lemma ltb_total (s1 s2 : string) :
  String.ltb s1 s2 = false -> String.ltb s2 s1 = false -> s1 = s2.
Proof.
  unfold String.ltb. rewrite (String.compare_antisym s1 s2).
  destruct (String.compare s2 s1) eqn:E; simpl; try discriminate.
  intros _ _. symmetry. apply String.compare_eq_iff, E.
Qed.

(** [s1 <= s2] in Python's order on strings. *)
Lemma leb_not_ltb (s1 s2 : string) : String.leb s1 s2 = negb (String.ltb s2 s1).
Proof.
  unfold String.leb, String.ltb. rewrite (String.compare_antisym s1 s2).
  destruct (String.compare s2 s1); reflexivity.
Qed.

Lemma nlt_trans (s1 s2 s3 : string) :
  String.ltb s2 s1 = false -> String.ltb s3 s2 = false -> String.ltb s3 s1 = false.
Proof.
  intros H12 H23. destruct (String.ltb s3 s1) eqn:E; [| reflexivity].
  destruct (String.ltb s1 s2) eqn:E12.
  - rewrite (ltb_trans _ _ _ E E12) in H23. discriminate.
  - rewrite (ltb_total _ _ E12 H12) in E. congruence.
Qed.

End StrOrder.

Module MaxFacts.
Import PySeq.

Section Head.
Variable A : Type.
Variable gtb : A -> A -> bool.
Hypothesis gtb_asym : forall x y, gtb x y = true -> gtb y x = false.
Hypothesis ngtb_trans :
  forall x y z, gtb x y = false -> gtb y z = false -> gtb x z = false.

(** The head of the descending sort is an item that none exceeds. *)
Lemma sort_desc_head (l : list A) :
  l <> [] ->
  exists h t, sort_desc gtb l = h :: t /\ In h l
              /\ forall y, In y l -> gtb y h = false.
Proof.
  induction l as [| x r IH]; [congruence | intros _].
  destruct r as [| x' r'].
  - exists x, []. simpl. repeat split; auto.
    intros y [<- | []].
    destruct (gtb x x) eqn:E; [| reflexivity].
    rewrite (gtb_asym _ _ E) in E. discriminate.
  - destruct IH as (h & t & Hs & Hin & Hmax); [discriminate |].
    change (sort_desc gtb (x :: x' :: r')) with (insert_desc gtb x (sort_desc gtb (x' :: r'))).
    rewrite Hs. simpl. destruct (gtb h x) eqn:E.
    + exists h, (insert_desc gtb x t). split; [reflexivity |].
      split; [right; exact Hin |].
      intros y [<- | Hy]; [apply gtb_asym, E | apply Hmax, Hy].
    + exists x, (h :: t). split; [reflexivity |]. split; [left; reflexivity |].
      intros y [<- | Hy].
      * destruct (gtb x x) eqn:Ex; [| reflexivity].
        rewrite (gtb_asym _ _ Ex) in Ex. discriminate.
      * eapply ngtb_trans; [apply Hmax, Hy | exact E].
Qed.

End Head.

End MaxFacts.

Module DifflibFacts.
Import Difflib.

Lemma pair_gtb_false (p1 p2 : Q * string) :
  pair_gtb p1 p2 = false <->
  (fst p1 <= fst p2)%Q
  /\ ((fst p1 == fst p2)%Q -> String.ltb (snd p2) (snd p1) = false).
Proof.
  unfold pair_gtb. rewrite orb_false_iff, andb_false_iff.
  rewrite PyFloatFacts.gtb_false. split.
  - intros [Hle [Hne | Hs]]; split; auto.
    intros E. apply Qeq_bool_neq in Hne. contradiction.
  - intros [Hle Hs]. split; [exact Hle |].
    destruct (Qeq_bool (fst p1) (fst p2)) eqn:E; [right | left; reflexivity].
    apply Hs, Qeq_bool_eq, E.
Qed.

Lemma pair_gtb_asym (x y : Q * string) :
  pair_gtb x y = true -> pair_gtb y x = false.
Proof.
  unfold pair_gtb at 1. intros H. apply pair_gtb_false.
  apply orb_true_iff in H. destruct H as [H | H].
  - apply PyFloatFacts.gtb_gt in H. split; [lra | intros E; lra].
  - apply andb_true_iff in H. destruct H as [E Hs]. apply Qeq_bool_eq in E.
    split; [lra |]. intros _. apply StrOrder.ltb_asym, Hs.
Qed.

Lemma pair_ngtb_trans (x y z : Q * string) :
  pair_gtb x y = false -> pair_gtb y z = false -> pair_gtb x z = false.
Proof.
  rewrite !pair_gtb_false. intros [H1 S1] [H2 S2]. split; [lra |].
  intros E. eapply StrOrder.nlt_trans; [apply S1 | apply S2]; lra.
Qed.

(** [get_close_matches] with [n = 1]: nothing when no possibility passes
    the test, else the possibility whose pair [(ratio, x)] none exceeds. *)
Lemma get_close_matches_gate (word : string) (possibilities : list string)
    (cutoff : Q) :
  (Forall (fun x => close_enough cutoff word x = false) possibilities
   /\ get_close_matches word possibilities 1 cutoff = [])
  \/ (exists best,
        get_close_matches word possibilities 1 cutoff = [best]
        /\ In best possibilities
        /\ close_enough cutoff word best = true
        /\ forall y, In y possibilities -> close_enough cutoff word y = true ->
             (similarity_to word y <= similarity_to word best)%Q
             /\ ((similarity_to word y == similarity_to word best)%Q ->
                 String.leb y best = true)).
Proof.
  unfold get_close_matches, PySeq.nlargest.
  set (passed := filter (close_enough cutoff word) possibilities).
  destruct passed as [| x0 rest] eqn:Ep.
  - left. split; [| reflexivity].
    rewrite Forall_forall. intros x Hx.
    destruct (close_enough cutoff word x) eqn:E; [| reflexivity].
    assert (Hin : In x passed) by (apply filter_In; auto).
    rewrite Ep in Hin. contradiction.
  - right.
    destruct (MaxFacts.sort_desc_head _ pair_gtb pair_gtb_asym pair_ngtb_trans
                (map (scored word) (x0 :: rest)))
      as (h & t & Hs & Hin & Hmax); [discriminate |].
    rewrite Hs. apply in_map_iff in Hin. destruct Hin as (best & <- & Hb).
    rewrite <- Ep in Hb. apply filter_In in Hb. destruct Hb as [Hb Hc].
    exists best. split; [reflexivity |]. split; [exact Hb |]. split; [exact Hc |].
    intros y Hy Hcy.
    assert (Hiny : In (scored word y) (map (scored word) (x0 :: rest))).
    { apply in_map. rewrite <- Ep. apply filter_In. auto. }
    apply Hmax, pair_gtb_false in Hiny. cbn [scored fst snd] in Hiny.
    destruct Hiny as [Hle Hs']. split; [exact Hle |].
    intros E. rewrite StrOrder.leb_not_ltb, (Hs' E). reflexivity.
Qed.

(** The same in terms of the ratio alone. *)
Lemma get_close_matches_one (word : string) (possibilities : list string)
    (cutoff : Q) :
  (Forall (fun x => (similarity_to word x < cutoff)%Q) possibilities
   /\ get_close_matches word possibilities 1 cutoff = [])
  \/ (exists best,
        get_close_matches word possibilities 1 cutoff = [best]
        /\ In best possibilities
        /\ (cutoff <= similarity_to word best)%Q
        /\ forall y, In y possibilities ->
             (similarity_to word y <= similarity_to word best)%Q
             /\ ((similarity_to word y == similarity_to word best)%Q ->
                 String.leb y best = true)).
Proof.
  destruct (get_close_matches_gate word possibilities cutoff)
    as [[Hnone Hg] | (best & Hg & Hin & Hc & Hmax)].
  - left. split; [| exact Hg].
    eapply Forall_impl; [| exact Hnone]. cbv beta. intros x Hx.
    apply Qnot_le_lt. intros Hle.
    apply RatioFacts.close_enough_ratio in Hle. congruence.
  - right. exists best. split; [exact Hg |]. split; [exact Hin |].
    apply RatioFacts.close_enough_ratio in Hc. split; [exact Hc |].
    intros y Hy.
    destruct (close_enough cutoff word y) eqn:Ey; [apply Hmax; assumption |].
    assert (Hlt : (similarity_to word y < cutoff)%Q).
    { apply Qnot_le_lt. intros Hle.
      apply RatioFacts.close_enough_ratio in Hle. congruence. }
    split; [lra | intros E; lra].
Qed.

End DifflibFacts.


Module StripFacts.
Import PyStr.

Lemma lstrip_clean (l : list ascii) : clean_head (lstrip_chars l).
Proof.
  induction l as [| c r IH]; simpl; [exact I |].
  destruct (isspace c) eqn:E; [exact IH | exact E].
Qed.

Lemma lstrip_fixed (l : list ascii) : clean_head l -> lstrip_chars l = l.
Proof.
  destruct l as [| c r]; simpl; [reflexivity |]. intros ->. reflexivity.
Qed.

Lemma lstrip_split (l : list ascii) :
  exists sp, l = sp ++ lstrip_chars l /\ Forall (fun c => isspace c = true) sp.
Proof.
  induction l as [| c r (sp & Hl & Hsp)]; simpl.
  - exists []. split; [reflexivity | constructor].
  - destruct (isspace c) eqn:E.
    + exists (c :: sp). split; [simpl; congruence | constructor; assumption].
    + exists []. split; [reflexivity | constructor].
Qed.

Lemma rstrip_clean (l : list ascii) : clean_head l -> clean_head (rstrip_chars l).
Proof.
  unfold rstrip_chars. intros Hl.
  destruct (lstrip_split (rev l)) as (sp & Hr & Hsp).
  apply (f_equal (@rev ascii)) in Hr. rewrite rev_involutive, rev_app_distr in Hr.
  destruct (rev (lstrip_chars (rev l))) as [| c t]; [exact I |].
  rewrite Hr in Hl. exact Hl.
Qed.

Lemma rstrip_idem (l : list ascii) : rstrip_chars (rstrip_chars l) = rstrip_chars l.
Proof.
  unfold rstrip_chars. rewrite rev_involutive.
  rewrite (lstrip_fixed _ (lstrip_clean (rev l))). reflexivity.
Qed.

Lemma strip_chars_idem (l : list ascii) :
  strip_chars (strip_chars l) = strip_chars l.
Proof.
  unfold strip_chars.
  rewrite (lstrip_fixed (rstrip_chars (lstrip_chars l)))
    by (apply rstrip_clean, lstrip_clean).
  apply rstrip_idem.
Qed.

Lemma strip_idem (s : string) : strip (strip s) = strip s.
Proof.
  unfold strip. rewrite list_ascii_of_string_of_list_ascii, strip_chars_idem.
  reflexivity.
Qed.

Lemma rstrip_split (l : list ascii) :
  exists sp, l = rstrip_chars l ++ sp /\ Forall (fun c => isspace c = true) sp.
Proof.
  unfold rstrip_chars.
  destruct (lstrip_split (rev l)) as (sp & Hr & Hsp).
  exists (rev sp). split.
  - apply (f_equal (@rev ascii)) in Hr.
    rewrite rev_involutive, rev_app_distr in Hr. exact Hr.
  - rewrite Forall_forall in *. intros c Hc. apply Hsp, in_rev, Hc.
Qed.

Lemma rstrip_clean_tail (l : list ascii) : clean_head (rev (rstrip_chars l)).
Proof.
  unfold rstrip_chars. rewrite rev_involutive. apply lstrip_clean.
Qed.

Lemma string_of_list_app (a b : list ascii) :
  string_of_list_ascii (a ++ b)
  = (string_of_list_ascii a ++ string_of_list_ascii b)%string.
Proof.
  induction a as [| c a IH]; simpl; [reflexivity |]. rewrite IH. reflexivity.
Qed.

(** What [strip] takes away is whitespace, on both sides, and what it
    leaves neither starts nor ends with whitespace. *)
Lemma strip_split (s : string) :
  exists lead trail,
    s = (lead ++ strip s ++ trail)%string
    /\ Forall (fun c => isspace c = true) (list_ascii_of_string lead)
    /\ Forall (fun c => isspace c = true) (list_ascii_of_string trail)
    /\ clean_head (list_ascii_of_string (strip s))
    /\ clean_head (rev (list_ascii_of_string (strip s))).
Proof.
  unfold strip, strip_chars.
  destruct (lstrip_split (list_ascii_of_string s)) as (sp1 & H1 & Hsp1).
  destruct (rstrip_split (lstrip_chars (list_ascii_of_string s)))
    as (sp2 & H2 & Hsp2).
  exists (string_of_list_ascii sp1), (string_of_list_ascii sp2).
  rewrite !list_ascii_of_string_of_list_ascii.
  split; [| split; [exact Hsp1 | split; [exact Hsp2 | split]]].
  - rewrite <- !string_of_list_app, <- H2, <- H1.
    symmetry. apply string_of_list_ascii_of_string.
  - apply rstrip_clean, lstrip_clean.
  - apply rstrip_clean_tail.
Qed.

End StripFacts.


Module EnumFacts.

Lemma combine_seq_snd (A : Type) (l : list A) (start : nat) :
  map snd (combine (seq start (List.length l)) l) = l.
Proof.
  revert start. induction l as [| x r IH]; intros start; simpl;
    [| rewrite IH]; reflexivity.
Qed.

Lemma combine_seq_In (A : Type) (l : list A) (start i : nat) (x : A) :
  In (i, x) (combine (seq start (List.length l)) l) ->
  (start <= i)%nat /\ nth_error l (i - start) = Some x.
Proof.
  revert start. induction l as [| y r IH]; intros start; simpl; [tauto |].
  intros [[= <- <-] | H].
  - rewrite Nat.sub_diag. auto.
  - apply IH in H. destruct H as [Hle Hn]. split; [lia |].
    replace (i - start)%nat with (S (i - S start)) by lia. exact Hn.
Qed.

Lemma combine_seq_sorted (A : Type) (l : list A) (start : nat) :
  StronglySorted (fun x y : nat * A => (fst x < fst y)%nat)
                 (combine (seq start (List.length l)) l).
Proof.
  revert start. induction l as [| y r IH]; intros start; simpl; constructor.
  - apply IH.
  - rewrite Forall_forall. intros [i x] Hi. apply combine_seq_In in Hi.
    simpl. lia.
Qed.

Lemma slice_to_map (A B : Type) (g : A -> B) (l : list A) (k : Z) :
  PySeq.slice_to (map g l) k = map g (PySeq.slice_to l k).
Proof.
  unfold PySeq.slice_to. rewrite length_map.
  destruct (0 <=? k)%Z; apply firstn_map.
Qed.


Lemma Forall2_map_both (A B C : Type) (R : B -> C -> Prop) (f : A -> B)
    (h : A -> C) (l : list A) :
  Forall (fun x => R (f x) (h x)) l -> Forall2 R (map f l) (map h l).
Proof.
  induction 1; simpl; constructor; assumption.
Qed.

End EnumFacts.


Module RapidFuzzFacts.
Import RapidFuzz.









End RapidFuzzFacts.

Module RefLibsFacts.
Import RefLibs.

Lemma StronglySorted_split (A : Type) (R : A -> A -> Prop)
    (l1 : list A) (x : A) (l2 : list A) (y : A) (l3 : list A) :
  StronglySorted R (l1 ++ x :: l2 ++ y :: l3) -> R x y.
Proof.
  induction l1 as [| z l1 IH]; simpl; intros Hs.
  - apply StronglySorted_inv in Hs. destruct Hs as [_ Hx].
    rewrite Forall_forall in Hx. apply Hx.
    apply in_or_app. right. left. reflexivity.
  - apply StronglySorted_inv in Hs. apply IH, Hs.
Qed.

Lemma stable_impl_nearer_first (d : list Q) :
  StronglySorted (nearer_first d) (argsort_stable_impl d).
Proof.
  unfold argsort_stable_impl.
  eapply PySeqFacts.StronglySorted_weaken;
    [| apply (PySeqFacts.sort_desc_higher_first nat (fun i => i)
                (fun i => (- nth i d 0)%Q))].
  - intros i j [H | [H1 H2]]; [left | right]; [lra | split; [lra | exact H2]].
  - intros i j. rewrite PyFloatFacts.ltb_lt. split; intros H; lra.
  - apply PySeqFacts.seq_sorted.
Qed.

Lemma stable_argsort_contract : @argsort_contract stable.
Proof.
  intros d. split.
  - apply PySeqFacts.sort_desc_perm.
  - eapply PySeqFacts.StronglySorted_weaken; [| apply stable_impl_nearer_first].
    intros i j [H | [H _]]; lra.
Qed.

Lemma stable_argsort_stable : @argsort_stable stable.
Proof.
  intros d l1 i l2 j l3 E Heq.
  pose proof (stable_impl_nearer_first d) as Hs.
  change (argsort_stable_impl d) with (@argsort stable d) in Hs.
  rewrite E in Hs. apply StronglySorted_split in Hs.
  destruct Hs as [H | [_ H]]; [lra | exact H].
Qed.

Lemma sqrt_nonneg (x : Q) : (0 <= F64.sqrt x)%Q.
Proof.
  unfold F64.sqrt. rewrite Qred_correct.
  set (s := Z.max (F64.exponent x / 2 - 52) (-1074)).
  set (t := (x / 2 ^ (2 * s))%Q).
  pose proof (Z.sqrt_nonneg (Qfloor t)) as Hr.
  set (r := Z.sqrt (Qfloor t)) in *.
  apply Qmult_le_0_compat;
    [| apply Qlt_le_weak, F64Facts.pow2_pos].
  change 0%Q with (inject_Z 0). rewrite <- Zle_Qle.
  destruct (Qcompare _ _); [destruct (Z.even r) | |]; lia.
Qed.

Lemma norm_nonneg (v : list Q) : (0 <= norm v)%Q.
Proof. apply sqrt_nonneg. Qed.

Lemma stable_norm_contract : @norm_contract stable.
Proof. intros v. apply norm_nonneg. Qed.


End RefLibsFacts.

Module LoadFacts.

Lemma decode_f32_length (fuel : nat) (buf : list Byte.byte) :
  (List.length buf <= 4 * fuel)%nat ->
  (4 * List.length (Np.decode_f32 fuel buf) + List.length buf mod 4
   = List.length buf)%nat.
Proof.
  revert buf. induction fuel as [| f IH]; intros buf Hlen.
  - destruct buf; [reflexivity | simpl in Hlen; lia].
  - destruct buf as [| b0 [| b1 [| b2 [| b3 r]]]]; try reflexivity.
    cbn [Np.decode_f32 List.length].
    assert (Hr : (List.length r <= 4 * f)%nat) by (simpl in Hlen; lia).
    specialize (IH r Hr).
    replace (S (S (S (S (List.length r))))) with (List.length r + 1 * 4)%nat by lia.
    rewrite Nat.Div0.mod_add. lia.
Qed.

Lemma frombuffer_length (buf : list Byte.byte) (v : list Q) :
  Np.frombuffer buf = Ok v -> (List.length buf = 4 * List.length v)%nat.
Proof.
  unfold Np.frombuffer.
  destruct (List.length buf mod 4 =? 0)%nat eqn:E; [| discriminate].
  intros [= <-]. apply Nat.eqb_eq in E.
  pose proof (decode_f32_length (List.length buf) buf ltac:(lia)). lia.
Qed.

Lemma load_rows_ok (rows : list Row) :
  forall vs ps vs' ps',
    load_rows rows vs ps = Ok (vs', ps') ->
    exists dvs,
      Forall2 (fun r v => Np.frombuffer (row_blob r) = Ok v) rows dvs
      /\ vs' = vs ++ dvs /\ ps' = ps ++ map product_of rows.
Proof.
  induction rows as [| r rest IH]; intros vs ps vs' ps'; simpl.
  - intros [= <- <-]. exists []. rewrite !app_nil_r. repeat split. constructor.
  - destruct (Np.frombuffer (row_blob r)) as [v | e] eqn:E; [| discriminate].
    intros H. apply IH in H. destruct H as (dvs & Hf & -> & ->).
    exists (v :: dvs). rewrite <- !app_assoc. repeat split.
    constructor; assumption.
Qed.

Lemma array_uniform (vs : list (list Q)) (arr : Np.ndarray) :
  Np.array vs = Ok arr ->
  forall v1 v2, In v1 vs -> In v2 vs -> List.length v1 = List.length v2.
Proof.
  unfold Np.array. destruct vs as [| v0 rest]; [intros _ ? ? [] |].
  destruct (forallb _ _) eqn:E; [| discriminate].
  intros _ v1 v2 H1 H2. rewrite forallb_forall in E.
  apply E in H1, H2. apply Nat.eqb_eq in H1, H2. congruence.
Qed.

Lemma Forall2_In_l (A B : Type) (R : A -> B -> Prop) (la : list A)
    (lb : list B) (a : A) :
  Forall2 R la lb -> In a la -> exists b, In b lb /\ R a b.
Proof.
  induction 1 as [| a' b' la lb Hab H2 IH]; intros Ha; [contradiction |].
  destruct Ha as [<- | Ha].
  - exists b'. split; [left; reflexivity | exact Hab].
  - destruct (IH Ha) as (b & Hb & Hr). exists b. split; [right |]; assumption.
Qed.

(** What [_load_embeddings] returns, it returns with this log. *)
Lemma load_unfold (c : Connection) (w : World) :
  _load_embeddings c w
  = match select_embeddings c with
    | Raise e => (Raise e, w ++ [Error (MsgLoadFailed e)])
    | Ok rows =>
        match load_rows rows [] [] with
        | Raise e => (Raise e, w ++ [Error (MsgLoadFailed e)])
        | Ok (vs, ps) =>
            match Np.array vs with
            | Raise e => (Raise e, w ++ [Error (MsgLoadFailed e)])
            | Ok arr => (Ok (arr, ps), w ++ [Info (MsgLoaded (List.length ps))])
            end
        end
    end.
Proof.
  unfold _load_embeddings, try_except, bind, lift, log_to, modify, raise, ret.
  destruct (select_embeddings c) as [rows | e]; [| reflexivity].
  destruct (load_rows rows [] []) as [[vs ps] | e]; [| reflexivity].
  simpl. destruct (Np.array vs) as [arr | e]; reflexivity.
Qed.

(** What [__init__] builds is a well-formed store. *)
Lemma init_store_wf (k : Z) (min_dist : Q) (c : Connection)
    (emb : Embeddings) (w w' : World) (self : SearchSimilarProduct) :
  init k min_dist c emb w = (Ok self, w') -> store_wf self.
Proof.
  unfold init, bind. rewrite load_unfold.
  destruct (select_embeddings c) as [rows | e]; [| discriminate].
  destruct (load_rows rows [] []) as [[vs ps] | e] eqn:El; [| discriminate].
  destruct (Np.array vs) as [arr | e] eqn:Ea; [| discriminate].
  unfold ret. intros [= <- _]. unfold store_wf. cbn [vectors products fst snd].
  apply load_rows_ok in El. destruct El as (dvs & Hf & -> & ->). simpl in *.
  unfold Np.array in Ea. destruct dvs as [| v0 rest].
  - injection Ea as <-. inversion Hf. reflexivity.
  - destruct (forallb _ _) eqn:E; [| discriminate]. injection Ea as <-.
    split.
    + rewrite length_map. symmetry. apply (Forall2_length Hf).
    + rewrite forallb_forall in E. rewrite Forall_forall. intros row Hrow.
      apply Nat.eqb_eq, E, Hrow.
Qed.

End LoadFacts.


Module SearchFacts.
Section Facts.
Context `{L : Libs}.
Variable self : SearchSimilarProduct.

Lemma add_sem_nil f : add_sem f [] = f.
Proof.
  destruct f as [[o u s z] w]. unfold add_sem; simpl. rewrite app_nil_r. reflexivity.
Qed.

Lemma add_sem_app f xs ys : add_sem (add_sem f xs) ys = add_sem f (xs ++ ys).
Proof. unfold add_sem; simpl. rewrite app_assoc. reflexivity. Qed.

Lemma add_fuzzy_nil f : add_fuzzy f [] = f.
Proof.
  destruct f as [[o u s z] w]. unfold add_fuzzy; simpl. rewrite app_nil_r. reflexivity.
Qed.

Lemma add_fuzzy_app f xs ys : add_fuzzy (add_fuzzy f xs) ys = add_fuzzy f (xs ++ ys).
Proof. unfold add_fuzzy; simpl. rewrite app_assoc. reflexivity. Qed.

Lemma semantic_loop (dists : list Q) (idxs : list nat) :
  exists n res items,
    (forall f, for_each idxs (semantic_step self dists) f = (res, add_sem f items))
    /\ Forall2 (semantic_at self dists) (kept self dists n idxs) items
    /\ (Forall (valid self dists) idxs -> res = Ok tt /\ n = List.length idxs).
Proof.
  induction idxs as [| i r IH].
  - exists 0%nat, (Ok tt), []. split; [| split].
    + intros f. simpl. rewrite add_sem_nil. reflexivity.
    + constructor.
    + auto.
  - destruct IH as (n & res & items & Hrun & Hitems & Hok).
    destruct (nth_error dists i) as [dist |] eqn:Ed.
    + destruct (PyFloat.ltb dist (minimal_distance self)) eqn:El.
      * destruct (nth_error (products self) i) as [p |] eqn:Ep.
        -- exists (S n), res, (semantic_item p dist :: items). split; [| split].
           ++ intros f. simpl.
              unfold semantic_step at 1, bind, lift, Np.index, list_index.
              rewrite Ed, El, Ep. unfold append_semantics, modify.
              change {| results := _; log := log f |}
                with (add_sem f [semantic_item p dist]).
              rewrite Hrun, add_sem_app. reflexivity.
           ++ unfold kept in *. simpl. unfold within at 1. rewrite Ed, El.
              constructor; [exists p, dist; auto | exact Hitems].
           ++ intros Hv. apply Forall_cons_iff in Hv.
              destruct (Hok (proj2 Hv)) as [-> ->]. auto.
        -- exists 0%nat, (Raise (IndexError "list index out of range")), [].
           split; [| split].
           ++ intros f. simpl.
              unfold semantic_step at 1, bind, lift, Np.index, list_index.
              rewrite Ed, El, Ep, add_sem_nil. reflexivity.
           ++ constructor.
           ++ intros Hv. apply Forall_cons_iff in Hv.
              destruct Hv as [[_ Hp] _].
              apply nth_error_None in Ep. lia.
      * exists (S n), res, items. split; [| split].
        -- intros f. simpl.
           unfold semantic_step at 1, bind, lift, Np.index.
           rewrite Ed, El. unfold ret. apply Hrun.
        -- unfold kept in *. simpl. unfold within at 1. rewrite Ed, El.
           exact Hitems.
        -- intros Hv. apply Forall_cons_iff in Hv.
           destruct (Hok (proj2 Hv)) as [-> ->]. auto.
    + exists 0%nat, (Raise (IndexError "index is out of bounds for axis 0")), [].
      split; [| split].
      * intros f. simpl. unfold semantic_step at 1, bind, lift, Np.index.
        rewrite Ed, add_sem_nil. reflexivity.
      * constructor.
      * intros Hv. apply Forall_cons_iff in Hv. destruct Hv as [[Hd _] _].
        apply nth_error_None in Ed. lia.
Qed.

Lemma fuzzy_loop (l : list (Product * Q)) :
  forall f, for_each l fuzzy_step f = (Ok tt, add_fuzzy f (map fuzzy_item l)).
Proof.
  induction l as [| x r IH]; intros f; simpl.
  - rewrite add_fuzzy_nil. reflexivity.
  - unfold bind, fuzzy_step at 1, append_fuzzy, modify.
    change {| results := _; log := log f |} with (add_fuzzy f [fuzzy_item x]).
    rewrite IH, add_fuzzy_app. reflexivity.
Qed.

Lemma add_log_app f xs ys : add_log (add_log f xs) ys = add_log f (xs ++ ys).
Proof. unfold add_log; simpl. rewrite app_assoc. reflexivity. Qed.

Lemma log_info_run m f : log_info m f = (Ok tt, add_log f [Info m]).
Proof. reflexivity. Qed.

Lemma search_body_distances (text : string) (f0 : Frame) :
  search_body self text f0
  = match distances self text with
    | Raise e => (Raise e, f0)
    | Ok dists => search_tail self text dists f0
    end.
Proof.
  unfold search_body, distances, bind, lift.
  destruct (embed_query (embedding self) text) as [emb | e]; [| reflexivity].
  destruct (Np.subtract (vectors self) emb) as [diff | e]; [| reflexivity].
  destruct (Np.linalg_norm_axis1 diff) as [dists | e]; reflexivity.
Qed.

(** What the [try] body does, by cases: the three calls raise; the loop over
    [top_indices] raises; it appends nothing and the fallback runs; it
    appends something. *)
Lemma search_body_run (text : string) :
  (exists e, distances self text = Raise e
             /\ forall f0, search_body self text f0 = (Raise e, f0))
  \/ (exists dists n res items,
        distances self text = Ok dists
        /\ Forall2 (semantic_at self dists)
             (kept self dists n (PySeq.slice_to (argsort dists) (top_k self)))
             items
        /\ (Forall (valid self dists)
                   (PySeq.slice_to (argsort dists) (top_k self)) ->
            res = Ok tt
            /\ n = List.length (PySeq.slice_to (argsort dists) (top_k self)))
        /\ forall f0,
             semantics (results f0) = [] ->
             fallback_fuzzy (results f0) = [] ->
             search_body self text f0
             = match res, items with
               | Raise e, _ => (Raise e, add_sem f0 items)
               | Ok _, [] =>
                   (Ok tt,
                    add_log
                      (add_fuzzy
                         (add_log f0 [Info (MsgFoundSemantic 0); Info MsgFallback])
                         (fuzzy_items self text))
                      [Info (MsgFoundFuzzy (List.length (fuzzy_items self text)))])
               | Ok _, _ :: _ =>
                   (Ok tt,
                    add_log (add_sem f0 items)
                            [Info (MsgFoundSemantic (List.length items))])
               end).
Proof.
  destruct (distances self text) as [dists | e] eqn:Hd.
  2: { left. exists e. split; [reflexivity |]. intros f0.
       rewrite search_body_distances, Hd. reflexivity. }
  right.
  destruct (semantic_loop dists (PySeq.slice_to (argsort dists) (top_k self)))
    as (n & res & items & Hrun & Hitems & Hok).
  exists dists, n, res, items.
  split; [reflexivity |]. split; [exact Hitems |]. split; [exact Hok |].
  intros f0 Hs Hf. rewrite search_body_distances, Hd.
  unfold search_tail. unfold bind at 1. rewrite Hrun.
  destruct res as [[] | e]; [| reflexivity].
  unfold bind at 1, get. unfold bind at 1. rewrite log_info_run.
  cbn [results add_log add_sem semantics]. rewrite Hs. cbn [app].
  destruct items as [| m items'].
  - unfold bind at 1. rewrite log_info_run.
    unfold bind at 1. rewrite fuzzy_loop.
    unfold bind at 1, get. rewrite log_info_run.
    rewrite add_sem_nil, add_log_app.
    cbn [results add_log add_fuzzy fallback_fuzzy app]. rewrite Hf. cbn [app].
    unfold fuzzy_items. reflexivity.
  - reflexivity.
Qed.

Lemma search_unfold (q : string) (w : World) :
  search_similar_products self q w
  = match search_body self (_correct_input self (PyStr.strip q)) (frame0 self q w) with
    | (Ok _, f) => (Ok (results f), log f)
    | (Raise e, f) => (Ok (results f), log f ++ [Error (MsgSearchError e)])
    end.
Proof.
  unfold search_similar_products, try_except, frame0.
  destruct (search_body _ _ _) as [[[] | e] f]; reflexivity.
Qed.

(** The result of a search, by cases; it does not depend on the log. *)
Lemma search_cases (q : string) :
  exists r,
    consult_original r = PyStr.strip q
    /\ consult_used r = _correct_input self (PyStr.strip q)
    /\ (forall w, exists w', search_similar_products self q w = (Ok r, w'))
    /\ ((exists e, distances self (consult_used r) = Raise e
                   /\ (forall f, search_body self (consult_used r) f = (Raise e, f))
                   /\ semantics r = [] /\ fallback_fuzzy r = [])
        \/ (exists dists n res,
              distances self (consult_used r) = Ok dists
              /\ Forall2 (semantic_at self dists)
                   (kept self dists n
                         (PySeq.slice_to (argsort dists) (top_k self)))
                   (semantics r)
              /\ (Forall (valid self dists)
                         (PySeq.slice_to (argsort dists) (top_k self)) ->
                  res = Ok tt
                  /\ n = List.length (PySeq.slice_to (argsort dists) (top_k self)))
              /\ (forall w,
                    fst (search_body self (consult_used r) (frame0 self q w)) = res)
              /\ (fallback_fuzzy r = []
                  \/ (semantics r = []
                      /\ fallback_fuzzy r = fuzzy_items self (consult_used r))))).
Proof.
  set (c := _correct_input self (PyStr.strip q)).
  destruct (search_body_run c)
    as [(e & Hd & Hrun) | (dists & n & res & items & Hd & Hitems & Hok & Hrun)].
  - exists (results (frame0 self q [])). cbn -[search_body distances]. fold c.
    split; [reflexivity |]. split; [reflexivity |]. split.
    + intros w. rewrite search_unfold. fold c. rewrite Hrun.
      eexists. reflexivity.
    + left. exists e. auto.
  - assert (Hrun' : forall w,
               search_body self c (frame0 self q w)
               = match res, items with
                 | Raise e, _ => (Raise e, add_sem (frame0 self q w) items)
                 | Ok _, [] =>
                     (Ok tt,
                      add_log
                        (add_fuzzy
                           (add_log (frame0 self q w)
                                    [Info (MsgFoundSemantic 0); Info MsgFallback])
                           (fuzzy_items self c))
                        [Info (MsgFoundFuzzy (List.length (fuzzy_items self c)))])
                 | Ok _, _ :: _ =>
                     (Ok tt,
                      add_log (add_sem (frame0 self q w) items)
                              [Info (MsgFoundSemantic (List.length items))])
                 end)
      by (intros w; apply Hrun; reflexivity).
    destruct res as [[] | e]; [destruct items as [| m items'] |].
    + exists {| consult_original := PyStr.strip q; consult_used := c;
                semantics := []; fallback_fuzzy := fuzzy_items self c |}.
      cbn -[search_body distances kept fuzzy_items].
      split; [reflexivity |]. split; [reflexivity |]. split.
      * intros w. rewrite search_unfold. fold c. rewrite Hrun'.
        eexists. reflexivity.
      * right. exists dists, n, (Ok tt).
        split; [exact Hd |]. split; [exact Hitems |]. split; [exact Hok |].
        split; [intros w; rewrite Hrun'; reflexivity | auto].
    + exists {| consult_original := PyStr.strip q; consult_used := c;
                semantics := m :: items'; fallback_fuzzy := [] |}.
      cbn -[search_body distances kept fuzzy_items].
      split; [reflexivity |]. split; [reflexivity |]. split.
      * intros w. rewrite search_unfold. fold c. rewrite Hrun'.
        eexists. reflexivity.
      * right. exists dists, n, (Ok tt).
        split; [exact Hd |]. split; [exact Hitems |]. split; [exact Hok |].
        split; [intros w; rewrite Hrun'; reflexivity | auto].
    + exists {| consult_original := PyStr.strip q; consult_used := c;
                semantics := items; fallback_fuzzy := [] |}.
      cbn -[search_body distances kept fuzzy_items].
      split; [reflexivity |]. split; [reflexivity |]. split.
      * intros w. rewrite search_unfold. fold c. rewrite Hrun'.
        eexists. reflexivity.
      * right. exists dists, n, (Raise e).
        split; [exact Hd |]. split; [exact Hitems |]. split; [exact Hok |].
        split; [intros w; rewrite Hrun'; reflexivity | auto].
Qed.

(** The same, for one call. *)
Lemma search_result (q : string) (w w' : World) (r : Results) :
  search_similar_products self q w = (Ok r, w') ->
  consult_original r = PyStr.strip q
  /\ consult_used r = _correct_input self (PyStr.strip q)
  /\ (forall w0, exists w1, search_similar_products self q w0 = (Ok r, w1))
  /\ ((exists e, distances self (consult_used r) = Raise e
                 /\ (forall f, search_body self (consult_used r) f = (Raise e, f))
                 /\ semantics r = [] /\ fallback_fuzzy r = [])
      \/ (exists dists n res,
            distances self (consult_used r) = Ok dists
            /\ Forall2 (semantic_at self dists)
                 (kept self dists n
                       (PySeq.slice_to (argsort dists) (top_k self)))
                 (semantics r)
            /\ (Forall (valid self dists)
                       (PySeq.slice_to (argsort dists) (top_k self)) ->
                res = Ok tt
                /\ n = List.length (PySeq.slice_to (argsort dists) (top_k self)))
            /\ (forall w,
                  fst (search_body self (consult_used r) (frame0 self q w)) = res)
            /\ (fallback_fuzzy r = []
                \/ (semantics r = []
                    /\ fallback_fuzzy r = fuzzy_items self (consult_used r))))).
Proof.
  intros Hrun.
  destruct (search_cases q) as (r0 & Ho & Hu & Hall & Hcases).
  destruct (Hall w) as [w0 Hrun0]. rewrite Hrun in Hrun0.
  injection Hrun0 as <- <-. auto.
Qed.

End Facts.

Section Ranking.
Context `{L : Libs}.

(** Every index that [np.argsort] gives is an index of its argument. *)
Lemma argsort_in_range (d : list Q) (i : nat) :
  argsort_contract -> In i (argsort d) -> (i < List.length d)%nat.
Proof.
  intros Hc Hi. destruct (Hc d) as [Hp _].
  eapply Permutation_in in Hi; [| exact Hp]. apply in_seq in Hi. lia.
Qed.

Lemma distances_length (self : SearchSimilarProduct) (text : string)
    (dists : list Q) :
  store_wf self -> distances self text = Ok dists ->
  List.length dists = List.length (products self).
Proof.
  unfold store_wf, distances. intros Hwf.
  destruct (embed_query (embedding self) text) as [emb | e]; [| discriminate].
  destruct (vectors self) as [data | cols rows]; simpl.
  - destruct (Np.broadcast_dim _ _); simpl; discriminate.
  - destruct (Np.broadcast_dim _ _); simpl; [| discriminate].
    intros [= <-]. rewrite !length_map. apply Hwf.
Qed.

Lemma slice_valid (self : SearchSimilarProduct) (text : string)
    (dists : list Q) :
  argsort_contract -> store_wf self -> distances self text = Ok dists ->
  Forall (valid self dists) (PySeq.slice_to (argsort dists) (top_k self)).
Proof.
  intros Hc Hwf Hd. rewrite Forall_forall. intros i Hi.
  destruct (PySeqFacts.slice_to_firstn _ (argsort dists) (top_k self)) as [n Hn].
  rewrite Hn in Hi. apply PySeqFacts.In_firstn in Hi.
  apply argsort_in_range in Hi; [| exact Hc].
  unfold valid. erewrite <- distances_length by eassumption. auto.
Qed.

Lemma slice_to_nil (A : Type) (k : Z) : PySeq.slice_to (@nil A) k = [].
Proof.
  destruct (PySeqFacts.slice_to_firstn A (@nil A) k) as [m ->].
  apply firstn_nil.
Qed.


Lemma within_lt (self : SearchSimilarProduct) (dists : list Q) (i : nat) :
  within self dists i = true -> (nth i dists 0 < minimal_distance self)%Q.
Proof.
  unfold within. destruct (nth_error dists i) as [d |] eqn:E; [| discriminate].
  intros H. apply PyFloatFacts.ltb_lt in H.
  rewrite (nth_error_nth _ _ _ E). exact H.
Qed.

Lemma kept_slice (self : SearchSimilarProduct) (dists : list Q) (n : nat)
    (R : nat -> nat -> Prop) :
  StronglySorted R (argsort dists) ->
  StronglySorted R
    (kept self dists n (PySeq.slice_to (argsort dists) (top_k self))).
Proof.
  intros Hs. unfold kept.
  apply PySeqFacts.StronglySorted_filter, PySeqFacts.StronglySorted_firstn.
  destruct (PySeqFacts.slice_to_firstn _ (argsort dists) (top_k self)) as [m ->].
  apply PySeqFacts.StronglySorted_firstn, Hs.
Qed.

Lemma kept_length (self : SearchSimilarProduct) (dists : list Q) (n : nat)
    (l : list nat) :
  (0 <= top_k self)%Z ->
  (Z.of_nat (List.length (kept self dists n (PySeq.slice_to l (top_k self))))
   <= top_k self)%Z.
Proof.
  intros Hk. unfold kept.
  pose proof (filter_length_le (within self dists)
                (firstn n (PySeq.slice_to l (top_k self)))) as H1.
  rewrite length_firstn in H1.
  pose proof (PySeqFacts.slice_to_length _ l (top_k self) Hk). lia.
Qed.

(** A sort that is stable puts equal distances in store order. *)
Lemma stable_nearer_first (d : list Q) (l : list nat) :
  sorted_by d l ->
  (forall l1 i l2 j l3,
      l = l1 ++ i :: l2 ++ j :: l3 -> (nth i d 0 == nth j d 0)%Q -> (i < j)%nat) ->
  StronglySorted (nearer_first d) l.
Proof.
  unfold sorted_by. induction 1 as [| x r Hs IH Hx]; intros Hst; constructor.
  - apply IH. intros l1 i l2 j l3 E. apply (Hst (x :: l1) i l2 j l3).
    rewrite E. reflexivity.
  - rewrite Forall_forall in *. intros y Hy.
    destruct (Qlt_le_dec (nth x d 0) (nth y d 0)) as [Hlt | Hle];
      [left; exact Hlt | right].
    pose proof (Hx y Hy) as Hxy.
    assert (E : (nth x d 0 == nth y d 0)%Q) by lra.
    split; [exact E |].
    destruct (in_split _ _ Hy) as (l2 & l3 & ->).
    apply (Hst [] x l2 y l3); [reflexivity | exact E].
Qed.

(** Sortedness goes through a pointwise correspondence of two lists. *)
Lemma StronglySorted_Forall2 (A B : Type) (R : A -> B -> Prop)
    (S : A -> A -> Prop) (T : B -> B -> Prop) (la : list A) (lb : list B) :
  (forall a1 a2 b1 b2, R a1 b1 -> R a2 b2 -> S a1 a2 -> T b1 b2) ->
  Forall2 R la lb -> StronglySorted S la -> StronglySorted T lb.
Proof.
  intros HT H2. induction H2 as [| a b la lb Hab H2 IH]; intros Hs.
  - constructor.
  - apply StronglySorted_inv in Hs. destruct Hs as [Hs Ha].
    constructor; [apply IH, Hs |].
    clear IH Hs. induction H2 as [| a' b' la lb Hab' H2 IH]; constructor.
    + apply Forall_inv in Ha. eapply HT; eassumption.
    + apply IH. eapply Forall_inv_tail, Ha.
Qed.

Lemma Forall2_In_r (A B : Type) (R : A -> B -> Prop) (la : list A)
    (lb : list B) (b : B) :
  Forall2 R la lb -> In b lb -> exists a, In a la /\ R a b.
Proof.
  induction 1 as [| a' b' la lb Hab H2 IH]; intros Hb; [contradiction |].
  destruct Hb as [<- | Hb].
  - exists a'. split; [left; reflexivity | exact Hab].
  - destruct (IH Hb) as (a & Ha & Hr). exists a. split; [right |]; assumption.
Qed.

Lemma semantic_at_distance (self : SearchSimilarProduct) (dists : list Q)
    (i : nat) (m : SemanticMatch) :
  semantic_at self dists i m -> distance m = Np.around (nth i dists 0) 4.
Proof.
  intros (p & dist & _ & Hd & ->). rewrite (nth_error_nth _ _ _ Hd). reflexivity.
Qed.



Lemma distances_nonneg (self : SearchSimilarProduct) (text : string)
    (dists : list Q) :
  norm_contract -> distances self text = Ok dists ->
  Forall (fun d => (0 <= d)%Q) dists.
Proof.
  intros Hn. unfold distances.
  destruct (embed_query (embedding self) text) as [emb | e]; [| discriminate].
  destruct (Np.subtract (vectors self) emb) as [[data | cols rows] | e];
    try discriminate.
  simpl. intros [= <-]. rewrite Forall_forall. intros d Hd.
  apply in_map_iff in Hd. destruct Hd as (row & <- & _). apply Hn.
Qed.


End Ranking.

Section Fuzzy.
Context `{L : Libs}.
Variable self : SearchSimilarProduct.
Variable text : string.


Lemma in_store_score (ip : nat * Product) :
  in_store self ip -> fuzzy_score self text (fst ip) = entry_score text ip.
Proof.
  unfold in_store, fuzzy_score, entry_score. intros ->. reflexivity.
Qed.


Lemma fuzzy_items_length :
  (0 <= top_k self)%Z ->
  (Z.of_nat (List.length (fuzzy_items self text)) <= top_k self)%Z.
Proof.
  intros Hk. unfold fuzzy_items. rewrite length_map.
  apply PySeqFacts.slice_to_length, Hk.
Qed.


End Fuzzy.

End SearchFacts.

(* ================================================================== *)
(** * The search on the heap and the search on the object *)

Module HeapFacts.
Import OnHeap.

Section Facts.
Context `{L : Libs}.
Variable Memory : Type.
Variable embed : string -> Memory -> result (list Q) * Memory.

Let Heap := Heap Memory.
Let Call := Call Memory.

Lemma merge_frame_of (c : Call) : merge c (frame_of c) = c.
Proof. destruct c as [[] ?]. reflexivity. Qed.

Lemma frame_of_merge (c : Call) (f : Frame) : frame_of (merge c f) = f.
Proof. destruct f. reflexivity. Qed.

Lemma merge_merge (c : Call) (f g : Frame) : merge (merge c f) g = merge c g.
Proof. reflexivity. Qed.

Lemma store_merge (c : Call) (f : Frame) :
  store (heap (merge c f)) = store (heap c).
Proof. reflexivity. Qed.

(** One turn of the first loop changes the dict only. *)
Lemma semantic_step_on_run (e : Embeddings) (dists : list Q) (idx : nat)
    (c : Call) :
  semantic_step_on dists idx c
  = (fst (semantic_step (object (heap c) e) dists idx (frame_of c)),
     merge c (snd (semantic_step (object (heap c) e) dists idx (frame_of c)))).
Proof.
  unfold semantic_step_on, semantic_step, bind, lift, attribute.
  cbn [object minimal_distance products].
  destruct (Np.index dists idx) as [dist | err]; cbn [fst snd];
    [| rewrite merge_frame_of; reflexivity].
  destruct (PyFloat.ltb dist (self_minimal_distance (heap c)));
    [| unfold ret; cbn [fst snd]; rewrite merge_frame_of; reflexivity].
  destruct (list_index (self_products (heap c)) idx) as [p | err];
    cbn [fst snd]; [| rewrite merge_frame_of; reflexivity].
  destruct c as [[] ?]. reflexivity.
Qed.

Lemma semantic_loop_on_run (e : Embeddings) (dists : list Q) (l : list nat)
    (c : Call) :
  for_each l (semantic_step_on dists) c
  = (fst (for_each l (semantic_step (object (heap c) e) dists) (frame_of c)),
     merge c (snd (for_each l (semantic_step (object (heap c) e) dists)
                            (frame_of c)))).
Proof.
  revert c. induction l as [| idx l IH]; intros c; cbn [for_each].
  - unfold ret. cbn [fst snd]. rewrite merge_frame_of. reflexivity.
  - unfold bind. rewrite (semantic_step_on_run e).
    destruct (semantic_step (object (heap c) e) dists idx (frame_of c))
      as [[[] | err] f]; cbn [fst snd]; [| reflexivity].
    rewrite IH, frame_of_merge. reflexivity.
Qed.

Lemma fuzzy_loop_on_run (l : list (Product * Q)) (c : Call) :
  for_each l (@fuzzy_step_on Memory) c
  = (fst (for_each l fuzzy_step (frame_of c)),
     merge c (snd (for_each l fuzzy_step (frame_of c)))).
Proof.
  revert c. induction l as [| ps l IH]; intros c; cbn [for_each].
  - unfold ret. cbn [fst snd]. rewrite merge_frame_of. reflexivity.
  - unfold bind, fuzzy_step_on, fuzzy_step, append_fuzzy_on, append_fuzzy,
      modify.
    rewrite IH. destruct c as [[] ?]. reflexivity.
Qed.

(** The body of the [try] asks the client once, and then changes the dict
    and the log only. *)
Lemma search_body_on_run (text : string) (c : Call) :
  search_body_on embed text c
  = let c1 := {| heap := with_client (heap c)
                           (snd (embed text (client (heap c))));
                 dict := dict c |} in
    let run := search_body (object (heap c) (answers_now embed (heap c)))
                           text (frame_of c) in
    (fst run, merge c1 (snd run)).
Proof.
  cbv zeta.
  unfold search_body_on, search_body, better_fuzz_on, bind, lift, ask,
    attribute, get, emit, log_info, modify, ret.
  cbn [object embedding answers_now embed_query vectors top_k].
  destruct (embed text (client (heap c))) as [[emb | err] memory];
    cbn [fst snd]; [| destruct c as [[] ?]; reflexivity].
  set (c1 := {| heap := with_client (heap c) memory; dict := dict c |}).
  assert (Ef : frame_of c1 = frame_of c) by (destruct c as [[] ?]; reflexivity).
  assert (Eo : forall e, object (heap c1) e = object (heap c) e)
    by (intros e; destruct c as [[] ?]; reflexivity).
  change (self_vectors (heap c1)) with (self_vectors (heap c)).
  change (self_top_k (heap c1)) with (self_top_k (heap c)).
  destruct (Np.subtract (self_vectors (heap c)) emb) as [diff | err];
    cbn [fst snd]; [| rewrite <- Ef, merge_frame_of; reflexivity].
  destruct (Np.linalg_norm_axis1 diff) as [dists | err];
    cbn [fst snd]; [| rewrite <- Ef, merge_frame_of; reflexivity].
  rewrite (semantic_loop_on_run (answers_now embed (heap c))), Eo, Ef.
  change (object (heap c) (answers_now embed (heap c)))
    with (object (heap c)
            {| embed_query := fun text0 => fst (embed text0 (client (heap c))) |}).
  destruct (for_each _ (semantic_step _ dists) (frame_of c))
    as [[[] | err] f1]; cbn [fst snd]; [| reflexivity].
  cbn [dict merge results].
  destruct (semantics (results f1)) as [| m ms]; [| reflexivity].
  rewrite fuzzy_loop_on_run. clear Ef Eo. subst c1.
  unfold better_fuzz, frame_of, merge, logging.
  cbn [heap self_conn self_top_k self_minimal_distance self_vectors
       self_products client logger dict object products top_k results log
       with_client].
  match goal with
  | |- context [for_each ?l fuzzy_step ?f] =>
      destruct (for_each l fuzzy_step f) as [[[] | err] f2]
  end; reflexivity.
Qed.

(** The search on the heap is the search on the object that the heap
    holds, with the answers the client gives in the state it is in; it
    leaves the attributes of the object as they were. *)
Lemma search_on_run (q : string) (h : Heap) :
  let self := object h (answers_now embed h) in
  let run := search_similar_products self q (logger h) in
  let text := _correct_input self (PyStr.strip q) in
  search_similar_products_on embed q h
  = (fst run,
     {| self_conn := self_conn h; self_top_k := self_top_k h;
        self_minimal_distance := self_minimal_distance h;
        self_vectors := self_vectors h; self_products := self_products h;
        client := snd (embed text (client h));
        logger := snd run |}).
Proof.
  cbv zeta. unfold search_similar_products_on, search_similar_products.
  change (_correct_input_on (self_products (logging h _)) (PyStr.strip q))
    with (_correct_input (object h (answers_now embed h)) (PyStr.strip q)).
  set (text := _correct_input (object h (answers_now embed h)) (PyStr.strip q)).
  set (r0 := {| consult_original := PyStr.strip q; consult_used := text;
                semantics := []; fallback_fuzzy := [] |}).
  set (h1 := logging h (Info (MsgSearching (PyStr.prefix 50 q)))).
  set (h2 := if String.eqb text (PyStr.strip q) then h1
             else logging h1 (Info (MsgCorrected (PyStr.strip q) text))).
  set (w1 := logger h ++ [Info (MsgSearching (PyStr.prefix 50 q))]).
  set (w2 := if String.eqb text (PyStr.strip q) then w1
             else w1 ++ [Info (MsgCorrected (PyStr.strip q) text)]).
  assert (E2 : h2 = {| self_conn := self_conn h; self_top_k := self_top_k h;
                       self_minimal_distance := self_minimal_distance h;
                       self_vectors := self_vectors h;
                       self_products := self_products h;
                       client := client h; logger := w2 |}).
  { unfold h2, w2. destruct (String.eqb text (PyStr.strip q)); reflexivity. }
  clearbody h2 w2. subst h2.
  unfold try_except. rewrite search_body_on_run. cbv zeta.
  unfold frame_of, merge, with_client, emit, log_error, modify.
  cbn [heap dict logger client self_conn self_top_k self_minimal_distance
       self_vectors self_products].
  change (object _ (answers_now embed _))
    with (object h (answers_now embed h)).
  destruct (search_body (object h (answers_now embed h)) text
              {| results := r0; log := w2 |}) as [[[] | err] f1];
    reflexivity.
Qed.

(** Two objects with the same store, and clients that answer the
    corrected query alike, give the same dict. *)
Lemma search_same_answer (h : Heap) (e1 e2 : Embeddings) (q : string)
    (w1 w2 : World) :
  embed_query e1 (_correct_input (object h e1) (PyStr.strip q))
  = embed_query e2 (_correct_input (object h e2) (PyStr.strip q)) ->
  fst (search_similar_products (object h e1) q w1)
  = fst (search_similar_products (object h e2) q w2).
Proof.
  intros Ea.
  transitivity (fst (search_similar_products (object h e1) q w2)).
  - destruct (SearchFacts.search_cases (object h e1) q)
      as (r1 & _ & _ & Hall1 & _).
    destruct (Hall1 w1) as [w1' E1]. destruct (Hall1 w2) as [w2' E2].
    rewrite E1, E2. reflexivity.
  - unfold search_similar_products, try_except.
    change (_correct_input (object h e2) (PyStr.strip q))
      with (_correct_input (object h e1) (PyStr.strip q)) in *.
    set (text := _correct_input (object h e1) (PyStr.strip q)) in *.
    assert (Eb : forall f, search_body (object h e1) text f
                           = search_body (object h e2) text f).
    { intros f. unfold search_body, bind, lift. cbn [embedding object].
      rewrite Ea. reflexivity. }
    rewrite Eb. reflexivity.
Qed.

End Facts.

End HeapFacts.

Module LogFacts.
Section Facts.
Context `{L : Libs}.
Variable self : SearchSimilarProduct.

(** The [try] block adds to the log, and takes nothing from it. *)
Lemma search_body_log (text : string) (f0 : Frame) :
  semantics (results f0) = [] -> fallback_fuzzy (results f0) = [] ->
  exists more, log (snd (search_body self text f0)) = log f0 ++ more.
Proof.
  intros Hs Hf.
  destruct (SearchFacts.search_body_run self text)
    as [(e & _ & Hb) | (dists & n & res & items & _ & _ & _ & Hb)].
  - rewrite Hb. exists []. rewrite app_nil_r. reflexivity.
  - rewrite (Hb f0 Hs Hf).
    destruct res as [[] | e]; [destruct items |]; cbn [snd log add_log add_sem
      add_fuzzy].
    + rewrite <- app_assoc. eexists. reflexivity.
    + eexists. reflexivity.
    + exists []. rewrite app_nil_r. reflexivity.
Qed.

(** The first record of a search is made of the raw text. *)
Lemma search_log_starts (q : string) (w : World) :
  exists rest,
    snd (search_similar_products self q w)
    = w ++ Info (MsgSearching (PyStr.prefix 50 q)) :: rest.
Proof.
  rewrite SearchFacts.search_unfold.
  destruct (search_body_log (_correct_input self (PyStr.strip q))
              (frame0 self q w) eq_refl eq_refl) as [more Hm].
  assert (H0 : exists pre,
             log (frame0 self q w)
             = w ++ Info (MsgSearching (PyStr.prefix 50 q)) :: pre).
  { unfold frame0. cbn [log].
    destruct (String.eqb _ _).
    - exists []. reflexivity.
    - rewrite <- app_assoc. eexists. reflexivity. }
  destruct H0 as [pre H0]. rewrite H0 in Hm.
  destruct (search_body self _ (frame0 self q w)) as [[[] | e] f];
    cbn [snd] in *; rewrite Hm, <- !app_assoc; cbn [app];
    eexists; reflexivity.
Qed.

End Facts.
End LogFacts.

(* ================================================================== *)
(** * The claims *)

Import SearchFacts.
Import LoadFacts.

Section Claims.
Context `{L : Libs}.

(** C1 (as amended).  For every store and query, a [top_k] that is a count
    and any [np.argsort] that meets its contract: the semantic ranking
    returns at most [top_k] matches; each match is built from a store index
    whose unrounded distance is below [minimal_distance]; the matches are
    in non-decreasing order of distance, unrounded and rounded; matches at
    equal distance are in store order if the argsort is stable, which the
    default kind of [np.argsort] is not. *)
Theorem semantic_ranking (self : SearchSimilarProduct) (q : string)
    (w w' : World) (r : Results) :
  argsort_contract ->
  (0 <= top_k self)%Z ->
  search_similar_products self q w = (Ok r, w') ->
  (Z.of_nat (List.length (semantics r)) <= top_k self)%Z
  /\ exists dists idxs,
       (distances self (consult_used r) = Ok dists \/ idxs = [])
       /\ Forall2 (semantic_at self dists) idxs (semantics r)
       /\ Forall (fun i => (nth i dists 0 < minimal_distance self)%Q) idxs
       /\ sorted_by dists idxs
       /\ StronglySorted (fun m1 m2 => (distance m1 <= distance m2)%Q)
                         (semantics r)
       /\ (argsort_stable -> StronglySorted (nearer_first dists) idxs).
Proof.
  intros Hc Hk Hrun.
  destruct (search_result self q w w' r Hrun) as (_ & _ & _ & Hcases).
  destruct Hcases as [(e & _ & _ & Hs & _)
                     | (dists & n & res & Hd & Hitems & _ & _ & _)].
  - rewrite Hs. split; [simpl; lia |].
    exists [], []. split; [right; reflexivity |].
    repeat split; constructor.
  - set (idxs := kept self dists n (PySeq.slice_to (argsort dists) (top_k self))) in *.
    destruct (Hc dists) as [_ Hsorted].
    assert (Hsi : sorted_by dists idxs) by (apply kept_slice, Hsorted).
    split.
    + rewrite <- (Forall2_length Hitems). apply kept_length, Hk.
    + exists dists, idxs. split; [left; exact Hd |]. split; [exact Hitems |].
      split; [| split; [exact Hsi | split]].
      * unfold idxs, kept. rewrite Forall_forall. intros i Hi.
        apply filter_In in Hi. apply within_lt, Hi.
      * eapply StronglySorted_Forall2; [| exact Hitems | exact Hsi].
        intros i j m1 m2 H1 H2 Hij. cbv beta in Hij.
        rewrite (semantic_at_distance _ _ _ _ H1), (semantic_at_distance _ _ _ _ H2).
        apply RoundFacts.around_mono, Hij.
      * intros Hst. apply kept_slice.
        apply stable_nearer_first; [exact Hsorted |]. apply Hst.
Qed.

(** C2.  On a store as [_load_embeddings] builds it, a search returns: it
    gives a dict with [consult_original], [consult_used] and the two lists,
    and both lists are empty when the embedding provider raises, when the
    store is empty, and whenever the body of the [try] raises at all. *)
Theorem search_never_raises (self : SearchSimilarProduct) (q : string)
    (w : World) :
  argsort_contract -> store_wf self ->
  exists r w',
    search_similar_products self q w = (Ok r, w')
    /\ consult_original r = PyStr.strip q
    /\ consult_used r = _correct_input self (PyStr.strip q)
    /\ ((exists e, embed_query (embedding self) (consult_used r) = Raise e) ->
        semantics r = [] /\ fallback_fuzzy r = [])
    /\ (products self = [] -> semantics r = [] /\ fallback_fuzzy r = [])
    /\ (forall e f,
          search_body self (consult_used r) (frame0 self q w) = (Raise e, f) ->
          semantics r = [] /\ fallback_fuzzy r = []).
Proof.
  intros Hc Hwf.
  destruct (search_cases self q) as (r & Ho & Hu & Hall & Hcases).
  destruct (Hall w) as [w' Hrun].
  exists r, w'. do 3 (split; [assumption |]).
  destruct Hcases as [(e & Hd & Hb & Hs & Hf)
                     | (dists & n & res & Hd & Hitems & Hok & Hres & Hfz)].
  - repeat split; auto.
  - assert (Hv := Hd); eapply slice_valid in Hv; [| assumption | assumption].
    destruct (Hok Hv) as [-> ->].
    split; [| split].
    + intros [e He]. unfold distances in Hd. rewrite He in Hd. discriminate.
    + intros Hp.
      assert (Hlen : List.length dists = 0%nat)
        by (erewrite distances_length by eassumption; rewrite Hp; reflexivity).
      destruct dists; [| discriminate].
      destruct (Hc []) as [Hperm _]. simpl in Hperm.
      apply Permutation_sym, Permutation_nil in Hperm.
      unfold kept in Hitems. rewrite Hperm, slice_to_nil in Hitems.
      simpl in Hitems.
      inversion Hitems as [Hs |]. split; [reflexivity |].
      destruct Hfz as [Hf | [_ Hf]]; [exact Hf |].
      rewrite Hf. unfold fuzzy_items, better_fuzz. rewrite Hp. simpl.
      rewrite slice_to_nil. reflexivity.
    + intros e f Hb. specialize (Hres w). rewrite Hb in Hres. discriminate.
Qed.


(** C4 (as amended).  Construction raises, and gives no object, when the
    query on the source fails and when two rows hold vectors of different
    byte length; on a source without rows it returns an object with an empty
    store. *)
Theorem load_failures (k : Z) (min_dist : Q) (c : Connection)
    (emb : Embeddings) (w : World) :
  (forall e, select_embeddings c = Raise e ->
     init k min_dist c emb w = (Raise e, w ++ [Error (MsgLoadFailed e)]))
  /\ (forall rows r1 r2,
        select_embeddings c = Ok rows ->
        In r1 rows -> In r2 rows ->
        List.length (row_blob r1) <> List.length (row_blob r2) ->
        exists e,
          init k min_dist c emb w = (Raise e, w ++ [Error (MsgLoadFailed e)]))
  /\ (select_embeddings c = Ok [] ->
      init k min_dist c emb w
      = (Ok {| conn := c; top_k := k; minimal_distance := min_dist;
               embedding := emb; vectors := Np.Array1 []; products := [] |},
         w ++ [Info (MsgLoaded 0)])).
Proof.
  unfold init, bind. rewrite load_unfold. split; [| split].
  - intros e ->. reflexivity.
  - intros rows r1 r2 -> H1 H2 Hne.
    destruct (load_rows rows [] []) as [[vs ps] | e] eqn:El;
      [| exists e; reflexivity].
    destruct (Np.array vs) as [arr | e] eqn:Ea; [| exists e; reflexivity].
    exfalso. apply load_rows_ok in El. destruct El as (dvs & Hf & -> & _).
    simpl in Ea.
    destruct (Forall2_In_l _ _ _ _ _ r1 Hf H1) as (v1 & Hv1 & Hb1).
    destruct (Forall2_In_l _ _ _ _ _ r2 Hf H2) as (v2 & Hv2 & Hb2).
    apply frombuffer_length in Hb1, Hb2.
    pose proof (array_uniform _ _ Ea v1 v2 Hv1 Hv2). lia.
  - intros ->. reflexivity.
Qed.

(** C5 (as amended).  [_correct_input] returns the raw string when every
    description has a similarity ratio to it below 0.6; when some
    description reaches 0.6 it returns a description of the vocabulary whose
    ratio is at least 0.6 and is the greatest, and among the descriptions
    of that greatest ratio the greatest in string order. *)
Theorem correct_input_spec (self : SearchSimilarProduct) (raw : string) :
  let vocabulary := map description (products self) in
  let sim := similarity_to raw in
  ((forall x, In x vocabulary -> (sim x < 6 # 10)%Q) ->
   _correct_input self raw = raw)
  /\ ((exists x, In x vocabulary /\ (6 # 10 <= sim x)%Q) ->
      In (_correct_input self raw) vocabulary
      /\ (6 # 10 <= sim (_correct_input self raw))%Q
      /\ forall y, In y vocabulary ->
           (sim y <= sim (_correct_input self raw))%Q
           /\ ((sim y == sim (_correct_input self raw))%Q ->
               String.leb y (_correct_input self raw) = true)).
Proof.
  intros vocabulary sim. unfold _correct_input. fold vocabulary.
  destruct (DifflibFacts.get_close_matches_one raw vocabulary (6 # 10))
    as [[Hnone ->] | (best & -> & Hin & Hc & Hmax)].
  - split; [reflexivity |]. intros (x & Hx & Hcx).
    rewrite Forall_forall in Hnone. specialize (Hnone x Hx).
    unfold sim in Hcx. lra.
  - split.
    + intros Hnone. specialize (Hnone best Hin). unfold sim in Hnone. lra.
    + intros _. split; [exact Hin |]. split; [exact Hc |]. exact Hmax.
Qed.


(** C7.  In the dict a search returns, the fuzzy list is non-empty only if
    the semantic list is empty: at most one of the two lists is non-empty.
    Both are fields of every result. *)
Theorem fuzzy_only_as_fallback (self : SearchSimilarProduct) (q : string)
    (w w' : World) (r : Results) :
  search_similar_products self q w = (Ok r, w') ->
  (fallback_fuzzy r <> [] -> semantics r = [])
  /\ (semantics r = [] \/ fallback_fuzzy r = []).
Proof.
  intros Hrun.
  destruct (search_result self q w w' r Hrun) as (_ & _ & _ & Hcases).
  assert (Hor : semantics r = [] \/ fallback_fuzzy r = []).
  { destruct Hcases as [(e & _ & _ & Hs & _) | (dists & n & res & _ & _ & _ & _ & Hf)].
    - left; exact Hs.
    - destruct Hf as [Hf | [Hs _]]; [right | left]; assumption. }
  split; [| exact Hor].
  intros Hne. destruct Hor as [Hs | Hf]; [exact Hs | contradiction].
Qed.

(** C8 (as amended).  When the query vector and the stored vectors differ
    in length and neither length is 1, NumPy refuses to broadcast; the
    search catches that, logs it and returns a dict with both lists empty. *)
Theorem dimension_mismatch_is_swallowed (self : SearchSimilarProduct)
    (q : string) (w : World) (cols : nat) (rows : list (list Q))
    (emb : list Q) :
  vectors self = Np.Array2 cols rows ->
  embed_query (embedding self) (_correct_input self (PyStr.strip q)) = Ok emb ->
  cols <> List.length emb -> cols <> 1%nat -> List.length emb <> 1%nat ->
  search_similar_products self q w
  = (Ok {| consult_original := PyStr.strip q;
           consult_used := _correct_input self (PyStr.strip q);
           semantics := [];
           fallback_fuzzy := [] |},
     log (frame0 self q w)
     ++ [Error (MsgSearchError
                  (ValueError "operands could not be broadcast together"))]).
Proof.
  intros Hv He Hne Hc1 He1.
  rewrite search_unfold, search_body_distances.
  unfold distances. rewrite He, Hv. unfold Np.subtract, Np.broadcast_dim.
  apply Nat.eqb_neq in Hne, Hc1, He1. rewrite Hne, Hc1, He1.
  reflexivity.
Qed.

(** C9.  With a client whose answer to a text does not depend on what it
    has kept from earlier calls: every search for [q] on a heap that holds
    the store of [h] returns the same dict and leaves the store as it is,
    whatever was logged and whatever the client has kept; so do two
    searches in a row. *)
Theorem search_twice_same_results (Memory : Type)
    (embed : string -> Memory -> result (list Q) * Memory)
    (h : OnHeap.Heap Memory) (q : string) :
  OnHeap.deterministic embed ->
  exists r,
    (forall h', OnHeap.store h' = OnHeap.store h ->
       exists h'',
         OnHeap.search_similar_products_on embed q h' = (Ok r, h'')
         /\ OnHeap.store h'' = OnHeap.store h')
    /\ exists h1 h2,
         OnHeap.search_similar_products_on embed q h = (Ok r, h1)
         /\ OnHeap.search_similar_products_on embed q h1 = (Ok r, h2).
Proof.
  intros Hdet.
  set (self := OnHeap.object h (OnHeap.answers_now embed h)).
  destruct (search_cases self q) as (r & _ & _ & Hall & _).
  assert (Hany : forall h', OnHeap.store h' = OnHeap.store h ->
            exists h'',
              OnHeap.search_similar_products_on embed q h' = (Ok r, h'')
              /\ OnHeap.store h'' = OnHeap.store h').
  { intros h' Hst.
    assert (Eo : forall e, OnHeap.object h' e = OnHeap.object h e).
    { intros e. unfold OnHeap.store in Hst. unfold OnHeap.object.
      injection Hst as -> -> -> -> ->. reflexivity. }
    assert (Er : fst (search_similar_products
                        (OnHeap.object h' (OnHeap.answers_now embed h')) q
                        (OnHeap.logger h')) = Ok r).
    { rewrite Eo.
      rewrite (HeapFacts.search_same_answer Memory h
                 (OnHeap.answers_now embed h') (OnHeap.answers_now embed h)
                 q (OnHeap.logger h') (OnHeap.logger h)).
      - destruct (Hall (OnHeap.logger h)) as [w' Hw]. unfold self in Hw.
        rewrite Hw. reflexivity.
      - cbn [embed_query OnHeap.answers_now]. apply Hdet. }
    rewrite HeapFacts.search_on_run. cbv zeta. rewrite Er.
    eexists. split; reflexivity. }
  exists r. split; [exact Hany |].
  destruct (Hany h eq_refl) as (h1 & H1 & Hs1).
  destruct (Hany h1 Hs1) as (h2 & H2 & _).
  exists h1, h2. split; assumption.
Qed.

(** C10 (as amended).  A search first logs the head of the text as it was
    passed.  What it records as [consult_original] is the text without the
    whitespace before and after it: the text is that record between two
    runs of whitespace, and the record neither starts nor ends with
    whitespace.  The correction is taken on that record, and the dict is
    the one that a search for that record returns; for the text " a " the
    record is "a". *)
Theorem search_strips_the_query (self : SearchSimilarProduct) (q : string)
    (w : World) :
  exists r w' lead trail,
    search_similar_products self q w = (Ok r, w')
    /\ q = (lead ++ consult_original r ++ trail)%string
    /\ Forall (fun c => PyStr.isspace c = true) (list_ascii_of_string lead)
    /\ Forall (fun c => PyStr.isspace c = true) (list_ascii_of_string trail)
    /\ clean_head (list_ascii_of_string (consult_original r))
    /\ clean_head (rev (list_ascii_of_string (consult_original r)))
    /\ consult_used r = _correct_input self (consult_original r)
    /\ (forall w0, exists w1,
          search_similar_products self (consult_original r) w0 = (Ok r, w1))
    /\ (exists rest,
          w' = w ++ Info (MsgSearching (PyStr.prefix 50 q)) :: rest)
    /\ (exists r0 w1,
          search_similar_products self " a " w = (Ok r0, w1)
          /\ consult_original r0 = "a"%string
          /\ consult_original r0 <> " a "%string).
Proof.
  destruct (search_cases self q) as (r & Ho & Hu & Hall & _).
  destruct (Hall w) as [w' Hrun].
  destruct (StripFacts.strip_split q) as (lead & trail & Hq & Hl & Ht & Hc1 & Hc2).
  exists r, w', lead, trail. rewrite Ho, Hu.
  split; [exact Hrun |].
  do 5 (split; [assumption |]). split; [reflexivity |]. split; [| split].
  - intros w0.
    assert (E : forall w2,
               fst (search_similar_products self (PyStr.strip q) w2)
               = fst (search_similar_products self q w2)).
    { intros w2. rewrite !search_unfold. unfold frame0.
      rewrite !StripFacts.strip_idem.
      destruct (search_body_run self (_correct_input self (PyStr.strip q)))
        as [(e & Hd & Hb) | (dists' & n & res & items & Hd & _ & _ & Hb)].
      - rewrite !Hb. reflexivity.
      - rewrite !Hb by reflexivity.
        destruct res as [[] | e]; [destruct items |]; reflexivity. }
    destruct (search_similar_products self (PyStr.strip q) w0) as [r1 w1] eqn:E1.
    exists w1. f_equal.
    specialize (E w0). rewrite E1 in E. destruct (Hall w0) as [w2 E2].
    rewrite E2 in E. exact E.
  - destruct (LogFacts.search_log_starts self q w) as [rest Hrest].
    exists rest. rewrite Hrun in Hrest. exact Hrest.
  - destruct (search_cases self " a ") as (r0 & Ho0 & _ & Hall0 & _).
    destruct (Hall0 w) as [w1 Hrun0].
    exists r0, w1. split; [exact Hrun0 |].
    rewrite Ho0. split; [reflexivity | discriminate].
Qed.

End Claims.

(* ================================================================== *)
(** * The claims on the small catalogue *)

Module OnCatalogue.
Import Examples.
Local Open Scope string_scope.

Lemma run_returns (self : SearchSimilarProduct) (q : string) :
  run self q = (Ok (returned (run self q)), snd (run self q)).
Proof.
  unfold run, returned.
  destruct (search_cases (L := RefLibs.stable) self q) as (r & _ & _ & Hall & _).
  destruct (Hall []) as [w' ->]. reflexivity.
Qed.

(** [database] loads into [shop]. *)
Example shop_is_loaded (k : Z) (v : list Q) :
  init k 1 database (constant v) [] = (Ok (shop k v), [Info (MsgLoaded 3)]).
Proof. reflexivity. Qed.

Example shop_wf (k : Z) (v : list Q) : store_wf (shop k v).
Proof. apply (init_store_wf k 1 database (constant v) [] _ _ (shop_is_loaded k v)). Qed.

(** Scenario D of the specification, and a ranking within the threshold. *)
Example harry_poter :
  run (shop 5 [0; 0]%Q) "  harry poter "
  = (Ok {| consult_original := "harry poter";
           consult_used := "Harry Potter book";
           semantics :=
             [ {| sem_id := 1; sem_code := "EAN1";
                  sem_description := "Harry Potter book";
                  similarity := 100; distance := 0 |};
               {| sem_id := 2; sem_code := "EAN2";
                  sem_description := "red large shirt";
                  similarity := 80; distance := 1 # 4 |} ];
           fallback_fuzzy := [] |},
     [ Info (MsgSearching "  harry poter ");
       Info (MsgCorrected "harry poter" "Harry Potter book");
       Info (MsgFoundSemantic 2) ]).
Proof. vm_compute. reflexivity. Qed.

(** Scenario A of the specification: one entry, the query at distance
    0.05. *)
Example scenario_A :
  fst (run (single [5 # 100]%Q) "Harry Potter book")
  = Ok {| consult_original := "Harry Potter book";
          consult_used := "Harry Potter book";
          semantics :=
            [ {| sem_id := 1; sem_code := "EAN1";
                 sem_description := "Harry Potter book";
                 similarity := F64.nearest (9524 # 100);
                 distance := F64.nearest (5 # 100) |} ];
          fallback_fuzzy := [] |}.
Proof. vm_compute. reflexivity. Qed.

(** Scenario B: the same entry, the query at distance 2. *)
Example scenario_B :
  fst (run (single [2]%Q) "Harry Potter")
  = Ok {| consult_original := "Harry Potter";
          consult_used := "Harry Potter book";
          semantics := [];
          fallback_fuzzy :=
            [ {| fuzzy_id := 1; fuzzy_code := "EAN1";
                 fuzzy_description := "Harry Potter book";
                 score_fuzzy := 100 |} ] |}.
Proof. vm_compute. reflexivity. Qed.

(** Scenario C: the empty store. *)
Example scenario_C :
  run empty_shop "anything"
  = (Ok {| consult_original := "anything"; consult_used := "anything";
           semantics := []; fallback_fuzzy := [] |},
     [ Info (MsgSearching "anything");
       Error (MsgSearchError
                (ValueError "operands could not be broadcast together")) ]).
Proof. vm_compute. reflexivity. Qed.

(** A query vector of one number is stretched over the stored vectors:
    no exception, the distances are taken and the ranking goes on. *)
Example one_number_is_broadcast :
  @distances RefLibs.stable (shop 5 [0]%Q) "shirt" = Ok [0; 1 # 4; 5]%Q.
Proof. vm_compute. reflexivity. Qed.

(** The table of twenty rows loads into [shelf]. *)
Example shelf_is_loaded :
  init 20 1 {| select_embeddings := Ok shelf_rows |} (constant [0; 0]%Q) []
  = (Ok shelf, [Info (MsgLoaded 20)]).
Proof. vm_compute. reflexivity. Qed.

(** With a client that remembers, two searches in a row give two dicts,
    and leave the store as it is. *)
Example client_that_remembers :
  let embed := alternating [0; 0]%Q [10; 10]%Q in
  let first :=
    @OnHeap.search_similar_products_on RefLibs.stable bool embed "shirt"
      (shop_heap 5 true) in
  let second :=
    @OnHeap.search_similar_products_on RefLibs.stable bool embed "shirt"
      (snd first) in
  fst first <> fst second
  /\ OnHeap.store (snd second) = OnHeap.store (shop_heap 5 true).
Proof. vm_compute. split; [discriminate | reflexivity]. Qed.

End OnCatalogue.

(** Witness of C1: the ranking of [shop] for "harry poter". *)
Lemma semantic_ranking_witness :
  (0 <= top_k (Examples.shop 5 [0; 0]%Q))%Z
  /\ (Z.of_nat (List.length
        (semantics (Examples.returned
                      (Examples.run (Examples.shop 5 [0; 0]%Q) "harry poter"))))
      <= 5)%Z.
Proof.
  assert (Hk : (0 <= top_k (Examples.shop 5 [0; 0]%Q))%Z)
    by (vm_compute; discriminate).
  split; [exact Hk |].
  exact (proj1 (@semantic_ranking RefLibs.stable (Examples.shop 5 [0; 0]%Q)
                  "harry poter" [] _ _ RefLibsFacts.stable_argsort_contract Hk
                  (OnCatalogue.run_returns (Examples.shop 5 [0; 0]%Q)
                                           "harry poter"))).
Defined.

(** C1 as stated fails: twenty entries at distance 0 from the query are
    all returned, and not in store order. *)
Lemma tied_matches_leave_store_order :
  exists r w',
    @search_similar_products RefLibs.numpy Examples.shelf "copy" []
    = (Ok r, w')
    /\ List.length (semantics r) = 20%nat
    /\ Forall (fun m => distance m = 0) (semantics r)
    /\ (exists m1 m2 ms,
          skipn 1 (semantics r) = m1 :: m2 :: ms
          /\ (sem_id m2 < sem_id m1)%Z)
    /\ ~ StronglySorted Z.lt (map sem_id (semantics r)).
Proof.
  eexists _, _. split; [vm_compute; reflexivity |].
  split; [reflexivity |]. split; [| split].
  - repeat constructor.
  - eexists _, _, _. split; [reflexivity |]. reflexivity.
  - intros Hs. apply StronglySorted_inv in Hs. destruct Hs as [Hs _].
    apply StronglySorted_inv in Hs. destruct Hs as [_ Hs].
    apply Forall_inv in Hs. vm_compute in Hs. discriminate.
Qed.

(** Witness of C2: the search on the empty store. *)
Lemma search_never_raises_witness :
  store_wf Examples.empty_shop
  /\ exists r w',
       Examples.run Examples.empty_shop "harry poter" = (Ok r, w')
       /\ semantics r = [] /\ fallback_fuzzy r = [].
Proof.
  split; [reflexivity |].
  destruct (@search_never_raises RefLibs.stable Examples.empty_shop
              "harry poter" [] RefLibsFacts.stable_argsort_contract eq_refl)
    as (r & w' & Hrun & _ & _ & _ & Hempty & _).
  exists r, w'. split; [exact Hrun |]. apply Hempty. reflexivity.
Defined.



(** C4 as stated fails: a source without rows loads, into an empty store. *)
Lemma empty_source_loads :
  init 5 1 {| select_embeddings := Ok [] |} (Examples.constant [0; 0]%Q) []
  = (Ok Examples.empty_shop, [Info (MsgLoaded 0)]).
Proof. reflexivity. Qed.

(** C5 as stated fails: "abcx" comes first in the vocabulary and is as
    close to "abcd" as "abcy", yet "abcy" is returned. *)
Lemma correct_input_tie_takes_greatest_string :
  map description (products Examples.twins) = ["abcx"; "abcy"]%string
  /\ similarity_to "abcd" "abcx" = 6 # 8
  /\ similarity_to "abcd" "abcy" = 6 # 8
  /\ _correct_input Examples.twins "abcd" = "abcy"%string.
Proof. vm_compute. repeat split. Qed.


(** Witness of C7: a search that falls back. *)
Lemma fuzzy_only_as_fallback_witness :
  fallback_fuzzy (Examples.returned
                    (Examples.run (Examples.shop 5 [10; 10]%Q) "shirt")) <> []
  /\ semantics (Examples.returned
                  (Examples.run (Examples.shop 5 [10; 10]%Q) "shirt")) = [].
Proof.
  assert (Hne : fallback_fuzzy
                  (Examples.returned
                     (Examples.run (Examples.shop 5 [10; 10]%Q) "shirt")) <> [])
    by (vm_compute; discriminate).
  split; [exact Hne |].
  exact (proj1 (@fuzzy_only_as_fallback RefLibs.stable
                  (Examples.shop 5 [10; 10]%Q) "shirt" [] _ _
                  (OnCatalogue.run_returns (Examples.shop 5 [10; 10]%Q) "shirt"))
               Hne).
Defined.

(** Witness of C8: three numbers from the provider, two per stored vector. *)
Lemma dimension_mismatch_is_swallowed_witness :
  Examples.run (Examples.shop 5 [0; 0; 0]%Q) "shirt"
  = (Ok {| consult_original := "shirt"; consult_used := "shirt";
           semantics := []; fallback_fuzzy := [] |},
     [ Info (MsgSearching "shirt");
       Error (MsgSearchError
                (ValueError "operands could not be broadcast together")) ]).
Proof.
  apply (@dimension_mismatch_is_swallowed RefLibs.stable
           (Examples.shop 5 [0; 0; 0]%Q) "shirt" [] 2
           [[0; 0]; [1 # 4; 0]; [3; 4]]%Q [0; 0; 0]%Q);
    try reflexivity; simpl; lia.
Defined.

(** C8 as stated fails: on that mismatch the search raises nothing and
    returns a dict with both lists empty. *)
Lemma dimension_mismatch_returns :
  exists r w',
    @search_similar_products RefLibs.stable (Examples.shop 5 [0; 0; 0]%Q)
      "shirt" [] = (Ok r, w')
    /\ semantics r = [] /\ fallback_fuzzy r = []
    /\ forall e w0,
         @search_similar_products RefLibs.stable (Examples.shop 5 [0; 0; 0]%Q)
           "shirt" [] <> (Raise e, w0).
Proof.
  eexists _, _. split; [vm_compute; reflexivity |].
  split; [reflexivity |]. split; [reflexivity |].
  intros e w0. vm_compute. discriminate.
Qed.

(** Witness of C9: two searches on the heap of [shop], with a client that
    counts its calls. *)
Lemma search_twice_same_results_witness :
  OnHeap.deterministic (Examples.counting [0; 0]%Q)
  /\ exists r h1 h2,
       @OnHeap.search_similar_products_on RefLibs.stable nat
         (Examples.counting [0; 0]%Q) "shirt" (Examples.shop_heap 5 0%nat)
       = (Ok r, h1)
       /\ @OnHeap.search_similar_products_on RefLibs.stable nat
            (Examples.counting [0; 0]%Q) "shirt" h1
          = (Ok r, h2).
Proof.
  assert (Hdet : OnHeap.deterministic (Examples.counting [0; 0]%Q))
    by (intros text m1 m2; reflexivity).
  split; [exact Hdet |].
  destruct (@search_twice_same_results RefLibs.stable nat
              (Examples.counting [0; 0]%Q) (Examples.shop_heap 5 0%nat)
              "shirt" Hdet) as (r & _ & h1 & h2 & H1 & H2).
  exists r, h1, h2. split; assumption.
Defined.

(** C10 as stated fails: the head of the text is logged before the text is
    stripped, with the whitespace around it. *)
Lemma query_is_logged_before_it_is_stripped :
  exists r w',
    Examples.run (Examples.shop 5 [0; 0]%Q) "  harry poter " = (Ok r, w')
    /\ consult_original r = "harry poter"%string
    /\ nth_error w' 0 = Some (Info (MsgSearching "  harry poter "))
    /\ Info (MsgSearching "  harry poter ")
       <> Info (MsgSearching (PyStr.prefix 50 (consult_original r))).
Proof.
  eexists _, _. split; [vm_compute; reflexivity |].
  split; [reflexivity |]. split; [reflexivity |]. vm_compute. discriminate.
Qed.

(* ================================================================== *)
(** * More properties of the program *)

Import SearchFacts LoadFacts.

Module ShapeFacts.
Section Shape.
Context `{L : Libs}.
Variable self : SearchSimilarProduct.

(** What one search returns and logs, by the course of the [try] block. *)
Lemma search_shape (q : string) (w w' : World) (r : Results) :
  search_similar_products self q w = (Ok r, w') ->
  let text := _correct_input self (PyStr.strip q) in
  let f0 := frame0 self q w in
  consult_original r = PyStr.strip q
  /\ consult_used r = text
  /\ match distances self text with
     | Raise e =>
         semantics r = [] /\ fallback_fuzzy r = []
         /\ w' = log f0 ++ [Error (MsgSearchError e)]
     | Ok dists =>
         let cands := PySeq.slice_to (argsort dists) (top_k self) in
         exists n res,
           Forall2 (semantic_at self dists) (kept self dists n cands) (semantics r)
           /\ (Forall (valid self dists) cands ->
               res = Ok tt /\ n = List.length cands)
           /\ match res with
              | Raise e =>
                  fallback_fuzzy r = []
                  /\ w' = log f0 ++ [Error (MsgSearchError e)]
              | Ok _ =>
                  match semantics r with
                  | [] =>
                      fallback_fuzzy r = fuzzy_items self text
                      /\ w' = log f0
                              ++ [Info (MsgFoundSemantic 0); Info MsgFallback;
                                  Info (MsgFoundFuzzy
                                          (List.length (fuzzy_items self text)))]
                  | _ :: _ =>
                      fallback_fuzzy r = []
                      /\ w' = log f0
                              ++ [Info (MsgFoundSemantic
                                          (List.length (semantics r)))]
                  end
              end
     end.
Proof.
  intros Hrun text f0. rewrite search_unfold in Hrun. fold text f0 in Hrun.
  destruct (search_body_run self text)
    as [(e & Hd & Hb) | (dists & n & res & items & Hd & Hitems & Hok & Hb)].
  - rewrite Hb in Hrun. injection Hrun as <- <-. rewrite Hd.
    repeat split; reflexivity.
  - rewrite Hb in Hrun by reflexivity. rewrite Hd.
    destruct res as [[] | e]; [destruct items as [| m items'] |];
      injection Hrun as <- <-;
      (split; [reflexivity |]); (split; [reflexivity |]).
    + exists n, (Ok tt). cbn -[fuzzy_items kept]. unfold f0, frame0. cbn -[fuzzy_items kept].
      split; [exact Hitems |]. split; [exact Hok |].
      split; [reflexivity |]. rewrite <- !app_assoc. reflexivity.
    + exists n, (Ok tt). cbn -[fuzzy_items kept].
      split; [exact Hitems |]. split; [exact Hok |].
      split; reflexivity.
    + exists n, (Raise e). cbn -[fuzzy_items kept].
      split; [exact Hitems |]. split; [exact Hok |].
      split; reflexivity.
Qed.

End Shape.
End ShapeFacts.

Import SearchFacts LoadFacts ShapeFacts.

Module TopFacts.

Lemma StronglySorted_app_cross (A : Type) (R : A -> A -> Prop) (l1 l2 : list A)
    (x y : A) :
  StronglySorted R (l1 ++ l2) -> In x l1 -> In y l2 -> R x y.
Proof.
  induction l1 as [| a l1 IH]; intros Hs Hx Hy; [contradiction |].
  simpl in Hs. apply StronglySorted_inv in Hs. destruct Hs as [Hs Ha].
  destruct Hx as [<- | Hx].
  - rewrite Forall_forall in Ha. apply Ha, in_or_app. right. exact Hy.
  - apply IH; assumption.
Qed.

Lemma NoDup_firstn (A : Type) (n : nat) (l : list A) :
  NoDup l -> NoDup (firstn n l).
Proof.
  revert l. induction n as [| n IH]; intros l Hl; [constructor |].
  destruct l as [| x r]; [constructor |]. simpl.
  inversion Hl as [| ? ? Hx Hr]; subst. constructor.
  - intros Hin. apply Hx. eapply PySeqFacts.In_firstn, Hin.
  - apply IH, Hr.
Qed.

Lemma filter_all (A : Type) (p : A -> bool) (l : list A) :
  Forall (fun x => p x = true) l -> filter p l = l.
Proof.
  induction 1 as [| x r Hx _ IH]; [reflexivity |].
  simpl. rewrite Hx, IH. reflexivity.
Qed.

Lemma slice_to_nonneg (A : Type) (l : list A) (k : Z) :
  (0 <= k)%Z -> PySeq.slice_to l k = firstn (Z.to_nat k) l.
Proof.
  intros Hk. unfold PySeq.slice_to.
  destruct (0 <=? k)%Z eqn:E; [reflexivity |].
  apply Z.leb_gt in E. lia.
Qed.

Section Top.
Context `{L : Libs}.
Variable self : SearchSimilarProduct.

Lemma within_true (dists : list Q) (i : nat) :
  (i < List.length dists)%nat ->
  (nth i dists 0 < minimal_distance self)%Q ->
  within self dists i = true.
Proof.
  intros Hi Hlt. unfold within.
  destruct (nth_error dists i) as [d |] eqn:E.
  - rewrite (nth_error_nth _ _ _ E) in Hlt. apply PyFloatFacts.ltb_lt, Hlt.
  - apply nth_error_None in E. lia.
Qed.

(** With valid candidates the loop keeps exactly the candidates within the
    threshold. *)
Lemma semantics_of_candidates (q : string) (w w' : World) (r : Results)
    (dists : list Q) :
  argsort_contract -> store_wf self ->
  search_similar_products self q w = (Ok r, w') ->
  distances self (consult_used r) = Ok dists ->
  let cands := PySeq.slice_to (argsort dists) (top_k self) in
  Forall2 (semantic_at self dists) (filter (within self dists) cands) (semantics r)
  /\ match semantics r with
     | [] => fallback_fuzzy r = fuzzy_items self (consult_used r)
             /\ w' = log (frame0 self q w)
                     ++ [Info (MsgFoundSemantic 0); Info MsgFallback;
                         Info (MsgFoundFuzzy
                                 (List.length (fuzzy_items self (consult_used r))))]
     | _ :: _ => fallback_fuzzy r = []
                 /\ w' = log (frame0 self q w)
                         ++ [Info (MsgFoundSemantic (List.length (semantics r)))]
     end.
Proof.
  intros Hc Hwf Hrun Hd cands.
  destruct (search_shape self q w w' r Hrun) as (_ & Hu & Hsh).
  rewrite <- Hu in Hsh. rewrite Hd in Hsh.
  destruct Hsh as (n & res & Hitems & Hok & Hres).
  pose proof (slice_valid self _ dists Hc Hwf Hd) as Hv.
  destruct (Hok Hv) as [-> ->].
  unfold kept in Hitems. rewrite firstn_all in Hitems.
  split; [exact Hitems | exact Hres].
Qed.

End Top.
End TopFacts.

Import SearchFacts LoadFacts ShapeFacts TopFacts.

Module InitFacts.

(** What a successful [__init__] has read and built. *)
Lemma init_inv (k : Z) (min_dist : Q) (c : Connection) (emb : Embeddings)
    (w w' : World) (self : SearchSimilarProduct) :
  init k min_dist c emb w = (Ok self, w') ->
  exists rows dvs,
    select_embeddings c = Ok rows
    /\ Forall2 (fun r v => Np.frombuffer (row_blob r) = Ok v) rows dvs
    /\ Np.array dvs = Ok (vectors self)
    /\ products self = map product_of rows
    /\ conn self = c /\ top_k self = k /\ minimal_distance self = min_dist
    /\ embedding self = emb
    /\ w' = w ++ [Info (MsgLoaded (List.length rows))].
Proof.
  unfold init, bind. rewrite load_unfold.
  destruct (select_embeddings c) as [rows | e]; [| discriminate].
  destruct (load_rows rows [] []) as [[vs ps] | e] eqn:El; [| discriminate].
  destruct (Np.array vs) as [arr | e] eqn:Ea; [| discriminate].
  unfold ret. intros [= <- <-]. cbn.
  apply load_rows_ok in El. destruct El as (dvs & Hf & -> & ->). simpl in *.
  exists rows, dvs. rewrite length_map. repeat split; auto.
Qed.

End InitFacts.

Section MoreSearch.
Context `{L : Libs}.

(** X1.  The semantic list is the top-k of the entries within the
    threshold: no store entry is listed twice, and an entry within the
    threshold is missing only when the list is full, with [top_k] matches
    that are all at least as near as it. *)
Theorem semantic_ranking_is_complete (self : SearchSimilarProduct) (q : string)
    (w w' : World) (r : Results) (dists : list Q) :
  argsort_contract -> store_wf self -> (0 <= top_k self)%Z ->
  search_similar_products self q w = (Ok r, w') ->
  distances self (consult_used r) = Ok dists ->
  exists idxs,
    Forall2 (semantic_at self dists) idxs (semantics r)
    /\ NoDup idxs
    /\ forall i, (i < List.length dists)%nat ->
         (nth i dists 0 < minimal_distance self)%Q ->
         In i idxs
         \/ (Z.of_nat (List.length (semantics r)) = top_k self
             /\ Forall (fun j => (nth j dists 0 <= nth i dists 0)%Q) idxs).
Proof.
  intros Hc Hwf Hk Hrun Hd.
  destruct (semantics_of_candidates self q w w' r dists Hc Hwf Hrun Hd)
    as [Hitems _].
  destruct (Hc dists) as [Hperm Hsorted].
  rewrite (slice_to_nonneg _ _ _ Hk) in Hitems.
  set (m := Z.to_nat (top_k self)) in *.
  set (cands := firstn m (argsort dists)) in *.
  assert (Hnd : NoDup (argsort dists)).
  { eapply Permutation_NoDup; [apply Permutation_sym, Hperm | apply seq_NoDup]. }
  exists (filter (within self dists) cands).
  split; [exact Hitems |]. split.
  - apply NoDup_filter, NoDup_firstn, Hnd.
  - intros i Hi Hlt.
    pose proof (within_true self dists i Hi Hlt) as Hw.
    destruct (in_dec Nat.eq_dec i cands) as [Hin | Hout].
    + left. apply filter_In. split; assumption.
    + right.
      assert (Hia : In i (argsort dists)).
      { eapply Permutation_in; [apply Permutation_sym, Hperm |].
        apply in_seq. lia. }
      rewrite <- (firstn_skipn m (argsort dists)) in Hia, Hsorted.
      fold cands in Hia, Hsorted.
      apply in_app_or in Hia. destruct Hia as [Hia | Hia]; [contradiction |].
      assert (Hnear : Forall (fun j => (nth j dists 0 <= nth i dists 0)%Q) cands).
      { rewrite Forall_forall. intros j Hj.
        exact (StronglySorted_app_cross _ _ _ _ j i Hsorted Hj Hia). }
      assert (Hall : filter (within self dists) cands = cands).
      { apply filter_all. rewrite Forall_forall. intros j Hj.
        apply within_true.
        - apply (argsort_in_range dists j Hc).
          eapply PySeqFacts.In_firstn, Hj.
        - rewrite Forall_forall in Hnear. specialize (Hnear j Hj). lra. }
      rewrite Hall in *. split; [| exact Hnear].
      rewrite <- (Forall2_length Hitems). unfold cands.
      rewrite length_firstn.
      assert (Hlen : (m < List.length (argsort dists))%nat).
      { destruct (Nat.lt_ge_cases m (List.length (argsort dists))) as [H | H];
          [exact H |].
        rewrite skipn_all2 in Hia by exact H. contradiction. }
      unfold m in *. lia.
Qed.

(** X2.  The fallback has no threshold: when the distances were computed
    and no entry is within the threshold, the fuzzy list holds as many
    products as the slice [[:top_k]] takes of the store, whatever their
    scores; with [top_k >= 1] and a store that is not empty it holds at
    least one. *)
Theorem fuzzy_fallback_fills_top_k (self : SearchSimilarProduct) (q : string)
    (w w' : World) (r : Results) (dists : list Q) :
  argsort_contract -> store_wf self ->
  search_similar_products self q w = (Ok r, w') ->
  distances self (consult_used r) = Ok dists ->
  semantics r = [] ->
  List.length (fallback_fuzzy r)
  = List.length (PySeq.slice_to (products self) (top_k self))
  /\ ((1 <= top_k self)%Z -> products self <> [] -> fallback_fuzzy r <> []).
Proof.
  intros Hc Hwf Hrun Hd Hs.
  destruct (semantics_of_candidates self q w w' r dists Hc Hwf Hrun Hd)
    as [_ Hres].
  rewrite Hs in Hres. destruct Hres as [Hf _].
  assert (Hlen : List.length (fallback_fuzzy r)
                 = List.length (PySeq.slice_to (products self) (top_k self))).
  { rewrite Hf. unfold fuzzy_items, better_fuzz, PySeq.slice_to.
    rewrite length_map, PySeqFacts.sort_desc_length, length_map.
    destruct (0 <=? top_k self)%Z; rewrite !length_firstn;
      rewrite PySeqFacts.sort_desc_length, length_map; reflexivity. }
  split; [exact Hlen |].
  intros Hk Hp Hnil. rewrite Hnil in Hlen.
  rewrite slice_to_nonneg in Hlen by lia.
  rewrite length_firstn in Hlen. simpl in Hlen.
  destruct (products self); [congruence | simpl in Hlen; lia].
Qed.

(** X3.  Every semantic match reports a similarity that is at most 100
    and at least the number that lines 156 and 162 give for the threshold
    itself: with the default threshold of 1.0, at least 50. *)
Theorem similarity_at_least_threshold (self : SearchSimilarProduct)
    (q : string) (w w' : World) (r : Results) (m : SemanticMatch) :
  norm_contract ->
  search_similar_products self q w = (Ok r, w') ->
  In m (semantics r) ->
  (Np.around (F64.mul (F64.div 1 (F64.add 1 (minimal_distance self))) 100) 2
   <= similarity m <= 100)%Q
  /\ ((minimal_distance self <= 1)%Q -> (50 <= similarity m)%Q).
Proof.
  intros Hn Hrun Hm.
  destruct (search_result self q w w' r Hrun) as (_ & _ & _ & Hcases).
  destruct Hcases as [(e & _ & _ & Hs & _)
                     | (dists & n & res & Hd & Hitems & _ & _ & _)].
  { rewrite Hs in Hm. contradiction. }
  destruct (Forall2_In_r _ _ _ _ _ m Hitems Hm) as (i & Hi & p & dist & Hp & Hdi & ->).
  unfold kept in Hi. apply filter_In in Hi. destruct Hi as [_ Hw].
  unfold within in Hw. rewrite Hdi in Hw. apply PyFloatFacts.ltb_lt in Hw.
  assert (H0 : (0 <= dist)%Q).
  { pose proof (distances_nonneg _ _ _ Hn Hd) as Hall.
    rewrite Forall_forall in Hall. apply Hall. eapply nth_error_In, Hdi. }
  set (md := minimal_distance self) in *.
  split; [split |].
  - apply (RoundFacts.similarity_antitone p p dist md H0). lra.
  - apply (RoundFacts.semantic_item_range p dist H0).
  - intros Hmd.
    apply Qle_trans with (similarity (semantic_item p 1)).
    + vm_compute. discriminate.
    + apply (RoundFacts.similarity_antitone p p dist 1 H0). lra.
Qed.

(** X4.  The semantic matches come in non-increasing order of their
    [similarity] field. *)
Theorem semantics_by_descending_similarity (self : SearchSimilarProduct)
    (q : string) (w w' : World) (r : Results) :
  argsort_contract -> norm_contract ->
  search_similar_products self q w = (Ok r, w') ->
  StronglySorted (fun m1 m2 => (similarity m2 <= similarity m1)%Q) (semantics r).
Proof.
  intros Hc Hn Hrun.
  destruct (search_result self q w w' r Hrun) as (_ & _ & _ & Hcases).
  destruct Hcases as [(e & _ & _ & Hs & _)
                     | (dists & n & res & Hd & Hitems & _ & _ & _)].
  { rewrite Hs. constructor. }
  destruct (Hc dists) as [_ Hsorted].
  pose proof (distances_nonneg _ _ _ Hn Hd) as Hall.
  rewrite Forall_forall in Hall.
  eapply StronglySorted_Forall2;
    [| exact Hitems | apply kept_slice, Hsorted].
  intros i j m1 m2 (p1 & d1 & _ & Hd1 & ->) (p2 & d2 & _ & Hd2 & ->) Hij.
  cbv beta in Hij.
  rewrite (nth_error_nth _ _ _ Hd1), (nth_error_nth _ _ _ Hd2) in Hij.
  assert (H1 : (0 <= d1)%Q) by (apply Hall; eapply nth_error_In, Hd1).
  apply (RoundFacts.similarity_antitone p1 p2 d1 d2 H1 Hij).
Qed.

(** X5.  On an object that [__init__] built with [top_k >= 1], a result
    with both lists empty comes only from an exception inside the [try]
    block: the last record of the log is then the error. *)
Theorem empty_result_is_a_logged_error (k : Z) (min_dist : Q) (c : Connection)
    (emb : Embeddings) (w0 w1 : World) (self : SearchSimilarProduct)
    (q : string) (w w' : World) (r : Results) :
  argsort_contract -> (1 <= k)%Z ->
  init k min_dist c emb w0 = (Ok self, w1) ->
  search_similar_products self q w = (Ok r, w') ->
  semantics r = [] -> fallback_fuzzy r = [] ->
  exists e, w' = log (frame0 self q w) ++ [Error (MsgSearchError e)].
Proof.
  intros Hc Hk Hinit Hrun Hs Hf.
  pose proof (init_store_wf _ _ _ _ _ _ _ Hinit) as Hwf.
  destruct (InitFacts.init_inv _ _ _ _ _ _ _ Hinit)
    as (rows & dvs & _ & Hrows & Harr & Hp & _ & Htk & _).
  destruct (search_shape self q w w' r Hrun) as (_ & Hu & Hsh).
  destruct (distances self (_correct_input self (PyStr.strip q)))
    as [dists | e] eqn:Hd.
  2: { exists e. apply Hsh. }
  exfalso. rewrite <- Hu in Hd.
  destruct (semantics_of_candidates self q w w' r dists Hc Hwf Hrun Hd)
    as [_ Hres].
  rewrite Hs in Hres. destruct Hres as [Hfz _].
  assert (Hlen : List.length (fuzzy_items self (consult_used r)) = 0%nat)
    by (rewrite <- Hfz, Hf; reflexivity).
  unfold fuzzy_items, better_fuzz in Hlen.
  rewrite length_map, slice_to_nonneg in Hlen by lia.
  rewrite length_firstn, PySeqFacts.sort_desc_length, length_map in Hlen.
  assert (Hnil : products self = [])
    by (destruct (products self); [reflexivity | simpl in Hlen; lia]).
  rewrite Hp in Hnil. apply map_eq_nil in Hnil. subst rows.
  inversion Hrows; subst. simpl in Harr. injection Harr as Harr.
  unfold distances in Hd. rewrite <- Harr in Hd.
  destruct (embed_query (embedding self) (consult_used r)); [| discriminate].
  simpl in Hd. destruct (Np.broadcast_dim _ _); discriminate.
Qed.

End MoreSearch.

Import SearchFacts LoadFacts ShapeFacts TopFacts.

Module FuzzyTopFacts.

Lemma combine_seq_fst (A : Type) (l : list A) (start : nat) :
  map fst (combine (seq start (List.length l)) l) = seq start (List.length l).
Proof.
  revert start. induction l as [| x r IH]; intros start; simpl;
    [| rewrite IH]; reflexivity.
Qed.

Section FuzzyTop.
Context `{L : Libs}.
Variable self : SearchSimilarProduct.
Variable text : string.

(** [better_fuzz] lists every store index once, by descending score. *)
Lemma better_fuzz_enumerates :
  exists sl : list (nat * Product),
    better_fuzz self text = map (scored_entry text) sl
    /\ StronglySorted (higher_first fst (entry_score text)) sl
    /\ Forall (in_store self) sl
    /\ Permutation (map fst sl) (seq 0 (List.length (products self))).
Proof.
  set (en := combine (seq 0 (List.length (products self))) (products self)).
  exists (PySeq.sort_desc
            (fun u v => PyFloat.gtb (snd (scored_entry text u))
                                    (snd (scored_entry text v)))
            en).
  split; [| split; [| split]].
  - unfold better_fuzz.
    rewrite <- (EnumFacts.combine_seq_snd _ (products self) 0) at 1.
    fold en. rewrite map_map.
    apply (PySeqFacts.sort_desc_map _ _ (scored_entry text)
             (fun x y => PyFloat.gtb (snd x) (snd y))).
  - apply PySeqFacts.sort_desc_higher_first.
    + intros x y. apply PyFloatFacts.gtb_gt.
    + apply EnumFacts.combine_seq_sorted.
  - eapply Permutation_Forall;
      [apply Permutation_sym, PySeqFacts.sort_desc_perm |].
    rewrite Forall_forall. intros [i p] Hi.
    apply EnumFacts.combine_seq_In in Hi. unfold in_store. simpl.
    rewrite Nat.sub_0_r in Hi. apply Hi.
  - rewrite <- (combine_seq_fst _ (products self) 0). fold en.
    apply Permutation_map, PySeqFacts.sort_desc_perm.
Qed.

End FuzzyTop.
End FuzzyTopFacts.

Section FuzzyTheorems.
Context `{L : Libs}.

(** X19.  The fallback list is the top-k of the whole store by fuzzy
    score: when the distances were computed and no entry is within the
    threshold, no product is listed twice, and a product is missing only
    when the list is full, with [top_k] products that all score at least
    as much as it. *)
Theorem fuzzy_ranking_is_complete (self : SearchSimilarProduct) (q : string)
    (w w' : World) (r : Results) (dists : list Q) :
  argsort_contract -> store_wf self -> (0 <= top_k self)%Z ->
  search_similar_products self q w = (Ok r, w') ->
  distances self (consult_used r) = Ok dists ->
  semantics r = [] ->
  exists idxs,
    Forall2 (fuzzy_at self (consult_used r)) idxs (fallback_fuzzy r)
    /\ NoDup idxs
    /\ forall i, (i < List.length (products self))%nat ->
         In i idxs
         \/ (Z.of_nat (List.length (fallback_fuzzy r)) = top_k self
             /\ Forall (fun j => (fuzzy_score self (consult_used r) i
                                  <= fuzzy_score self (consult_used r) j)%Q)
                       idxs).
Proof.
  intros Hc Hwf Hk Hrun Hd Hs.
  destruct (semantics_of_candidates self q w w' r dists Hc Hwf Hrun Hd)
    as [_ Hres].
  rewrite Hs in Hres. destruct Hres as [Hf _].
  set (text := consult_used r) in *.
  destruct (FuzzyTopFacts.better_fuzz_enumerates self text)
    as (sl & Hb & Hsorted & Hin & Hperm).
  rewrite Hf. unfold fuzzy_items.
  rewrite Hb, EnumFacts.slice_to_map, map_map.
  rewrite (slice_to_nonneg _ _ _ Hk).
  set (m := Z.to_nat (top_k self)) in *.
  assert (Hnd : NoDup (map fst sl)).
  { eapply Permutation_NoDup; [apply Permutation_sym, Hperm | apply seq_NoDup]. }
  exists (map fst (firstn m sl)). split; [| split].
  - apply EnumFacts.Forall2_map_both. rewrite Forall_forall. intros [i p] Hip.
    exists p. split; [| reflexivity].
    rewrite Forall_forall in Hin. apply (Hin (i, p)).
    eapply PySeqFacts.In_firstn, Hip.
  - rewrite <- firstn_map. apply NoDup_firstn, Hnd.
  - intros i Hi.
    assert (Hia : In i (map fst sl)).
    { eapply Permutation_in; [apply Permutation_sym, Hperm |].
      apply in_seq. lia. }
    rewrite <- (firstn_skipn m sl), map_app in Hia.
    apply in_app_or in Hia. destruct Hia as [Hia | Hia]; [left; exact Hia |].
    right. split.
    + rewrite length_map, length_firstn.
      assert (Hlen : (m < List.length sl)%nat).
      { destruct (Nat.lt_ge_cases m (List.length sl)) as [H | H]; [exact H |].
        rewrite skipn_all2 in Hia by exact H. contradiction. }
      unfold m in *. lia.
    + apply in_map_iff in Hia. destruct Hia as (y & <- & Hy).
      rewrite Forall_forall. intros j Hj.
      apply in_map_iff in Hj. destruct Hj as (x & <- & Hx).
      rewrite <- (firstn_skipn m sl) in Hsorted.
      pose proof (StronglySorted_app_cross _ _ _ _ x y Hsorted Hx Hy) as Hxy.
      apply PySeqFacts.higher_first_score in Hxy.
      rewrite Forall_forall in Hin.
      assert (Hsx : in_store self x)
        by (apply Hin; eapply PySeqFacts.In_firstn, Hx).
      assert (Hsy : in_store self y).
      { apply Hin. rewrite <- (firstn_skipn m sl). apply in_or_app.
        right. exact Hy. }
      rewrite (in_store_score self text x Hsx), (in_store_score self text y Hsy).
      exact Hxy.
Qed.

End FuzzyTheorems.

Module TextFacts.
Import PyStr PyText ConfigReadings.

Lemma list_of_app (s1 s2 : string) :
  list_ascii_of_string (s1 ++ s2)
  = list_ascii_of_string s1 ++ list_ascii_of_string s2.
Proof. induction s1 as [| c s1 IH]; simpl; [reflexivity | rewrite IH; reflexivity]. Qed.

Lemma string_of_app (l1 l2 : list ascii) :
  string_of_list_ascii (l1 ++ l2)
  = (string_of_list_ascii l1 ++ string_of_list_ascii l2)%string.
Proof. induction l1 as [| c l1 IH]; simpl; [reflexivity | rewrite IH; reflexivity]. Qed.

Lemma list_of_inj (s1 s2 : string) :
  list_ascii_of_string s1 = list_ascii_of_string s2 -> s1 = s2.
Proof.
  intros H. rewrite <- (string_of_list_ascii_of_string s1),
              <- (string_of_list_ascii_of_string s2), H. reflexivity.
Qed.

Lemma contains_In (c : ascii) (s : string) :
  contains c s = true <-> In c (list_ascii_of_string s).
Proof.
  unfold contains. rewrite existsb_exists. split.
  - intros (x & Hx & E). apply Ascii.eqb_eq in E. subst. exact Hx.
  - intros H. exists c. split; [exact H | apply Ascii.eqb_refl].
Qed.

Lemma contains_false (c : ascii) (s : string) :
  contains c s = false <-> ~ In c (list_ascii_of_string s).
Proof.
  rewrite <- contains_In. destruct (contains c s); split; congruence.
Qed.

(** *** [strip] *)

Lemma In_lstrip (c : ascii) (l : list ascii) : In c (lstrip_chars l) -> In c l.
Proof.
  destruct (StripFacts.lstrip_split l) as (sp & E & _). intros H.
  rewrite E. apply in_or_app. right. exact H.
Qed.

Lemma In_rstrip (c : ascii) (l : list ascii) : In c (rstrip_chars l) -> In c l.
Proof.
  unfold rstrip_chars. intros H. apply in_rev in H. apply In_lstrip in H.
  apply in_rev. exact H.
Qed.

Lemma In_strip (c : ascii) (l : list ascii) : In c (strip_chars l) -> In c l.
Proof. unfold strip_chars. intros H. apply In_lstrip, In_rstrip, H. Qed.

Lemma lstrip_snoc (l : list ascii) (c : ascii) :
  isspace c = true ->
  lstrip_chars (l ++ [c])
  = match lstrip_chars l with [] => [] | x :: r => (x :: r) ++ [c] end.
Proof.
  intros Hc. induction l as [| x r IH]; simpl.
  - rewrite Hc. reflexivity.
  - destruct (isspace x); [exact IH | reflexivity].
Qed.

Lemma rstrip_snoc (l : list ascii) (c : ascii) :
  isspace c = true -> rstrip_chars (l ++ [c]) = rstrip_chars l.
Proof.
  intros Hc. unfold rstrip_chars. rewrite rev_app_distr. simpl.
  rewrite Hc. reflexivity.
Qed.

Lemma strip_snoc (l : list ascii) (c : ascii) :
  isspace c = true -> strip_chars (l ++ [c]) = strip_chars l.
Proof.
  intros Hc. unfold strip_chars. rewrite (lstrip_snoc l c Hc).
  destruct (lstrip_chars l) as [| x r]; [reflexivity |].
  apply rstrip_snoc, Hc.
Qed.

Lemma strip_clean (l : list ascii) : clean (strip_chars l).
Proof.
  unfold clean, strip_chars. split.
  - apply StripFacts.rstrip_clean, StripFacts.lstrip_clean.
  - unfold rstrip_chars. rewrite rev_involutive. apply StripFacts.lstrip_clean.
Qed.

Lemma clean_strip (l : list ascii) : clean l -> strip_chars l = l.
Proof.
  intros [H1 H2]. unfold strip_chars, rstrip_chars.
  rewrite (StripFacts.lstrip_fixed l H1), (StripFacts.lstrip_fixed (rev l) H2).
  apply rev_involutive.
Qed.

Lemma strip_fixed_clean (s : string) :
  strip s = s -> clean (list_ascii_of_string s).
Proof.
  unfold strip. intros H. apply (f_equal list_ascii_of_string) in H.
  rewrite list_ascii_of_string_of_list_ascii in H. rewrite <- H.
  apply strip_clean.
Qed.

Lemma clean_head_app (l1 l2 : list ascii) :
  clean_head l1 -> clean_head l2 -> clean_head (l1 ++ l2).
Proof. destruct l1; simpl; auto. Qed.

(** A text framed by two clean texts around a character that is no
    space. *)
Lemma clean_around (l1 l2 : list ascii) (c : ascii) :
  isspace c = false -> clean l1 -> clean l2 -> clean (l1 ++ c :: l2).
Proof.
  intros Hc [H1 H1'] [H2 H2']. split.
  - apply clean_head_app; [exact H1 | exact Hc].
  - rewrite rev_app_distr. simpl. rewrite <- app_assoc.
    apply clean_head_app; [exact H2' | exact Hc].
Qed.

(** *** [split] at the first occurrence *)

Lemma split_once_found (c : ascii) (h t : list ascii) :
  ~ In c h -> split_once_chars c (h ++ c :: t) = Some (h, t).
Proof.
  induction h as [| x r IH]; intros Hn; simpl.
  - rewrite Ascii.eqb_refl. reflexivity.
  - destruct (Ascii.eqb x c) eqn:E.
    + apply Ascii.eqb_eq in E. subst. exfalso. apply Hn. left. reflexivity.
    + rewrite IH; [reflexivity |]. intros H. apply Hn. right. exact H.
Qed.

Lemma split_once_inv (c : ascii) (l h t : list ascii) :
  split_once_chars c l = Some (h, t) -> l = h ++ c :: t /\ ~ In c h.
Proof.
  revert h t. induction l as [| x r IH]; intros h t; simpl; [discriminate |].
  destruct (Ascii.eqb x c) eqn:E.
  - apply Ascii.eqb_eq in E. subst. intros [= <- <-]. split; [reflexivity | intros []].
  - destruct (split_once_chars c r) as [[h' t'] |]; [| discriminate].
    intros [= <- <-]. destruct (IH h' t' eq_refl) as [-> Hn].
    split; [reflexivity |]. intros [Hx | Hx]; [| exact (Hn Hx)].
    subst. rewrite Ascii.eqb_refl in E. discriminate.
Qed.

(** *** The lines of a file *)

Lemma no_break_cons (c : ascii) (l : list ascii) :
  Ascii.eqb c LF = false -> Ascii.eqb c CR = false -> no_break l ->
  no_break (c :: l).
Proof.
  intros H1 H2 [Hl Hc]. split; intros [E | E]; try contradiction;
    subst; rewrite Ascii.eqb_refl in *; discriminate.
Qed.

Lemma no_break_inv (c : ascii) (l : list ascii) :
  no_break (c :: l) ->
  Ascii.eqb c LF = false /\ Ascii.eqb c CR = false /\ no_break l.
Proof.
  intros [Hl Hc]. repeat split.
  - apply Ascii.eqb_neq. intros ->. apply Hl. left. reflexivity.
  - apply Ascii.eqb_neq. intros ->. apply Hc. left. reflexivity.
  - intros H. apply Hl. right. exact H.
  - intros H. apply Hc. right. exact H.
Qed.

(** One line without a break in it, and its end. *)
Lemma readlines_one (l : list ascii) :
  forall cur, no_break l ->
    readlines_chars cur (l ++ [LF]) = [rev cur ++ l ++ [LF]].
Proof.
  induction l as [| c r IH]; intros cur Hn.
  - simpl. reflexivity.
  - apply no_break_inv in Hn. destruct Hn as (H1 & H2 & Hr).
    cbn [app readlines_chars]. rewrite H1, H2.
    rewrite IH by exact Hr. simpl. rewrite <- app_assoc. reflexivity.
Qed.

Lemma readlines_app (n : nat) :
  forall text cur rest,
    (List.length text <= n)%nat -> ends_a_line text rest ->
    readlines_chars cur (text ++ rest)
    = readlines_chars cur text ++ readlines_chars [] rest.
Proof.
  induction n as [| n IH]; intros text cur rest Hlen (body & c & -> & Hc).
  - rewrite length_app in Hlen. simpl in Hlen. lia.
  - destruct body as [| x body].
    + (* the text is the one character [c] *)
      cbn [app]. destruct Hc as [-> | [-> Hrest]].
      * reflexivity.
      * cbn [readlines_chars]. cbn [Ascii.eqb LF CR Bool.eqb andb].
        destruct rest as [| y rest']; [reflexivity |].
        destruct (Ascii.eqb y LF) eqn:E; [| reflexivity].
        apply Ascii.eqb_eq in E. contradiction.
    + assert (Hend : ends_a_line (body ++ [c]) rest) by (exists body, c; auto).
      assert (Hl : (List.length (body ++ [c]) <= n)%nat)
        by (simpl in Hlen; lia).
      cbn [app readlines_chars].
      destruct (Ascii.eqb x LF) eqn:E1.
      * rewrite (IH _ [] rest Hl Hend). reflexivity.
      * destruct (Ascii.eqb x CR) eqn:E2.
        -- destruct body as [| y body'].
           ++ (* [x] is "\r" and the text ends with [c] *)
              cbn [app].
              destruct (Ascii.eqb c LF) eqn:E3.
              ** reflexivity.
              ** assert (H1c : ends_a_line [c] rest) by (exists [], c; auto).
                 pose proof (IH [c] [] rest Hl H1c) as Hc1.
                 cbn [app] in Hc1. cbn [readlines_chars] in *.
                 rewrite E3 in *. rewrite Hc1. reflexivity.
           ++ cbn [app].
              destruct (Ascii.eqb y LF) eqn:E3.
              ** assert (Hend' : ends_a_line (body' ++ [c]) rest)
                   by (exists body', c; auto).
                 rewrite (IH _ [] rest); [reflexivity | | exact Hend'].
                 simpl in Hl. lia.
              ** pose proof (IH _ [] rest Hl Hend) as Hc1.
                 cbn [app] in Hc1. rewrite Hc1. reflexivity.
        -- rewrite (IH _ (x :: cur) rest Hl Hend). reflexivity.
Qed.

Lemma readlines_shape (n : nat) :
  forall l cur,
    (List.length l <= n)%nat -> no_break (rev cur) ->
    Forall line_shape (readlines_chars cur l).
Proof.
  assert (Hnil : no_break []) by (split; intros []).
  assert (Hline : forall cur, no_break (rev cur) -> line_shape (rev (LF :: cur))).
  { intros cur Hc. exists (rev cur). split; [exact Hc | left; reflexivity]. }
  induction n as [| n IH]; intros l cur Hlen Hcur.
  - destruct l; [| simpl in Hlen; lia]. simpl.
    destruct cur; constructor; [| constructor].
    exists (rev (a :: cur)). split; [exact Hcur | right; reflexivity].
  - destruct l as [| c r].
    { simpl. destruct cur; constructor; [| constructor].
      exists (rev (a :: cur)). split; [exact Hcur | right; reflexivity]. }
    simpl in Hlen. cbn [readlines_chars].
    destruct (Ascii.eqb c LF) eqn:E1.
    { constructor; [apply Hline, Hcur | apply IH; [lia | exact Hnil]]. }
    destruct (Ascii.eqb c CR) eqn:E2.
    { destruct r as [| c' r'].
      - constructor; [apply Hline, Hcur | apply IH; [simpl; lia | exact Hnil]].
      - destruct (Ascii.eqb c' LF).
        + constructor; [apply Hline, Hcur |].
          apply IH; [simpl in Hlen; lia | exact Hnil].
        + constructor; [apply Hline, Hcur |].
          apply IH; [simpl in *; lia | exact Hnil]. }
    apply IH; [lia |]. simpl.
    destruct Hcur as [H1 H2]. split; intros H; apply in_app_or in H;
      destruct H as [H | [H | []]]; try contradiction;
      subst; rewrite Ascii.eqb_refl in *; discriminate.
Qed.

End TextFacts.

Module DictFacts.

Lemma get_set (d : PyDict.t) (k v k' : string) :
  PyDict.get (PyDict.set d k v) k'
  = if String.eqb k k' then Some v else PyDict.get d k'.
Proof.
  induction d as [| [k0 v0] r IH]; simpl.
  - reflexivity.
  - destruct (String.eqb k0 k) eqn:E; simpl.
    + apply String.eqb_eq in E. subst k0.
      destruct (String.eqb k k'); reflexivity.
    + destruct (String.eqb k0 k') eqn:E'.
      * apply String.eqb_eq in E'. subst k0.
        rewrite String.eqb_sym, E. reflexivity.
      * exact IH.
Qed.

Lemma In_set (d : PyDict.t) (k v : string) (kv : string * string) :
  In kv (PyDict.set d k v) -> In kv d \/ kv = (k, v).
Proof.
  induction d as [| [k0 v0] r IH]; simpl.
  - intros [<- | []]. right. reflexivity.
  - destruct (String.eqb k0 k) eqn:E; simpl.
    + apply String.eqb_eq in E. subst k0.
      intros [<- | H]; [right; reflexivity | left; right; exact H].
    + intros [<- | H]; [left; left; reflexivity |].
      destruct (IH H) as [H' | H']; [left; right; exact H' | right; exact H'].
Qed.

End DictFacts.

Module ConfigFacts.
Import PyStr PyText ConfigLoader ConfigReadings TextFacts.

Lemma startswith_chr (c : ascii) (s : string) :
  startswith (chr c) s
  = match s with String x _ => Ascii.eqb c x | EmptyString => false end.
Proof.
  unfold startswith, chr. destruct s as [| x r]; simpl; [reflexivity |].
  destruct (ascii_dec c x) as [-> | Hn].
  - rewrite Ascii.eqb_refl. destruct r; reflexivity.
  - symmetry. apply Ascii.eqb_neq, Hn.
Qed.

Lemma startswith_list (c : ascii) (s : string) :
  startswith (chr c) s
  = match list_ascii_of_string s with x :: _ => Ascii.eqb c x | [] => false end.
Proof. rewrite startswith_chr. destruct s; reflexivity. Qed.

Lemma startswith_hash (s : string) :
  startswith "#" s
  = match list_ascii_of_string s with
    | x :: _ => Ascii.eqb "#" x
    | [] => false
    end.
Proof. exact (startswith_list "#" s). Qed.

Lemma endswith_list (c : ascii) (s : string) :
  endswith (chr c) s
  = match rev (list_ascii_of_string s) with
    | x :: _ => Ascii.eqb c x
    | [] => false
    end.
Proof.
  unfold endswith. change (string_of_list_ascii (rev (list_ascii_of_string (chr c))))
    with (chr c).
  fold (startswith (chr c) (string_of_list_ascii (rev (list_ascii_of_string s)))).
  rewrite startswith_list, list_ascii_of_string_of_list_ascii. reflexivity.
Qed.

Lemma eqb_empty (s : string) :
  String.eqb s "" = match list_ascii_of_string s with [] => true | _ => false end.
Proof. destruct s; reflexivity. Qed.

Lemma strip_list (s : string) :
  list_ascii_of_string (strip s) = strip_chars (list_ascii_of_string s).
Proof. unfold strip. apply list_ascii_of_string_of_list_ascii. Qed.

Lemma one_line_no_break (s : string) :
  one_line s <-> no_break (list_ascii_of_string s).
Proof.
  unfold one_line, no_break. rewrite !contains_false. reflexivity.
Qed.

Lemma In_removelast (A : Type) (x : A) (l : list A) :
  In x (removelast l) -> In x l.
Proof.
  induction l as [| a r IH]; simpl; [auto |].
  destruct r; [intros [] |]. intros [<- | H]; [left; reflexivity | right; auto].
Qed.

Lemma In_tl (A : Type) (x : A) (l : list A) : In x (tl l) -> In x l.
Proof. destruct l; simpl; auto. Qed.

Lemma lstrip_keeps_last (l : list ascii) (x : ascii) :
  isspace x = false -> lstrip_chars (l ++ [x]) = lstrip_chars l ++ [x].
Proof.
  intros Hx. induction l as [| c r IH]; simpl.
  - rewrite Hx. reflexivity.
  - destruct (isspace c); [exact IH | reflexivity].
Qed.

Lemma rstrip_keeps_head (x : ascii) (l : list ascii) :
  isspace x = false -> exists r, rstrip_chars (x :: l) = x :: r.
Proof.
  intros Hx. unfold rstrip_chars. simpl.
  rewrite (lstrip_keeps_last _ _ Hx), rev_app_distr. simpl. eauto.
Qed.

(** What a line assigns is free of line breaks; the key has no "=", has
    nothing to strip and does not start with "#". *)
Lemma assignment_shape (line k v : string) :
  line_shape (list_ascii_of_string line) ->
  assignment line = Some (k, v) ->
  one_line k /\ one_line v /\ contains "=" k = false
  /\ strip k = k /\ startswith "#" k = false.
Proof.
  intros (body & Hbody & Hline). unfold assignment.
  set (sl := strip line).
  assert (Hsl : list_ascii_of_string sl = strip_chars body).
  { unfold sl. rewrite strip_list.
    destruct Hline as [-> | ->]; [apply strip_snoc; reflexivity | reflexivity]. }
  assert (Hin : forall c, In c (list_ascii_of_string sl) -> In c body)
    by (intros c; rewrite Hsl; apply In_strip).
  destruct (String.eqb sl "" || startswith "#" sl) eqn:Eg; [discriminate |].
  apply orb_false_iff in Eg. destruct Eg as [Ee Eh].
  unfold split_once.
  destruct (split_once_chars "=" (list_ascii_of_string sl)) as [[h t] |] eqn:Es;
    [| discriminate].
  apply split_once_inv in Es. destruct Es as [Es Hh].
  intros [= <- <-].
  assert (Hk : forall c, In c (list_ascii_of_string (strip (string_of_list_ascii h)))
                         -> In c h).
  { intros c. rewrite strip_list, list_ascii_of_string_of_list_ascii.
    apply In_strip. }
  assert (Ht : forall c,
             In c (list_ascii_of_string
                     (let v := strip (string_of_list_ascii t) in
                      if quoted v then inner_slice v else v)) -> In c t).
  { intros c. cbv zeta.
    destruct (quoted _).
    - unfold inner_slice. rewrite list_ascii_of_string_of_list_ascii.
      intros H. apply In_removelast, In_tl in H.
      rewrite strip_list, list_ascii_of_string_of_list_ascii in H.
      apply In_strip in H. exact H.
    - rewrite strip_list, list_ascii_of_string_of_list_ascii. apply In_strip. }
  assert (Hh_in : forall c, In c h -> In c body)
    by (intros c Hc; apply Hin; rewrite Es; apply in_or_app; left; exact Hc).
  assert (Ht_in : forall c, In c t -> In c body)
    by (intros c Hc; apply Hin; rewrite Es; apply in_or_app; right; right; exact Hc).
  destruct Hbody as [Hlf Hcr].
  split; [| split; [| split; [| split]]].
  - apply one_line_no_break. split; intros H; apply Hk, Hh_in in H; contradiction.
  - apply one_line_no_break. split; intros H; apply Ht, Ht_in in H; contradiction.
  - apply contains_false. intros H. apply Hk in H. contradiction.
  - apply StripFacts.strip_idem.
  - rewrite startswith_hash, strip_list, list_ascii_of_string_of_list_ascii.
    destruct h as [| x h']; [reflexivity |].
    assert (Hx : isspace x = false).
    { pose proof (strip_clean body) as [Hc _]. rewrite <- Hsl, Es in Hc.
      exact Hc. }
    unfold strip_chars. cbn [lstrip_chars]. rewrite Hx.
    destruct (rstrip_keeps_head x h' Hx) as [r ->].
    rewrite startswith_hash, Es in Eh. exact Eh.
Qed.

Lemma readlines_line_shape (text line : string) :
  In line (readlines text) -> line_shape (list_ascii_of_string line).
Proof.
  unfold readlines. intros H. apply in_map_iff in H.
  destruct H as (l & <- & Hl). rewrite list_ascii_of_string_of_list_ascii.
  pose proof (readlines_shape (List.length (list_ascii_of_string text))
                (list_ascii_of_string text) [] (le_n _)) as Hs.
  rewrite Forall_forall in Hs. apply Hs; [| exact Hl].
  split; intros [].
Qed.

Lemma In_fold_read (lines : list string) :
  forall d kv,
    In kv (fold_left read_line lines d) ->
    In kv d \/ exists line, In line lines /\ assignment line = Some kv.
Proof.
  induction lines as [| l r IH]; intros d kv; simpl; [auto |].
  intros H. apply IH in H. destruct H as [H | (line & Hl & Ha)].
  - unfold read_line in H. destruct (assignment l) as [[k v] |] eqn:E.
    + apply DictFacts.In_set in H. destruct H as [H | ->]; [left; exact H |].
      right. exists l. split; [left; reflexivity | exact E].
    + left. exact H.
  - right. exists line. split; [right; exact Hl | exact Ha].
Qed.

Lemma get_fold_read (k : string) (lines : list string) :
  forall d,
    PyDict.get (fold_left read_line lines d) k
    = fold_left (fun acc kv => if String.eqb (fst kv) k then Some (snd kv) else acc)
        (flat_map (fun line => match assignment line with
                               | Some kv => [kv]
                               | None => []
                               end) lines)
        (PyDict.get d k).
Proof.
  induction lines as [| l r IH]; intros d; simpl; [reflexivity |].
  rewrite IH. unfold read_line.
  destruct (assignment l) as [[k0 v0] |]; simpl; [| reflexivity].
  rewrite DictFacts.get_set. reflexivity.
Qed.

(** A file that is there and readable loads into what its text parses
    to, and nothing else happens. *)
Lemma load_text `{Machine} (path text : string) (h : Host) :
  path <> ""%string -> files h path = Text text ->
  load_properties (Some path) h = (Ok (parse_properties text), h).
Proof.
  intros Hp Hf. unfold load_properties, PyDict.truthy.
  apply String.eqb_neq in Hp. rewrite Hp.
  unfold bind, get. rewrite Hf. reflexivity.
Qed.

Lemma load_inv `{Machine} (file_path : option string) (h h' : Host)
    (props : PyDict.t) :
  load_properties file_path h = (Ok props, h') ->
  props = [] \/ exists text, props = parse_properties text.
Proof.
  unfold load_properties, bind, get.
  destruct (files h _) as [| e | text]; cbn.
  - intros [= <- _]. left. reflexivity.
  - discriminate.
  - intros [= <- _]. right. exists text. reflexivity.
Qed.

End ConfigFacts.

Section ConfigTheorems.
Context `{M : Machine}.
Import PyText ConfigLoader ConfigReadings.

(** X6.  Later lines override earlier ones: in the dict that
    [load_properties] returns for a readable file, the value of a key is
    the one of the last line that assigns the key, and a key that no line
    assigns is absent.  The call changes nothing on the host. *)
Theorem load_properties_last_line_wins (path text : string) (h : Host)
    (k : string) :
  path <> ""%string -> files h path = Text text ->
  exists props,
    load_properties (Some path) h = (Ok props, h)
    /\ PyDict.get props k = last_value k (assigned text).
Proof.
  intros Hp Hf. exists (parse_properties text).
  split; [apply ConfigFacts.load_text; assumption |].
  unfold parse_properties, last_value, assigned.
  apply ConfigFacts.get_fold_read.
Qed.

(** X7.  No key and no value that [load_properties] returns holds a line
    break; a key holds no "=", has nothing to strip and does not start
    with "#". *)
Theorem loaded_properties_are_well_formed (file_path : option string)
    (h h' : Host) (props : PyDict.t) (k v : string) :
  load_properties file_path h = (Ok props, h') ->
  In (k, v) props ->
  one_line k /\ one_line v /\ contains "=" k = false
  /\ PyStr.strip k = k /\ startswith "#" k = false.
Proof.
  intros Hload Hin.
  destruct (ConfigFacts.load_inv _ _ _ _ Hload) as [-> | (text & ->)];
    [contradiction |].
  unfold parse_properties in Hin.
  apply ConfigFacts.In_fold_read in Hin.
  destruct Hin as [[] | (line & Hl & Ha)].
  eapply ConfigFacts.assignment_shape; [| exact Ha].
  eapply ConfigFacts.readlines_line_shape, Hl.
Qed.

End ConfigTheorems.

Module LineFacts.
Import PyStr PyText ConfigLoader ConfigReadings TextFacts ConfigFacts.

Lemma written_clean (lit v : string) :
  written_as lit v -> clean (list_ascii_of_string lit).
Proof.
  intros [v' Hs _ | q v' Hq].
  - apply strip_fixed_clean, Hs.
  - assert (Hsp : isspace q = false) by (destruct Hq as [-> | ->]; reflexivity).
    rewrite !list_of_app. cbn [chr list_ascii_of_string app].
    split; [exact Hsp |].
    cbn [rev]. rewrite rev_app_distr. exact Hsp.
Qed.

Lemma written_value (lit v : string) :
  written_as lit v ->
  (if quoted (strip lit) then inner_slice (strip lit) else strip lit) = v.
Proof.
  intros Hw. pose proof (written_clean _ _ Hw) as Hc.
  assert (Hs : strip lit = lit).
  { apply list_of_inj. rewrite strip_list. apply clean_strip, Hc. }
  rewrite Hs. destruct Hw as [v' _ Hq | q v' Hq].
  - rewrite Hq. reflexivity.
  - assert (Hquoted : quoted (chr q ++ v' ++ chr q) = true).
    { unfold quoted. rewrite !startswith_list, !endswith_list, !list_of_app.
      cbn [chr list_ascii_of_string app rev]. rewrite rev_app_distr.
      cbn [rev app]. destruct Hq as [-> | ->]; reflexivity. }
    rewrite Hquoted. unfold inner_slice. rewrite !list_of_app.
    cbn [chr list_ascii_of_string app tl].
    rewrite removelast_last. apply string_of_list_ascii_of_string.
Qed.

(** The line "k=lit" assigns to [k] the value that [lit] writes. *)
Lemma assignment_of_line (k lit v : string) :
  strip k = k -> contains "=" k = false -> startswith "#" k = false ->
  written_as lit v ->
  assignment (string_of_list_ascii
                ((list_ascii_of_string k ++ "="%char :: list_ascii_of_string lit)
                 ++ [LF]))
  = Some (k, v).
Proof.
  intros Hk He Hh Hw.
  set (line := list_ascii_of_string k ++ "="%char :: list_ascii_of_string lit).
  assert (Hclean : clean line).
  { apply clean_around; [reflexivity | apply strip_fixed_clean, Hk |].
    eapply written_clean, Hw. }
  unfold assignment.
  assert (Hs : strip (string_of_list_ascii (line ++ [LF]))
               = string_of_list_ascii line).
  { unfold strip. rewrite list_ascii_of_string_of_list_ascii.
    rewrite strip_snoc by reflexivity. rewrite (clean_strip _ Hclean).
    reflexivity. }
  rewrite Hs. cbv zeta.
  rewrite eqb_empty, startswith_hash, list_ascii_of_string_of_list_ascii.
  assert (Hhead : match line with [] => true | _ :: _ => false end
                  || match line with x :: _ => Ascii.eqb "#" x | [] => false end
                  = false).
  { unfold line. rewrite startswith_hash in Hh.
    destruct (list_ascii_of_string k); [reflexivity | exact Hh]. }
  rewrite Hhead. unfold split_once.
  rewrite list_ascii_of_string_of_list_ascii. unfold line.
  rewrite split_once_found by (apply contains_false, He).
  rewrite !string_of_list_ascii_of_string, Hk.
  rewrite (written_value _ _ Hw). reflexivity.
Qed.

End LineFacts.

Section LineTheorems.
Context `{M : Machine}.
Import PyText ConfigLoader ConfigReadings.

(** X8.  A line "k=value" at the end of the file sets the key, whatever
    stands before it: after whole lines of any text, the line that writes
    [v] plainly or in quotes for a key [k] (with nothing to strip, no "=",
    no line break, not starting with "#") makes [load_properties] return a
    dict in which [k] has the value [v]; in quotes, the value is kept as it
    is, spaces included. *)
Theorem appended_line_sets_the_key (path text k lit v : string) (h : Host) :
  path <> ""%string ->
  files h path = Text (text ++ k ++ "=" ++ lit ++ chr LF) ->
  whole_lines text ->
  PyStr.strip k = k -> contains "=" k = false -> startswith "#" k = false ->
  one_line k -> one_line lit -> written_as lit v ->
  exists props,
    load_properties (Some path) h = (Ok props, h)
    /\ PyDict.get props k = Some v.
Proof.
  intros Hp Hf Hwhole Hk He Hh Hk1 Hl1 Hw.
  eexists. split; [apply ConfigFacts.load_text; eassumption |].
  unfold parse_properties, readlines.
  rewrite !TextFacts.list_of_app. cbn [chr list_ascii_of_string app].
  set (line := list_ascii_of_string k ++ "="%char :: list_ascii_of_string lit).
  assert (Hnb : no_break line).
  { apply ConfigFacts.one_line_no_break in Hk1, Hl1.
    destruct Hk1 as [Ha Hb], Hl1 as [Hc Hd]. unfold line.
    split; intros H; apply in_app_or in H;
      destruct H as [H | [H | H]]; try contradiction; discriminate. }
  assert (Hlines : readlines_chars [] (list_ascii_of_string text ++ line ++ [LF])
                   = readlines_chars [] (list_ascii_of_string text)
                     ++ [line ++ [LF]]).
  { destruct (list_ascii_of_string text) as [| c0 t0] eqn:Et.
    - cbn [app]. rewrite TextFacts.readlines_one by exact Hnb. reflexivity.
    - rewrite <- Et.
      rewrite (TextFacts.readlines_app (List.length (list_ascii_of_string text)));
        [rewrite TextFacts.readlines_one by exact Hnb; reflexivity | apply le_n |].
      assert (Hne : list_ascii_of_string text <> []) by (rewrite Et; discriminate).
      exists (removelast (list_ascii_of_string text)),
             (last (list_ascii_of_string text) LF).
      split; [apply app_removelast_last, Hne |].
      destruct Hwhole as [-> | [Hwl | Hwl]]; [discriminate | |];
        rewrite ConfigFacts.endswith_list in Hwl;
        rewrite (app_removelast_last LF Hne), rev_app_distr in Hwl;
        cbn [rev app] in Hwl; apply Ascii.eqb_eq in Hwl.
      + left. symmetry. exact Hwl.
      + right. split; [symmetry; exact Hwl |].
        destruct Hnb as [Hlf _]. unfold line in *.
        destruct (list_ascii_of_string k); cbn [app]; [discriminate |].
        intros ->. apply Hlf. left. reflexivity. }
  replace (list_ascii_of_string text ++ list_ascii_of_string k
           ++ "="%char :: list_ascii_of_string lit ++ [LF])
    with (list_ascii_of_string text ++ line ++ [LF])
    by (unfold line; rewrite <- !app_assoc; reflexivity).
  rewrite Hlines, map_app, fold_left_app. cbn [map fold_left].
  unfold read_line at 1. fold line.
  pose proof (LineFacts.assignment_of_line k lit v Hk He Hh Hw) as Ha.
  fold line in Ha. rewrite Ha.
  rewrite DictFacts.get_set, String.eqb_refl. reflexivity.
Qed.

End LineTheorems.

Module ReFacts.
Import PyText Re ConfigReadings.

Lemma starts_with_app (p l : list ascii) : starts_with p (p ++ l) = true.
Proof.
  induction p as [| c p IH]; simpl; [destruct l; reflexivity |].
  rewrite Ascii.eqb_refl. exact IH.
Qed.

Lemma starts_with_head (c x : ascii) (p l : list ascii) :
  c <> x -> starts_with (c :: p) (x :: l) = false.
Proof.
  intros H. simpl. apply Ascii.eqb_neq in H. rewrite H. reflexivity.
Qed.

(** The lazy group stops at the first place where the suffix stands. *)
Lemma lazy_until_found (s0 : ascii) (suffix g rest : list ascii) :
  ~ In s0 g -> ~ In LF g ->
  lazy_until (s0 :: suffix) (g ++ (s0 :: suffix) ++ rest) = Some g.
Proof.
  induction g as [| c g IH]; intros H0 Hlf.
  - cbn [app].
    pose proof (starts_with_app (s0 :: suffix) rest) as E. cbn [app] in E.
    cbn [lazy_until]. rewrite E. reflexivity.
  - cbn [app lazy_until].
    rewrite starts_with_head by (intros ->; apply H0; left; reflexivity).
    assert (Hc : Ascii.eqb c LF = false).
    { apply Ascii.eqb_neq. intros ->. apply Hlf. left. reflexivity. }
    assert (IH' : lazy_until (s0 :: suffix) (g ++ (s0 :: suffix) ++ rest) = Some g)
      by (apply IH; intros H; [apply H0 | apply Hlf]; right; exact H).
    cbn [app] in IH'. rewrite Hc, IH'. reflexivity.
Qed.

Lemma find_chars_before (p : list ascii) (l : list ascii) :
  forall n, find_chars p l = Some n ->
    exists pre tail, l = pre ++ tail /\ List.length pre = n
      /\ starts_with p tail = true
      /\ forall a b, pre = a ++ b -> b <> [] -> starts_with p (b ++ tail) = false.
Proof.
  induction l as [| c r IH]; intros n; cbn [find_chars].
  - destruct (starts_with p []) eqn:E; [| discriminate].
    intros [= <-]. exists [], []. repeat split; auto.
    intros a b H. destruct a, b; try discriminate. congruence.
  - destruct (starts_with p (c :: r)) eqn:E.
    + intros [= <-]. exists [], (c :: r). repeat split; auto.
      intros a b H. destruct a, b; try discriminate. congruence.
    + destruct (find_chars p r) as [m |] eqn:Ef; [| discriminate].
      intros [= <-]. destruct (IH m eq_refl) as (pre & tail & -> & Hlen & Hs & Hb).
      exists (c :: pre), tail. repeat split; auto; [simpl; congruence |].
      intros a b Hab Hne. destruct a as [| x a].
      * simpl in Hab. subst b. exact E.
      * injection Hab as -> Hab. eapply Hb; eassumption.
Qed.

(** The search takes the first place where the prefix stands, when the
    group can be closed from there. *)
Lemma search_group_found (p0 : ascii) (prefix suffix pre g tail : list ascii) :
  (forall a b, pre = a ++ b -> b <> [] ->
               starts_with (p0 :: prefix) (b ++ (p0 :: prefix) ++ tail) = false) ->
  lazy_until suffix tail = Some g ->
  search_group (p0 :: prefix) suffix (pre ++ (p0 :: prefix) ++ tail) = Some g.
Proof.
  intros Hpre Hg. induction pre as [| c pre IH].
  - cbn [app]. pose proof (starts_with_app (p0 :: prefix) tail) as E.
    cbn [app] in E.
    assert (Hskip : skipn (List.length (p0 :: prefix)) (p0 :: prefix ++ tail) = tail).
    { change (p0 :: prefix ++ tail) with ((p0 :: prefix) ++ tail).
      rewrite skipn_app, skipn_all, Nat.sub_diag. reflexivity. }
    destruct tail as [| t0 tail']; cbn [search_group]; rewrite E;
      rewrite Hskip, Hg; reflexivity.
  - assert (E : starts_with (p0 :: prefix) ((c :: pre) ++ (p0 :: prefix) ++ tail)
                = false).
    { apply (Hpre [] (c :: pre)); [reflexivity | discriminate]. }
    cbn [app] in *. cbn [search_group]. rewrite E.
    apply IH. intros a b Hab Hne. apply (Hpre (c :: a) b); [| exact Hne].
    simpl. congruence.
Qed.

Lemma app_same_length (A : Type) (l1 r1 l2 r2 : list A) :
  l1 ++ r1 = l2 ++ r2 -> List.length l1 = List.length l2 ->
  l1 = l2 /\ r1 = r2.
Proof.
  revert l2. induction l1 as [| x l1 IH]; intros [| y l2] E Hlen;
    try discriminate; simpl in *.
  - auto.
  - injection E as -> E. destruct (IH l2 E) as [-> ->]; [lia | auto].
Qed.

(** The region of an endpoint in which "generativeai." first stands right
    after [pre], followed by a region without "." and line break. *)
Lemma search_region_found (pre region post : string) :
  find region_prefix (pre ++ region_prefix ++ region ++ region_suffix ++ post)
  = Some (String.length pre) ->
  contains "." region = false -> contains LF region = false ->
  search_region (pre ++ region_prefix ++ region ++ region_suffix ++ post)
  = Some region.
Proof.
  intros Hfind Hdot Hlf. unfold search_region, find in *.
  rewrite !TextFacts.list_of_app in *.
  set (lp := list_ascii_of_string pre) in *.
  set (lr := list_ascii_of_string region) in *.
  set (lpost := list_ascii_of_string post) in *.
  apply TextFacts.contains_false in Hdot, Hlf. fold lr in Hdot, Hlf.
  destruct (find_chars_before _ _ _ Hfind) as (pre' & tail & Eq & Hlen & _ & Hb).
  assert (Hl : String.length pre = List.length lp).
  { unfold lp. clear. induction pre; simpl; congruence. }
  destruct (app_same_length _ _ _ _ _ Eq) as [<- <-]; [congruence |].
  change (list_ascii_of_string region_prefix)
    with ("g"%char :: list_ascii_of_string "enerativeai.") in *.
  assert (Hlazy : lazy_until (list_ascii_of_string region_suffix)
                    (lr ++ list_ascii_of_string region_suffix ++ lpost)
                  = Some lr).
  { change (list_ascii_of_string region_suffix)
      with ("."%char :: list_ascii_of_string "oci.oraclecloud.com").
    apply lazy_until_found; assumption. }
  rewrite (search_group_found _ _ _ _ _ _ Hb Hlazy).
  unfold lr. cbn [option_map]. rewrite string_of_list_ascii_of_string.
  reflexivity.
Qed.

End ReFacts.

Module HostFacts.
Import ConfigReadings.

Lemma bind_inv (S A B : Type) (m : Py S A) (k : A -> Py S B) (s s' : S)
    (res : result B) :
  bind m k s = (res, s') ->
  (exists e, m s = (Raise e, s') /\ res = Raise e)
  \/ (exists a s1, m s = (Ok a, s1) /\ k a s1 = (res, s')).
Proof.
  unfold bind. destruct (m s) as [[a | e] s1]; intros H.
  - right. exists a, s1. auto.
  - left. injection H as <- <-. exists e. auto.
Qed.

Lemma setenv_run (k v : string) (h : Host) :
  setenv k v h
  = if PyText.contains PyText.NUL v
    then (Raise (ValueError "embedded null byte"), h)
    else (Ok tt,
          {| files := files h;
             environ := fun k' => if String.eqb k' k then Some v else environ h k';
             journal := journal h; world := world h |}).
Proof. unfold setenv. destruct (PyText.contains _ _); reflexivity. Qed.

Lemma setenv_feeds (k : string) (o : option string) (h h' : Host)
    (res : result unit) :
  match o with Some v => setenv k v | None => ret tt end h = (res, h') ->
  feeds k o (fun v => Ok v) h res h'.
Proof.
  unfold feeds. destruct o as [v |].
  - rewrite setenv_run. destruct (PyText.contains _ _); intros [= <- <-].
    + repeat split; auto. discriminate.
    + cbn [files environ journal world]. repeat split; auto.
      * intros name Hn. apply String.eqb_neq in Hn. rewrite Hn. reflexivity.
      * intros _. exists v. rewrite String.eqb_refl. auto.
  - intros [= <- <-]. repeat split; auto.
Qed.

Lemma feeds_other (k : string) (o : option string) (val : string -> result string)
    (h h' : Host) (res : result unit) (name : string) :
  feeds k o val h res h' -> name <> k -> environ h' name = environ h name.
Proof. intros (_ & _ & H & _) Hn. apply H, Hn. Qed.

End HostFacts.

Section EnvTheorems.
Context `{M : Machine}.
Import PyText ConfigLoader ConfigReadings HostFacts.

Lemma wallet_feeds (props : PyDict.t) (h h' : Host) (res : result unit) :
  match PyDict.truthy (PyDict.get props "WALLET_PATH") with
  | Some wallet =>
      (wallet_path <- lift (resolve wallet) ;;
       setenv "TNS_ADMIN" wallet_path ;;;
       note (LogInfo (TnsAdminSet wallet_path)))%py
  | None => ret tt
  end h = (res, h') ->
  feeds "TNS_ADMIN" (PyDict.truthy (PyDict.get props "WALLET_PATH")) resolve
        h res h'.
Proof.
  unfold feeds. destruct (PyDict.truthy _) as [wallet |].
  - unfold bind, lift. destruct (resolve wallet) as [p | e].
    + rewrite setenv_run. destruct (contains NUL p); intros [= <- <-].
      * repeat split; auto. discriminate.
      * cbn [files environ journal world]. repeat split; auto.
        -- intros name Hn. apply String.eqb_neq in Hn. rewrite Hn. reflexivity.
        -- intros _. exists p. auto.
    + intros [= <- <-]. repeat split; auto. discriminate.
  - intros [= <- <-]. repeat split; auto.
Qed.

(** What [apply_db_env] does to each variable of the environment. *)
Lemma apply_db_env_variables (props : PyDict.t) (h h' : Host)
    (res : result unit) (name : string) :
  apply_db_env props h = (res, h') ->
  files h' = files h /\ world h' = world h
  /\ match db_property name with
     | None => environ h' name = environ h name
     | Some key =>
         match PyDict.truthy (PyDict.get props key) with
         | None => environ h' name = environ h name
         | Some v =>
             res = Ok tt ->
             exists value,
               environ h' name = Some value
               /\ (if String.eqb name "TNS_ADMIN"
                   then resolve v = Ok value else value = v)
         end
     end.
Proof.
  unfold apply_db_env. intros Hrun.
  apply bind_inv in Hrun.
  destruct Hrun as [(e & H1 & ->) | ([] & h1 & H1 & Hrun)];
    apply wallet_feeds in H1;
    [| apply bind_inv in Hrun;
       destruct Hrun as [(e & H2 & ->) | ([] & h2 & H2 & Hrun)];
       apply setenv_feeds in H2;
       [| apply bind_inv in Hrun;
          destruct Hrun as [(e & H3 & ->) | ([] & h3 & H3 & Hrun)];
          apply setenv_feeds in H3;
          [| apply setenv_feeds in Hrun]]].
  all: unfold feeds in *;
    repeat match goal with
           | F : _ /\ _ |- _ => destruct F
           end.
  all: split; [congruence |]; split; [congruence |].
  all: unfold db_property.
  all: destruct (String.eqb name "TNS_ADMIN") eqn:E1;
    [apply String.eqb_eq in E1; subst name
    | apply String.eqb_neq in E1;
      destruct (String.eqb name "DB_USERNAME") eqn:E2;
      [apply String.eqb_eq in E2; subst name
      | apply String.eqb_neq in E2;
        destruct (String.eqb name "DB_PASSWORD") eqn:E3;
        [apply String.eqb_eq in E3; subst name
        | apply String.eqb_neq in E3;
          destruct (String.eqb name "DB_ALIAS") eqn:E4;
          [apply String.eqb_eq in E4; subst name
          | apply String.eqb_neq in E4]]]].
  all: repeat match goal with
              | H : forall name, name <> ?k -> environ ?hb name = environ ?ha name
                |- context [environ ?hb ?n] =>
                  rewrite (H n) by (first [assumption | discriminate])
              end.
  all: try reflexivity.
  all: repeat match goal with
              | H : match ?o with Some _ => _ | None => _ end |- _ =>
                  destruct o eqn:?
              end.
  all: repeat match goal with
              | F : _ /\ _ |- _ => destruct F
              end.
  all: try discriminate.
  all: repeat match goal with
              | H : environ ?hb ?n = environ ?ha ?n |- context [environ ?hb ?n] =>
                  rewrite H
              | H : forall name, name <> ?k -> environ ?hb name = environ ?ha name
                |- context [environ ?hb ?n] =>
                  rewrite (H n) by (first [assumption | discriminate])
              end.
  all: try reflexivity.
  all: try (intros Hres; try discriminate;
            match goal with
            | H : _ = Ok tt -> exists value, _ |- exists value, environ ?hb ?n = _ /\ _ =>
                destruct (H ltac:(first [reflexivity | assumption]))
                  as (value & Hv & He);
                exists value; split; [| first [exact Hv | congruence]]
            end;
            repeat match goal with
                   | H : environ ?hb ?n = environ ?ha ?n |- context [environ ?hb ?n] =>
                       rewrite H
                   | H : forall name, name <> ?k -> environ ?hb name = environ ?ha name
                     |- context [environ ?hb ?n] =>
                       rewrite (H n) by (first [assumption | discriminate])
                   end; first [exact He | congruence]).
  all: match goal with
       | |- match ?x with Some _ => _ | None => _ end =>
           destruct x; [intros Hres; discriminate Hres | reflexivity]
       end.
Qed.


(** X9.  [apply_db_env] changes nothing but four variables of the
    environment, each only when its property is there and not empty:
    TNS_ADMIN from WALLET_PATH, DB_USERNAME from USERNAME, DB_PASSWORD from
    PASSWORD and DB_ALIAS from DB_ALIAS.  A property that is missing or
    empty leaves its variable as it was; when the call returns, the others
    hold the value of their property, TNS_ADMIN the resolved path. *)
Theorem apply_db_env_sets_four_variables (props : PyDict.t) (h h' : Host)
    (res : result unit) (name : string) :
  apply_db_env props h = (res, h') ->
  files h' = files h /\ world h' = world h
  /\ match db_property name with
     | None => environ h' name = environ h name
     | Some key =>
         match PyDict.truthy (PyDict.get props key) with
         | None => environ h' name = environ h name
         | Some v =>
             res = Ok tt ->
             exists value,
               environ h' name = Some value
               /\ (if String.eqb name "TNS_ADMIN"
                   then resolve v = Ok value else value = v)
         end
     end.
Proof. apply apply_db_env_variables. Qed.

End EnvTheorems.

Section OciTheorems.
Context `{M : Machine}.
Import PyText ConfigLoader ConfigReadings HostFacts.

(** X10.  Without complete credentials [ensure_oci_config] writes nothing:
    when OCI_USER, OCI_FINGERPRINT or OCI_KEY_FILE is missing or empty, or
    when OCI_TENANCY_OCID and OCI_COMPARTMENT_OCID both are, the call
    returns after a warning, with the files and the environment as they
    were. *)
Theorem incomplete_credentials_write_nothing (props : PyDict.t) (h : Host) :
  PyDict.truthy (PyDict.get props "OCI_USER") = None
  \/ PyDict.truthy (PyDict.get props "OCI_FINGERPRINT") = None
  \/ PyDict.truthy (PyDict.get props "OCI_KEY_FILE") = None
  \/ (PyDict.truthy (PyDict.get props "OCI_TENANCY_OCID") = None
      /\ PyDict.truthy (PyDict.get props "OCI_COMPARTMENT_OCID") = None) ->
  ensure_oci_config props h
  = (Ok tt, {| files := files h; environ := environ h;
               journal := journal h ++ [LogWarning MissingCredentials];
               world := world h |}).
Proof.
  intros Hmiss. unfold ensure_oci_config.
  assert (Hten : PyDict.truthy (PyDict.get props "OCI_TENANCY_OCID") = None ->
                 PyDict.truthy (PyDict.get props "OCI_COMPARTMENT_OCID") = None ->
                 PyDict.truthy
                   (PyDict.or_else (PyDict.get props "OCI_TENANCY_OCID")
                                   (PyDict.get props "OCI_COMPARTMENT_OCID"))
                 = None).
  { intros H1 H2. unfold PyDict.or_else. rewrite H1. exact H2. }
  destruct Hmiss as [H | [H | [H | [H1 H2]]]];
    [rewrite H | rewrite H | rewrite H | rewrite (Hten H1 H2)];
    repeat match goal with
           | |- context [match PyDict.truthy ?x with Some _ => _ | None => _ end] =>
               destruct (PyDict.truthy x)
           end;
    reflexivity.
Qed.

(** X11.  With complete credentials, and an endpoint in which
    "generativeai." first stands right after [pre] and is followed by a
    region without "." and line break and then by ".oci.oraclecloud.com",
    [ensure_oci_config] writes the six lines of the OCI profile, with that
    region, to the file [.oci/config], sets OCI_CONFIG_FILE and
    OCI_CLI_PROFILE, and leaves every other file as it was. *)
Theorem region_is_read_from_the_endpoint (props : PyDict.t) (h : Host)
    (user fingerprint key_file tenancy key_path pre region post : string) :
  PyDict.truthy (PyDict.get props "OCI_USER") = Some user ->
  PyDict.truthy (PyDict.get props "OCI_FINGERPRINT") = Some fingerprint ->
  PyDict.truthy (PyDict.get props "OCI_KEY_FILE") = Some key_file ->
  PyDict.truthy (PyDict.or_else (PyDict.get props "OCI_TENANCY_OCID")
                                (PyDict.get props "OCI_COMPARTMENT_OCID"))
  = Some tenancy ->
  PyDict.get props "OCI_GENAI_ENDPOINT"
  = Some (pre ++ "generativeai." ++ region ++ ".oci.oraclecloud.com" ++ post)%string ->
  find "generativeai."
       (pre ++ "generativeai." ++ region ++ ".oci.oraclecloud.com" ++ post)
  = Some (String.length pre) ->
  contains "." region = false -> contains LF region = false ->
  resolve key_file = Ok key_path ->
  mkdir_oci = Ok tt -> write_oci_config = Ok tt ->
  contains NUL oci_config = false ->
  exists h',
    ensure_oci_config props h = (Ok tt, h')
    /\ files h' oci_config
       = Text ("[DEFAULT]" ++ chr LF
               ++ "user=" ++ user ++ chr LF
               ++ "fingerprint=" ++ fingerprint ++ chr LF
               ++ "key_file=" ++ key_path ++ chr LF
               ++ "tenancy=" ++ tenancy ++ chr LF
               ++ "region=" ++ region ++ chr LF)
    /\ (forall p, p <> oci_config -> files h' p = files h p)
    /\ environ h' "OCI_CONFIG_FILE" = Some oci_config
    /\ environ h' "OCI_CLI_PROFILE" = Some "DEFAULT"%string
    /\ journal h' = journal h ++ [LogInfo (ConfigWritten oci_config region)].
Proof.
  intros Hu Hf Hk Ht He Hfind Hdot Hlf Hres Hmk Hwr Hnul.
  unfold ensure_oci_config. rewrite Hu, Hf, Hk, Ht.
  unfold PyDict.get_or. rewrite He.
  pose proof (ReFacts.search_region_found pre region post Hfind Hdot Hlf) as Hreg.
  unfold Re.region_prefix, Re.region_suffix in Hreg. rewrite Hreg.
  unfold bind, ret, lift, write_text, note, modify.
  rewrite Hres, Hmk. unfold bind, lift. rewrite Hwr.
  rewrite !setenv_run. cbn [files environ journal world].
  rewrite Hnul. cbn [files environ journal world].
  change (contains NUL "DEFAULT") with false. cbn iota.
  eexists. split; [reflexivity |]. cbn [files environ journal world].
  rewrite String.eqb_refl. repeat split; try reflexivity.
  intros p Hp. apply String.eqb_neq in Hp. rewrite Hp. reflexivity.
Qed.

End OciTheorems.

Import SearchFacts LoadFacts.

Module CtorFacts.
Import PyText ConfigLoader ConfigReadings HostFacts.

Lemma try_except_inv (S A : Type) (body : Py S A) (handler : exn -> Py S A)
    (s s' : S) (res : result A) :
  try_except body handler s = (res, s') ->
  (exists a, body s = (Ok a, s') /\ res = Ok a)
  \/ (exists e s1, body s = (Raise e, s1) /\ handler e s1 = (res, s')).
Proof.
  unfold try_except. destruct (body s) as [[a | e] s1]; intros H.
  - left. injection H as <- <-. exists a. auto.
  - right. exists e, s1. auto.
Qed.

(** A handler that logs and raises again gives no value. *)
Lemma reraise_inv (A : Type) (body : Py Host A) (n : exn -> Entry)
    (h h' : Host) (a : A) :
  try_except body (fun e => note (n e) ;;; raise e)%py h = (Ok a, h') ->
  body h = (Ok a, h').
Proof.
  intros H. apply try_except_inv in H.
  destruct H as [(a' & Hb & [= <-]) | (e & s1 & _ & Hh)]; [exact Hb |].
  discriminate.
Qed.

Lemma note_run (e : Entry) (h : Host) :
  note e h = (Ok tt, {| files := files h; environ := environ h;
                        journal := journal h ++ [e]; world := world h |}).
Proof. reflexivity. Qed.

(** *** What leaves the records of [World] *)

Lemma kw_ret (A : Type) (a : A) : keeps_world (ret a).
Proof. intros h res h' [= <- <-]. reflexivity. Qed.

Lemma kw_lift (A : Type) (r : result A) : keeps_world (lift r).
Proof. intros h res h' [= <- <-]. reflexivity. Qed.

Lemma kw_raise (A : Type) (e : exn) : keeps_world (@raise Host A e).
Proof. intros h res h' [= <- <-]. reflexivity. Qed.

Lemma kw_get : keeps_world (@get Host).
Proof. intros h res h' [= <- <-]. reflexivity. Qed.

Lemma kw_note (e : Entry) : keeps_world (note e).
Proof. intros h res h' [= <- <-]. reflexivity. Qed.

Lemma kw_setenv (k v : string) : keeps_world (setenv k v).
Proof.
  intros h res h'. rewrite setenv_run.
  destruct (contains _ _); intros [= <- <-]; reflexivity.
Qed.

Lemma kw_bind (A B : Type) (m : Py Host A) (k : A -> Py Host B) :
  keeps_world m -> (forall a, keeps_world (k a)) -> keeps_world (bind m k).
Proof.
  intros Hm Hk h res h' H. apply bind_inv in H.
  destruct H as [(e & H & _) | (a & h1 & H1 & H)].
  - eapply Hm, H.
  - apply Hm in H1. apply Hk in H. congruence.
Qed.

Lemma kw_try (A : Type) (body : Py Host A) (handler : exn -> Py Host A) :
  keeps_world body -> (forall e, keeps_world (handler e)) ->
  keeps_world (try_except body handler).
Proof.
  intros Hb Hh h res h' H. apply try_except_inv in H.
  destruct H as [(a & H & _) | (e & h1 & H1 & H)].
  - eapply Hb, H.
  - apply Hb in H1. apply Hh in H. congruence.
Qed.

Lemma kw_use (A : Type) (m : Py Host A) (h h' : Host) (res : result A) :
  keeps_world m -> m h = (res, h') -> world h' = world h.
Proof. intros Hm H. eapply Hm, H. Qed.

Ltac kw :=
  repeat first
    [ apply kw_ret | apply kw_lift | apply kw_raise | apply kw_get
    | apply kw_note | apply kw_setenv
    | apply kw_bind; [| intros]
    | apply kw_try; [| intros]
    | match goal with
      | |- keeps_world (match ?x with _ => _ end) => destruct x
      | |- keeps_world (let '(_, _) := ?x in _) => destruct x
      end ].

(** *** What leaves a variable of the environment *)

Lemma kv_ret (name : string) (A : Type) (a : A) : keeps_variable name (ret a).
Proof. intros h res h' [= <- <-]. reflexivity. Qed.

Lemma kv_lift (name : string) (A : Type) (r : result A) :
  keeps_variable name (lift r).
Proof. intros h res h' [= <- <-]. reflexivity. Qed.

Lemma kv_raise (name : string) (A : Type) (e : exn) :
  keeps_variable name (@raise Host A e).
Proof. intros h res h' [= <- <-]. reflexivity. Qed.

Lemma kv_get (name : string) : keeps_variable name (@get Host).
Proof. intros h res h' [= <- <-]. reflexivity. Qed.

Lemma kv_note (name : string) (e : Entry) : keeps_variable name (note e).
Proof. intros h res h' [= <- <-]. reflexivity. Qed.

Lemma kv_in_world (name : string) (A : Type) (m : Py World A) :
  keeps_variable name (in_world m).
Proof.
  intros h res h'. unfold in_world. destruct (m (world h)).
  intros [= <- <-]. reflexivity.
Qed.

Lemma kv_bind (name : string) (A B : Type) (m : Py Host A) (k : A -> Py Host B) :
  keeps_variable name m -> (forall a, keeps_variable name (k a)) ->
  keeps_variable name (bind m k).
Proof.
  intros Hm Hk h res h' H. apply bind_inv in H.
  destruct H as [(e & H & _) | (a & h1 & H1 & H)].
  - eapply Hm, H.
  - apply Hm in H1. apply Hk in H. congruence.
Qed.

Lemma kv_try (name : string) (A : Type) (body : Py Host A)
    (handler : exn -> Py Host A) :
  keeps_variable name body -> (forall e, keeps_variable name (handler e)) ->
  keeps_variable name (try_except body handler).
Proof.
  intros Hb Hh h res h' H. apply try_except_inv in H.
  destruct H as [(a & H & _) | (e & h1 & H1 & H)].
  - eapply Hb, H.
  - apply Hb in H1. apply Hh in H. congruence.
Qed.

Lemma kv_use (name : string) (A : Type) (m : Py Host A) (h h' : Host)
    (res : result A) :
  keeps_variable name m -> m h = (res, h') -> environ h' name = environ h name.
Proof. intros Hm H. eapply Hm, H. Qed.

Lemma setenv_feeds_ok (k v : string) (h h' : Host) :
  setenv k v h = (Ok tt, h') -> environ h' k = Some v.
Proof.
  rewrite setenv_run. destruct (contains _ _); [discriminate |].
  intros [= <-]. cbn. rewrite String.eqb_refl. reflexivity.
Qed.

Ltac kv :=
  repeat first
    [ apply kv_ret | apply kv_lift | apply kv_raise | apply kv_get
    | apply kv_note | apply kv_in_world
    | apply kv_bind; [| intros]
    | apply kv_try; [| intros]
    | match goal with
      | |- keeps_variable _ (match ?x with _ => _ end) => destruct x
      | |- keeps_variable _ (let '(_, _) := ?x in _) => destruct x
      end ].

Section OnMachine.
Context `{M : Machine} `{Sv : Services}.

Lemma kw_load (file_path : option string) :
  keeps_world (load_properties file_path).
Proof. unfold load_properties. kw. Qed.

Lemma kw_ensure (props : PyDict.t) : keeps_world (ensure_oci_config props).
Proof.
  unfold ensure_oci_config, getenv_or, write_text. kw.
  intros h res h'. intros [= <- <-]. reflexivity.
Qed.

Lemma kw_apply (props : PyDict.t) : keeps_world (apply_db_env props).
Proof. unfold apply_db_env. kw. Qed.

(** The object that [__init__] returns is the one that [init] builds on
    the connection and the client it has made, and on the records that
    [World] holds when the call begins. *)
Lemma constructor_init (a : InitArgs) (h h' : Host)
    (self : SearchSimilarProduct) :
  __init__ a h = (Ok self, h') ->
  exists c emb,
    init (a_top_k a) (a_minimal_distance a) c emb (world h)
    = (Ok self, world h').
Proof.
  unfold __init__. intros H.
  repeat (apply bind_inv in H;
          destruct H as [(e & _ & [=]) | (? & ? & ? & H)]).
  unfold ret in H. injection H as <- <-.
  repeat match goal with
         | H : note _ _ = _ |- _ => apply kw_note in H
         | H : load_properties _ _ = _ |- _ => apply kw_load in H
         | H : ensure_oci_config _ _ = _ |- _ => apply kw_ensure in H
         | H : apply_db_env _ _ = _ |- _ => apply kw_apply in H
         | H : setenv _ _ _ = _ |- _ => apply kw_setenv in H
         | H : try_except ?b ?hd _ = _ |- _ =>
             apply (kw_use _ (try_except b hd)) in H; [| kw]
         | H : match a_wallet_path a with Some p => @?f p | None => ?g end _ = _
           |- _ =>
             apply (kw_use _ (match a_wallet_path a with
                              | Some p => f p
                              | None => g
                              end)) in H; [| kw]
         end.
  match goal with
  | H : in_world (_load_embeddings ?c) ?h0 = (Ok ?vp, ?h1) |- _ =>
      unfold in_world in H;
      destruct (_load_embeddings c (world h0)) as [r w] eqn:El;
      injection H as -> <-; cbn [world];
      match goal with
      | |- exists c' emb', init _ _ c' emb' _ = (Ok {| conn := _; embedding := ?em |}, _) =>
          exists c, em
      end;
      unfold init, bind;
      replace (world h) with (world h0) by congruence;
      rewrite El; reflexivity
  end.
Qed.

End OnMachine.
End CtorFacts.

Import SearchFacts LoadFacts.

Module BoundFacts.
Section Bounds.
Context `{L : Libs}.

(** The two numbers of a semantic match whose distance is within the
    threshold. *)
Lemma semantic_item_bounds (p : Product) (dist md : Q) :
  (0 <= dist)%Q -> (dist < md)%Q ->
  (similarity (semantic_item p md) <= similarity (semantic_item p dist))%Q
  /\ (similarity (semantic_item p dist) <= 100)%Q
  /\ (0 <= distance (semantic_item p dist))%Q
  /\ (distance (semantic_item p dist) <= Np.around md 4)%Q
  /\ ((md <= 1)%Q ->
      (50 <= similarity (semantic_item p dist))%Q
      /\ (distance (semantic_item p dist) <= 1)%Q).
Proof.
  intros H0 Hw.
  destruct (RoundFacts.semantic_item_range p dist H0) as [[_ H100] Hd0].
  split; [apply (RoundFacts.similarity_antitone p p dist md H0); lra |].
  split; [exact H100 |]. split; [exact Hd0 |].
  split; [cbn [distance semantic_item]; apply RoundFacts.around_mono; lra |].
  intros Hmd. split.
  - apply Qle_trans with (similarity (semantic_item p 1)).
    + vm_compute. discriminate.
    + apply (RoundFacts.similarity_antitone p p dist 1 H0). lra.
  - cbn [distance semantic_item].
    change 1%Q with (inject_Z 1).
    rewrite <- (RoundFacts.around_inject_Z 1 4) by reflexivity.
    apply RoundFacts.around_mono. change (inject_Z 1) with 1%Q. lra.
Qed.

(** Every semantic match of a search is such an item. *)
Lemma semantics_within (self : SearchSimilarProduct) (q : string)
    (w w' : World) (r : Results) (m : SemanticMatch) :
  norm_contract ->
  search_similar_products self q w = (Ok r, w') ->
  In m (semantics r) ->
  exists p dist,
    m = semantic_item p dist /\ (0 <= dist)%Q
    /\ (dist < minimal_distance self)%Q.
Proof.
  intros Hn Hrun Hm.
  destruct (search_result self q w w' r Hrun) as (_ & _ & _ & Hcases).
  destruct Hcases as [(e & _ & _ & Hs & _)
                     | (dists & n & res & Hd & Hitems & _ & _ & _)].
  { rewrite Hs in Hm. contradiction. }
  destruct (Forall2_In_r _ _ _ _ _ m Hitems Hm) as (i & Hi & p & dist & Hp & Hdi & ->).
  unfold kept in Hi. apply filter_In in Hi. destruct Hi as [_ Hw].
  unfold within in Hw. rewrite Hdi in Hw. apply PyFloatFacts.ltb_lt in Hw.
  exists p, dist. split; [reflexivity |]. split; [| exact Hw].
  pose proof (distances_nonneg _ _ _ Hn Hd) as Hall.
  rewrite Forall_forall in Hall. apply Hall. eapply nth_error_In, Hdi.
Qed.

(** The two lists of a result are no longer than [top_k]. *)
Lemma result_lengths (self : SearchSimilarProduct) (q : string)
    (w w' : World) (r : Results) :
  (0 <= top_k self)%Z ->
  search_similar_products self q w = (Ok r, w') ->
  (Z.of_nat (List.length (semantics r)) <= top_k self)%Z
  /\ (Z.of_nat (List.length (fallback_fuzzy r)) <= top_k self)%Z
  /\ (semantics r = [] \/ fallback_fuzzy r = []).
Proof.
  intros Hk Hrun.
  destruct (search_result self q w w' r Hrun) as (_ & _ & _ & Hcases).
  destruct Hcases as [(e & _ & _ & Hs & Hf)
                     | (dists & n & res & Hd & Hitems & _ & _ & Hf)].
  - rewrite Hs, Hf. simpl. repeat split; [lia | lia | auto].
  - split; [rewrite <- (Forall2_length Hitems); apply kept_length, Hk |].
    destruct Hf as [-> | [Hs ->]].
    + split; [simpl; lia | auto].
    + split; [apply fuzzy_items_length, Hk | auto].
Qed.

End Bounds.
End BoundFacts.

Section CtorTheorems.
Context `{M : Machine} `{Sv : Services}.
Import PyText ConfigLoader ConfigReadings HostFacts CtorFacts.

(** X12.  A model id, an endpoint or a compartment given to [__init__]
    has no effect unless all three are given: with one of them left out,
    the constructor does what it does without any of them, and takes the
    three from the configuration. *)
Theorem partial_embedding_settings_are_ignored (a : InitArgs) (h : Host) :
  a_model_id a = None \/ a_service_endpoint a = None
  \/ a_compartment_id a = None ->
  __init__ a h = __init__ (without_embedding_settings a) h.
Proof.
  destruct a as [k md m s c ap wp da us pw]. cbn. intros Hnone.
  unfold __init__, without_embedding_settings, embedding_settings.
  cbn [a_top_k a_minimal_distance a_model_id a_service_endpoint a_compartment_id
       a_auth_profile a_wallet_path a_db_alias a_username a_password].
  destruct m, s, c; try reflexivity.
  destruct Hnone as [H | [H | H]]; discriminate.
Qed.

(** X13.  An object that [__init__] returns is a store as the search
    expects it, one product per row of vectors, with [top_k] and
    [minimal_distance] as given; the call has added to the records of
    [World] the one that counts the products, and an explicit
    [wallet_path] is what TNS_ADMIN holds afterwards. *)
Theorem constructed_store_is_well_formed (a : InitArgs) (h h' : Host)
    (self : SearchSimilarProduct) :
  __init__ a h = (Ok self, h') ->
  store_wf self
  /\ top_k self = a_top_k a
  /\ minimal_distance self = a_minimal_distance a
  /\ world h' = world h ++ [Info (MsgLoaded (List.length (products self)))]
  /\ (forall p, a_wallet_path a = Some p -> environ h' "TNS_ADMIN" = Some p).
Proof.
  intros Hrun.
  destruct (constructor_init a h h' self Hrun) as (c & emb & Hinit).
  pose proof (init_store_wf _ _ _ _ _ _ _ Hinit) as Hwf.
  destruct (InitFacts.init_inv _ _ _ _ _ _ _ Hinit)
    as (rows & dvs & _ & _ & _ & Hp & _ & Hk & Hmd & _ & Hw).
  split; [exact Hwf |]. split; [exact Hk |]. split; [exact Hmd |].
  split; [rewrite Hw, Hp, length_map; reflexivity |].
  intros p Hwp. unfold __init__ in Hrun. rewrite Hwp in Hrun.
  repeat (apply bind_inv in Hrun;
          destruct Hrun as [(e & _ & [=]) | (? & ? & ? & Hrun)]).
  unfold ret in Hrun. injection Hrun as <- <-.
  repeat match goal with u : unit |- _ => destruct u end.
  repeat match goal with
         | H : ret _ _ = (Ok _, _) |- _ => injection H as <- <-
         | H : setenv "TNS_ADMIN" _ _ = (Ok _, _) |- _ =>
             apply setenv_feeds_ok in H
         | H : note ?e ?h0 = _ |- _ =>
             apply (kv_note "TNS_ADMIN" e) in H
         | H : in_world ?m ?h0 = _ |- _ =>
             apply (kv_in_world "TNS_ADMIN" _ m) in H
         | H : try_except ?b ?hd ?h0 = _ |- _ =>
             apply (kv_use "TNS_ADMIN" _ (try_except b hd)) in H; [| kv]
         end.
  cbn [environ] in *. congruence.
Qed.

End CtorTheorems.

Import SearchFacts LoadFacts.

Section ServerTheorems.
Context `{M : Machine} `{Sv : Services} `{L : Libs}.
Import PyText ConfigLoader ConfigReadings HostFacts CtorFacts.

(** X14.  On the object that the server builds when it starts, the tool
    [search_vectorized_product] never raises: it returns the dict of the
    search, with at most 5 semantic and at most 5 fuzzy matches, one of
    the two lists empty, and every semantic match with a similarity
    between 50 and 100 and a distance between 0 and 1; it touches neither
    the files nor the environment. *)
Theorem tool_returns_close_matches (h0 h1 : Host) (PROPS : PyDict.t)
    (sercher : SearchSimilarProduct) (description : string) (h : Host) :
  norm_contract ->
  Server.start h0 = (Ok (PROPS, sercher), h1) ->
  exists r h',
    Server.search_vectorized_product sercher description h = (Ok r, h')
    /\ search_similar_products sercher description (world h) = (Ok r, world h')
    /\ files h' = files h /\ environ h' = environ h
    /\ (List.length (semantics r) <= 5)%nat
    /\ (List.length (fallback_fuzzy r) <= 5)%nat
    /\ (semantics r = [] \/ fallback_fuzzy r = [])
    /\ Forall (fun m => (50 <= similarity m <= 100)%Q
                        /\ (0 <= distance m <= 1)%Q)
              (semantics r).
Proof.
  intros Hn Hstart.
  assert (Hobj : top_k sercher = 5%Z /\ minimal_distance sercher = 1%Q).
  { unfold Server.start in Hstart.
    repeat (apply bind_inv in Hstart;
            destruct Hstart as [(e & _ & [=]) | (? & ? & ? & Hstart)]).
    unfold ret in Hstart. injection Hstart as <- <- <-.
    match goal with
    | H : __init__ default_args _ = (Ok _, _) |- _ =>
        destruct (constructor_init _ _ _ _ H) as (c & emb & Hinit)
    end.
    destruct (InitFacts.init_inv _ _ _ _ _ _ _ Hinit)
      as (rows & dvs & _ & _ & _ & _ & _ & Hk & Hmd & _).
    split; assumption. }
  destruct Hobj as [Hk Hmd].
  destruct (search_cases sercher description) as (r & _ & _ & Hall & _).
  destruct (Hall (world h)) as [w' Hrun].
  exists r. eexists. split.
  { unfold Server.search_vectorized_product, bind, in_world.
    rewrite note_run. cbn [world]. rewrite Hrun. rewrite note_run.
    reflexivity. }
  cbn [files environ journal world].
  split; [exact Hrun |]. split; [reflexivity |]. split; [reflexivity |].
  destruct (BoundFacts.result_lengths sercher description _ _ r
              ltac:(rewrite Hk; lia) Hrun) as (Hs & Hf & Hor).
  rewrite Hk in Hs, Hf.
  split; [lia |]. split; [lia |]. split; [exact Hor |].
  rewrite Forall_forall. intros m Hm.
  destruct (BoundFacts.semantics_within sercher description _ _ r m Hn Hrun Hm)
    as (p & dist & -> & H0 & Hw).
  rewrite Hmd in Hw.
  destruct (BoundFacts.semantic_item_bounds p dist 1 H0 Hw)
    as (_ & Hhi & Hd0 & _ & H1).
  destruct (H1 ltac:(lra)) as [H50 Hd1]. repeat split; assumption.
Qed.

End ServerTheorems.

Import SearchFacts LoadFacts.

Module WriterFacts.
Import Writer.

Lemma to_N_byte_of (n : N) : Byte.to_N (byte_of n) = (n mod 256)%N.
Proof.
  unfold byte_of. destruct (Byte.of_N (n mod 256)) as [b |] eqn:E.
  - apply Byte.to_of_N, E.
  - apply Byte.of_N_None_iff in E.
    pose proof (N.mod_upper_bound n 256 ltac:(discriminate)). lia.
Qed.

Lemma word_of_bytes (bits : N) :
  is_f32 bits ->
  Np.word_le (byte_of bits) (byte_of (bits / 256)) (byte_of (bits / 65536))
             (byte_of (bits / 16777216)) = bits.
Proof.
  unfold is_f32, Np.word_le. intros Hb. rewrite !to_N_byte_of.
  pose proof (N.div_mod bits 256 ltac:(discriminate)) as E0.
  pose proof (N.div_mod (bits / 256) 256 ltac:(discriminate)) as E1.
  pose proof (N.div_mod (bits / 65536) 256 ltac:(discriminate)) as E2.
  rewrite N.Div0.div_div in E1. change (256 * 256)%N with 65536%N in E1.
  rewrite N.Div0.div_div in E2. change (65536 * 256)%N with 16777216%N in E2.
  assert (H3 : (bits / 16777216 < 256)%N)
    by (apply N.Div0.div_lt_upper_bound; exact Hb).
  rewrite (N.mod_small _ _ H3). lia.
Qed.

Lemma tobytes_length (v : list N) :
  List.length (tobytes v) = (4 * List.length v)%nat.
Proof.
  induction v as [| x r IH]; [reflexivity |].
  cbn [tobytes flat_map f32_bytes app List.length].
  change (flat_map f32_bytes r) with (tobytes r). lia.
Qed.

Lemma decode_tobytes (v : list N) :
  Forall is_f32 v ->
  forall fuel, (List.length v <= fuel)%nat ->
    Np.decode_f32 fuel (tobytes v) = map Np.f32_value v.
Proof.
  induction 1 as [| x r Hx _ IH]; intros fuel Hf.
  - destruct fuel; reflexivity.
  - destruct fuel as [| f]; [simpl in Hf; lia |].
    cbn [tobytes flat_map f32_bytes app Np.decode_f32 map].
    rewrite (word_of_bytes x Hx). f_equal. apply IH. simpl in Hf. lia.
Qed.

(** What [tobytes] writes, [np.frombuffer] reads. *)
Lemma frombuffer_tobytes (v : list N) :
  Forall is_f32 v -> Np.frombuffer (tobytes v) = Ok (map Np.f32_value v).
Proof.
  intros Hv. unfold Np.frombuffer. rewrite tobytes_length.
  replace (4 * List.length v)%nat with (List.length v * 4)%nat by lia.
  rewrite Nat.Div0.mod_mul. cbn [Nat.eqb].
  rewrite decode_tobytes; [reflexivity | exact Hv | lia].
Qed.

Lemma load_rows_all (rows : list Row) (dvs : list (list Q)) :
  Forall2 (fun r v => Np.frombuffer (row_blob r) = Ok v) rows dvs ->
  forall vs ps,
    load_rows rows vs ps = Ok (vs ++ dvs, ps ++ map product_of rows).
Proof.
  induction 1 as [| r v rows dvs Hr _ IH]; intros vs ps; simpl.
  - rewrite !app_nil_r. reflexivity.
  - rewrite Hr, IH, <- !app_assoc. reflexivity.
Qed.

End WriterFacts.

Section WriterTheorems.
Import Writer WriterFacts.

(** X15.  The bytes that the script stores for a [float32] vector are read
    back by [np.frombuffer] as the same numbers: four bytes for each, and
    the vector of their values. *)
Theorem stored_vector_reads_back (vector : list N) :
  Forall is_f32 vector ->
  List.length (tobytes vector) = (4 * List.length vector)%nat
  /\ Np.frombuffer (tobytes vector) = Ok (map Np.f32_value vector).
Proof.
  intros Hv. split; [apply tobytes_length | apply frombuffer_tobytes, Hv].
Qed.

(** X16.  What the script writes, the constructor loads: when the table
    holds the rows that the script made of the products and of embeddings
    of one dimension [d], in whatever order the query returns them,
    [__init__] builds the store of these products, each with the values of
    its own vector. *)
Theorem written_rows_load_back (k : Z) (min_dist : Q) (c : Connection)
    (emb : Embeddings) (w : World) (ids : list ProductRow)
    (embeddings : list (list N)) (d : nat) (rows : list Row) :
  Forall (fun v => List.length v = d /\ Forall is_f32 v) embeddings ->
  Permutation rows (merged ids embeddings) ->
  select_embeddings c = Ok rows ->
  exists pairs,
    Permutation (combine ids embeddings) pairs
    /\ init k min_dist c emb w
       = (Ok {| conn := c; top_k := k; minimal_distance := min_dist;
                embedding := emb;
                vectors :=
                  match pairs with
                  | [] => Np.Array1 []
                  | _ :: _ =>
                      Np.Array2 d (map (fun pv => map Np.f32_value (snd pv)) pairs)
                  end;
                products := map (fun pv => product_for (fst pv)) pairs |},
          w ++ [Info (MsgLoaded (List.length pairs))]).
Proof.
  intros Hemb Hperm Hsel. unfold merged in Hperm.
  apply Permutation_map_inv in Hperm. destruct Hperm as (pairs & -> & Hp).
  exists pairs. split; [exact Hp |].
  assert (Hall : Forall (fun pv : ProductRow * list N =>
                           List.length (snd pv) = d /\ Forall is_f32 (snd pv))
                        pairs).
  { rewrite Forall_forall in *. intros [p v] Hin.
    eapply Permutation_in in Hin; [| apply Permutation_sym, Hp].
    apply in_combine_r in Hin. apply Hemb, Hin. }
  assert (Hdec : Forall2 (fun r v => Np.frombuffer (row_blob r) = Ok v)
                         (map row_of pairs)
                         (map (fun pv => map Np.f32_value (snd pv)) pairs)).
  { clear Hsel Hp. induction Hall as [| [[[i co] de] v] r [_ Hv] _ IH];
      simpl; constructor; [apply frombuffer_tobytes, Hv | exact IH]. }
  unfold init, bind. rewrite load_unfold, Hsel.
  rewrite (load_rows_all _ _ Hdec [] []). cbn [app].
  assert (Hprod : map product_of (map row_of pairs)
                  = map (fun pv => product_for (fst pv)) pairs).
  { rewrite map_map. apply map_ext. intros [[[i co] de] v]. reflexivity. }
  rewrite Hprod, !length_map.
  destruct pairs as [| pv0 rest]; [reflexivity |].
  unfold Np.array. cbn [map].
  assert (Hd : forall pv, In pv (pv0 :: rest) ->
                 List.length (map Np.f32_value (snd pv)) = d).
  { intros pv Hin. rewrite Forall_forall in Hall. rewrite length_map.
    apply Hall, Hin. }
  assert (Hforall : forallb
             (fun w0 => (List.length w0
                         =? List.length (map Np.f32_value (snd pv0)))%nat)
             (map Np.f32_value (snd pv0)
              :: map (fun pv => map Np.f32_value (snd pv)) rest) = true).
  { apply forallb_forall. intros x Hx.
    change (map Np.f32_value (snd pv0)
            :: map (fun pv => map Np.f32_value (snd pv)) rest)
      with (map (fun pv => map Np.f32_value (snd pv)) (pv0 :: rest)) in Hx.
    apply in_map_iff in Hx. destruct Hx as (pv & <- & Hin).
    rewrite (Hd pv Hin), (Hd pv0 (or_introl eq_refl)). apply Nat.eqb_refl. }
  rewrite Hforall. rewrite (Hd pv0 (or_introl eq_refl)). reflexivity.
Qed.

(** X17.  A store that [__init__] has loaded follows the rows it read:
    product and vector number [i] come from row number [i], the vector is
    what [np.frombuffer] makes of the bytes of that row, with one number
    for every four bytes, and the log counts the rows. *)
Theorem loaded_store_follows_the_rows (k : Z) (min_dist : Q) (c : Connection)
    (emb : Embeddings) (w w' : World) (self : SearchSimilarProduct) :
  init k min_dist c emb w = (Ok self, w') ->
  exists rows,
    select_embeddings c = Ok rows
    /\ products self = map product_of rows
    /\ Forall2 (fun r v => Np.frombuffer (row_blob r) = Ok v
                           /\ List.length (row_blob r) = (4 * List.length v)%nat)
               rows (rows_of (vectors self))
    /\ w' = w ++ [Info (MsgLoaded (List.length rows))].
Proof.
  intros Hinit.
  destruct (InitFacts.init_inv _ _ _ _ _ _ _ Hinit)
    as (rows & dvs & Hsel & Hrows & Harr & Hp & _ & _ & _ & _ & Hw).
  exists rows. split; [exact Hsel |]. split; [exact Hp |]. split; [| exact Hw].
  assert (Hvec : rows_of (vectors self) = dvs).
  { unfold Np.array in Harr. destruct dvs as [| v0 rest].
    - injection Harr as <-. reflexivity.
    - destruct (forallb _ _); [| discriminate]. injection Harr as <-.
      reflexivity. }
  rewrite Hvec. clear - Hrows.
  induction Hrows as [| r v rows dvs Hr _ IH]; constructor; [| exact IH].
  split; [exact Hr | apply frombuffer_length, Hr].
Qed.

End WriterTheorems.

Module SelfFacts.
Import Difflib SelfMatch BlockFacts LoopFacts.

Section Self.
Variable b : list ascii.
Variables lo hi : nat.
Hypothesis Hlo : (lo <= hi)%nat.
Hypothesis Hhi : (hi <= List.length b)%nat.

Lemma plain_run_step (t : nat) :
  (lo <= t)%nat -> popular b (elt b t) = false ->
  plain_run b lo t
  = S (match t with O => O | S t' => plain_run b lo t' end).
Proof.
  intros Ht Hp. destruct t as [| t']; cbn [plain_run]; rewrite Hp;
    replace (_ <? lo)%nat with false by (symmetry; apply Nat.ltb_ge; lia);
    reflexivity.
Qed.

Lemma plain_run_popular (t : nat) :
  popular b (elt b t) = true -> plain_run b lo t = O.
Proof.
  intros Hp. destruct t; cbn [plain_run]; rewrite Hp, orb_true_r; reflexivity.
Qed.

Lemma plain_run_below (t : nat) : (t < lo)%nat -> plain_run b lo t = O.
Proof.
  intros Ht. apply Nat.ltb_lt in Ht.
  destruct t; cbn [plain_run]; rewrite Ht; reflexivity.
Qed.

Section Row.
Variable i : nat.
Variable j2len : nat -> nat.
Hypothesis Hi : (lo <= i < hi)%nat.
Hypothesis Hplain : popular b (elt b i) = false.
Hypothesis Hprev : forall j, (j2len j <= prev_run b lo i j)%nat.
Hypothesis Hdiag :
  match i with O => True | S i' => j2len i' = plain_run b lo i' end.

Lemma run_at_i :
  plain_run b lo i = S (get_prev j2len i).
Proof.
  rewrite plain_run_step by (try lia; exact Hplain).
  unfold get_prev. destruct i; [reflexivity |]. rewrite Hdiag. reflexivity.
Qed.

Lemma inner_step_self (st : (nat -> nat) * best) (seen : bool) (j : nat) :
  elt b j = elt b i ->
  ((i < j)%nat -> seen = true) ->
  inside_row b lo i seen st ->
  inside_row b lo i (seen || (j =? i)%nat) (inner_step lo hi i j2len st j).
Proof.
  intros Hj Hseen Hst. destruct st as [new [[bi bj] bs]].
  destruct Hst as (Hd & Hb & He & Hf). unfold inner_step.
  assert (Hwin : forall (P : Prop), ((j < lo)%nat \/ (hi <= j)%nat) ->
                   (j =? i)%nat = false).
  { intros _ Hout. apply Nat.eqb_neq. lia. }
  destruct (j <? lo)%nat eqn:E1.
  { apply Nat.ltb_lt in E1. rewrite (Hwin True) by lia. rewrite orb_false_r.
    repeat split; assumption. }
  destruct (hi <=? j)%nat eqn:E2.
  { apply Nat.leb_le in E2. rewrite (Hwin True) by lia. rewrite orb_false_r.
    repeat split; assumption. }
  apply Nat.ltb_ge in E1. apply Nat.leb_gt in E2.
  set (k := S (get_prev j2len j)).
  assert (Hpj : popular b (elt b j) = false) by (rewrite Hj; exact Hplain).
  pose proof run_at_i as Hri.
  destruct (Nat.lt_trichotomy j i) as [Hlt | [Heq | Hgt]].
  - (* to the left of the diagonal *)
    assert (Hk : (k <= plain_run b lo j)%nat).
    { rewrite (plain_run_step j E1 Hpj). unfold k, get_prev.
      destruct j as [| j']; [lia |].
      specialize (Hprev j'). unfold prev_run in Hprev.
      destruct i as [| i']; [lia |].
      rewrite Nat.min_r in Hprev by lia. lia. }
    pose proof (Hb j Hlt) as Hbs.
    replace (bs <? k)%nat with false by (symmetry; apply Nat.ltb_ge; lia).
    replace (j =? i)%nat with false by (symmetry; apply Nat.eqb_neq; lia).
    rewrite orb_false_r. split; [exact Hd |]. split; [exact Hb |]. split.
    + intros j0. destruct (j0 =? j)%nat eqn:Ej; [| apply He].
      apply Nat.eqb_eq in Ej. subst j0. rewrite Nat.min_r by lia. exact Hk.
    + replace (i =? j)%nat with false by (symmetry; apply Nat.eqb_neq; lia).
      exact Hf.
  - (* on the diagonal *)
    subst j. rewrite Nat.eqb_refl, orb_true_r. fold k in Hri.
    destruct (bs <? k)%nat eqn:Eb.
    + apply Nat.ltb_lt in Eb. split; [reflexivity |]. split.
      * intros t Ht. specialize (Hb t Ht). lia.
      * split.
        -- intros j0. destruct (j0 =? i)%nat eqn:Ej; [| apply He].
           apply Nat.eqb_eq in Ej. subst j0. rewrite Nat.min_id. lia.
        -- cbv beta. rewrite Nat.eqb_refl. lia.
    + apply Nat.ltb_ge in Eb. split; [exact Hd |]. split; [exact Hb |]. split.
      * intros j0. destruct (j0 =? i)%nat eqn:Ej; [| apply He].
        apply Nat.eqb_eq in Ej. subst j0. rewrite Nat.min_id. lia.
      * cbv beta. rewrite Nat.eqb_refl. lia.
  - (* to the right of the diagonal: column [i] is done *)
    rewrite (Hseen Hgt) in *. destruct Hf as [Hf1 Hf2]. cbn [orb].
    assert (Hk : (k <= plain_run b lo i)%nat).
    { rewrite Hri. unfold k, get_prev. destruct j as [| j']; [lia |].
      specialize (Hprev j'). unfold prev_run in Hprev.
      destruct i as [| i']; [lia |].
      rewrite Nat.min_l in Hprev by lia. rewrite Hdiag. lia. }
    replace (bs <? k)%nat with false by (symmetry; apply Nat.ltb_ge; lia).
    split; [exact Hd |]. split; [exact Hb |]. split.
    + intros j0. destruct (j0 =? j)%nat eqn:Ej; [| apply He].
      apply Nat.eqb_eq in Ej. subst j0. rewrite Nat.min_l by lia. exact Hk.
    + replace (i =? j)%nat with false by (symmetry; apply Nat.eqb_neq; lia).
      split; assumption.
Qed.

Lemma inner_fold_self (js : list nat) :
  StronglySorted lt js ->
  Forall (fun j => elt b j = elt b i) js ->
  forall st seen,
    inside_row b lo i seen st ->
    seen = true \/ In i js ->
    inside_row b lo i true (fold_left (inner_step lo hi i j2len) js st).
Proof.
  induction 1 as [| j js Hs IH Hj]; intros Hall st seen Hst Hin.
  - destruct Hin as [-> | []]. exact Hst.
  - apply Forall_cons_iff in Hall. destruct Hall as [Hej Hall].
    cbn [fold_left].
    apply (IH Hall _ (seen || (j =? i)%nat)).
    + apply inner_step_self; [exact Hej | | exact Hst].
      intros Hgt. destruct Hin as [-> | [-> | Hin]]; [reflexivity | lia |].
      rewrite Forall_forall in Hj. specialize (Hj i Hin). lia.
    + destruct Hin as [-> | [-> | Hin]].
      * left. reflexivity.
      * left. rewrite Nat.eqb_refl. apply orb_true_r.
      * right. exact Hin.
Qed.

End Row.

Lemma outer_step_self (i : nat) (st : (nat -> nat) * best) :
  (lo <= i < hi)%nat ->
  before_row b lo i st ->
  before_row b lo (S i) (outer_step b b lo hi st i).
Proof.
  intros Hi Hst. destruct st as [j2len [[bi bj] bs]].
  destruct Hst as (Hd & Hb & Hc & He). unfold outer_step, b2j.
  destruct (popular b (elt b i)) eqn:Hp.
  - (* a popular element: nothing in the row *)
    cbn [fold_left before_row]. split; [exact Hd |]. split.
    + intros t Ht. destruct (Nat.eq_dec t i) as [-> | Hne].
      * rewrite (plain_run_popular i Hp). lia.
      * apply Hb. lia.
    + split; [intros j; lia |]. symmetry. apply plain_run_popular, Hp.
  - pose proof (inner_fold_self i j2len Hi Hp Hc He
                  (filter (fun j => Ascii.eqb (elt b j) (elt b i))
                          (seq 0 (List.length b)))) as H.
    specialize (H (PySeqFacts.StronglySorted_filter _ _ _ _
                     (PySeqFacts.seq_sorted 0 (List.length b)))).
    assert (Hall : Forall (fun j => elt b j = elt b i)
                     (filter (fun j => Ascii.eqb (elt b j) (elt b i))
                             (seq 0 (List.length b)))).
    { rewrite Forall_forall. intros j Hj. apply filter_In in Hj.
      apply Ascii.eqb_eq, Hj. }
    specialize (H Hall (fun _ => O, (bi, bj, bs)) false).
    destruct (fold_left _ _ _) as [new [[bi' bj'] bs']].
    destruct H as (Hd' & Hb' & He' & Hf1 & Hf2).
    + split; [exact Hd |]. split; [exact Hb |]. split; [intros; lia | reflexivity].
    + right. apply filter_In. split; [apply in_seq; lia | apply Ascii.eqb_refl].
    + split; [exact Hd' |]. split.
      * intros t Ht. destruct (Nat.eq_dec t i) as [-> | Hne]; [exact Hf2 |].
        apply Hb'. lia.
      * split; [exact He' | exact Hf1].
Qed.

Lemma outer_fold_self (n : nat) :
  forall i st,
    (lo <= i)%nat -> (i + n <= hi)%nat ->
    before_row b lo i st ->
    before_row b lo (i + n) (fold_left (outer_step b b lo hi) (seq i n) st).
Proof.
  induction n as [| n IH]; intros i st Hi Hn Hst; cbn [seq fold_left].
  - rewrite Nat.add_0_r. exact Hst.
  - replace (i + S n)%nat with (S i + n)%nat by lia.
    apply IH; [lia | lia |]. apply outer_step_self; [lia | exact Hst].
Qed.

Lemma extend_left_self (fuel : nat) :
  forall bst, fst (fst bst) = snd (fst bst) ->
    fst (fst (extend_left b b fuel lo lo bst))
    = snd (fst (extend_left b b fuel lo lo bst)).
Proof.
  induction fuel as [| f IH]; intros [[bi bj] bs] H; cbn [extend_left];
    [exact H |].
  destruct (_ && _ && _); [| exact H]. apply IH. cbn [fst snd] in *. lia.
Qed.

Lemma start_diag (i : nat) :
  (i <= lo)%nat ->
  match i with O => True | S i' => O = plain_run b lo i' end.
Proof.
  destruct i as [| i']; [intros; exact I |].
  intros Hi. symmetry. apply plain_run_below. lia.
Qed.

(** A window of a sequence matched with the same window of the same
    sequence: the longest match is the whole window. *)
Lemma find_longest_match_self :
  find_longest_match b b lo hi lo hi = (lo, lo, (hi - lo)%nat).
Proof.
  pose proof (find_longest_match_ok b b lo hi lo hi Hlo Hlo) as Hok.
  destruct (find_longest_match_loops_end b b lo hi lo hi Hlo Hhi Hlo)
    as [Hl Hr].
  assert (Hd : fst (fst (find_longest_match b b lo hi lo hi))
               = snd (fst (find_longest_match b b lo hi lo hi))).
  { unfold find_longest_match.
    pose proof (outer_fold_self (hi - lo) lo (fun _ => O, (lo, lo, O))) as H.
    destruct (fold_left _ _ _) as [j2len bst].
    rewrite extend_right_start. apply extend_left_self.
    destruct bst as [[bi bj] bs]. apply H; [lia | lia |].
    split; [reflexivity |]. split.
    - intros t Ht. rewrite plain_run_below by exact Ht. lia.
    - split; [intros; lia |]. apply (start_diag lo (le_n _)). }
  destruct (find_longest_match b b lo hi lo hi) as [[i j] k].
  cbn [fst snd] in Hd. subst j.
  destruct Hok as (H1 & H2 & _).
  unfold can_extend_left, can_extend_right in Hl, Hr.
  rewrite Ascii.eqb_refl, andb_true_r, andb_diag in Hl, Hr.
  apply Nat.ltb_ge in Hl, Hr.
  f_equal; [f_equal |]; lia.
Qed.

End Self.

(** The sizes of the blocks of a sequence matched with itself add up to
    its length. *)
Lemma matching_blocks_self (b : list ascii) :
  list_sum (map (fun t : best => snd t)
                (matching_blocks b b (S (List.length b)) 0 (List.length b)
                                 0 (List.length b)))
  = List.length b.
Proof.
  cbn [matching_blocks].
  rewrite (find_longest_match_self b 0 (List.length b) (Nat.le_0_l _) (le_n _)).
  rewrite Nat.sub_0_r. destruct (List.length b) as [| n] eqn:E; [reflexivity |].
  cbn [Nat.eqb Nat.ltb Nat.leb andb app].
  replace (0 + S n <=? n)%nat with false
    by (symmetry; apply Nat.leb_gt; lia).
  cbn [andb map list_sum snd fold_right]. lia.
Qed.

End SelfFacts.

Module TileFacts.
Import Difflib BlockFacts CountFacts RatioFacts.

Section Tile.
Variables a b : list ascii.

Lemma slice_empty (l : list ascii) (lo hi : nat) :
  (hi <= lo)%nat -> slice l lo hi = [].
Proof. intros H. unfold slice. replace (hi - lo)%nat with 0%nat by lia. reflexivity. Qed.

Lemma common_bound (x y : list ascii) :
  (common x y <= Nat.min (List.length x) (List.length y))%nat.
Proof. pose proof (common_le_l x y). pose proof (common_le_r x y). lia. Qed.

(** Blocks whose sizes add up to the length of both windows cover them:
    the two windows hold the same elements. *)
Lemma blocks_tile (fuel : nat) :
  forall alo ahi blo bhi,
    (alo <= ahi)%nat -> (ahi <= List.length a)%nat ->
    (blo <= bhi)%nat -> (bhi <= List.length b)%nat ->
    list_sum (map (fun t : best => snd t)
                  (matching_blocks a b fuel alo ahi blo bhi))
    = (ahi - alo)%nat ->
    (ahi - alo = bhi - blo)%nat ->
    slice a alo ahi = slice b blo bhi.
Proof.
  induction fuel as [| f IH]; intros alo ahi blo bhi Ha1 Ha2 Hb1 Hb2 Hsum Hlen.
  { simpl in Hsum. rewrite !slice_empty by lia. reflexivity. }
  cbn [matching_blocks] in Hsum.
  pose proof (find_longest_match_ok a b alo ahi blo bhi Ha1 Hb1) as Hok.
  destruct (find_longest_match a b alo ahi blo bhi) as [[i j] k].
  destruct Hok as (H1 & H2 & H3 & H4 & H5).
  destruct (k =? 0)%nat eqn:Ek.
  { simpl in Hsum. rewrite !slice_empty by lia. reflexivity. }
  rewrite map_app, list_sum_app, map_cons in Hsum.
  match type of Hsum with
  | context [(list_sum (map _ ?l) + list_sum (_ :: map _ ?r))%nat] =>
      set (left := l) in *; set (right := r) in *
  end.
  change (list_sum (snd (i, j, k) :: map (fun t : best => snd t) right))
    with (k + list_sum (map (fun t : best => snd t) right))%nat in Hsum.
  assert (Hl : (list_sum (map (fun t : best => snd t) left)
                <= Nat.min (i - alo) (j - blo))%nat).
  { unfold left. destruct ((alo <? i) && (blo <? j))%nat; [| simpl; lia].
    pose proof (matching_blocks_common a b f alo i blo j
                  ltac:(lia) ltac:(lia) ltac:(lia) ltac:(lia)) as Hc.
    pose proof (common_bound (slice a alo i) (slice b blo j)) as Hb.
    rewrite !slice_length in Hb by lia. lia. }
  assert (Hr : (list_sum (map (fun t : best => snd t) right)
                <= Nat.min (ahi - (i + k)) (bhi - (j + k)))%nat).
  { unfold right. destruct ((i + k <? ahi) && (j + k <? bhi))%nat; [| simpl; lia].
    pose proof (matching_blocks_common a b f (i + k) ahi (j + k) bhi
                  ltac:(lia) ltac:(lia) ltac:(lia) ltac:(lia)) as Hc.
    pose proof (common_bound (slice a (i + k) ahi) (slice b (j + k) bhi)) as Hb.
    rewrite !slice_length in Hb by lia. lia. }
  rewrite (slice_split a alo i ahi), (slice_split a i (i + k) ahi) by lia.
  rewrite (slice_split b blo j bhi), (slice_split b j (j + k) bhi) by lia.
  f_equal; [| f_equal].
  - unfold left in *. destruct ((alo <? i) && (blo <? j))%nat eqn:E.
    + apply IH; lia.
    + change (list_sum (map (fun t : best => snd t) [])) with 0%nat in *.
      rewrite !slice_empty by lia. reflexivity.
  - apply block_slices; [lia | lia | exact H5].
  - unfold right in *. destruct ((i + k <? ahi) && (j + k <? bhi))%nat eqn:E.
    + apply IH; lia.
    + change (list_sum (map (fun t : best => snd t) [])) with 0%nat in *.
      rewrite !slice_empty by lia. reflexivity.
Qed.

Lemma calculate_ratio_one (m len : nat) :
  (calculate_ratio m len == 1)%Q -> len <> O -> (2 * m = len)%nat.
Proof.
  unfold calculate_ratio. destruct len as [| n]; [congruence |].
  intros H _. unfold Qeq in H. cbn [Qnum Qden] in H.
  rewrite Z.mul_1_r, Z.mul_1_l in H.
  rewrite <- Pos.of_nat_succ, Zpos_P_of_succ_nat in H. lia.
Qed.

Lemma calculate_ratio_whole (n : nat) : (calculate_ratio n (n + n) == 1)%Q.
Proof.
  unfold calculate_ratio. destruct (n + n)%nat as [| m] eqn:E; [reflexivity |].
  unfold Qeq. cbn [Qnum Qden]. rewrite Z.mul_1_r, Z.mul_1_l.
  rewrite <- Pos.of_nat_succ, Zpos_P_of_succ_nat. lia.
Qed.

Lemma calculate_ratio_le_one (m la lb : nat) :
  (m <= Nat.min la lb)%nat -> (calculate_ratio m (la + lb) <= 1)%Q.
Proof.
  intros H. unfold calculate_ratio. destruct (la + lb)%nat as [| n] eqn:E;
    [apply Qle_refl |].
  unfold Qle. cbn [Qnum Qden]. rewrite Z.mul_1_r, Z.mul_1_l.
  rewrite <- Pos.of_nat_succ, Zpos_P_of_succ_nat. lia.
Qed.

(** A ratio is at most 1, and it is 1 for equal sequences only. *)
Lemma ratio_le_one : (ratio a b <= 1)%Q.
Proof.
  eapply Qle_trans; [apply ratio_le_quick |].
  eapply Qle_trans; [apply quick_le_real_quick |].
  unfold real_quick_ratio. apply calculate_ratio_le_one. lia.
Qed.

Lemma ratio_one_eq : (ratio a b == 1)%Q -> a = b.
Proof.
  unfold ratio. intros H.
  pose proof (matching_blocks_common a b (S (List.length a)) 0 (List.length a)
                0 (List.length b) ltac:(lia) ltac:(lia) ltac:(lia) ltac:(lia))
    as Hc.
  rewrite !slice_all in Hc. pose proof (common_bound a b) as Hb.
  destruct (Nat.eq_dec (List.length a + List.length b) 0) as [Hz | Hnz].
  { destruct a, b; simpl in Hz; try lia. reflexivity. }
  apply calculate_ratio_one in H; [| exact Hnz].
  rewrite <- (slice_all a), <- (slice_all b).
  apply (blocks_tile (S (List.length a))); lia.
Qed.

End Tile.

Lemma ratio_self (b : list ascii) : (ratio b b == 1)%Q.
Proof.
  unfold ratio. rewrite SelfFacts.matching_blocks_self.
  apply calculate_ratio_whole.
Qed.

End TileFacts.

(** X18.  A query that is a description of the catalogue is left as it
    is, whatever else the catalogue holds; so [_correct_input] changes
    nothing when it is applied a second time. *)
Theorem exact_description_is_kept (self : SearchSimilarProduct)
    (v raw : string) :
  (In v (map description (products self)) -> _correct_input self v = v)
  /\ _correct_input self (_correct_input self raw) = _correct_input self raw.
Proof.
  assert (Hfix : forall x, In x (map description (products self)) ->
                           _correct_input self x = x).
  { intros x Hx. unfold _correct_input.
    pose proof (TileFacts.ratio_self (list_ascii_of_string x)) as Hself.
    destruct (DifflibFacts.get_close_matches_one x
                (map description (products self)) (6 # 10))
      as [[Hnone ->] | (best & -> & Hin & Hc & Hmax)].
    - rewrite Forall_forall in Hnone. specialize (Hnone x Hx).
      unfold similarity_to in Hnone. lra.
    - destruct (Hmax x Hx) as [Hle _]. unfold similarity_to in Hle.
      pose proof (TileFacts.ratio_le_one (list_ascii_of_string best)
                    (list_ascii_of_string x)) as Hup.
      assert (Hone : (Difflib.ratio (list_ascii_of_string best)
                                    (list_ascii_of_string x) == 1)%Q) by lra.
      apply TileFacts.ratio_one_eq in Hone.
      rewrite <- (string_of_list_ascii_of_string best),
              <- (string_of_list_ascii_of_string x), Hone. reflexivity. }
  split; [apply Hfix |].
  assert (Hc : _correct_input self raw = raw
               \/ In (_correct_input self raw) (map description (products self))).
  { unfold _correct_input.
    destruct (DifflibFacts.get_close_matches_one raw
                (map description (products self)) (6 # 10))
      as [[_ ->] | (best & -> & Hin & _)];
      [left; reflexivity | right; exact Hin]. }
  destruct Hc as [E | Hin]; [rewrite E; exact E | apply Hfix, Hin].
Qed.

Module ToolFacts.
Import Server SqlReadings.

Lemma ean_rows_ok (rows : list (list Cell)) (ds : list EanRow) :
  ean_rows rows = Ok ds ->
  three_columns rows
  /\ Forall2 (fun row d => firstn 3 row
                           = [ean_code d; ean_description d; ean_similarity d])
             rows ds.
Proof.
  revert ds. induction rows as [| row rest IH]; intros ds; simpl.
  - intros [= <-]. split; constructor.
  - destruct (ean_row row) as [d |] eqn:Ed; [| discriminate].
    destruct (ean_rows rest) as [ds' |]; [| discriminate].
    intros [= <-]. destruct (IH ds' eq_refl) as [H3 H2].
    unfold ean_row in Ed.
    destruct row as [| c [| de [| si r]]]; try discriminate.
    injection Ed as <-.
    split; constructor; auto. simpl. lia.
Qed.

Lemma ean_rows_three (rows : list (list Cell)) :
  three_columns rows -> exists ds, ean_rows rows = Ok ds.
Proof.
  induction 1 as [| row rest Hrow _ [ds IH]]; simpl; [eexists; reflexivity |].
  destruct row as [| c [| de [| si r]]]; simpl in Hrow; try lia.
  simpl. rewrite IH. eexists. reflexivity.
Qed.

Lemma combine_fst_firstn (A B : Type) (l1 : list A) (l2 : list B) :
  map fst (combine l1 l2) = firstn (List.length l2) l1.
Proof.
  revert l2. induction l1 as [| x r IH]; intros [| y t]; simpl;
    try reflexivity.
  rewrite IH. reflexivity.
Qed.

Lemma combine_snd_firstn (A B : Type) (l1 : list A) (l2 : list B) :
  map snd (combine l1 l2) = firstn (List.length l1) l2.
Proof.
  revert l2. induction l1 as [| x r IH]; intros [| y t]; simpl;
    try reflexivity.
  rewrite IH. reflexivity.
Qed.

End ToolFacts.

Section ToolTheorems.
Context `{M : Machine} `{O : Oracle}.
Import Server SqlReadings ToolFacts.

(** X20.  [resolve_ean] never raises and leaves the files, the
    environment and the records of [World] as they are.  It returns the
    first three columns of the first row exactly when the search ran to its
    end, gave at least one row, and every row it gave had three columns;
    in every other case, a failure of the database included, the reply is
    the dict with the error "Search not found by EAN.". *)
Theorem resolve_ean_reply (g : Settings) (description : string) (h : Host) :
  exists reply h',
    resolve_ean g description h = (Ok reply, h')
    /\ files h' = files h /\ environ h' = environ h /\ world h' = world h
    /\ (forall c d s,
          reply = EanFound c d s
          <-> exists row rest,
                cursor_rows (connect_args g) ean_query [BindStr description]
                            {| files := files h; environ := environ h;
                               journal := journal h
                                 ++ [LogInfo (ResolveCalled
                                                (PyStr.prefix 50 description))];
                               world := world h |}
                = Ok (row :: rest, Ok tt)
                /\ three_columns (row :: rest)
                /\ firstn 3 row = [c; d; s])
    /\ (forall error, reply = EanError error ->
          error = "Search not found by EAN."%string).
Proof.
  unfold resolve_ean, execute_ean_search, try_except, bind, lift, get, note,
    modify, ret.
  cbn [files environ journal world].
  set (h1 := {| files := files h; environ := environ h;
                journal := journal h ++ [_]; world := world h |}).
  destruct (cursor_rows (connect_args g) ean_query [BindStr description] h1)
    as [[rows ending] | e] eqn:Ecur; cbn [fst snd].
  2: { eexists _, _. split; [reflexivity |]. cbn [files environ journal world].
       repeat split; try reflexivity.
       - intros [=].
       - intros (row & rest & [=] & _).
       - intros error [= <-]. reflexivity. }
  destruct (ean_rows rows) as [ds | e] eqn:Erows.
  2: { eexists _, _. split; [reflexivity |]. cbn [files environ journal world].
       repeat split; try reflexivity.
       - intros [=].
       - intros (row & rest & [= -> ->] & H3 & _).
         destruct (ean_rows_three _ H3) as [ds Hds]. congruence.
       - intros error [= <-]. reflexivity. }
  destruct ending as [[] | e].
  2: { eexists _, _. split; [reflexivity |]. cbn [files environ journal world].
       repeat split; try reflexivity.
       - intros [=].
       - intros (row & rest & [=] & _).
       - intros error [= <-]. reflexivity. }
  destruct (ean_rows_ok _ _ Erows) as [H3 H2].
  destruct ds as [| first ds'].
  - inversion H2; subst.
    eexists _, _. split; [reflexivity |]. cbn [files environ journal world].
    repeat split; try reflexivity.
    + intros [=].
    + intros (row & rest & [=] & _).
    + intros error [= <-]. reflexivity.
  - inversion H2 as [| row first' rest ds'' Hrow Hrest]; subst.
    eexists _, _. split; [reflexivity |]. cbn [files environ journal world].
    repeat split; try reflexivity.
    + intros [= <- <- <-]. exists row, rest. repeat split; assumption.
    + intros (row' & rest' & [= <- <-] & _ & Hf). congruence.
    + intros error [=].
Qed.

(** X21.  [search_invoices_by_criteria] never raises and leaves the files,
    the environment and the records of [World] as they are.  It returns one
    dict for each row that the database gave, in their order, pairing the
    eight column names with the cells of the row; when the database fails
    it returns the empty list, after an error record and a printed line,
    just as when no invoice matches. *)
Theorem invoice_search_returns (g : Settings) (customer state : option string)
    (price : option Q) (ean : option string) (margin : Q) (h : Host) :
  let stmt := invoice_statement customer state price ean margin in
  let called := LogInfo (InvoicesCalled customer state ean price) in
  let h1 := {| files := files h; environ := environ h;
               journal := journal h ++ [called]; world := world h |} in
  exists invoices h',
    search_invoices_by_criteria g customer state price ean margin h
    = (Ok invoices, h')
    /\ files h' = files h /\ environ h' = environ h /\ world h' = world h
    /\ match fetchall (connect_args g) (fst stmt) (snd stmt) h1 with
       | Ok rows =>
           Forall2 (fun row d =>
                      map fst d = firstn (List.length row) invoice_columns
                      /\ map snd d = firstn 8 row)
                   rows invoices
           /\ journal h' = journal h
                           ++ [called; LogInfo (InvoicesFound (List.length rows))]
       | Raise e =>
           invoices = []
           /\ journal h' = journal h
                           ++ [called; LogError (QueryFailed e);
                               Printed (QueryFailed e);
                               LogInfo (InvoicesFound 0)]
       end.
Proof.
  intros stmt called h1.
  unfold search_invoices_by_criteria. fold stmt.
  destruct stmt as [query params]. cbn [fst snd].
  unfold execute_query, try_except, bind, lift, get, note, modify, ret.
  cbn [files environ journal world]. fold called. fold h1.
  destruct (fetchall (connect_args g) query params h1) as [rows | e].
  - eexists _, _. split; [reflexivity |]. unfold h1.
    cbn [files environ journal world].
    repeat split; try reflexivity.
    + clear. induction rows as [| row rest IH]; constructor; [| exact IH].
      split.
      * apply combine_fst_firstn.
      * apply combine_snd_firstn.
    + rewrite <- app_assoc. reflexivity.
  - eexists _, _. split; [reflexivity |]. unfold h1.
    cbn [files environ journal world].
    repeat split; try reflexivity.
    rewrite <- !app_assoc. reflexivity.
Qed.

End ToolTheorems.

Section StatementTheorems.
Import Server SqlReadings.


End StatementTheorems.

Import SearchFacts LoadFacts.

Module SettingsFacts.
Import PyText ConfigLoader ConfigReadings HostFacts CtorFacts.

Lemma truthy_some (v w : string) :
  PyDict.truthy (Some v) = Some w -> v = w /\ PyDict.truthy (Some w) = Some w.
Proof.
  unfold PyDict.truthy. destruct (String.eqb v "") eqn:E; [discriminate |].
  intros [= <-]. rewrite E. auto.
Qed.

Lemma truthy_idem (o : option string) (v : string) :
  PyDict.truthy o = Some v -> PyDict.truthy (Some v) = Some v.
Proof.
  destruct o as [x |]; [| discriminate]. intros H.
  apply truthy_some in H. apply H.
Qed.

Lemma truthy_nonempty (v : string) :
  v <> ""%string -> PyDict.truthy (Some v) = Some v.
Proof.
  intros H. unfold PyDict.truthy. apply String.eqb_neq in H. rewrite H.
  reflexivity.
Qed.

Lemma kv_setenv_other (name k v : string) :
  name <> k -> keeps_variable name (setenv k v).
Proof.
  intros Hn h res h'. rewrite setenv_run.
  destruct (contains _ _); intros [= <- <-]; [reflexivity |].
  cbn [environ]. apply String.eqb_neq in Hn. rewrite Hn. reflexivity.
Qed.

Lemma kv_modify_files (name : string) (f : Host -> string -> File) :
  keeps_variable name
    (modify (fun h => {| files := f h; environ := environ h;
                         journal := journal h; world := world h |})).
Proof. intros h res h' [= <- <-]. reflexivity. Qed.

Section OnMachine.
Context `{M : Machine}.

Lemma load_frame (file_path : option string) (h h' : Host)
    (res : result PyDict.t) :
  load_properties file_path h = (res, h') ->
  files h' = files h /\ environ h' = environ h.
Proof.
  unfold load_properties, bind, get.
  destruct (files h _); intros [= <- <-]; auto.
Qed.

Lemma load_agree (file_path : option string) (h1 h1' h2 h2' : Host)
    (r1 r2 : PyDict.t) :
  files h1 = files h2 ->
  load_properties file_path h1 = (Ok r1, h1') ->
  load_properties file_path h2 = (Ok r2, h2') ->
  r1 = r2.
Proof.
  unfold load_properties, bind, get. intros ->.
  destruct (files h2 _); cbn; try discriminate;
    intros [= <- _] [= <- _]; reflexivity.
Qed.

Lemma kv_ensure (name : string) (props : PyDict.t) :
  name <> "OCI_CONFIG_FILE"%string -> name <> "OCI_CLI_PROFILE"%string ->
  keeps_variable name (ensure_oci_config props).
Proof.
  intros H1 H2. unfold ensure_oci_config, getenv_or, write_text.
  repeat first
    [ apply kv_ret | apply kv_lift | apply kv_raise | apply kv_get
    | apply kv_note | apply kv_modify_files
    | apply kv_setenv_other; assumption
    | apply kv_bind; [| intros]
    | match goal with
      | |- keeps_variable _ (match ?x with _ => _ end) => destruct x
      end ].
Qed.

(** The three variables that [apply_db_env] copies from the file. *)
Lemma applied_plain (props : PyDict.t) (h h' : Host) (name key : string) :
  apply_db_env props h = (Ok tt, h') ->
  db_property name = Some key -> String.eqb name "TNS_ADMIN" = false ->
  environ h' name
  = match PyDict.truthy (PyDict.get props key) with
    | Some v => Some v
    | None => environ h name
    end.
Proof.
  intros Hrun Hk Hn.
  destruct (apply_db_env_variables props h h' (Ok tt) name Hrun) as (_ & _ & H).
  rewrite Hk in H. destruct (PyDict.truthy _) as [v |]; [| exact H].
  destruct (H eq_refl) as (value & He & Hv). rewrite Hn in Hv. congruence.
Qed.

Lemma applied_wallet (props : PyDict.t) (h h' : Host) :
  apply_db_env props h = (Ok tt, h') ->
  match PyDict.truthy (PyDict.get props "WALLET_PATH") with
  | Some v => exists path, resolve v = Ok path
                           /\ environ h' "TNS_ADMIN" = Some path
  | None => environ h' "TNS_ADMIN" = environ h "TNS_ADMIN"
  end.
Proof.
  intros Hrun.
  destruct (apply_db_env_variables props h h' (Ok tt) "TNS_ADMIN" Hrun)
    as (_ & _ & H).
  change (db_property "TNS_ADMIN") with (Some "WALLET_PATH"%string) in H.
  cbv iota in H.
  destruct (PyDict.truthy _) as [v |]; [| exact H].
  destruct (H eq_refl) as (value & He & Hv).
  change (String.eqb "TNS_ADMIN" "TNS_ADMIN") with true in Hv.
  exists value. auto.
Qed.

(** What [db_settings] reads and leaves. *)
Lemma db_settings_run (PROPS : PyDict.t) (h h' : Host) (s : Settings) :
  db_settings PROPS h = (Ok s, h') ->
  WALLET_PATH s = env_or_property h PROPS "TNS_ADMIN" "WALLET_PATH"
                                  "Wallet_ItsmyATPVectorDBs"
  /\ DB_ALIAS s = env_or_property h PROPS "DB_ALIAS" "DB_ALIAS"
                                  "itsmyatpvectordb_high"
  /\ USERNAME s = env_or_property h PROPS "DB_USERNAME" "USERNAME" "ADMIN"
  /\ PASSWORD s = env_or_property h PROPS "DB_PASSWORD" "PASSWORD" ""
  /\ (WALLET_PATH s <> ""%string -> environ h' "TNS_ADMIN" = Some (WALLET_PATH s)).
Proof.
  unfold db_settings, bind, get, ret.
  cbn [WALLET_PATH DB_ALIAS USERNAME PASSWORD].
  destruct (String.eqb _ "") eqn:E.
  - intros [= <- <-]. cbn [WALLET_PATH DB_ALIAS USERNAME PASSWORD].
    repeat split; try reflexivity.
    intros Hne. apply String.eqb_eq in E. contradiction.
  - destruct (setenv _ _ h) as [[[] | e] h1] eqn:Es; [| discriminate].
    intros [= <- <-]. cbn [WALLET_PATH DB_ALIAS USERNAME PASSWORD].
    repeat split; try reflexivity.
    intros _. apply setenv_feeds_ok in Es. exact Es.
Qed.

(** [env_or_property] when the variable holds what the file gave it, or
    what it held before. *)
Lemma env_or_property_applied (PROPS : PyDict.t) (h0 h : Host)
    (name key default : string) :
  environ h name
  = match PyDict.truthy (PyDict.get PROPS key) with
    | Some v => Some v
    | None => environ h0 name
    end ->
  env_or_property h PROPS name key default
  = file_then_environment PROPS (environ h0 name) key default.
Proof.
  intros He. unfold env_or_property, file_then_environment. rewrite He.
  destruct (PyDict.truthy (PyDict.get PROPS key)) as [v |] eqn:Et;
    [| reflexivity].
  rewrite (truthy_idem _ _ Et). reflexivity.
Qed.

End OnMachine.

Section OnServices.
Context `{M : Machine} `{Sv : Services}.

(** What [__init__] leaves in the environment for the database: the file
    it has read feeds the three plain variables, and TNS_ADMIN holds the
    wallet path of the connection. *)
Lemma constructor_environment (a : InitArgs) (h h' : Host)
    (self : SearchSimilarProduct) :
  __init__ a h = (Ok self, h') ->
  exists PROPS h1 wallet_path,
    load_properties (Some config_properties)
                    {| files := files h; environ := environ h;
                       journal := journal h ++ [LogInfo Initializing];
                       world := world h |}
    = (Ok PROPS, h1)
    /\ match a_wallet_path a with
       | Some p => wallet_path = p
       | None => resolve (PyDict.get_or PROPS "WALLET_PATH"
                                        "Wallet_ItsmyATPVectorDBs")
                 = Ok wallet_path
       end
    /\ environ h' "TNS_ADMIN" = Some wallet_path
    /\ forall name key,
         db_property name = Some key -> String.eqb name "TNS_ADMIN" = false ->
         name <> "OCI_CONFIG_FILE"%string -> name <> "OCI_CLI_PROFILE"%string ->
         environ h' name
         = match PyDict.truthy (PyDict.get PROPS key) with
           | Some v => Some v
           | None => environ h name
           end.
Proof.
  unfold __init__. intros H.
  apply bind_inv in H. destruct H as [(e & _ & [=]) | ([] & ha & H1 & H)].
  apply bind_inv in H. destruct H as [(e & _ & [=]) | (PROPS & hb & H2 & H)].
  apply bind_inv in H. destruct H as [(e & _ & [=]) | ([] & hc & H3 & H)].
  apply bind_inv in H. destruct H as [(e & _ & [=]) | ([] & hd & H4 & H)].
  apply bind_inv in H. destruct H as [(e & _ & [=]) | (wallet_path & he & H5 & H)].
  apply bind_inv in H. destruct H as [(e & _ & [=]) | ([] & hf & H6 & H)].
  apply bind_inv in H. destruct H as [(e & _ & [=]) | (c & hg & H7 & H)].
  apply bind_inv in H. destruct H as [(e & _ & [=]) | (emb & hi & H8 & H)].
  apply bind_inv in H. destruct H as [(e & _ & [=]) | ([] & hj & H9 & H)].
  apply bind_inv in H. destruct H as [(e & _ & [=]) | ([] & hk & H10 & H)].
  apply bind_inv in H. destruct H as [(e & _ & [=]) | (vp & hl & H11 & H)].
  unfold ret in H. injection H as <- <-.
  rewrite note_run in H1. injection H1 as <-.
  exists PROPS, hb, wallet_path. split; [exact H2 |].
  assert (Hlate : forall name, environ hl name = environ hf name).
  { intros name.
    apply (kv_use name _ (try_except _ _)) in H7; [| kv].
    apply (kv_use name _ (try_except _ _)) in H8;
      [| destruct (embedding_settings a PROPS) as [[? ?] ?]; kv].
    apply (kv_note name) in H9. apply (kv_note name) in H10.
    apply (kv_in_world name) in H11. congruence. }
  assert (Hwallet : he = hd
                    /\ match a_wallet_path a with
                       | Some p => wallet_path = p
                       | None => resolve (PyDict.get_or PROPS "WALLET_PATH"
                                            "Wallet_ItsmyATPVectorDBs")
                                 = Ok wallet_path
                       end).
  { destruct (a_wallet_path a) as [p |].
    - unfold ret in H5. injection H5 as <- <-. auto.
    - unfold lift in H5.
      destruct (resolve _) as [p | e]; [| discriminate].
      injection H5 as <- <-. auto. }
  destruct Hwallet as [-> Hw].
  split; [exact Hw |]. split.
  { rewrite Hlate. apply setenv_feeds_ok in H6. exact H6. }
  intros name key Hk Hn Ho1 Ho2. rewrite Hlate.
  assert (Hne : name <> "TNS_ADMIN"%string) by (apply String.eqb_neq, Hn).
  apply (kv_use name _ _ _ _ _ (kv_setenv_other name _ _ Hne)) in H6.
  rewrite H6, (applied_plain _ _ _ _ _ H4 Hk Hn).
  apply (kv_use name _ _ _ _ _ (kv_ensure name PROPS Ho1 Ho2)) in H3.
  apply load_frame in H2. destruct H2 as [_ H2].
  rewrite H3, H2. reflexivity.
Qed.

End OnServices.
End SettingsFacts.

Section SettingsTheorems.
Context `{M : Machine} `{Sv : Services} `{L : Libs}.
Import PyText ConfigLoader ConfigReadings HostFacts CtorFacts SettingsFacts.

(** X23.  In the settings that the script keeps after it has read and
    applied the file, a value of the file that is not empty wins over the
    environment, and the environment over the default: USERNAME, PASSWORD
    and DB_ALIAS are the value of the file, else the one that DB_USERNAME,
    DB_PASSWORD or DB_ALIAS held, else what [PROPS.get] gives.  The wallet
    is the resolved path of the WALLET_PATH of the file, else what
    TNS_ADMIN held, else the unresolved default; when it is not empty,
    TNS_ADMIN holds it afterwards. *)
Theorem script_settings_prefer_the_file (h h' : Host) (PROPS : PyDict.t)
    (s : Settings) :
  Writer.settings h = (Ok (PROPS, s), h') ->
  USERNAME s
  = file_then_environment PROPS (environ h "DB_USERNAME") "USERNAME" "ADMIN"
  /\ PASSWORD s
     = file_then_environment PROPS (environ h "DB_PASSWORD") "PASSWORD" ""
  /\ DB_ALIAS s
     = file_then_environment PROPS (environ h "DB_ALIAS") "DB_ALIAS"
                             "itsmyatpvectordb_high"
  /\ match PyDict.truthy (PyDict.get PROPS "WALLET_PATH") with
     | Some v =>
         exists path, resolve v = Ok path
                      /\ (path <> ""%string -> WALLET_PATH s = path)
     | None =>
         WALLET_PATH s = env_or_property h PROPS "TNS_ADMIN" "WALLET_PATH"
                                         "Wallet_ItsmyATPVectorDBs"
     end
  /\ (WALLET_PATH s <> ""%string ->
      environ h' "TNS_ADMIN" = Some (WALLET_PATH s)).
Proof.
  unfold Writer.settings. intros H.
  apply bind_inv in H. destruct H as [(e & _ & [=]) | (P & ha & H1 & H)].
  apply bind_inv in H. destruct H as [(e & _ & [=]) | ([] & hb & H2 & H)].
  apply bind_inv in H. destruct H as [(e & _ & [=]) | (s' & hc & H3 & H)].
  unfold ret in H. injection H as -> -> <-.
  apply load_frame in H1. destruct H1 as [_ Henv].
  destruct (db_settings_run _ _ _ _ H3) as (Hw & Ha & Hu & Hp & Ht).
  assert (Hplain : forall name key default,
             db_property name = Some key ->
             String.eqb name "TNS_ADMIN" = false ->
             env_or_property hb PROPS name key default
             = file_then_environment PROPS (environ h name) key default).
  { intros name key default Hk Hn. apply env_or_property_applied.
    rewrite (applied_plain _ _ _ _ _ H2 Hk Hn), Henv. reflexivity. }
  split; [rewrite Hu; apply Hplain; reflexivity |].
  split; [rewrite Hp; apply Hplain; reflexivity |].
  split; [rewrite Ha; apply Hplain; reflexivity |].
  split; [| exact Ht].
  pose proof (applied_wallet _ _ _ H2) as Hwal.
  destruct (PyDict.truthy (PyDict.get PROPS "WALLET_PATH")) as [v |].
  - destruct Hwal as (path & Hr & He). exists path. split; [exact Hr |].
    intros Hne. rewrite Hw. unfold env_or_property.
    rewrite He, (truthy_nonempty _ Hne). reflexivity.
  - rewrite Hw. unfold env_or_property. rewrite Hwal, Henv. reflexivity.
Qed.

(** X24.  The server connects as the constructor of the search did: when
    the module has started, its WALLET_PATH is the resolved path of the
    WALLET_PATH of the file, or of the default directory, and TNS_ADMIN
    holds it; USERNAME, PASSWORD and DB_ALIAS are the value of the file
    when it is not empty, else the one of the environment in which the
    server started, else what [PROPS.get] gives. *)
Theorem server_settings_follow_the_file (h0 h1 : Host) (PROPS : PyDict.t)
    (sercher : SearchSimilarProduct) (s : Settings) :
  Server.boot h0 = (Ok (PROPS, sercher, s), h1) ->
  (exists path,
     resolve (PyDict.get_or PROPS "WALLET_PATH" "Wallet_ItsmyATPVectorDBs")
     = Ok path
     /\ (path <> ""%string ->
         WALLET_PATH s = path /\ environ h1 "TNS_ADMIN" = Some path))
  /\ USERNAME s
     = file_then_environment PROPS (environ h0 "DB_USERNAME") "USERNAME" "ADMIN"
  /\ PASSWORD s
     = file_then_environment PROPS (environ h0 "DB_PASSWORD") "PASSWORD" ""
  /\ DB_ALIAS s
     = file_then_environment PROPS (environ h0 "DB_ALIAS") "DB_ALIAS"
                             "itsmyatpvectordb_high".
Proof.
  unfold Server.boot, Server.start. intros H.
  apply bind_inv in H. destruct H as [(e & _ & [=]) | ([P so] & hs & Hst & H)].
  apply bind_inv in H. destruct H as [(e & _ & [=]) | (s' & ht & H6 & H)].
  unfold ret in H. cbn [fst snd] in *. injection H as -> -> -> <-.
  apply bind_inv in Hst.
  destruct Hst as [(e & _ & [=]) | ([] & ha & H1 & Hst)].
  apply bind_inv in Hst.
  destruct Hst as [(e & _ & [=]) | (P & hb & H2 & Hst)].
  apply bind_inv in Hst.
  destruct Hst as [(e & _ & [=]) | ([] & hc & H3 & Hst)].
  apply bind_inv in Hst.
  destruct Hst as [(e & _ & [=]) | (so & hd & H4 & Hst)].
  apply bind_inv in Hst.
  destruct Hst as [(e & _ & [=]) | ([] & he & H5 & Hst)].
  unfold ret in Hst. injection Hst as -> -> <-.
  rewrite note_run in H1. injection H1 as <-.
  rewrite note_run in H5. injection H5 as <-.
  destruct (constructor_environment _ _ _ _ H4)
    as (P' & hb' & wallet_path & Hload & Hw & Htns & Hplain).
  cbn [a_wallet_path default_args] in Hw.
  pose proof (load_frame _ _ _ _ H2) as [Hfb Heb].
  destruct (apply_db_env_variables PROPS hb hc (Ok tt) "TNS_ADMIN" H3)
    as (Hfc & _ & _).
  assert (HP : P' = PROPS).
  { eapply load_agree; [| exact Hload | exact H2].
    cbn [files]. rewrite Hfc, Hfb. reflexivity. }
  subst P'.
  destruct (db_settings_run _ _ _ _ H6) as (Hws & Has & Hus & Hps & Hts).
  cbn [environ] in *.
  assert (Hset : forall name key default,
             db_property name = Some key ->
             String.eqb name "TNS_ADMIN" = false ->
             name <> "OCI_CONFIG_FILE"%string ->
             name <> "OCI_CLI_PROFILE"%string ->
             env_or_property
               {| files := files hd; environ := environ hd;
                  journal := journal hd ++ [LogInfo SearcherInitialized];
                  world := world hd |} PROPS name key default
             = file_then_environment PROPS (environ h0 name) key default).
  { intros name key default Hk Hn Ho1 Ho2. apply env_or_property_applied.
    cbn [environ]. rewrite (Hplain name key Hk Hn Ho1 Ho2).
    rewrite (applied_plain _ _ _ _ _ H3 Hk Hn), Heb. cbn [environ].
    destruct (PyDict.truthy (PyDict.get PROPS key)); reflexivity. }
  split.
  - exists wallet_path. split; [exact Hw |]. intros Hne.
    assert (Hpath : WALLET_PATH s = wallet_path).
    { rewrite Hws. unfold env_or_property. cbn [environ].
      rewrite Htns, (truthy_nonempty _ Hne). reflexivity. }
    split; [exact Hpath |]. rewrite <- Hpath. apply Hts.
    rewrite Hpath. exact Hne.
  - split; [rewrite Hus; apply Hset; [reflexivity | reflexivity | |]; discriminate |].
    split; [rewrite Hps; apply Hset; [reflexivity | reflexivity | |]; discriminate |].
    rewrite Has; apply Hset; [reflexivity | reflexivity | |]; discriminate.
Qed.

End SettingsTheorems.

Import SearchFacts LoadFacts.

Module FailureFacts.
Import PyText ConfigLoader ConfigReadings HostFacts CtorFacts.

(** A step that leaves [World], followed by a rest that raises wherever it
    starts and leaves [World] too. *)
Lemma bind_raises (A B : Type) (m : Py Host A) (k : A -> Py Host B) (h : Host) :
  keeps_world m ->
  (forall a h1, exists e h', k a h1 = (Raise e, h') /\ world h' = world h1) ->
  exists e h', bind m k h = (Raise e, h') /\ world h' = world h.
Proof.
  intros Hm Hk. unfold bind. destruct (m h) as [[a | e] h1] eqn:E.
  - destruct (Hk a h1) as (e & h' & -> & Hw). exists e, h'.
    split; [reflexivity |]. rewrite Hw. eapply Hm, E.
  - exists e, h1. split; [reflexivity |]. eapply Hm, E.
Qed.

Section OnServices.
Context `{M : Machine} `{Sv : Services}.

Lemma kw_wallet (a : InitArgs) (PROPS : PyDict.t) :
  keeps_world
    (match a_wallet_path a with
     | Some p => ret p
     | None => lift (resolve (PyDict.get_or PROPS "WALLET_PATH"
                                            "Wallet_ItsmyATPVectorDBs"))
     end).
Proof. destruct (a_wallet_path a); kw. Qed.

End OnServices.
End FailureFacts.

Section FailureTheorems.
Context `{M : Machine} `{Sv : Services}.
Import PyText ConfigLoader ConfigReadings HostFacts CtorFacts FailureFacts.

(** X25.  When the database cannot be reached, or the embeddings client
    cannot be built, the constructor gives no object: it raises, and it has
    not loaded anything, the records of [World] being as they were. *)
Theorem unreachable_service_aborts_construction (a : InitArgs) (h : Host) :
  (forall args h0, exists e, connect args h0 = Raise e)
  \/ (forall args h0, exists e, OCIGenAIEmbeddings args h0 = Raise e) ->
  exists e h', __init__ a h = (Raise e, h') /\ world h' = world h.
Proof.
  intros Hdown. unfold __init__.
  apply bind_raises; [apply kw_note | intros [] h1].
  apply bind_raises; [apply kw_load | intros PROPS h2].
  apply bind_raises; [apply kw_ensure | intros [] h3].
  apply bind_raises; [apply kw_apply | intros [] h4].
  apply bind_raises; [apply kw_wallet | intros wallet_path h5].
  apply bind_raises; [apply kw_setenv | intros [] h6].
  destruct Hdown as [Hconn | Hemb].
  - unfold bind at 1, try_except at 1.
    unfold bind at 1, get at 1, bind at 1, lift at 1.
    destruct (Hconn {| c_user := match a_username a with
                                 | Some x => x
                                 | None => PyDict.get_or PROPS "USERNAME" "ADMIN"
                                 end;
                       c_password := match a_password a with
                                     | Some x => x
                                     | None => PyDict.get_or PROPS "PASSWORD" ""
                                     end;
                       c_dsn := match a_db_alias a with
                                | Some x => x
                                | None => PyDict.get_or PROPS "DB_ALIAS"
                                                        "itsmyatpvectordb_high"
                                end;
                       c_config_dir := wallet_path;
                       c_wallet_location := wallet_path;
                       c_wallet_password := match a_password a with
                                            | Some x => x
                                            | None => PyDict.get_or PROPS "PASSWORD" ""
                                            end |} h6) as [e He].
    rewrite He. eexists _, _. split; reflexivity.
  - apply bind_raises; [kw | intros c h7].
    unfold bind at 1, try_except at 1.
    destruct (embedding_settings a PROPS) as [[model_id service_endpoint] compartment_id].
    unfold bind at 1, get at 1, bind at 1, lift at 1.
    destruct (Hemb {| e_model_id := model_id;
                      e_service_endpoint := service_endpoint;
                      e_compartment_id := compartment_id;
                      e_auth_profile := a_auth_profile a |} h7) as [e He].
    rewrite He. eexists _, _. split; reflexivity.
Qed.

End FailureTheorems.

Module ChatFacts.
Import PyText Gradio ChatReadings.

Lemma ltb_false (x y : Q) : PyFloat.ltb x y = false <-> (y <= x)%Q.
Proof.
  unfold PyFloat.ltb. rewrite negb_false_iff. apply Qle_bool_iff.
Qed.

Lemma answers_tail (agent : Agent) (g : nat) (e : option string)
    (events : list (option string)) :
  answers agent g (e :: events) ->
  queue_at agent g = e /\ answers agent (S g) events.
Proof.
  intros H. split.
  - rewrite <- (Nat.add_0_r g). apply H. reflexivity.
  - intros i x Hi. replace (S g + i)%nat with (g + S i)%nat by lia.
    apply H. exact Hi.
Qed.

Lemma fold_step_app (st : Loop) (l1 l2 : list string) :
  fold_left step (l1 ++ l2) st = fold_left step l2 (fold_left step l1 st).
Proof. apply fold_left_app. Qed.

Lemma quiet_app (st : Loop) (l1 l2 : list string) :
  quiet st (l1 ++ l2) <-> quiet st l1 /\ quiet (fold_left step l1 st) l2.
Proof.
  revert st. induction l1 as [| x r IH]; intros st; cbn [app quiet fold_left].
  - tauto.
  - rewrite IH. tauto.
Qed.

Lemma heard_app (l1 l2 : list (option string)) :
  heard (l1 ++ l2) = heard l1 ++ heard l2.
Proof. unfold heard. apply flat_map_app. Qed.

Section OnAgent.
Variable agent : Agent.

(** The loop over answers that do not end it. *)
Lemma wait_events (events : list (option string)) (fuel : nat) (start : Q)
    (t g : nat) (st : Loop) :
  answers agent g events ->
  (forall i, (i < List.length events)%nat ->
     (time_at agent (t + i) - start < 120)%Q) ->
  quiet st (heard events) ->
  wait agent (List.length events + fuel) start t g st
  = wait agent fuel start (t + List.length events) (g + List.length events)
         (fold_left step (heard events) st).
Proof.
  revert t g st. induction events as [| e events IH]; intros t g st Ha Ht Hq.
  - cbn [List.length plus heard flat_map fold_left]. rewrite !Nat.add_0_r.
    reflexivity.
  - apply answers_tail in Ha. destruct Ha as [He Ha].
    assert (Ht0 : PyFloat.ltb (time_at agent t - start) 120 = true).
    { apply PyFloatFacts.ltb_lt. specialize (Ht 0%nat).
      rewrite Nat.add_0_r in Ht. apply Ht. cbn. lia. }
    assert (Ht' : forall i, (i < List.length events)%nat ->
                    (time_at agent (S t + i) - start < 120)%Q).
    { intros i Hi. replace (S t + i)%nat with (t + S i)%nat by lia.
      apply Ht. cbn. lia. }
    cbn [List.length plus wait]. rewrite Ht0, He.
    replace (t + S (List.length events))%nat
      with (S t + List.length events)%nat by lia.
    replace (g + S (List.length events))%nat
      with (S g + List.length events)%nat by lia.
    destruct e as [line |].
    + change (heard (Some line :: events))
        with ((if has "READY" line then [] else [line]) ++ heard events) in *.
      destruct (has "READY" line) eqn:Er.
      * cbn [app] in Hq |- *. apply IH; assumption.
      * cbn [app quiet fold_left] in Hq |- *. destruct Hq as [Hp Hq].
        rewrite <- (IH (S t) (S g) (step st line) Ha Ht' Hq).
        unfold step, passes in *.
        destruct (String.eqb (PyStr.strip line) "ASSIST_BEGIN") eqn:Eb;
          [reflexivity |].
        apply String.eqb_neq in Eb.
        destruct Hp as [Hp | Hp]; [contradiction |].
        destruct (collecting_block st).
        -- apply String.eqb_neq in Hp. rewrite Hp. reflexivity.
        -- rewrite Hp. reflexivity.
    + change (heard (None :: events)) with (heard events) in *.
      apply IH; assumption.
Qed.

(** More fuel changes nothing once the loops have ended. *)
Lemma grace_more (fuel : nat) (grace_start : Q) (t g : nat)
    (extra : list string) (r : list string * nat) (k : nat) :
  grace agent fuel grace_start t g extra = Some r ->
  grace agent (fuel + k) grace_start t g extra = Some r.
Proof.
  revert t g extra. induction fuel as [| fuel IH]; intros t g extra;
    [discriminate |].
  cbn [plus grace]. destruct (PyFloat.ltb _ _); [| auto].
  destruct (queue_at agent g); [apply IH | auto].
Qed.

Lemma wait_more (fuel : nat) (start : Q) (t g : nat) (st : Loop)
    (r : option string * list string * nat) (k : nat) :
  wait agent fuel start t g st = Some r ->
  wait agent (fuel + k) start t g st = Some r.
Proof.
  revert t g st. induction fuel as [| fuel IH]; intros t g st;
    [discriminate |].
  cbn [plus wait]. destruct (PyFloat.ltb _ _); [| auto].
  destruct (queue_at agent g) as [line |]; [| apply IH].
  destruct (has "READY" line); [apply IH |].
  destruct (String.eqb (PyStr.strip line) "ASSIST_BEGIN"); [apply IH |].
  destruct (collecting_block st).
  - destruct (String.eqb (PyStr.strip line) "ASSIST_END"); [auto | apply IH].
  - destruct (startswith "Assist:" line); [| apply IH].
    destruct (grace agent fuel _ _ _ _) as [[extra g'] |] eqn:Eg;
      [| discriminate].
    rewrite (grace_more _ _ _ _ _ _ k Eg). auto.
Qed.

End OnAgent.

(** The state after lines put aside, a line that begins a block, and the
    lines of the block. *)
Lemma aside_run (pre : list string) (st : Loop) :
  collecting_block st = false -> Forall aside pre ->
  quiet st pre
  /\ fold_left step pre st
     = {| buffer_lines := buffer_lines st ++ pre; collecting_block := false;
          block_lines := block_lines st |}.
Proof.
  revert st. induction pre as [| x r IH]; intros st Hc Hall.
  - cbn. rewrite app_nil_r. destruct st. cbn in Hc. subst. auto.
  - inversion Hall as [| ? ? [Hb Hs] Hr]; subst.
    assert (Est : step st x
                  = {| buffer_lines := buffer_lines st ++ [x];
                       collecting_block := false;
                       block_lines := block_lines st |}).
    { unfold step. apply String.eqb_neq in Hb. rewrite Hb, Hc. reflexivity. }
    cbn [quiet fold_left]. rewrite Est.
    destruct (IH {| buffer_lines := buffer_lines st ++ [x];
                    collecting_block := false;
                    block_lines := block_lines st |} eq_refl Hr) as [Hq Hf].
    cbn [buffer_lines block_lines] in Hf.
    rewrite <- app_assoc in Hf. split; [| exact Hf].
    split; [| exact Hq]. right. rewrite Hc. exact Hs.
Qed.

Lemma inside_run (body : list string) (st : Loop) :
  collecting_block st = true -> Forall inside body ->
  quiet st body
  /\ fold_left step body st
     = {| buffer_lines := buffer_lines st; collecting_block := true;
          block_lines := block_lines st ++ body |}.
Proof.
  revert st. induction body as [| x r IH]; intros st Hc Hall.
  - cbn. rewrite app_nil_r. destruct st. cbn in Hc. subst. auto.
  - inversion Hall as [| ? ? [Hb He] Hr]; subst.
    assert (Est : step st x
                  = {| buffer_lines := buffer_lines st;
                       collecting_block := true;
                       block_lines := block_lines st ++ [x] |}).
    { unfold step. apply String.eqb_neq in Hb. rewrite Hb, Hc. reflexivity. }
    cbn [quiet fold_left]. rewrite Est.
    destruct (IH {| buffer_lines := buffer_lines st;
                    collecting_block := true;
                    block_lines := block_lines st ++ [x] |} eq_refl Hr)
      as [Hq Hf].
    cbn [buffer_lines block_lines] in Hf.
    rewrite <- app_assoc in Hf. split; [| exact Hf].
    split; [| exact Hq]. right. rewrite Hc. exact He.
Qed.

Lemma block_run (pre : list string) (b : string) (body : list string) :
  Forall aside pre -> PyStr.strip b = "ASSIST_BEGIN"%string ->
  Forall inside body ->
  quiet loop0 (pre ++ b :: body)
  /\ fold_left step (pre ++ b :: body) loop0
     = {| buffer_lines := pre; collecting_block := true;
          block_lines := body |}.
Proof.
  intros Hpre Hb Hbody.
  destruct (aside_run pre loop0 eq_refl Hpre) as [Hq1 Hf1].
  cbn [loop0 buffer_lines block_lines app] in Hf1.
  assert (Estep : step {| buffer_lines := pre; collecting_block := false;
                          block_lines := [] |} b
                  = {| buffer_lines := pre; collecting_block := true;
                       block_lines := [] |}).
  { unfold step. rewrite Hb. reflexivity. }
  destruct (inside_run body {| buffer_lines := pre; collecting_block := true;
                                block_lines := [] |} eq_refl Hbody)
    as [Hq2 Hf2].
  cbn [buffer_lines block_lines app] in Hf2.
  rewrite quiet_app, fold_step_app, Hf1. cbn [quiet fold_left].
  rewrite Estep. split.
  - split; [exact Hq1 |]. split; [left; exact Hb | exact Hq2].
  - exact Hf2.
Qed.

End ChatFacts.

Module SendFacts.
Import PyText Gradio ChatReadings ChatFacts.

Lemma strip_empty : PyStr.strip "" = ""%string.
Proof. reflexivity. Qed.

(** What [send_message] does once the message is sent. *)
Lemma delivered_run (agent : Agent) (fuel : nat) (message : string)
    (history : list Message) :
  delivered agent message ->
  send_message agent fuel message history
  = match wait agent fuel (time_at agent 0) 1 0 loop0 with
    | None => None
    | Some (None, buffer, g) =>
        Some {| updated :=
                  (history ++ [user message])
                  ++ [assistant ("(No Assist line)" ++ chr LF
                                 ++ match buffer with
                                    | [] => "No response captured."%string
                                    | _ :: _ =>
                                        PyStr.join (chr LF) (last_n 5 buffer)
                                    end)];
                textbox := ""; sent := Some (message ++ chr LF)%string;
                taken := g |}
    | Some (Some response, _, g) =>
        Some {| updated := (history ++ [user message]) ++ [assistant response];
                textbox := ""; sent := Some (message ++ chr LF)%string;
                taken := g |}
    end.
Proof.
  intros (Hm & Hs & write & Hw & Hok). unfold send_message.
  assert (Hne : String.eqb message "" = false).
  { apply String.eqb_neq. intros ->. apply Hm. reflexivity. }
  apply String.eqb_neq in Hm. rewrite Hne, Hm. cbn [orb].
  rewrite Hs. cbn [String.eqb negb]. rewrite Hw, Hok.
  change (String.eqb "Active" "Active") with true. cbn [negb].
  reflexivity.
Qed.

Lemma exchange (history : list Message) (m1 m2 : Message) :
  (history ++ [m1]) ++ [m2] = history ++ [m1; m2].
Proof. rewrite <- app_assoc. reflexivity. Qed.

(** Lines of a block that has begun and does not end. *)
Lemma open_run (body : list string) (st : Loop) :
  collecting_block st = true ->
  Forall (fun line => PyStr.strip line <> "ASSIST_END"%string) body ->
  quiet st body
  /\ collecting_block (fold_left step body st) = true
  /\ buffer_lines (fold_left step body st) = buffer_lines st.
Proof.
  revert st. induction body as [| x r IH]; intros st Hc Hall.
  - cbn. auto.
  - inversion Hall as [| ? ? He Hr]; subst.
    assert (Hst : collecting_block (step st x) = true
                  /\ buffer_lines (step st x) = buffer_lines st).
    { unfold step. destruct (String.eqb _ _); [auto |]. rewrite Hc. auto. }
    destruct Hst as [Hc' Hb'].
    destruct (IH (step st x) Hc' Hr) as (Hq & Hc2 & Hb2).
    cbn [quiet fold_left]. split; [| split; [exact Hc2 | congruence]].
    split; [| exact Hq]. right. rewrite Hc. exact He.
Qed.

End SendFacts.

Section ChatTheorems.
Import PyText Gradio ChatReadings ChatFacts SendFacts.

(** X26.  Whatever the agent does, a call of [send_message] that returns
    leaves the text box empty and adds to the history at most the message
    of the user followed by one message of the assistant: nothing for a
    blank message, both otherwise.  Nothing is written to the agent for a
    blank message or when the status is not "Active", and no line of its
    output is taken unless the message was written. *)
Theorem chat_grows_by_one_exchange (agent : Agent) (fuel : nat)
    (message : string) (history : list Message) (reply : Reply) :
  send_message agent fuel message history = Some reply ->
  textbox reply = ""%string
  /\ if String.eqb (PyStr.strip message) ""
     then updated reply = history /\ sent reply = None /\ taken reply = 0%nat
     else (exists answer,
             updated reply = history ++ [user message; assistant answer])
          /\ (sent reply = None \/ sent reply = Some (message ++ chr LF)%string)
          /\ (status_at agent 0 <> "Active"%string ->
              sent reply = None /\ taken reply = 0%nat)
          /\ (taken reply <> 0%nat -> delivered agent message).
Proof.
  unfold send_message.
  destruct (String.eqb message "") eqn:Em.
  { apply String.eqb_eq in Em. subst message. cbn [orb].
    intros [= <-]. cbn. auto. }
  destruct (String.eqb (PyStr.strip message) "") eqn:Es; cbn [orb].
  { intros [= <-]. cbn. auto. }
  apply String.eqb_neq in Es.
  destruct (String.eqb (status_at agent 0) "Active") eqn:Ea; cbn [negb].
  2: { intros [= <-]. cbn [textbox updated sent taken].
       split; [reflexivity |]. rewrite exchange.
       split; [eexists; reflexivity |]. split; [left; reflexivity |].
       split; [auto |]. intros H. contradiction. }
  apply String.eqb_eq in Ea.
  destruct (stdin agent) as [write |] eqn:Ew.
  2: { intros [= <-]. cbn [textbox updated sent taken].
       split; [reflexivity |]. rewrite exchange.
       split; [eexists; reflexivity |]. split; [left; reflexivity |].
       split; [intros H; contradiction |]. intros H. contradiction. }
  destruct (write (message ++ chr LF)%string) as [[] | e] eqn:Eo.
  2: { intros [= <-]. cbn [textbox updated sent taken].
       split; [reflexivity |]. rewrite exchange.
       split; [eexists; reflexivity |]. split; [right; reflexivity |].
       split; [intros H; contradiction |]. intros H. contradiction. }
  assert (Hd : delivered agent message).
  { split; [exact Es |]. split; [exact Ea |]. exists write. auto. }
  destruct (wait agent fuel _ _ _ _) as [[[[response |] buffer] g] |];
    [| | discriminate];
    intros [= <-]; cbn [textbox updated sent taken];
    (split; [reflexivity |]); rewrite exchange;
    (split; [eexists; reflexivity |]); (split; [right; reflexivity |]);
    (split; [intros H; contradiction | intros _; exact Hd]).
Qed.

(** X27.  The block protocol: when the message is sent and, within the
    timeout, the queue gives lines that are put aside, then a line that
    strips to "ASSIST_BEGIN", then lines that strip to neither marker, then
    a line that strips to "ASSIST_END", lines with "READY" and empty waits
    standing anywhere in between, the answer of the assistant is the lines
    of the block joined by "\n" and stripped, and the queue is read up to
    the end marker. *)
Theorem block_is_read_between_its_markers (agent : Agent) (fuel : nat)
    (message : string) (history : list Message)
    (events : list (option string)) (e : string)
    (pre : list string) (b : string) (body : list string) :
  delivered agent message ->
  answers agent 0 (events ++ [Some e]) ->
  in_time agent 1 (S (List.length events)) ->
  heard events = pre ++ b :: body ->
  Forall aside pre -> PyStr.strip b = "ASSIST_BEGIN"%string ->
  Forall inside body ->
  has "READY" e = false -> PyStr.strip e = "ASSIST_END"%string ->
  (List.length events < fuel)%nat ->
  send_message agent fuel message history
  = Some {| updated :=
              history
              ++ [user message;
                  assistant (PyStr.strip (PyStr.join (chr LF) body))];
            textbox := ""; sent := Some (message ++ chr LF)%string;
            taken := S (List.length events) |}.
Proof.
  intros Hd Ha Ht Hh Hpre Hb Hbody Hr He Hfuel.
  rewrite (delivered_run agent fuel message history Hd).
  destruct (block_run pre b body Hpre Hb Hbody) as [Hq Hf].
  rewrite <- Hh in Hq, Hf.
  assert (Ha1 : answers agent 0 events).
  { intros i x Hi. apply Ha. rewrite nth_error_app1; [exact Hi |].
    apply nth_error_Some. congruence. }
  assert (Hlast : queue_at agent (List.length events) = Some e).
  { apply (Ha (List.length events)).
    rewrite nth_error_app2, Nat.sub_diag by lia. reflexivity. }
  replace fuel with (List.length events + S (fuel - S (List.length events)))%nat
    by lia.
  rewrite (wait_events agent events _ _ 1 0 loop0 Ha1); [| | exact Hq].
  2: { intros i Hi. apply Ht. lia. }
  rewrite Hf. cbn [wait plus].
  assert (Ht1 : PyFloat.ltb (time_at agent (S (List.length events))
                             - time_at agent 0) 120 = true).
  { apply PyFloatFacts.ltb_lt. apply (Ht (List.length events)). lia. }
  rewrite Ht1, Hlast, Hr, He.
  change (String.eqb "ASSIST_END" "ASSIST_BEGIN") with false.
  change (String.eqb "ASSIST_END" "ASSIST_END") with true.
  cbn [collecting_block block_lines buffer_lines].
  rewrite exchange. reflexivity.
Qed.

(** X28.  When the timeout passes before a response is complete, a block
    that has begun is lost: the assistant answers "(No Assist line)"
    followed by the last five of the lines put aside before the block, or
    by "No response captured." when there is none. *)
Theorem unfinished_block_is_lost (agent : Agent) (fuel : nat)
    (message : string) (history : list Message)
    (events : list (option string)) (pre rest : list string) :
  delivered agent message ->
  answers agent 0 events ->
  in_time agent 1 (List.length events) ->
  (120 <= time_at agent (S (List.length events)) - time_at agent 0)%Q ->
  heard events = pre ++ rest ->
  Forall aside pre ->
  (rest = []
   \/ exists b body,
        rest = b :: body /\ PyStr.strip b = "ASSIST_BEGIN"%string
        /\ Forall (fun line => PyStr.strip line <> "ASSIST_END"%string) body) ->
  (List.length events < fuel)%nat ->
  send_message agent fuel message history
  = Some {| updated :=
              history
              ++ [user message;
                  assistant ("(No Assist line)" ++ chr LF
                             ++ match pre with
                                | [] => "No response captured."%string
                                | _ :: _ => PyStr.join (chr LF) (last_n 5 pre)
                                end)];
            textbox := ""; sent := Some (message ++ chr LF)%string;
            taken := List.length events |}.
Proof.
  intros Hd Ha Ht Hout Hh Hpre Hrest Hfuel.
  rewrite (delivered_run agent fuel message history Hd).
  destruct (aside_run pre loop0 eq_refl Hpre) as [Hq1 Hf1].
  cbn [loop0 buffer_lines block_lines app] in Hf1.
  assert (Hrun : quiet loop0 (heard events)
                 /\ buffer_lines (fold_left step (heard events) loop0) = pre).
  { rewrite Hh, quiet_app, fold_step_app, Hf1.
    destruct Hrest as [-> | (b & body & -> & Hb & Hbody)].
    - cbn. auto.
    - assert (Estep : step {| buffer_lines := pre; collecting_block := false;
                              block_lines := [] |} b
                      = {| buffer_lines := pre; collecting_block := true;
                           block_lines := [] |}).
      { unfold step. rewrite Hb. reflexivity. }
      destruct (open_run body {| buffer_lines := pre; collecting_block := true;
                                 block_lines := [] |} eq_refl Hbody)
        as (Hq2 & _ & Hb2).
      cbn [quiet fold_left]. rewrite Estep. split; [| exact Hb2].
      split; [exact Hq1 |]. split; [left; exact Hb | exact Hq2]. }
  destruct Hrun as [Hq Hbuf].
  replace fuel with (List.length events + S (fuel - S (List.length events)))%nat
    by lia.
  rewrite (wait_events agent events _ _ 1 0 loop0 Ha); [| | exact Hq].
  2: { intros i Hi. apply Ht. exact Hi. }
  cbn [wait plus].
  assert (Ht1 : PyFloat.ltb (time_at agent (S (List.length events))
                             - time_at agent 0) 120 = false).
  { apply ltb_false. exact Hout. }
  rewrite Ht1, Hbuf. rewrite exchange. reflexivity.
Qed.

End ChatTheorems.

Module CodecFacts.
Import PyText Gradio ChatReadings ChatFacts SendFacts.

Lemma readline_split (l rest cur : list ascii) :
  readline_chars cur (l ++ LF :: rest)
  = map (fun p => p ++ [LF]) (split_lf_chars cur l) ++ readline_chars [] rest.
Proof.
  revert cur. induction l as [| c l IH]; intros cur.
  - cbn [app readline_chars split_lf_chars map]. rewrite Ascii.eqb_refl.
    reflexivity.
  - cbn [app readline_chars split_lf_chars].
    destruct (Ascii.eqb c LF) eqn:E.
    + apply Ascii.eqb_eq in E. subst c. cbn [map app rev].
      rewrite (IH []). reflexivity.
    + apply IH.
Qed.

Lemma split_lf_nonempty (cur l : list ascii) : split_lf_chars cur l <> [].
Proof.
  revert cur. induction l as [| c l IH]; intros cur; cbn; [discriminate |].
  destruct (Ascii.eqb c LF); [discriminate | apply IH].
Qed.

Lemma split_lf_no_break (cur l : list ascii) :
  ~ In LF cur -> Forall (fun p => ~ In LF p) (split_lf_chars cur l).
Proof.
  revert cur. induction l as [| c l IH]; intros cur Hc; cbn.
  - constructor; [| constructor]. rewrite <- in_rev. exact Hc.
  - destruct (Ascii.eqb c LF) eqn:E.
    + constructor; [rewrite <- in_rev; exact Hc |]. apply IH. intros [].
    + apply IH. intros [H | H]; [| contradiction].
      subst c. rewrite Ascii.eqb_refl in E. discriminate.
Qed.

Lemma join_cons (sep p q : string) (r : list string) :
  PyStr.join sep (p :: q :: r) = (p ++ sep ++ PyStr.join sep (q :: r))%string.
Proof. reflexivity. Qed.

(** Joining the pieces of [split] gives the text back. *)
Lemma join_split (cur l : list ascii) :
  list_ascii_of_string
    (PyStr.join (chr LF) (map string_of_list_ascii (split_lf_chars cur l)))
  = rev cur ++ l.
Proof.
  revert cur. induction l as [| c l IH]; intros cur.
  - cbn. rewrite list_ascii_of_string_of_list_ascii, app_nil_r. reflexivity.
  - cbn [split_lf_chars]. destruct (Ascii.eqb c LF) eqn:E.
    + apply Ascii.eqb_eq in E. subst c.
      pose proof (IH []) as H. cbn [rev app] in H.
      destruct (split_lf_chars [] l) as [| p r] eqn:Es;
        [exfalso; eapply split_lf_nonempty, Es |].
      cbn [map] in *. rewrite join_cons.
      rewrite !TextFacts.list_of_app, H.
      rewrite list_ascii_of_string_of_list_ascii. reflexivity.
    + rewrite IH. cbn [rev]. rewrite <- app_assoc. reflexivity.
Qed.

Lemma rstrip_line (p : list ascii) :
  ~ In LF p ->
  match rev p with x :: _ => Ascii.eqb CR x | [] => false end = false ->
  rstrip_breaks (p ++ [LF]) = p.
Proof.
  intros Hlf Hcr. unfold rstrip_breaks. rewrite rev_app_distr.
  cbn [rev app lstrip_breaks]. rewrite Ascii.eqb_refl. cbn [orb].
  assert (H : lstrip_breaks (rev p) = rev p).
  { destruct (rev p) as [| x r] eqn:E; [reflexivity |].
    cbn [lstrip_breaks].
    assert (Hx : In x p) by (apply in_rev; rewrite E; left; reflexivity).
    destruct (Ascii.eqb x LF) eqn:E1.
    - apply Ascii.eqb_eq in E1. subst x. contradiction.
    - rewrite Ascii.eqb_sym in Hcr. rewrite Hcr. reflexivity. }
  rewrite H. apply rev_involutive.
Qed.

(** The lines that the reader puts on the queue for a printed block. *)
Lemma reader_of_emitted (response_text : string) :
  Forall (fun line => endswith (chr CR) line = false) (split_lf response_text) ->
  reader_lines (emitted response_text)
  = "ASSIST_BEGIN"%string :: split_lf response_text ++ ["ASSIST_END"%string].
Proof.
  intros Hcr. unfold reader_lines, emitted, split_lf in *.
  rewrite !TextFacts.list_of_app.
  change (list_ascii_of_string (chr LF)) with [LF].
  cbn [app]. rewrite readline_split.
  change (split_lf_chars [] (list_ascii_of_string "ASSIST_BEGIN"))
    with [list_ascii_of_string "ASSIST_BEGIN"].
  rewrite readline_split, readline_split.
  change (split_lf_chars [] (list_ascii_of_string "ASSIST_END"))
    with [list_ascii_of_string "ASSIST_END"].
  cbn [readline_chars map app]. rewrite !map_app, !map_map. cbn [map].
  f_equal. f_equal.
  pose proof (split_lf_no_break [] (list_ascii_of_string response_text)
                (fun H => H)) as Hlf.
  rewrite Forall_map in Hcr.
  induction (split_lf_chars [] (list_ascii_of_string response_text))
    as [| p r IH]; [reflexivity |].
  inversion Hlf; subst. inversion Hcr as [| ? ? Hp Hr]; subst.
  cbn [map]. rewrite IH by assumption. f_equal.
  rewrite rstrip_line; [reflexivity | assumption |].
  rewrite ConfigFacts.endswith_list, list_ascii_of_string_of_list_ascii in Hp.
  exact Hp.
Qed.

Lemma join_split_lf (s : string) : PyStr.join (chr LF) (split_lf s) = s.
Proof.
  apply TextFacts.list_of_inj. unfold split_lf. rewrite join_split.
  reflexivity.
Qed.

End CodecFacts.

Module EndFacts.
Import PyText Gradio ChatReadings ChatFacts SendFacts.

Section OnAgent.
Variable agent : Agent.

(** The grace loop ends when the clock passes its limit. *)
Lemma grace_ends (grace_start : Q) (n : nat) :
  (75 # 100 <= time_at agent n - grace_start)%Q ->
  forall k t g extra, (t + k = n)%nat ->
    exists r, grace agent (S k) grace_start t g extra = Some r.
Proof.
  intros Hn. induction k as [| k IH]; intros t g extra Ht.
  - rewrite Nat.add_0_r in Ht. subst t. cbn [grace].
    apply ltb_false in Hn. rewrite Hn. eexists. reflexivity.
  - cbn [grace]. destruct (PyFloat.ltb _ _); [| eexists; reflexivity].
    destruct (queue_at agent g); [| eexists; reflexivity].
    apply IH. lia.
Qed.

(** The loop of [send_message] ends when the clock goes on. *)
Lemma wait_ends (start : Q) (n : nat) :
  clock_goes_on agent ->
  (120 <= time_at agent n - start)%Q ->
  forall k t g st, (t + k = n)%nat ->
    exists fuel r, wait agent fuel start t g st = Some r.
Proof.
  intros Hclock Hn. induction k as [| k IH]; intros t g st Ht.
  - rewrite Nat.add_0_r in Ht. subst t. exists 1%nat. cbn [wait].
    apply ltb_false in Hn. rewrite Hn. eexists. reflexivity.
  - destruct (PyFloat.ltb (time_at agent t - start) 120) eqn:Et.
    2: { exists 1%nat. cbn [wait]. rewrite Et. eexists. reflexivity. }
    assert (Hnext : forall st', exists fuel r,
               wait agent fuel start (S t) (S g) st' = Some r)
      by (intros st'; apply IH; lia).
    assert (Hstep : forall st',
               (forall fuel r, wait agent fuel start (S t) (S g) st' = Some r ->
                  wait agent (S fuel) start t g st = Some r) ->
               exists fuel r, wait agent fuel start t g st = Some r).
    { intros st' H. destruct (Hnext st') as (fuel & r & Hr).
      exists (S fuel), r. apply H, Hr. }
    destruct (queue_at agent g) as [line |] eqn:Eq.
    2: { apply (Hstep st). intros fuel r Hr. cbn [wait]. rewrite Et, Eq.
         exact Hr. }
    destruct (has "READY" line) eqn:Er.
    { apply (Hstep st). intros fuel r Hr. cbn [wait]. rewrite Et, Eq, Er.
      exact Hr. }
    destruct (String.eqb (PyStr.strip line) "ASSIST_BEGIN") eqn:Eb.
    { eapply Hstep. intros fuel r Hr. cbn [wait]. rewrite Et, Eq, Er, Eb.
      exact Hr. }
    destruct (collecting_block st) eqn:Ec.
    { destruct (String.eqb (PyStr.strip line) "ASSIST_END") eqn:Ee.
      - exists 1%nat. cbn [wait]. rewrite Et, Eq, Er, Eb, Ec, Ee.
        eexists. reflexivity.
      - eapply Hstep. intros fuel r Hr. cbn [wait].
        rewrite Et, Eq, Er, Eb, Ec, Ee. exact Hr. }
    destruct (startswith "Assist:" line) eqn:Es.
    2: { eapply Hstep. intros fuel r Hr. cbn [wait].
         rewrite Et, Eq, Er, Eb, Ec, Es. exact Hr. }
    destruct (Hclock (S t) (75 # 100)) as (m & Hm & Hlate).
    assert (Hm2 : (S (S t) <= m)%nat).
    { destruct (Nat.eq_dec m (S t)) as [-> | Hne]; [| lia].
      exfalso. assert (time_at agent (S t) - time_at agent (S t) == 0)%Q by ring.
      lra. }
    destruct (grace_ends (time_at agent (S t)) m Hlate (m - S (S t))
                (S (S t)) (S g) [] ltac:(lia)) as [[extra g'] Hg].
    exists (S (S (m - S (S t)))). cbn [wait].
    rewrite Et, Eq, Er, Eb, Ec, Es. rewrite Hg. eexists. reflexivity.
Qed.

End OnAgent.
End EndFacts.

Section RoundTripTheorems.
Import PyText Gradio ChatReadings ChatFacts SendFacts CodecFacts EndFacts.

(** The lines that pass the test of line 133 are those of the queue
    without "READY". *)
Lemma heard_of_given (events : list (option string)) :
  heard events = filter without_ready (given events).
Proof.
  induction events as [| [line |] events IH]; cbn [heard given flat_map];
    [reflexivity | | exact IH].
  fold (heard events). fold (given events). cbn [app filter].
  unfold without_ready at 1. rewrite IH.
  destruct (has "READY" line); reflexivity.
Qed.

(** X29.  What [main.py] prints as a block, the web page shows, but for
    the lines with "READY": when the message is sent and, within the
    timeout, the queue gives lines that have "READY" or are put aside and
    then the lines that the reader thread makes of the three prints of a
    response, of which no line ends with "\r" and no line without "READY"
    strips to a marker, the answer of the assistant is the response
    without its lines that have "READY", stripped; it is the response,
    stripped, when no line of it has "READY". *)
Theorem printed_response_is_shown (agent : Agent) (fuel : nat)
    (message : string) (history : list Message)
    (events : list (option string)) (pre : list string)
    (response_text : string) :
  delivered agent message ->
  answers agent 0 events ->
  in_time agent 1 (List.length events) ->
  given events = pre ++ reader_lines (emitted response_text) ->
  (exists before, events = before ++ [Some "ASSIST_END"%string]) ->
  Forall (fun line => has "READY" line = true \/ aside line) pre ->
  Forall (fun line => endswith (chr CR) line = false
                      /\ (has "READY" line = false -> inside line))
         (split_lf response_text) ->
  (List.length events <= fuel)%nat ->
  send_message agent fuel message history
  = Some {| updated :=
              history
              ++ [user message;
                  assistant
                    (PyStr.strip
                       (PyStr.join (chr LF)
                          (filter without_ready (split_lf response_text))))];
            textbox := ""; sent := Some (message ++ chr LF)%string;
            taken := List.length events |}
  /\ (Forall (fun line => has "READY" line = false) (split_lf response_text) ->
      send_message agent fuel message history
      = Some {| updated :=
                  history
                  ++ [user message; assistant (PyStr.strip response_text)];
                textbox := ""; sent := Some (message ++ chr LF)%string;
                taken := List.length events |}).
Proof.
  intros Hd Ha Ht Hg (before & ->) Hpre Hlines Hfuel.
  assert (Hcr : Forall (fun line => endswith (chr CR) line = false)
                       (split_lf response_text))
    by (eapply Forall_impl; [| exact Hlines]; intros l [H _]; exact H).
  set (shown := filter without_ready (split_lf response_text)).
  assert (Hin : Forall inside shown).
  { unfold shown. rewrite Forall_forall in *. intros l Hl.
    apply filter_In in Hl. destruct Hl as [Hl Hk].
    apply (Hlines l Hl). unfold without_ready in Hk.
    destruct (has "READY" l); [discriminate | reflexivity]. }
  assert (Hpre' : Forall aside (filter without_ready pre)).
  { rewrite Forall_forall in *. intros l Hl.
    apply filter_In in Hl. destruct Hl as [Hl Hk].
    destruct (Hpre l Hl) as [Hr | Hs]; [| exact Hs].
    unfold without_ready in Hk. rewrite Hr in Hk. discriminate. }
  assert (Hh : heard (before ++ [Some "ASSIST_END"%string])
               = filter without_ready pre
                 ++ ("ASSIST_BEGIN"%string :: shown) ++ ["ASSIST_END"%string]).
  { rewrite heard_of_given, Hg, (reader_of_emitted _ Hcr).
    rewrite filter_app. cbn [filter].
    change (without_ready "ASSIST_BEGIN") with true. cbv iota.
    rewrite filter_app. cbn [filter].
    change (without_ready "ASSIST_END") with true. cbv iota.
    reflexivity. }
  rewrite heard_app in Hh.
  change (heard [Some "ASSIST_END"%string]) with ["ASSIST_END"%string] in Hh.
  rewrite app_assoc in Hh. apply app_inj_tail in Hh. destruct Hh as [Hh _].
  assert (Hsend :
    send_message agent fuel message history
    = Some {| updated :=
                history
                ++ [user message;
                    assistant (PyStr.strip (PyStr.join (chr LF) shown))];
              textbox := ""; sent := Some (message ++ chr LF)%string;
              taken := List.length (before ++ [Some "ASSIST_END"%string]) |}).
  { rewrite (delivered_run agent fuel message history Hd).
    destruct (block_run (filter without_ready pre) "ASSIST_BEGIN" shown Hpre'
                eq_refl Hin) as [Hq Hf].
    rewrite <- Hh in Hq, Hf.
    rewrite length_app in *. cbn [List.length] in *.
    rewrite Nat.add_1_r in *.
    assert (Ha1 : answers agent 0 before).
    { intros i x Hi. apply Ha. rewrite nth_error_app1; [exact Hi |].
      apply nth_error_Some. congruence. }
    assert (Hlast : queue_at agent (List.length before)
                    = Some "ASSIST_END"%string).
    { apply (Ha (List.length before)).
      rewrite nth_error_app2, Nat.sub_diag by lia. reflexivity. }
    replace fuel with (List.length before + S (fuel - S (List.length before)))%nat
      by lia.
    rewrite (wait_events agent before _ _ 1 0 loop0 Ha1); [| | exact Hq].
    2: { intros i Hi. apply Ht. lia. }
    rewrite Hf. cbn [wait plus].
    assert (Ht1 : PyFloat.ltb (time_at agent (S (List.length before))
                               - time_at agent 0) 120 = true).
    { apply PyFloatFacts.ltb_lt. apply (Ht (List.length before)). lia. }
    rewrite Ht1, Hlast.
    change (has "READY" "ASSIST_END") with false.
    change (String.eqb (PyStr.strip "ASSIST_END") "ASSIST_BEGIN") with false.
    change (String.eqb (PyStr.strip "ASSIST_END") "ASSIST_END") with true.
    cbn [collecting_block block_lines buffer_lines].
    rewrite exchange. reflexivity. }
  split; [exact Hsend |].
  intros Hno. rewrite Hsend. unfold shown.
  rewrite TopFacts.filter_all, join_split_lf; [reflexivity |].
  eapply Forall_impl; [| exact Hno].
  intros l Hl. unfold without_ready. rewrite Hl. reflexivity.
Qed.

(** X30.  [send_message] returns whenever the clock goes on: the loop that
    waits and the loop that gathers the lines after a legacy line both end,
    whatever the queue gives, and more turns change nothing. *)
Theorem chat_always_answers (agent : Agent) (message : string)
    (history : list Message) :
  clock_goes_on agent ->
  exists fuel reply,
    forall more,
      send_message agent (fuel + more) message history = Some reply.
Proof.
  intros Hclock.
  destruct (Hclock 0%nat 120) as (n & _ & Hn).
  assert (Hn1 : (1 <= n)%nat).
  { destruct n; [| lia]. exfalso.
    assert (time_at agent 0 - time_at agent 0 == 0)%Q by ring. lra. }
  destruct (wait_ends agent (time_at agent 0) n Hclock Hn (n - 1) 1 0 loop0
              ltac:(lia)) as (fuel & r & Hr).
  assert (Hmore : forall more,
             wait agent (fuel + more) (time_at agent 0) 1 0 loop0 = Some r)
    by (intros more; apply wait_more, Hr).
  unfold send_message.
  destruct (String.eqb message "" || String.eqb (PyStr.strip message) "");
    [exists fuel; eexists; intros; reflexivity |].
  destruct (negb (String.eqb (status_at agent 0) "Active"));
    [exists fuel; eexists; intros; reflexivity |].
  destruct (stdin agent) as [write |];
    [| exists fuel; eexists; intros; reflexivity].
  destruct (write (message ++ chr LF)%string) as [[] | e];
    [| exists fuel; eexists; intros; reflexivity].
  exists fuel. destruct r as [[[response |] buffer] g];
    eexists; intros more; rewrite Hmore; reflexivity.
Qed.

End RoundTripTheorems.

Import SearchFacts LoadFacts.

(* ================================================================== *)
(** * The properties on the small catalogue and the small installation *)

Module OnInstallation.
Import Examples Setting.

(** The file of [host] loads into [PROPS]. *)
Example host_loads :
  @ConfigLoader.load_properties machine (Some "/app/config.properties"%string) host
  = (Ok PROPS, host).
Proof. reflexivity. Qed.

(** On [host], the constructor builds [shop]. *)
Example host_constructs :
  fst (@__init__ machine services default_args host) = Ok (shop 5 [0; 0]%Q).
Proof. vm_compute. reflexivity. Qed.

(** On [host], the server starts with [shop] and [kept]. *)
Example host_boots :
  fst (@Server.boot machine services host)
  = Ok (PROPS, shop 5 [0; 0]%Q, kept).
Proof. vm_compute. reflexivity. Qed.

Example host_starts :
  fst (@Server.start machine services host) = Ok (PROPS, shop 5 [0; 0]%Q).
Proof. vm_compute. reflexivity. Qed.

Example host_script_settings :
  fst (@Writer.settings machine host) = Ok (PROPS, kept).
Proof. vm_compute. reflexivity. Qed.

(** A run that returned [a] is the pair of [a] and of the state it left. *)
Lemma run_of_fst {S A : Type} (m : Py S A) (s : S) (a : A) :
  fst (m s) = Ok a -> m s = (Ok a, snd (m s)).
Proof. intros H. rewrite <- H. apply surjective_pairing. Qed.

(** A queue that gives the lines of a list answers with them. *)
Lemma scripted_answers (tick : Q) (lines : list (option string)) :
  ChatReadings.answers (agent tick lines) 0 lines.
Proof.
  intros i e Hi. cbn. apply nth_error_nth. exact Hi.
Qed.

(** A clock that ticks goes on. *)
Lemma ticking_goes_on (lines : list (option string)) :
  ChatReadings.clock_goes_on (agent 1 lines).
Proof.
  intros t d. exists (t + Z.to_nat (Z.max 0 (Qceiling d)))%nat.
  split; [lia |].
  cbn [Gradio.time_at agent]. rewrite !Qmult_1_r.
  rewrite Nat2Z.inj_add, inject_Z_plus.
  rewrite Z2Nat.id by apply Z.le_max_l.
  pose proof (Qle_ceiling d) as Hc.
  assert (Hm : (inject_Z (Qceiling d) <= inject_Z (Z.max 0 (Qceiling d)))%Q)
    by (rewrite <- Zle_Qle; apply Z.le_max_r).
  lra.
Qed.

End OnInstallation.

(** Witness of X1: the ranking of [shop] for "shirt". *)
Lemma semantic_ranking_is_complete_witness :
  exists idxs,
    Forall2 (semantic_at (Examples.shop 5 [0; 0]%Q) [0; 1 # 4; 5]%Q) idxs
            (semantics (Examples.returned
                          (Examples.run (Examples.shop 5 [0; 0]%Q) "shirt")))
    /\ NoDup idxs.
Proof.
  destruct (@semantic_ranking_is_complete RefLibs.stable
              (Examples.shop 5 [0; 0]%Q) "shirt" [] _ _ [0; 1 # 4; 5]%Q
              RefLibsFacts.stable_argsort_contract
              (OnCatalogue.shop_wf 5 [0; 0]%Q)
              ltac:(vm_compute; discriminate)
              (OnCatalogue.run_returns (Examples.shop 5 [0; 0]%Q) "shirt")
              ltac:(vm_compute; reflexivity))
    as (idxs & H2 & Hnd & _).
  exists idxs. split; assumption.
Defined.

(** Witness of X2: the fallback of [shop] for a query far from every
    vector. *)
Lemma fuzzy_fallback_fills_top_k_witness :
  List.length
    (fallback_fuzzy (Examples.returned
                       (Examples.run (Examples.shop 2 [10; 10]%Q) "shirt")))
  = 2%nat.
Proof.
  assert (Hd : exists dists,
             @distances RefLibs.stable (Examples.shop 2 [10; 10]%Q)
               (consult_used
                  (Examples.returned
                     (Examples.run (Examples.shop 2 [10; 10]%Q) "shirt")))
             = Ok dists)
    by (eexists; vm_compute; reflexivity).
  destruct Hd as [dists Hd].
  rewrite (proj1 (@fuzzy_fallback_fills_top_k RefLibs.stable
                    (Examples.shop 2 [10; 10]%Q) "shirt" [] _ _ dists
                    RefLibsFacts.stable_argsort_contract
                    (OnCatalogue.shop_wf 2 [10; 10]%Q)
                    (OnCatalogue.run_returns (Examples.shop 2 [10; 10]%Q) "shirt")
                    Hd ltac:(vm_compute; reflexivity))).
  reflexivity.
Defined.

(** Witness of X3: the second match of [shop] for "shirt". *)
Lemma similarity_at_least_threshold_witness :
  exists m,
    In m (semantics (Examples.returned
                       (Examples.run (Examples.shop 5 [0; 0]%Q) "shirt")))
    /\ sem_id m = 2%Z /\ (50 <= similarity m)%Q.
Proof.
  assert (Hin : In {| sem_id := 2; sem_code := "EAN2";
                      sem_description := "red large shirt";
                      similarity := 80; distance := 1 # 4 |}
                   (semantics (Examples.returned
                                 (Examples.run (Examples.shop 5 [0; 0]%Q)
                                               "shirt"))))
    by (vm_compute; right; left; reflexivity).
  eexists. split; [exact Hin |]. split; [reflexivity |].
  refine (proj2 (@similarity_at_least_threshold RefLibs.stable
                   (Examples.shop 5 [0; 0]%Q) "shirt" [] _ _ _
                   RefLibsFacts.stable_norm_contract
                   (OnCatalogue.run_returns (Examples.shop 5 [0; 0]%Q) "shirt")
                   Hin) _).
  vm_compute. discriminate.
Defined.

(** Witness of X4: the matches of [shop] for "shirt". *)
Lemma semantics_by_descending_similarity_witness :
  StronglySorted (fun m1 m2 => (similarity m2 <= similarity m1)%Q)
    (semantics (Examples.returned
                  (Examples.run (Examples.shop 5 [0; 0]%Q) "shirt"))).
Proof.
  exact (@semantics_by_descending_similarity RefLibs.stable
           (Examples.shop 5 [0; 0]%Q) "shirt" [] _ _
           RefLibsFacts.stable_argsort_contract
           RefLibsFacts.stable_norm_contract
           (OnCatalogue.run_returns (Examples.shop 5 [0; 0]%Q) "shirt")).
Defined.

(** Witness of X5: the search on the store of a table without rows. *)
Lemma empty_result_is_a_logged_error_witness :
  exists e,
    snd (Examples.run Examples.empty_shop "anything")
    = log (frame0 Examples.empty_shop "anything" [])
      ++ [Error (MsgSearchError e)].
Proof.
  exact (@empty_result_is_a_logged_error RefLibs.stable 5 1
           {| select_embeddings := Ok [] |} (Examples.constant [0; 0]%Q)
           [] [Info (MsgLoaded 0)] Examples.empty_shop "anything" [] _ _
           RefLibsFacts.stable_argsort_contract ltac:(lia) eq_refl
           (OnCatalogue.run_returns Examples.empty_shop "anything")
           ltac:(vm_compute; reflexivity) ltac:(vm_compute; reflexivity)).
Defined.

(** Witness of X6: "DB_ALIAS" stands twice in the file of [host]. *)
Lemma load_properties_last_line_wins_witness :
  exists props,
    @ConfigLoader.load_properties Setting.machine
      (Some "/app/config.properties"%string) Setting.host
    = (Ok props, Setting.host)
    /\ PyDict.get props "DB_ALIAS" = Some "shop_low"%string.
Proof.
  destruct (@load_properties_last_line_wins Setting.machine
              "/app/config.properties" Setting.config_text Setting.host
              "DB_ALIAS" ltac:(discriminate) eq_refl)
    as (props & Hl & Hg).
  exists props. split; [exact Hl |]. rewrite Hg. vm_compute. reflexivity.
Defined.

(** Witness of X7: the password of the file of [host]. *)
Lemma loaded_properties_are_well_formed_witness :
  PyStr.strip "PASSWORD" = "PASSWORD"%string
  /\ ConfigReadings.one_line "se cret ".
Proof.
  destruct (@loaded_properties_are_well_formed Setting.machine
              (Some "/app/config.properties"%string) Setting.host Setting.host
              Setting.PROPS "PASSWORD" "se cret "
              OnInstallation.host_loads
              ltac:(vm_compute; right; left; reflexivity))
    as (_ & Hv & _ & Hs & _).
  split; assumption.
Defined.

(** Witness of X8: a quoted alias after two whole lines. *)
Lemma appended_line_sets_the_key_witness :
  exists props,
    @ConfigLoader.load_properties Setting.machine
      (Some "/app/config.properties"%string)
      (Setting.host_of ("# settings" ++ PyText.chr PyText.LF
                        ++ "DB_ALIAS=old" ++ PyText.chr PyText.LF
                        ++ "DB_ALIAS" ++ "=" ++ "'new alias '"
                        ++ PyText.chr PyText.LF))
    = (Ok props,
       Setting.host_of ("# settings" ++ PyText.chr PyText.LF
                        ++ "DB_ALIAS=old" ++ PyText.chr PyText.LF
                        ++ "DB_ALIAS" ++ "=" ++ "'new alias '"
                        ++ PyText.chr PyText.LF))
    /\ PyDict.get props "DB_ALIAS" = Some "new alias "%string.
Proof.
  refine (@appended_line_sets_the_key Setting.machine
            "/app/config.properties"
            ("# settings" ++ PyText.chr PyText.LF
             ++ "DB_ALIAS=old" ++ PyText.chr PyText.LF)
            "DB_ALIAS" "'new alias '" "new alias "
            (Setting.host_of ("# settings" ++ PyText.chr PyText.LF
                              ++ "DB_ALIAS=old" ++ PyText.chr PyText.LF
                              ++ "DB_ALIAS" ++ "=" ++ "'new alias '"
                              ++ PyText.chr PyText.LF))
            ltac:(discriminate) eq_refl _ eq_refl eq_refl eq_refl _ _ _).
  - right. left. vm_compute. reflexivity.
  - split; vm_compute; reflexivity.
  - split; vm_compute; reflexivity.
  - exact (@ConfigReadings.InQuotes PyText.squote "new alias "%string
             (or_intror eq_refl)).
Defined.

(** Witness of X9: the user name of [PROPS] on [host]. *)
Lemma apply_db_env_sets_four_variables_witness :
  environ (snd (@ConfigLoader.apply_db_env Setting.machine Setting.PROPS
                  Setting.host))
          "DB_USERNAME"
  = Some "ADMIN"%string.
Proof.
  destruct (@apply_db_env_sets_four_variables Setting.machine Setting.PROPS
              Setting.host _ _ "DB_USERNAME"
              (OnInstallation.run_of_fst
                 (@ConfigLoader.apply_db_env Setting.machine Setting.PROPS)
                 Setting.host tt ltac:(vm_compute; reflexivity)))
    as (_ & _ & H).
  destruct (H eq_refl) as (value & He & Hv).
  rewrite He. cbn in Hv. rewrite Hv. reflexivity.
Defined.

(** Witness of X10: a file without credentials. *)
Lemma incomplete_credentials_write_nothing_witness :
  @ConfigLoader.ensure_oci_config Setting.machine [] Setting.host
  = (Ok tt,
     {| files := files Setting.host; environ := environ Setting.host;
        journal := journal Setting.host ++ [LogWarning MissingCredentials];
        world := world Setting.host |}).
Proof.
  exact (@incomplete_credentials_write_nothing Setting.machine [] Setting.host
           (or_introl eq_refl)).
Defined.

(** Witness of X11: the endpoint of [PROPS]. *)
Lemma region_is_read_from_the_endpoint_witness :
  exists h',
    @ConfigLoader.ensure_oci_config Setting.machine Setting.PROPS Setting.host
    = (Ok tt, h')
    /\ environ h' "OCI_CONFIG_FILE" = Some "/app/.oci/config"%string
    /\ journal h'
       = [LogInfo (ConfigWritten "/app/.oci/config" "us-chicago-1")].
Proof.
  destruct (@region_is_read_from_the_endpoint Setting.machine Setting.PROPS
              Setting.host "ocid1.user" "aa:bb" "key.pem" "ocid1.compartment"
              "/app/key.pem" "https://inference." "us-chicago-1" ""
              eq_refl eq_refl eq_refl eq_refl eq_refl
              ltac:(vm_compute; reflexivity) eq_refl eq_refl eq_refl eq_refl
              eq_refl eq_refl)
    as (h' & Hrun & _ & _ & Hc & _ & Hj).
  exists h'. split; [exact Hrun |]. split; [exact Hc | exact Hj].
Defined.

(** Witness of X12: a model id alone. *)
Lemma partial_embedding_settings_are_ignored_witness :
  @__init__ Setting.machine Setting.services Setting.model_only Setting.host
  = @__init__ Setting.machine Setting.services
      (ConfigReadings.without_embedding_settings Setting.model_only)
      Setting.host.
Proof.
  exact (@partial_embedding_settings_are_ignored Setting.machine
           Setting.services Setting.model_only Setting.host
           (or_intror (or_introl eq_refl))).
Defined.

(** Witness of X13: the constructor on [host]. *)
Lemma constructed_store_is_well_formed_witness :
  store_wf (Examples.shop 5 [0; 0]%Q)
  /\ world (snd (@__init__ Setting.machine Setting.services default_args
                   Setting.host))
     = [Info (MsgLoaded 3)].
Proof.
  destruct (@constructed_store_is_well_formed Setting.machine Setting.services
              default_args Setting.host _ (Examples.shop 5 [0; 0]%Q)
              (OnInstallation.run_of_fst
                 (@__init__ Setting.machine Setting.services default_args)
                 Setting.host _ OnInstallation.host_constructs))
    as (Hwf & _ & _ & Hw & _).
  split; [exact Hwf | exact Hw].
Defined.

(** Witness of X14: the tool on the server started on [host]. *)
Lemma tool_returns_close_matches_witness :
  exists r h',
    @Server.search_vectorized_product RefLibs.stable
      (Examples.shop 5 [0; 0]%Q) "shirt" Setting.host
    = (Ok r, h')
    /\ (List.length (semantics r) <= 5)%nat.
Proof.
  destruct (@tool_returns_close_matches Setting.machine Setting.services
              RefLibs.stable Setting.host _ Setting.PROPS
              (Examples.shop 5 [0; 0]%Q) "shirt" Setting.host
              RefLibsFacts.stable_norm_contract
              (OnInstallation.run_of_fst
                 (@Server.start Setting.machine Setting.services)
                 Setting.host _ OnInstallation.host_starts))
    as (r & h' & Hrun & _ & _ & _ & Hlen & _).
  exists r, h'. split; assumption.
Defined.

(** Witness of X15: the vector (0.25, 0). *)
Lemma stored_vector_reads_back_witness :
  Np.frombuffer (Writer.tobytes [1048576000; 0]%N) = Ok [1 # 4; 0]%Q.
Proof.
  exact (proj2 (stored_vector_reads_back [1048576000; 0]%N
                  ltac:(repeat constructor))).
Defined.

(** Witness of X16: the two rows that the script writes for [ids]. *)
Lemma written_rows_load_back_witness :
  exists pairs,
    Permutation (combine Setting.ids Setting.embeddings) pairs
    /\ fst (init 5 1
              {| select_embeddings :=
                   Ok (Writer.merged Setting.ids Setting.embeddings) |}
              (Examples.constant [0; 0]%Q) [])
       = Ok {| conn := {| select_embeddings :=
                            Ok (Writer.merged Setting.ids Setting.embeddings) |};
               top_k := 5; minimal_distance := 1;
               embedding := Examples.constant [0; 0]%Q;
               vectors :=
                 match pairs with
                 | [] => Np.Array1 []
                 | _ :: _ =>
                     Np.Array2 2 (map (fun pv => map Np.f32_value (snd pv)) pairs)
                 end;
               products := map (fun pv => Writer.product_for (fst pv)) pairs |}.
Proof.
  destruct (written_rows_load_back 5 1
              {| select_embeddings :=
                   Ok (Writer.merged Setting.ids Setting.embeddings) |}
              (Examples.constant [0; 0]%Q) [] Setting.ids Setting.embeddings 2
              (Writer.merged Setting.ids Setting.embeddings)
              ltac:(repeat constructor)
              (Permutation_refl _) eq_refl)
    as (pairs & Hp & Hinit).
  exists pairs. split; [exact Hp |]. rewrite Hinit. reflexivity.
Defined.

(** Witness of X17: the store loaded from [database]. *)
Lemma loaded_store_follows_the_rows_witness :
  exists rows,
    select_embeddings Examples.database = Ok rows
    /\ products (Examples.shop 5 [0; 0]%Q) = map product_of rows.
Proof.
  destruct (loaded_store_follows_the_rows 5 1 Examples.database
              (Examples.constant [0; 0]%Q) [] _ (Examples.shop 5 [0; 0]%Q)
              (OnCatalogue.shop_is_loaded 5 [0; 0]%Q))
    as (rows & Hs & Hp & _).
  exists rows. split; assumption.
Defined.

(** Witness of X19: the fallback of [shop] with [top_k = 2]. *)
Lemma fuzzy_ranking_is_complete_witness :
  exists idxs : list nat,
    NoDup idxs
    /\ List.length idxs
       = List.length
           (fallback_fuzzy (Examples.returned
                              (Examples.run (Examples.shop 2 [10; 10]%Q)
                                            "shirt"))).
Proof.
  assert (Hd : exists dists,
             @distances RefLibs.stable (Examples.shop 2 [10; 10]%Q)
               (consult_used
                  (Examples.returned
                     (Examples.run (Examples.shop 2 [10; 10]%Q) "shirt")))
             = Ok dists)
    by (eexists; vm_compute; reflexivity).
  destruct Hd as [dists Hd].
  destruct (@fuzzy_ranking_is_complete RefLibs.stable
              (Examples.shop 2 [10; 10]%Q) "shirt" [] _ _ dists
              RefLibsFacts.stable_argsort_contract
              (OnCatalogue.shop_wf 2 [10; 10]%Q)
              ltac:(vm_compute; discriminate)
              (OnCatalogue.run_returns (Examples.shop 2 [10; 10]%Q) "shirt")
              Hd ltac:(vm_compute; reflexivity))
    as (idxs & H2 & Hnd & _).
  exists idxs. split; [exact Hnd | exact (Forall2_length H2)].
Defined.

(** Witness of X23: the settings of the script on [host]. *)
Lemma script_settings_prefer_the_file_witness :
  USERNAME Setting.kept = "ADMIN"%string
  /\ exists path,
       @resolve Setting.machine "Wallet" = Ok path
       /\ (path <> ""%string -> WALLET_PATH Setting.kept = path).
Proof.
  destruct (@script_settings_prefer_the_file Setting.machine Setting.host _
              Setting.PROPS Setting.kept
              (OnInstallation.run_of_fst (@Writer.settings Setting.machine)
                 Setting.host _ OnInstallation.host_script_settings))
    as (Hu & _ & _ & Hw & _).
  split; [exact Hu | exact Hw].
Defined.

(** Witness of X24: the settings of the server on [host]. *)
Lemma server_settings_follow_the_file_witness :
  (exists path,
     @resolve Setting.machine "Wallet" = Ok path
     /\ (path <> ""%string ->
         WALLET_PATH Setting.kept = path
         /\ environ (snd (@Server.boot Setting.machine Setting.services
                            Setting.host)) "TNS_ADMIN"
            = Some path))
  /\ DB_ALIAS Setting.kept = "shop_low"%string.
Proof.
  destruct (@server_settings_follow_the_file Setting.machine Setting.services
              Setting.host _ Setting.PROPS (Examples.shop 5 [0; 0]%Q)
              Setting.kept
              (OnInstallation.run_of_fst
                 (@Server.boot Setting.machine Setting.services)
                 Setting.host _ OnInstallation.host_boots))
    as (Hw & _ & _ & Ha).
  split; [exact Hw | exact Ha].
Defined.

(** Witness of X25: the constructor on a host without database. *)
Lemma unreachable_service_aborts_construction_witness :
  exists e h',
    @__init__ Setting.machine Setting.offline default_args Setting.host
    = (Raise e, h')
    /\ world h' = [].
Proof.
  exact (@unreachable_service_aborts_construction Setting.machine
           Setting.offline default_args Setting.host
           (or_introl (fun _ _ => ex_intro _ _ eq_refl))).
Defined.

(** Witness of X26: a message to an agent that answers in a block. *)
Lemma chat_grows_by_one_exchange_witness :
  exists answer,
    Gradio.updated
      {| Gradio.updated :=
           [Gradio.user "find it";
            Gradio.assistant (PyStr.strip Setting.response_text)];
         Gradio.textbox := "";
         Gradio.sent := Some ("find it" ++ PyText.chr PyText.LF)%string;
         Gradio.taken := 7 |}
    = [] ++ [Gradio.user "find it"; Gradio.assistant answer].
Proof.
  refine (proj1 (proj2 (@chat_grows_by_one_exchange
                   (Setting.agent 1 (Setting.output ++ [Some "ASSIST_END"%string]))
                   20 "find it" [] _ _))).
  vm_compute. reflexivity.
Defined.

(** Witness of X27: the block of [output]. *)
Lemma block_is_read_between_its_markers_witness :
  Gradio.send_message
    (Setting.agent 1 (Setting.output ++ [Some "ASSIST_END  "%string]))
    20 "find it" []
  = Some {| Gradio.updated :=
              [] ++ [Gradio.user "find it";
                     Gradio.assistant
                       (PyStr.strip
                          (PyStr.join (PyText.chr PyText.LF)
                                      ["Invoice 12"; "EAN 789"]%string))];
            Gradio.textbox := "";
            Gradio.sent := Some ("find it" ++ PyText.chr PyText.LF)%string;
            Gradio.taken := 7 |}.
Proof.
  refine (@block_is_read_between_its_markers
            (Setting.agent 1 (Setting.output ++ [Some "ASSIST_END  "%string]))
            20 "find it" [] Setting.output "ASSIST_END  "
            ["INFO Processing user query"%string] " ASSIST_BEGIN"
            ["Invoice 12"; "EAN 789"]%string
            _ (OnInstallation.scripted_answers 1 _) _ eq_refl _ eq_refl _
            eq_refl eq_refl _).
  - split; [vm_compute; discriminate |]. split; [reflexivity |].
    eexists. split; reflexivity.
  - intros i Hi. cbn [List.length Setting.output] in Hi.
    do 7 (destruct i as [| i]; [vm_compute; reflexivity |]). lia.
  - repeat constructor; vm_compute; discriminate.
  - repeat constructor; vm_compute; discriminate.
  - cbn. lia.
Defined.

(** Witness of X28: an output that stops inside its block. *)
Lemma unfinished_block_is_lost_witness :
  Gradio.send_message
    (Setting.agent 30 ([Some "INFO Processing user query";
                        Some "ASSIST_BEGIN"; Some "Invoice 12"]%string))
    20 "find it" []
  = Some {| Gradio.updated :=
              [] ++ [Gradio.user "find it";
                     Gradio.assistant
                       ("(No Assist line)" ++ PyText.chr PyText.LF
                        ++ PyStr.join (PyText.chr PyText.LF)
                             (Gradio.last_n 5
                                ["INFO Processing user query"%string]))];
            Gradio.textbox := "";
            Gradio.sent := Some ("find it" ++ PyText.chr PyText.LF)%string;
            Gradio.taken := 3 |}.
Proof.
  refine (@unfinished_block_is_lost
            (Setting.agent 30 ([Some "INFO Processing user query";
                                Some "ASSIST_BEGIN"; Some "Invoice 12"]%string))
            20 "find it" []
            ([Some "INFO Processing user query";
              Some "ASSIST_BEGIN"; Some "Invoice 12"]%string)
            ["INFO Processing user query"%string]
            ["ASSIST_BEGIN"; "Invoice 12"]%string
            _ (OnInstallation.scripted_answers 30 _) _ _ eq_refl _ _ _).
  - split; [vm_compute; discriminate |]. split; [reflexivity |].
    eexists. split; reflexivity.
  - intros i Hi. cbn [List.length] in Hi.
    do 3 (destruct i as [| i]; [vm_compute; reflexivity |]). lia.
  - vm_compute. discriminate.
  - repeat constructor; vm_compute; discriminate.
  - right. exists "ASSIST_BEGIN"%string, ["Invoice 12"%string].
    split; [reflexivity |]. split; [reflexivity |].
    repeat constructor; vm_compute; discriminate.
  - cbn. lia.
Defined.

(** Witness of X29: a response of three lines, printed and read; the line
    "ALREADY PAID" has "READY" and is not shown. *)
Lemma printed_response_is_shown_witness :
  Gradio.send_message
    (Setting.agent 1
       (Some "agent READY"%string
        :: Some "INFO Processing user query"%string
        :: map (@Some string)
               (Gradio.reader_lines (Gradio.emitted Setting.long_response))))
    20 "find it" []
  = Some {| Gradio.updated :=
              [] ++ [Gradio.user "find it";
                     Gradio.assistant
                       ("Invoice 12" ++ PyText.chr PyText.LF ++ "EAN 789")];
            Gradio.textbox := "";
            Gradio.sent := Some ("find it" ++ PyText.chr PyText.LF)%string;
            Gradio.taken := 7 |}.
Proof.
  refine (proj1 (@printed_response_is_shown
            (Setting.agent 1
               (Some "agent READY"%string
                :: Some "INFO Processing user query"%string
                :: map (@Some string)
                       (Gradio.reader_lines
                          (Gradio.emitted Setting.long_response))))
            20 "find it" []
            (Some "agent READY"%string
             :: Some "INFO Processing user query"%string
             :: map (@Some string)
                    (Gradio.reader_lines (Gradio.emitted Setting.long_response)))
            ["agent READY"%string; "INFO Processing user query"%string]
            Setting.long_response
            _ (OnInstallation.scripted_answers 1 _) _ eq_refl _ _ _ _)).
  - split; [vm_compute; discriminate |]. split; [reflexivity |].
    eexists. split; reflexivity.
  - intros i Hi. vm_compute in Hi.
    do 7 (destruct i as [| i]; [vm_compute; reflexivity |]).
    exfalso. repeat (apply le_S_n in Hi). inversion Hi.
  - exists ([Some "agent READY"; Some "INFO Processing user query";
             Some "ASSIST_BEGIN"; Some "Invoice 12"; Some "ALREADY PAID";
             Some "EAN 789"]%string).
    vm_compute. reflexivity.
  - constructor; [left; reflexivity |].
    constructor; [right; split; [vm_compute; discriminate | reflexivity] |].
    constructor.
  - vm_compute. repeat constructor; try discriminate;
      intros H; try discriminate H; split; discriminate.
  - vm_compute. repeat constructor.
Defined.

(** Witness of X30: an agent whose clock ticks. *)
Lemma chat_always_answers_witness :
  exists fuel reply,
    forall more,
      Gradio.send_message (Setting.agent 1 Setting.output) (fuel + more)
                          "find it" []
      = Some reply.
Proof.
  exact (@chat_always_answers (Setting.agent 1 Setting.output) "find it" []
           (OnInstallation.ticking_goes_on Setting.output)).
Defined.
